(** * filmklapper: a shallow embedding of [filmklapper.py]

    The crawler reads the listing pages of a cinema chain, looks every
    movie up in a film database and reports the ones rated above 8.
    This file embeds the field extractors, the date normalizer, the rating
    resolver, the translation adapter, the two worker loops with the
    coordinator's shutdown sequence and the showtime parser, which the
    workers do not call, and proves properties of them. The conversion of
    a showtime to UTC is a parameter of the showtime parser, and so are the
    readings of the clock.

    Conventions of the embedding:
    - a Python [str] is the list of its code points ([pystr]);
    - a Python exception is a value of [exn]; code that can raise returns
      [res A], code that also talks to the network returns [io A], which
      adds the list of network calls and of operations on the shared
      queues and result list, in order;
    - everything outside the program (the web, the translation service,
      lxml's parser, [float()], the Unicode tables) is a field of [World];
    - a parsed document is the table of its answers to the XPath queries
      the program asks ([element]). *)

From Stdlib Require Import ZArith NArith List Bool String Ascii Lia Permutation.
From Stdlib Require Import DecimalString DecimalPos.
From Stdlib Require Import Floats.SpecFloat.
From stdpp Require Import gmap strings.
Import ListNotations.

Set Default Proof Using "Type".
Open Scope list_scope.

(** ** Python strings *)

Definition pystr : Type := list N.

(** An ASCII literal as a Python string. *)
Definition py (s : string) : pystr := map N_of_ascii (list_ascii_of_string s).
Arguments py s%_string.

Definition pystr_eqb (a b : pystr) : bool := bool_decide (a = b).

(** [str.isspace] on one code point; this is also the class [\s] of [re]
    on [str] patterns and what [str.split()] and [str.strip()] use. *)
Definition isspace (c : N) : bool :=
  ((9 <=? c) && (c <=? 13) || (28 <=? c) && (c <=? 32) || (c =? 133) || (c =? 160)
   || (c =? 5760) || (8192 <=? c) && (c <=? 8202) || (c =? 8232) || (c =? 8233)
   || (c =? 8239) || (c =? 8287) || (c =? 12288))%N.

Definition NEWLINE : N := 10%N.

(** [s.split()]: the maximal runs of non-whitespace characters. *)
Fixpoint split_ws_aux (s : pystr) (cur : pystr) : list pystr :=
  match s with
  | [] => match cur with [] => [] | _ => [rev cur] end
  | c :: s' =>
      if isspace c
      then match cur with
           | [] => split_ws_aux s' []
           | _ => rev cur :: split_ws_aux s' []
           end
      else split_ws_aux s' (c :: cur)
  end.

Definition py_split_ws (s : pystr) : list pystr := split_ws_aux s [].

(** [sep.join(parts)]. *)
Fixpoint py_join (sep : pystr) (parts : list pystr) : pystr :=
  match parts with
  | [] => []
  | [p] => p
  | p :: rest => p ++ sep ++ py_join sep rest
  end.

Fixpoint starts_with (pre s : pystr) : bool :=
  match pre, s with
  | [], _ => true
  | a :: pre', b :: s' => (a =? b)%N && starts_with pre' s'
  | _ :: _, [] => false
  end.

(** [s.split(sep)] for a non-empty [sep]: left to right, occurrences do not
    overlap. [skip] counts the characters of an occurrence still to drop. *)
Fixpoint split_sep_aux (sep s cur : pystr) (skip : nat) : list pystr :=
  match s with
  | [] => [rev cur]
  | c :: s' =>
      match skip with
      | S n => split_sep_aux sep s' cur n
      | O =>
          if starts_with sep s
          then rev cur :: split_sep_aux sep s' [] (pred (length sep))
          else split_sep_aux sep s' (c :: cur) 0
      end
  end.

Definition py_split (sep s : pystr) : list pystr := split_sep_aux sep s [] 0.

(** [sub in s]. *)
Fixpoint py_contains (sub s : pystr) : bool :=
  starts_with sub s ||
  match s with
  | [] => false
  | _ :: s' => py_contains sub s'
  end.

Fixpoint py_lstrip (s : pystr) : pystr :=
  match s with
  | c :: s' => if isspace c then py_lstrip s' else s
  | [] => []
  end.

(** [s.strip()]. *)
Definition py_strip (s : pystr) : pystr := rev (py_lstrip (rev (py_lstrip s))).

(** [s.replace(old, new)] for one-character [old] and [new]. *)
Definition py_replace_char (old new : N) (s : pystr) : pystr :=
  map (fun c => if (c =? old)%N then new else c) s.

(** [x in l] and [l.index(x)] on a list of strings. *)
Definition py_in (x : pystr) (l : list pystr) : bool := existsb (pystr_eqb x) l.

Fixpoint py_index (x : pystr) (l : list pystr) : option Z :=
  match l with
  | [] => None
  | y :: l' => if pystr_eqb x y then Some 0%Z else option_map Z.succ (py_index x l')
  end.

(** [str(n)] of an integer. *)
Definition py_str_of_Z (n : Z) : pystr := py (NilZero.string_of_int (Z.to_int n)).

(** ** Exceptions and results *)

Inductive exn : Type :=
| AttributeError          (* an attribute of [None] was read *)
| IndexError
| ValueError
| OverflowError
| RuntimeError (msg : string)
| PatheMovieParseError (msg : string)
| IMDBMovieNotFoundError (msg : string)
| urllib_HTTPError        (* urllib.error.HTTPError *)
| urllib_URLError         (* urllib.error.URLError that is not an HTTPError *)
| requests_HTTPError      (* requests.HTTPError, a RequestException *)
| requests_RequestException  (* any other requests.RequestException *)
| OtherException (name : string).

Inductive res (A : Type) : Type :=
| Ok (a : A)
| Raise (e : exn).
Arguments Ok {A} a.
Arguments Raise {A} e.

Definition res_bind {A B} (m : res A) (k : A -> res B) : res B :=
  match m with
  | Ok a => k a
  | Raise e => Raise e
  end.

Declare Scope res_scope.
Delimit Scope res_scope with res.
Bind Scope res_scope with res.
Notation "'let*' x ':=' m 'in' k" := (res_bind m (fun x => k))
  (at level 10, x pattern, m at level 100, k at level 200) : res_scope.

(** [l[i]] on a list: [IndexError] out of range (non-negative [i] only). *)
Definition py_getitem {A} (l : list A) (i : nat) : res A :=
  match nth_error l i with
  | Some a => Ok a
  | None => Raise IndexError
  end.

(** ** Regular expressions

    The patterns of the program use literal characters, character classes,
    greedy repetition of a class, alternation (in [strptime]), capture
    groups that are not nested, and [$]. [re.match] anchors at the start
    of the string, so the leading [^] of the patterns adds nothing. Where a
    pattern is quoted below, a blank is put between a star and a closing
    parenthesis. *)

Inductive regex : Type :=
| REmpty
| RClass (p : N -> bool)                          (* one character of a class *)
| RRep (p : N -> bool) (lo : nat) (hi : option nat) (* greedy p{lo,hi}; [None]: no upper bound *)
| RSeq (r1 r2 : regex)
| RAlt (r1 r2 : regex)                            (* r1|r2, r1 tried first *)
| RGroup (r : regex)                              (* ( r ) *)
| REnd.                                           (* $ *)

Definition RChar (c : N) : regex := RClass (N.eqb c).

(** The sequence of the characters of an ASCII literal. *)
Definition RLit (s : string) : regex :=
  fold_right (fun c r => RSeq (RChar c) r) REmpty (py s).
Arguments RLit s%_string.

(** [.]: any character but a newline. *)
Definition dot (c : N) : bool := negb (c =? NEWLINE)%N.
(** [[a-z]]. *)
Definition lower_az (c : N) : bool := ((97 <=? c) && (c <=? 122))%N.
Definition range (a b : N) (c : N) : bool := ((a <=? c) && (c <=? b))%N.

Definition RStar (p : N -> bool) : regex := RRep p 0 None.
Definition RPlus (p : N -> bool) : regex := RRep p 1 None.
Definition RTimes (p : N -> bool) (n : nat) : regex := RRep p n (Some n).

(** The pieces of a pattern, left to right. *)
Definition rseq (rs : list regex) : regex := fold_right RSeq REmpty rs.
Definition ralt (rs : list regex) : regex :=
  match rs with
  | [] => REmpty
  | r :: rs' => fold_left RAlt rs' r
  end.

Definition may_take (hi : option nat) : bool :=
  match hi with Some O => false | _ => true end.

(** Greedy repetition: take one more character when allowed, and give it
    back when the rest of the pattern then fails. *)
Fixpoint rep_match {X} (p : N -> bool) (lo : nat) (hi : option nat) (s : pystr)
    (k : pystr -> option X) : option X :=
  let stop := match lo with O => k s | S _ => None end in
  match s with
  | c :: s' =>
      if p c && may_take hi
      then match rep_match p (pred lo) (option_map pred hi) s' k with
           | Some x => Some x
           | None => stop
           end
      else stop
  | [] => stop
  end.

(** A backtracking matcher in continuation-passing style: [k] is the rest
    of the pattern; it receives the rest of the string and the groups closed
    so far, in the order of their closing parentheses. *)
Fixpoint rmatch {X} (r : regex) (s : pystr) (caps : list pystr)
    (k : pystr -> list pystr -> option X) : option X :=
  match r with
  | REmpty => k s caps
  | RClass p =>
      match s with
      | c :: s' => if p c then k s' caps else None
      | [] => None
      end
  | RRep p lo hi => rep_match p lo hi s (fun s' => k s' caps)
  | RSeq r1 r2 => rmatch r1 s caps (fun s1 caps1 => rmatch r2 s1 caps1 k)
  | RAlt r1 r2 =>
      match rmatch r1 s caps k with
      | Some x => Some x
      | None => rmatch r2 s caps k
      end
  | RGroup r1 =>
      rmatch r1 s caps
        (fun s1 caps1 => k s1 (caps1 ++ [firstn (length s - length s1) s]))
  | REnd =>
      match s with
      | [] => k s caps
      | [c] => if (c =? NEWLINE)%N then k s caps else None
      | _ => None
      end
  end.

(** [re.match(r, s)]: the groups, and the part of [s] after the match. *)
Definition re_match_rest (r : regex) (s : pystr) : option (list pystr * pystr) :=
  rmatch r s [] (fun rest caps => Some (caps, rest)).

(** [re.match(r, s)] as [.groups()], [None] when there is no match. *)
Definition re_match (r : regex) (s : pystr) : option (list pystr) :=
  option_map fst (re_match_rest r s).

(** ** Documents, the outside world and effects *)

(** The XPath queries of the program. Quotes inside a query are written
    with ' here.
    - [XSpecial]: string(//div[@class='moviedetail-side']/ul/li/span[text() = 'Special:']/..)
    - [XTitleItemprop]: string(//h1[@itemprop='name'])
    - [XTitlePage]: string(//div[@class='page-title ']/div[@class='page-cell']/h1)
    - [XReleaseDate]: string(//span[@class='release-date']/em)
    - [XGenre], [XDuur], [XTaalversie], [XTeZienIn]: as [XSpecial] with the
      label 'Genre:', 'Duur:', 'Taalversie:', 'Te zien in:'
    - [XKijkwijzerSrc]: //div[@class='moviedetail-side']/ul/li/span[text()='Kijkwijzer:']/../a/img/@src
    - [XAggregateRating]: string(//div[@itemprop='aggregateRating']/span/span)
    - [XSliderEntry]: //div[@class='slider-entry']
    - [XSpanText]: span/text() (of a slider entry)
    - [XRegisseurEm]: div[@class='slider-photo']/em[text()='Regisseur'] (of a slider entry)
    - [XFindTitles]: //div[@class='findSection']/h3[@class='findSectionHeader' and text()='Titles']
    - [XFirstResultHref]: string(../table/tr[@class='findResult odd'][1]/td[@class='result_text']/a/@href)
    - [XRatingValue]: //span[@itemprop='ratingValue']/text()
    - [XPosters]: //section[@id='movies-overview']/div[contains(@class, 'poster')]
    - [XButtonText]: div/a[@class='btn btn-type-01 is-small overlay-btn']/span/text() (of a poster)
    - [XOverlayHref]: div/a[@class='overview-overlay']/@href (of a poster) *)
Inductive xpath : Type :=
| XSpecial | XTitleItemprop | XTitlePage | XReleaseDate | XGenre | XDuur
| XTaalversie | XTeZienIn | XKijkwijzerSrc | XAggregateRating | XSliderEntry
| XSpanText | XRegisseurEm | XFindTitles | XFirstResultHref | XRatingValue
| XPosters | XButtonText | XOverlayHref.

(** An lxml element, seen through [.xpath(q)]: a [string(...)] query gives a
    string (empty when nothing is selected), a query that selects text or
    attribute nodes gives their list, one that selects elements gives
    theirs. *)
#[local] Unset Elimination Schemes.
Inductive element : Type :=
| Element (xstring : xpath -> pystr) (xstrings : xpath -> list pystr)
          (xelements : xpath -> list element).
#[local] Set Elimination Schemes.

Definition xpath_string (e : element) (q : xpath) : pystr :=
  match e with Element f _ _ => f q end.
Definition xpath_strings (e : element) (q : xpath) : list pystr :=
  match e with Element _ f _ => f q end.
Definition xpath_elements (e : element) (q : xpath) : list element :=
  match e with Element _ _ f => f q end.

(** A Python value passed as a keyword argument or a query parameter. *)
Inductive pyval : Type :=
| PStr (s : pystr)
| PInt (n : Z).

(** [str(v)], as [format] inserts it. *)
Definition py_str (v : pyval) : pystr :=
  match v with
  | PStr s => s
  | PInt n => py_str_of_Z n
  end.

Record response : Type := { status_code : Z; text : pystr }.

(** IEEE doubles are [spec_float]s. *)
Definition float : Type := spec_float.

(** The world is a snapshot: a call with the same arguments is answered the
    same way each time. *)
Record World : Type := {
  (** the decimal digits beyond ASCII with their values (Unicode category Nd) *)
  unicode_decimal : N -> option Z;
  (** [requests.get(url, params=...)]: the response, or the exception
      raised; the headers of a call are fixed by its call site *)
  requests_get : pystr -> list (pystr * pyval) -> res response;
  (** [lxml.html.fromstring] *)
  lh_fromstring : pystr -> res element;
  (** [goslate.Goslate().translate(text, source_language='nl', target_language='en')] *)
  goslate_translate : pyval -> res pystr;
  (** [float(s)] *)
  py_float : pystr -> res float;
}.

(** What a piece of code does to the outside and to the objects the
    threads share, in order. *)
Inductive event : Type :=
| EvRequest (url : pystr) (params : list (pystr * pyval))
| EvTranslate (txt : pyval)
| EvPrint (fields : list pystr)
| EvPut (url : pystr)           (* movies_queue.put(url) *)
| EvAppend (r : pystr * pystr)  (* result_list.append(r) *)
| EvPagesTaskDone               (* pages_queue.task_done() *)
| EvMoviesTaskDone.             (* movies_queue.task_done() *)

(** Code with effects: its result and the events it caused. *)
Definition io (A : Type) : Type := res A * list event.

Definition io_ret {A} (a : A) : io A := (Ok a, []).
Definition io_raise {A} (e : exn) : io A := (Raise e, []).
Definition io_lift {A} (r : res A) : io A := (r, []).
Definition io_emit (e : event) : io unit := (Ok tt, [e]).

Definition io_bind {A B} (m : io A) (k : A -> io B) : io B :=
  match m with
  | (Ok a, t1) => let '(r, t2) := k a in (r, t1 ++ t2)
  | (Raise e, t1) => (Raise e, t1)
  end.

(** [try: m except <class>: h], the class given by the test [catches]. *)
Definition io_try {A} (m : io A) (catches : exn -> bool) (h : io A) : io A :=
  match m with
  | (Raise e, t1) =>
      if catches e then let '(r, t2) := h in (r, t1 ++ t2) else (Raise e, t1)
  | ok => ok
  end.

Declare Scope io_scope.
Delimit Scope io_scope with io.
Notation "'let*' x ':=' m 'in' k" := (io_bind m (fun x => k))
  (at level 10, x pattern, m at level 100, k at level 200) : io_scope.

(** Decimal digits ([\d] of [re], and what [int()] reads). *)
Definition digit_value (w : World) (c : N) : option Z :=
  if (c <? 128)%N
  then if ((48 <=? c) && (c <=? 57))%N then Some (Z.of_N c - 48)%Z else None
  else unicode_decimal w c.

Definition isdecimal (w : World) (c : N) : bool :=
  match digit_value w c with Some _ => true | None => false end.

(** [int(s)] for [s] made of decimal digits, as the patterns guarantee;
    leading whitespace is skipped, as [int] does. *)
Definition py_int (w : World) (s : pystr) : Z :=
  fold_left (fun acc c => match digit_value w c with
                          | Some v => 10 * acc + v
                          | None => acc
                          end)%Z (py_lstrip s) 0%Z.

(** ** Calendar dates ([datetime.date], [datetime.datetime])

    The arithmetic follows CPython's [datetime] module: a date is its year,
    month and day; adding days goes through the proleptic Gregorian
    ordinal (day 1 is 0001-01-01). *)

Open Scope Z_scope.

Record date : Type := mkdate { year : Z; month : Z; day : Z }.

Record datetime : Type := mkdatetime {
  dt_date : date; hour : Z; minute : Z; second : Z; microsecond : Z
}.

Definition MINYEAR : Z := 1.
Definition MAXYEAR : Z := 9999.
Definition MAXORDINAL : Z := 3652059.   (* date(9999, 12, 31).toordinal() *)

Definition is_leap (y : Z) : bool :=
  (y mod 4 =? 0) && (negb (y mod 100 =? 0) || (y mod 400 =? 0)).

Definition days_before_year (y : Z) : Z :=
  let y := y - 1 in y * 365 + y / 4 - y / 100 + y / 400.

Definition DAYS_IN_MONTH : list Z := [-1; 31; 28; 31; 30; 31; 30; 31; 31; 30; 31; 30; 31].
Definition DAYS_BEFORE_MONTH : list Z :=
  [-1; 0; 31; 59; 90; 120; 151; 181; 212; 243; 273; 304; 334].

Definition days_in_month (y m : Z) : Z :=
  if (m =? 2) && is_leap y then 29 else nth (Z.to_nat m) DAYS_IN_MONTH 0.

Definition days_before_month (y m : Z) : Z :=
  nth (Z.to_nat m) DAYS_BEFORE_MONTH 0 + (if (2 <? m) && is_leap y then 1 else 0).

Definition ymd2ord (y m d : Z) : Z :=
  days_before_year y + days_before_month y m + d.

Definition DI400Y : Z := 146097.
Definition DI100Y : Z := 36524.
Definition DI4Y : Z := 1461.

Definition ord2ymd (n : Z) : Z * Z * Z :=
  let n := n - 1 in
  let n400 := n / DI400Y in let n := n mod DI400Y in
  let y := n400 * 400 + 1 in
  let n100 := n / DI100Y in let n := n mod DI100Y in
  let n4 := n / DI4Y in let n := n mod DI4Y in
  let n1 := n / 365 in let n := n mod 365 in
  let y := y + n100 * 100 + n4 * 4 + n1 in
  if (n1 =? 4) || (n100 =? 4) then (y - 1, 12, 31)
  else
    let leapyear := (n1 =? 3) && (negb (n4 =? 24) || (n100 =? 3)) in
    let m := Z.shiftr (n + 50) 5 in
    let preceding :=
      nth (Z.to_nat m) DAYS_BEFORE_MONTH 0 + (if (2 <? m) && leapyear then 1 else 0) in
    if n <? preceding
    then
      let m := m - 1 in
      let preceding :=
        preceding - (nth (Z.to_nat m) DAYS_IN_MONTH 0
                     + (if (m =? 2) && leapyear then 1 else 0)) in
      (y, m, n - preceding + 1)
    else (y, m, n - preceding + 1).

Definition valid_date (d : date) : bool :=
  (MINYEAR <=? year d) && (year d <=? MAXYEAR) && (1 <=? month d) && (month d <=? 12)
  && (1 <=? day d) && (day d <=? days_in_month (year d) (month d)).

(** [datetime.date(y, m, d)]. *)
Definition make_date (y m d : Z) : res date :=
  if valid_date (mkdate y m d) then Ok (mkdate y m d) else Raise ValueError.

Definition toordinal (d : date) : Z := ymd2ord (year d) (month d) (day d).

Definition of_ordinal (n : Z) : date :=
  let '(y, m, d) := ord2ymd n in mkdate y m d.

(** [d.weekday()]: Monday is 0. *)
Definition weekday (d : date) : Z := (toordinal d + 6) mod 7.

(** [d + datetime.timedelta(days)]. *)
Definition date_add_days (d : date) (days : Z) : res date :=
  let o := toordinal d + days in
  if (0 <? o) && (o <=? MAXORDINAL) then Ok (of_ordinal o) else Raise OverflowError.

Fixpoint lex_ltb (a b : list Z) : bool :=
  match a, b with
  | x :: a', y :: b' => (x <? y) || ((x =? y) && lex_ltb a' b')
  | [], _ :: _ => true
  | _, [] => false
  end.

Definition datetime_fields (t : datetime) : list Z :=
  [year (dt_date t); month (dt_date t); day (dt_date t);
   hour t; minute t; second t; microsecond t].

(** [a < b] on naive datetimes. *)
Definition datetime_ltb (a b : datetime) : bool :=
  lex_ltb (datetime_fields a) (datetime_fields b).

(** [datetime.datetime.strptime(s, '%d.%m.%Y')]. The format becomes the
    pattern
    (3[0-1]|[1-2]\d|0[1-9]|[1-9]| [1-9])\.(1[0-2]|0[1-9]|[1-9])\.(\d\d\d\d),
    the whole of [s] has to be matched, and the date has to exist. *)
Definition strptime_regex (w : World) : regex :=
  let d := isdecimal w in
  rseq [RGroup (ralt [rseq [RChar 51; RClass (range 48 49)];
                      rseq [RClass (range 49 50); RClass d];
                      rseq [RChar 48; RClass (range 49 57)];
                      RClass (range 49 57);
                      rseq [RChar 32; RClass (range 49 57)]]);
        RChar 46;
        RGroup (ralt [rseq [RChar 49; RClass (range 48 50)];
                      rseq [RChar 48; RClass (range 49 57)];
                      RClass (range 49 57)]);
        RChar 46;
        RGroup (RTimes d 4)].

Definition strptime_dmY (w : World) (s : pystr) : res datetime :=
  match re_match_rest (strptime_regex w) s with
  | Some ([d; m; y], []) =>
      let* dd := make_date (py_int w y) (py_int w m) (py_int w d) in
      Ok (mkdatetime dd 0 0 0 0)
  | _ => Raise ValueError
  end%res.

Close Scope Z_scope.

(** ** The program: constants *)

(** A tag that starts with the chain's name, spelled with U+00E9. *)
Definition pathe_tag (s : string) : pystr := py "Path" ++ [233%N] ++ py s.
Arguments pathe_tag s%_string.

Definition SKIP_SPECIAL : list pystr :=
  [pathe_tag "Opera"; pathe_tag "Art"; pathe_tag "Ballet"; pathe_tag "OperaEncore";
   pathe_tag "Theatre"].
Definition PATHE_TECHNOLOGIES : list pystr := [py "3D"; py "IMAX"; py "IMAX3D"].
Definition DAYS_OF_WEEK : list pystr :=
  [py "maandag"; py "dinsdag"; py "woensdag"; py "donderdag"; py "vrijdag";
   py "zaterdag"; py "zondag"].
Definition MONTHS_SHORT : list pystr :=
  [py "jan"; py "feb"; py "mrt"; py "apr"; py "mei"; py "jun"; py "jul"; py "aug";
   py "sep"; py "okt"; py "nov"; py "dec"].
Definition MONTHS_FULL : list pystr :=
  [py "januari"; py "februari"; py "maart"; py "april"; py "mei"; py "juni"; py "juli";
   py "augustus"; py "september"; py "oktober"; py "november"; py "december"].

(** The module-level dates, fixed when the module is loaded. *)
Record globals : Type := { TODAY : date; TOMORROW : date }.

(** Loading the module with [datetime.date.today()] being [today]. *)
Definition module_init (today : date) : res globals :=
  (let* tomorrow := date_add_days today 1 in
   Ok {| TODAY := today; TOMORROW := tomorrow |})%res.

(** Truth value of a string: non-empty. *)
Definition nonempty (s : pystr) : bool :=
  match s with [] => false | _ => true end.

(** [l.index(x) + 1 ], [ValueError] when [x] is not in [l]. *)
Definition index_plus_1 (x : pystr) (l : list pystr) : res Z :=
  match py_index x l with
  | Some i => Ok (i + 1)%Z
  | None => Raise ValueError
  end.

(** ** Translation adapter *)

Definition is_urllib_HTTPError (e : exn) : bool :=
  match e with urllib_HTTPError => true | _ => false end.

(** [txt] is whatever the caller passes; the translation is a string. *)
Definition nl_to_en (w : World) (txt : pyval) : io pyval :=
  io_try (let* _ := io_emit (EvTranslate txt) in
          let* translated := io_lift (goslate_translate w txt) in
          io_ret (PStr translated))%io
         is_urllib_HTTPError
         (io_ret txt).

(** ** Date normalizer *)

Definition next_weekday (g : globals) (wd : Z) : res date :=
  let days_ahead := (wd - weekday (TODAY g))%Z in
  let days_ahead := if (days_ahead <=? 0)%Z then (days_ahead + 7)%Z else days_ahead in
  date_add_days (TODAY g) days_ahead.

(** [normalize_date] returns a [date] on its first three branches and a
    [datetime] on the last. *)
Inductive pydate : Type :=
| PDate (d : date)
| PDatetime (t : datetime).

(** ^.*\s(\d{2})\s([a-z]{3})$ *)
Definition precise_date_regex (w : World) : regex :=
  rseq [RStar dot; RClass isspace; RGroup (RTimes (isdecimal w) 2); RClass isspace;
        RGroup (RTimes lower_az 3); REnd].

(** [now_year] and [now_cmp] are the two readings of
    [datetime.datetime.now()], in program order. *)
Definition normalize_date (w : World) (g : globals) (now_year now_cmp : datetime)
    (day_name : pystr) : res pydate :=
  (if pystr_eqb day_name (py "vandaag") then Ok (PDate (TODAY g))
   else if pystr_eqb day_name (py "morgen") then Ok (PDate (TOMORROW g))
   else if py_in day_name DAYS_OF_WEEK then
     match py_index day_name DAYS_OF_WEEK with
     | Some i => let* d := next_weekday g i in Ok (PDate d)
     | None => Raise ValueError
     end
   else
     match re_match (precise_date_regex w) day_name with
     | None => Raise (PatheMovieParseError "Unexpected day name")
     | Some match_groups =>
         let* day := py_getitem match_groups 0 in
         let* month_name := py_getitem match_groups 1 in
         let* month := index_plus_1 month_name MONTHS_SHORT in
         let month_str :=
           if (month <? 10)%Z then py "0" ++ py_str_of_Z month else py_str_of_Z month in
         let year := year (dt_date now_year) in
         let date_str := day ++ py "." ++ month_str ++ py "." ++ py_str_of_Z year in
         let* showtime_date := strptime_dmY w date_str in
         if datetime_ltb showtime_date now_cmp
         then
           let year := (year + 1)%Z in
           let* showtime_date := strptime_dmY w date_str in
           Ok (PDatetime showtime_date)
         else Ok (PDatetime showtime_date)
     end)%res.

(** ** Field extractors *)

(** [''.join(s.split())]: [s] without its whitespace. *)
Definition squeeze (s : pystr) : pystr := py_join [] (py_split_ws s).

Definition get_movie_special (movie_page_doc : element) : res (option pystr) :=
  let special_string := xpath_string movie_page_doc XSpecial in
  if nonempty special_string then
    let special_string := squeeze special_string in
    (let* special := py_getitem (py_split (py ":") special_string) 1 in
     Ok (Some special))%res
  else Ok None.

(** ^(.* )\s(\(.*\) )$ *)
Definition title_regex : regex :=
  rseq [RGroup (RStar dot); RClass isspace;
        RGroup (rseq [RChar 40; RStar dot; RChar 41]); REnd].

Definition get_movie_title (movie_page_doc : element) : pystr :=
  let title :=
    if nonempty (xpath_string movie_page_doc XTitleItemprop)
    then xpath_string movie_page_doc XTitleItemprop
    else xpath_string movie_page_doc XTitlePage in
  match re_match title_regex title with
  | Some (group1 :: _) => group1
  | _ => title
  end.

(** ^(\d{1,2})\s([a-z]+)\s(\d{4}) *)
Definition release_date_regex (w : World) : regex :=
  rseq [RGroup (RRep (isdecimal w) 1 (Some 2)); RClass isspace; RGroup (RPlus lower_az);
        RClass isspace; RGroup (RTimes (isdecimal w) 4)].

Definition get_movie_release_date (w : World) (movie_page_doc : element) : res date :=
  let date_string := xpath_string movie_page_doc XReleaseDate in
  match re_match (release_date_regex w) date_string with
  | None => Raise AttributeError       (* [None.groups()] *)
  | Some groups =>
      (let* day := py_getitem groups 0 in
       let* month_name := py_getitem groups 1 in
       let* month := index_plus_1 month_name MONTHS_FULL in
       let* year := py_getitem groups 2 in
       let date_string := day ++ py "." ++ py_str_of_Z month ++ py "." ++ year in
       let* parsed := strptime_dmY w date_string in
       Ok (dt_date parsed))%res
  end.

Fixpoint io_map {A B} (f : A -> io B) (l : list A) : io (list B) :=
  match l with
  | [] => io_ret []
  | a :: l' => (let* b := f a in let* bs := io_map f l' in io_ret (b :: bs))%io
  end.

Definition get_movie_genres (w : World) (movie_page_doc : element)
    : io (option (list pyval)) :=
  let genres_string := xpath_string movie_page_doc XGenre in
  if nonempty genres_string then
    let genres_string := squeeze genres_string in
    (let* tail := io_lift (py_getitem (py_split (py ":") genres_string) 1) in
     let genres := py_split (py ",") tail in
     let* genres := io_map (fun genre => nl_to_en w (PStr genre)) genres in
     io_ret (Some genres))%io
  else io_ret None.

(** ^Duur:\s+(\d+)\s+minuten$ *)
Definition duration_regex (w : World) : regex :=
  rseq [RLit "Duur:"; RPlus isspace; RGroup (RPlus (isdecimal w)); RPlus isspace;
        RLit "minuten"; REnd].

Definition get_movie_duration (w : World) (movie_page_doc : element) : res (option pystr) :=
  let duration_string := xpath_string movie_page_doc XDuur in
  let duration_string := py_strip duration_string in
  match re_match (duration_regex w) duration_string with
  | Some groups => (let* duration := py_getitem groups 0 in Ok (Some duration))%res
  | None => Ok None
  end.

Definition get_movie_language (w : World) (movie_page_doc : element) : io (option pyval) :=
  let language_string := xpath_string movie_page_doc XTaalversie in
  if nonempty language_string then
    (let* language_dutch :=
       io_lift (py_getitem (py_split (py ": ") (py_strip language_string)) 1) in
     let* language := nl_to_en w (PStr language_dutch) in
     io_ret (Some language))%io
  else io_ret None.

(** ^/themes/main/gfx/icons/kijkwijzer/(.* ).png$ ; the dot before png is
    the pattern's: any character. *)
Definition restriction_regex : regex :=
  rseq [RLit "/themes/main/gfx/icons/kijkwijzer/"; RGroup (RStar dot); RClass dot;
        RLit "png"; REnd].

(** The name of one icon, after the pattern has matched. *)
Definition restriction_tag (restriction_name : pystr) : res pystr :=
  if pystr_eqb restriction_name (py "rating-onbekend-z") then Ok (py "unknown")
  else if pystr_eqb restriction_name (py "rating-nvt-z") then Ok (py "n/a")
  else if py_contains (py "kijkwijzer-") restriction_name
       then py_getitem (py_split (py "kijkwijzer-") restriction_name) 1
       else Raise (PatheMovieParseError "Unexpected restriction name").

(** The loop over the icon paths; [restrictions] is the list built so far. *)
Fixpoint restrictions_loop (restrictions_list : list pystr) (restrictions : list pystr)
    : res (list pystr) :=
  match restrictions_list with
  | [] => Ok restrictions
  | restriction :: rest =>
      match re_match restriction_regex restriction with
      | None => restrictions_loop rest restrictions          (* continue *)
      | Some groups =>
          (let* restriction_name := py_getitem groups 0 in
           let* restriction_name := restriction_tag restriction_name in
           restrictions_loop rest (restrictions ++ [restriction_name]))%res
      end
  end.

Definition get_movie_restrictions (movie_page_doc : element) : res (list pystr) :=
  restrictions_loop (xpath_strings movie_page_doc XKijkwijzerSrc) [].

Definition get_movie_technologies (movie_page_doc : element) : res (option (list pystr)) :=
  let technologies_string := xpath_string movie_page_doc XTeZienIn in
  if nonempty technologies_string then
    let technologies_string := squeeze technologies_string in
    (let* tail := py_getitem (py_split (py ":") technologies_string) 1 in
     Ok (Some (py_split (py ",") tail)))%res
  else Ok None.

Definition get_movie_rating (w : World) (movie_page_doc : element) : res (option float) :=
  let rating_string := xpath_string movie_page_doc XAggregateRating in
  if nonempty rating_string then
    let rating_string := py_replace_char 44 46 rating_string in
    (let* r := py_float w rating_string in Ok (Some r))%res
  else Ok None.

Fixpoint directors_cast_loop (items : list element) (directors cast : list pystr)
    : res (list pystr * list pystr) :=
  match items with
  | [] => Ok (directors, cast)
  | person :: rest =>
      (let* person_name := py_getitem (xpath_strings person XSpanText) 0 in
       match xpath_elements person XRegisseurEm with
       | _ :: _ => directors_cast_loop rest (directors ++ [person_name]) cast
       | [] => directors_cast_loop rest directors (cast ++ [person_name])
       end)%res
  end.

Definition get_movie_directors_cast (movie_page_doc : element)
    : res (list pystr * list pystr) :=
  directors_cast_loop (xpath_elements movie_page_doc XSliderEntry) [] [].

(** ** Rating resolver *)

Definition is_RequestException (e : exn) : bool :=
  match e with requests_HTTPError | requests_RequestException => true | _ => false end.

Definition is_IMDBMovieNotFoundError (e : exn) : bool :=
  match e with IMDBMovieNotFoundError _ => true | _ => false end.

(** [response.raise_for_status()]. *)
Definition raise_for_status (r : response) : res unit :=
  if ((400 <=? status_code r) && (status_code r <? 600))%Z
  then Raise requests_HTTPError else Ok tt.

Definition do_imdb_request (w : World) (path : pystr) (params : list (pystr * pyval))
    : io pystr :=
  let url := py "http://www.imdb.com/" ++ path in
  (let* _ := io_emit (EvRequest url params) in
   match (let* response := requests_get w url params in
          let* _ := raise_for_status response in
          Ok response)%res with
   | Ok response => io_ret (text response)
   | Raise e =>
       if is_RequestException e
       then io_raise (RuntimeError "IMDB HTTP request failed")
       else io_raise e
   end)%io.

(** ^/title/tt(\d+)/\?ref_=fn_ft_tt_1$ *)
Definition imdb_link_regex (w : World) : regex :=
  rseq [RLit "/title/tt"; RGroup (RPlus (isdecimal w)); RLit "/?ref_=fn_ft_tt_1"; REnd].

Definition get_imdb_id_by_title (w : World) (title : pyval) : io Z :=
  (let* search_results :=
     do_imdb_request w (py "find")
       [(py "q", title); (py "s", PStr (py "tt")); (py "ttype", PStr (py "ft"))] in
   let* lh_doc := io_lift (lh_fromstring w search_results) in
   match xpath_elements lh_doc XFindTitles with
   | [] => io_raise (IMDBMovieNotFoundError "Movie not found on IMDB")
   | movie :: _ =>
       let movie_link := xpath_string movie XFirstResultHref in
       match re_match (imdb_link_regex w) movie_link with
       | None => io_raise AttributeError            (* [None.group(1)] *)
       | Some groups =>
           let* imdb_id := io_lift (py_getitem groups 0) in
           io_ret (py_int w imdb_id)
       end
   end)%io.

(** The keyword arguments of a call: a dictionary from names to values. *)
Abbreviation kwargs := (gmap string pyval).

Definition get_movie_imdb_rating (w : World) (kw : kwargs) : io (pyval * option float) :=
  (let* imdb_id :=
     match kw !! "title"%string with
     | Some title =>
         io_try (let* n := get_imdb_id_by_title w title in io_ret (PInt n))
                is_IMDBMovieNotFoundError
                (let* translated := nl_to_en w title in
                 let* n := get_imdb_id_by_title w translated in
                 io_ret (PInt n))
     | None =>
         match kw !! "id"%string with
         | Some id => io_ret id
         | None => io_raise (RuntimeError "Either title or ID must be provided as a search term")
         end
     end in
   let* movie_page := do_imdb_request w (py "title/tt" ++ py_str imdb_id) [] in
   let* lh_doc := io_lift (lh_fromstring w movie_page) in
   let* imdb_rating :=
     match xpath_strings lh_doc XRatingValue with
     | first :: _ => let* r := io_lift (py_float w (py_strip first)) in io_ret (Some r)
     | [] => io_ret None
     end in
   io_ret (imdb_id, imdb_rating))%io.

(** ** The workers *)

(** One entry of the result list: the listing URL and the database URL. *)
Definition result_record : Type := pystr * pystr.

(** Worker code: effects, and the shared [result_list] passed along. *)
Definition prog (A : Type) : Type :=
  list result_record -> res A * list result_record * list event.

Definition prog_ret {A} (a : A) : prog A := fun rl => (Ok a, rl, []).
Definition prog_io {A} (m : io A) : prog A := fun rl => (fst m, rl, snd m).
Definition prog_bind {A B} (m : prog A) (k : A -> prog B) : prog B :=
  fun rl =>
    match m rl with
    | (Ok a, rl1, t1) => let '(r, rl2, t2) := k a rl1 in (r, rl2, t1 ++ t2)
    | (Raise e, rl1, t1) => (Raise e, rl1, t1)
    end.
(** [result_list.append(r)] *)
Definition result_list_append (r : result_record) : prog unit :=
  fun rl => (Ok tt, rl ++ [r], [EvAppend r]).

Declare Scope prog_scope.
Delimit Scope prog_scope with prog.
Notation "'let*' x ':=' m 'in' k" := (prog_bind m (fun x => k))
  (at level 10, x pattern, m at level 100, k at level 200) : prog_scope.

Definition eight : float := S754_finite false 4503599627370496 (-49).
Definition float_zero : float := S754_zero false.

(** Truth value of a float: anything but zero. *)
Definition float_truthy (x : float) : bool := negb (SFeqb x float_zero).

(** ^http://www.pathe.nl/film/(\d+)/(.* )$ ; the dots of the host name are
    the pattern's. *)
Definition movie_url_regex (w : World) : regex :=
  rseq [RLit "http://www"; RClass dot; RLit "pathe"; RClass dot; RLit "nl/film/";
        RGroup (RPlus (isdecimal w)); RChar 47; RGroup (RStar dot); REnd].

Definition imdb_url (imdb_id : option pyval) : pystr :=
  py "http://imdb.com/title/tt" ++
  match imdb_id with Some v => py_str v | None => py "None" end.

(** The body of the loop of [process_movie] for a URL taken from the queue.
    The local list [specials], which is filled and never read, is left out. *)
Definition process_movie_item (w : World) (url : pystr) : prog unit :=
  (let* groups :=
     prog_io (io_lift match re_match (movie_url_regex w) url with
                      | Some [pathe_id; url_code] => Ok (pathe_id, url_code)
                      | Some _ => Raise ValueError
                      | None => Raise AttributeError      (* [None.groups()] *)
                      end) in
   let* _ := prog_io (io_emit (EvRequest url [])) in
   let* movie := prog_io (io_lift (requests_get w url [])) in
   let* lh_movie_doc := prog_io (io_lift (lh_fromstring w (text movie))) in
   let* special := prog_io (io_lift (get_movie_special lh_movie_doc)) in
   if match special with Some s => py_in s SKIP_SPECIAL | None => false end
   then prog_io (io_emit EvMoviesTaskDone)                 (* continue *)
   else
     let title := get_movie_title lh_movie_doc in
     let* (imdb_id, imdb_rating) :=
       prog_io (io_try
                  (let* (i, r) := get_movie_imdb_rating w {[ "title"%string := PStr title ]} in
                   io_ret (Some i, r))%io
                  is_IMDBMovieNotFoundError
                  (io_ret (None, None))) in
     let* _ :=
       match imdb_rating with
       | Some r =>
           if float_truthy r && SFltb eight r
           then
             let* _ := prog_io (io_emit (EvPrint [url; imdb_url imdb_id])) in
             result_list_append (url, imdb_url imdb_id)
           else prog_ret tt
       | None => prog_ret tt
       end in
     prog_io (io_emit EvMoviesTaskDone))%prog.

(** How a worker's loop ends, given the items its [get()] calls return:
    it leaves the loop at a false item ([None] or an empty string), dies
    with an exception, or waits for an item that never comes. *)
Inductive loop_end : Type := Left | Waiting.

Fixpoint process_movie (w : World) (gets : list (option pystr)) : prog loop_end :=
  match gets with
  | [] => prog_ret Waiting
  | None :: _ => prog_ret Left
  | Some url :: rest =>
      if nonempty url
      then (let* _ := process_movie_item w url in process_movie w rest)%prog
      else prog_ret Left
  end.

(** The loop over the posters of a listing page. *)
Fixpoint posters_loop (movies_list : list element) : io unit :=
  match movies_list with
  | [] => io_ret tt
  | movie :: rest =>
      (let* label := io_lift (py_getitem (xpath_strings movie XButtonText) 0) in
       if negb (py_in label [py "Tijden en tickets"; py "Verwacht"])
       then posters_loop rest
       else
         let* movie_url := io_lift (py_getitem (xpath_strings movie XOverlayHref) 0) in
         if pystr_eqb movie_url (py "/film/845/sneak-preview")
         then posters_loop rest
         else
           let movie_url := py "http://www.pathe.nl" ++ movie_url in
           let* _ := io_emit (EvPut movie_url) in
           posters_loop rest)%io
  end.

(** The body of the loop of [process_movies_list_page] for a URL taken from
    the queue. *)
Definition process_movies_list_page_item (w : World) (url : pystr) : io unit :=
  (let* _ := io_emit (EvRequest url []) in
   let* movies_list_page := io_lift (requests_get w url []) in
   let* lh_movies_doc := io_lift (lh_fromstring w (text movies_list_page)) in
   let* _ := posters_loop (xpath_elements lh_movies_doc XPosters) in
   io_emit EvPagesTaskDone)%io.

Fixpoint process_movies_list_page (w : World) (gets : list (option pystr)) : io loop_end :=
  match gets with
  | [] => io_ret Waiting
  | None :: _ => io_ret Left
  | Some url :: rest =>
      if nonempty url
      then (let* _ := process_movies_list_page_item w url in
            process_movies_list_page w rest)%io
      else io_ret Left
  end.

(** ** Sample documents and worlds *)

Definition xpath_eqb (a b : xpath) : bool :=
  match a, b with
  | XSpecial, XSpecial | XTitleItemprop, XTitleItemprop | XTitlePage, XTitlePage
  | XReleaseDate, XReleaseDate | XGenre, XGenre | XDuur, XDuur
  | XTaalversie, XTaalversie | XTeZienIn, XTeZienIn | XKijkwijzerSrc, XKijkwijzerSrc
  | XAggregateRating, XAggregateRating | XSliderEntry, XSliderEntry
  | XSpanText, XSpanText | XRegisseurEm, XRegisseurEm | XFindTitles, XFindTitles
  | XFirstResultHref, XFirstResultHref | XRatingValue, XRatingValue
  | XPosters, XPosters | XButtonText, XButtonText | XOverlayHref, XOverlayHref => true
  | _, _ => false
  end.

(** The document in which no query selects anything. *)
Definition blank : element := Element (fun _ => []) (fun _ => []) (fun _ => []).

Definition with_string (q : xpath) (s : pystr) (e : element) : element :=
  Element (fun q' => if xpath_eqb q q' then s else xpath_string e q')
          (xpath_strings e) (xpath_elements e).

Definition with_strings (q : xpath) (l : list pystr) (e : element) : element :=
  Element (xpath_string e)
          (fun q' => if xpath_eqb q q' then l else xpath_strings e q')
          (xpath_elements e).

Definition with_elements (q : xpath) (l : list element) (e : element) : element :=
  Element (xpath_string e) (xpath_strings e)
          (fun q' => if xpath_eqb q q' then l else xpath_elements e q').

(** A world without network: every request fails to connect, nothing
    parses, the translation service is unreachable. *)
Definition offline : World := {|
  unicode_decimal := fun _ => None;
  requests_get := fun _ _ => Raise requests_RequestException;
  lh_fromstring := fun _ => Raise (OtherException "ParserError");
  goslate_translate := fun _ => Raise urllib_URLError;
  py_float := fun _ => Raise ValueError;
|}.

Definition rating_8_1 : float := S754_finite false 4559894622712627 (-49).
Definition rating_9_3 : float := S754_finite false 5235434566818202 (-49).

Definition amelie : pystr := py "Am" ++ [233%N] ++ py "lie".
Definition amelie_url : pystr := py "http://www.pathe.nl/film/1/amelie".

(** The detail page of a movie with the given special line, title and
    restriction icons. *)
Definition detail_page (special title : pystr) : element :=
  with_string XSpecial special (with_string XTitleItemprop title blank).

(** A small web: one detail page at [amelie_url], a film database whose
    search finds title 211915 and whose title page shows [rating_texts];
    the translation service answers every call with an HTTP error. *)
Definition small_web (special title : pystr) (rating_texts : list pystr) : World := {|
  unicode_decimal := fun _ => None;
  requests_get := fun url _ =>
    if pystr_eqb url amelie_url then Ok {| status_code := 200; text := py "detail" |}
    else if pystr_eqb url (py "http://www.imdb.com/find")
         then Ok {| status_code := 200; text := py "find" |}
    else if starts_with (py "http://www.imdb.com/title/tt") url
         then Ok {| status_code := 200; text := py "title" |}
    else Raise requests_RequestException;
  lh_fromstring := fun t =>
    if pystr_eqb t (py "detail") then Ok (detail_page special title)
    else if pystr_eqb t (py "find")
         then Ok (with_elements XFindTitles
                    [with_string XFirstResultHref (py "/title/tt0211915/?ref_=fn_ft_tt_1") blank]
                    blank)
    else if pystr_eqb t (py "title") then Ok (with_strings XRatingValue rating_texts blank)
    else Raise (OtherException "ParserError");
  goslate_translate := fun _ => Raise urllib_HTTPError;
  py_float := fun s =>
    if pystr_eqb s (py "8.0") then Ok eight
    else if pystr_eqb s (py "8.1") then Ok rating_8_1
    else if pystr_eqb s (py "9.3") then Ok rating_9_3
    else Raise ValueError;
|}.

(** Keyword arguments that name both a title and an id. *)
Definition both_keys : kwargs :=
  <[ "id"%string := PInt 5 ]> {[ "title"%string := PStr amelie ]}.

(** ** Notions used in the statements *)

(** The text of the title element, before normalization: the first of the
    two title queries that selects something. *)
Definition raw_title (movie_page_doc : element) : pystr :=
  if nonempty (xpath_string movie_page_doc XTitleItemprop)
  then xpath_string movie_page_doc XTitleItemprop
  else xpath_string movie_page_doc XTitlePage.

(** The string has no line break. *)
Definition single_line (s : pystr) : bool := forallb dot s.

(** The string has a whitespace character directly followed by an opening
    parenthesis. *)
Fixpoint space_then_paren (s : pystr) : bool :=
  match s with
  | c :: s' =>
      match s' with
      | d :: _ => (isspace c && (d =? 40)%N) || space_then_paren s'
      | [] => false
      end
  | [] => false
  end.

(** A page whose title element reads [s]. *)
Definition titled (s : pystr) : element := with_string XTitleItemprop s blank.

(** The directory of the restriction icons. *)
Definition KIJKWIJZER_DIR : pystr := py "/themes/main/gfx/icons/kijkwijzer/".

(** A page that shows the given restriction icons. *)
Definition with_icons (srcs : list pystr) : element := with_strings XKijkwijzerSrc srcs blank.

(** The module loaded on 2024-01-10 and on 2024-06-10, and the clock at
    noon of a day. *)
Definition january_10 : globals :=
  {| TODAY := mkdate 2024 1 10; TOMORROW := mkdate 2024 1 11 |}.
Definition june_10 : globals :=
  {| TODAY := mkdate 2024 6 10; TOMORROW := mkdate 2024 6 11 |}.
Definition at_time (d : date) (h m s us : Z) : datetime := mkdatetime d h m s us.
Definition midnight (d : date) : datetime := mkdatetime d 0 0 0 0.

(** The shared result list after a piece of worker code has run. *)
Definition result_list_after {A} (x : res A * list result_record * list event)
    : list result_record := snd (fst x).

(** The test of [process_movie] on the special tag. *)
Definition in_skip_set (special : option pystr) : bool :=
  match special with Some s => py_in s SKIP_SPECIAL | None => false end.

(** The detail page at [url] is processed up to its special tag: the URL
    has the shape of a detail URL, the page is fetched and parsed into
    [doc], and the tag extracted from it is [special]. *)
Definition page_special (w : World) (url : pystr) (doc : element)
    (special : option pystr) : Prop :=
  (exists pathe_id url_code, re_match (movie_url_regex w) url = Some [pathe_id; url_code])
  /\ exists page,
       requests_get w url [] = Ok page /\ lh_fromstring w (text page) = Ok doc
       /\ get_movie_special doc = Ok special.

(** An external rating [r], with database identifier [imdb_id], is resolved
    for the movie of the detail page at [url]: the page is not of the
    skip-set and the resolver, called with the page's title, returns them. *)
Definition rating_resolved (w : World) (url : pystr) (imdb_id : pyval) (r : float) : Prop :=
  exists doc special evs,
    page_special w url doc special /\ in_skip_set special = false
    /\ get_movie_imdb_rating w {[ "title"%string := PStr (get_movie_title doc) ]}
       = (Ok (imdb_id, Some r), evs).

(** The record reported for the movie at [amelie_url] in [small_web]. *)
Definition amelie_record : result_record :=
  (amelie_url, py "http://imdb.com/title/tt211915").

(** The special line of an opera broadcast. *)
Definition opera_line : pystr := py "Special: " ++ pathe_tag "Opera".

(** The month and day of the [n]-th day (from 0) of a year, as the second
    half of [ord2ymd] computes them. *)
Definition month_day (leapyear : bool) (n : Z) : Z * Z :=
  let m := Z.shiftr (n + 50) 5 in
  let preceding :=
    (nth (Z.to_nat m) DAYS_BEFORE_MONTH 0 + (if (2 <? m) && leapyear then 1 else 0))%Z in
  if (n <? preceding)%Z
  then
    let m := (m - 1)%Z in
    let preceding :=
      (preceding - (nth (Z.to_nat m) DAYS_IN_MONTH 0
                    + (if (m =? 2) && leapyear then 1 else 0)))%Z in
    (m, (n - preceding + 1)%Z)
  else (m, (n - preceding + 1)%Z).

(** The check that [month_day] inverts the day count within a year. *)
Definition month_day_ok (leapyear : bool) (n : Z) : bool :=
  let '(m, d) := month_day leapyear n in
  ((1 <=? m) && (m <=? 12) && (1 <=? d)
   && (d <=? (if (m =? 2) && leapyear then 29 else nth (Z.to_nat m) DAYS_IN_MONTH 0))
   && (nth (Z.to_nat m) DAYS_BEFORE_MONTH 0 + (if (2 <? m) && leapyear then 1 else 0) + d
       =? n + 1))%Z.

(** The module loaded on 9999-12-30, the day before the last date. *)
Definition last_thursday : globals :=
  {| TODAY := mkdate 9999 12 30; TOMORROW := mkdate 9999 12 31 |}.

(** ** The coordinator and the two pools, as a transition system

    The threads run interleaved; a step is one operation on a shared
    object (a queue or the result list) or one stretch of thread-local
    work. A worker that has taken a URL from its queue performs the
    operations of its loop body ([process_movies_list_page_item],
    [process_movie_item]) one at a time. *)

(** [queue.Queue]: the items, oldest first, and the count of unfinished
    tasks. [None] is the termination sentinel. *)
Record queue : Type := { items : list (option pystr); unfinished : nat }.

Definition empty_queue : queue := {| items := []; unfinished := 0 |}.

(** [q.put(item)] *)
Definition q_put (item : option pystr) (q : queue) : queue :=
  {| items := items q ++ [item]; unfinished := S (unfinished q) |}.

(** [q.task_done()]: [None] stands for the [ValueError] raised when it is
    called more often than items were put. *)
Definition q_task_done (q : queue) : option queue :=
  match unfinished q with
  | O => None
  | S n => Some {| items := items q; unfinished := n |}
  end.

(** A worker thread: about to call [get()], busy with a URL (the operations
    of the loop body still to perform and how the body ends), returned from
    its function, or killed by an exception raised while it was busy. *)
Inductive thread : Type :=
| AtGet
| Running (url : pystr) (pending : list event) (outcome : res unit)
| Returned
| Died (url : pystr) (e : exn).

Definition terminated (t : thread) : Prop :=
  match t with Returned | Died _ _ => True | _ => False end.

(** The main thread, from the first [put] on. *)
Inductive main_pc : Type :=
| Seeding (page_num : nat)      (* in the loop over page numbers, before the put of [page_num] *)
| JoinPages                     (* pages_queue.join() *)
| StopPages (left : nat)        (* [left] sentinels still to put on pages_queue *)
| JoinPageThreads               (* the joins of the page threads *)
| JoinMovies                    (* movies_queue.join() *)
| StopMovies (left : nat)       (* [left] sentinels still to put on movies_queue *)
| JoinMovieThreads              (* the joins of the movie threads *)
| Report.                       (* the mail is composed and sent *)

Definition num_page_threads : nat := 10.
Definition num_movie_threads : nat := 18.

Record crawl : Type := {
  pages_queue : queue;
  movies_queue : queue;
  page_threads : list thread;
  movie_threads : list thread;
  result_list : list result_record;
  main : main_pc;
  (** history: the URLs put on [movies_queue], in order *)
  discovered : list pystr;
  (** history: the URLs whose processing reached [movies_queue.task_done()] *)
  processed : list pystr;
}.

Definition set_pages (q : queue) (s : crawl) : crawl :=
  {| pages_queue := q; movies_queue := movies_queue s; page_threads := page_threads s;
     movie_threads := movie_threads s; result_list := result_list s; main := main s;
     discovered := discovered s; processed := processed s |}.
Definition set_movies (q : queue) (s : crawl) : crawl :=
  {| pages_queue := pages_queue s; movies_queue := q; page_threads := page_threads s;
     movie_threads := movie_threads s; result_list := result_list s; main := main s;
     discovered := discovered s; processed := processed s |}.
Definition set_page_threads (l : list thread) (s : crawl) : crawl :=
  {| pages_queue := pages_queue s; movies_queue := movies_queue s; page_threads := l;
     movie_threads := movie_threads s; result_list := result_list s; main := main s;
     discovered := discovered s; processed := processed s |}.
Definition set_movie_threads (l : list thread) (s : crawl) : crawl :=
  {| pages_queue := pages_queue s; movies_queue := movies_queue s;
     page_threads := page_threads s; movie_threads := l; result_list := result_list s;
     main := main s; discovered := discovered s; processed := processed s |}.
Definition set_result_list (l : list result_record) (s : crawl) : crawl :=
  {| pages_queue := pages_queue s; movies_queue := movies_queue s;
     page_threads := page_threads s; movie_threads := movie_threads s; result_list := l;
     main := main s; discovered := discovered s; processed := processed s |}.
Definition set_main (pc : main_pc) (s : crawl) : crawl :=
  {| pages_queue := pages_queue s; movies_queue := movies_queue s;
     page_threads := page_threads s; movie_threads := movie_threads s;
     result_list := result_list s; main := pc;
     discovered := discovered s; processed := processed s |}.
Definition log_discovered (url : pystr) (s : crawl) : crawl :=
  {| pages_queue := pages_queue s; movies_queue := movies_queue s;
     page_threads := page_threads s; movie_threads := movie_threads s;
     result_list := result_list s; main := main s;
     discovered := discovered s ++ [url]; processed := processed s |}.
Definition log_processed (url : pystr) (s : crawl) : crawl :=
  {| pages_queue := pages_queue s; movies_queue := movies_queue s;
     page_threads := page_threads s; movie_threads := movie_threads s;
     result_list := result_list s; main := main s;
     discovered := discovered s; processed := processed s ++ [url] |}.

(** 'http://www.pathe.nl/films?page={0}'.format(page_num) *)
Definition page_url (page_num : nat) : pystr :=
  py "http://www.pathe.nl/films?page=" ++ py_str_of_Z (Z.of_nat page_num).

(** The state when the main thread reaches its loop over the page numbers:
    both pools are started and every worker is at its first [get()]. *)
Definition initial : crawl := {|
  pages_queue := empty_queue; movies_queue := empty_queue;
  page_threads := repeat AtGet num_page_threads;
  movie_threads := repeat AtGet num_movie_threads;
  result_list := []; main := Seeding 1; discovered := []; processed := [];
|}.

(** One operation of the loop body of the worker busy with [url]; [None]
    when the operation raises. *)
Definition perform (url : pystr) (ev : event) (s : crawl) : option crawl :=
  match ev with
  | EvPut u => Some (log_discovered u (set_movies (q_put (Some u) (movies_queue s)) s))
  | EvAppend r => Some (set_result_list (result_list s ++ [r]) s)
  | EvPagesTaskDone =>
      match q_task_done (pages_queue s) with
      | Some q => Some (set_pages q s)
      | None => None
      end
  | EvMoviesTaskDone =>
      match q_task_done (movies_queue s) with
      | Some q => Some (log_processed url (set_movies q s))
      | None => None
      end
  | EvRequest _ _ | EvTranslate _ | EvPrint _ => Some s
  end.

(** What a page thread does with the item its [get()] returned. *)
Definition page_thread_takes (w : World) (item : option pystr) : thread :=
  match item with
  | Some url =>
      if nonempty url
      then let '(outcome, evs) := process_movies_list_page_item w url in
           Running url evs outcome
      else Returned
  | None => Returned
  end.

(** What a movie thread does with the item its [get()] returned. *)
Definition movie_thread_takes (w : World) (rl : list result_record) (item : option pystr)
    : thread :=
  match item with
  | Some url =>
      if nonempty url
      then let '(outcome, _, evs) := process_movie_item w url rl in
           Running url evs outcome
      else Returned
  | None => Returned
  end.

(** The end of a loop body: back to [get()], or death by the exception. *)
Definition body_ends (url : pystr) (outcome : res unit) : thread :=
  match outcome with
  | Ok _ => AtGet
  | Raise e => Died url e
  end.

Inductive step (w : World) (num_pages : nat) : crawl -> crawl -> Prop :=
(* the main thread *)
| step_seed s p :
    main s = Seeding p -> p <= num_pages ->
    step w num_pages s
      (set_main (Seeding (S p)) (set_pages (q_put (Some (page_url p)) (pages_queue s)) s))
| step_seeded s p :
    main s = Seeding p -> num_pages < p ->
    step w num_pages s (set_main JoinPages s)
| step_join_pages s :
    main s = JoinPages -> unfinished (pages_queue s) = 0 ->
    step w num_pages s (set_main (StopPages num_page_threads) s)
| step_stop_page s left :
    main s = StopPages (S left) ->
    step w num_pages s
      (set_main (StopPages left) (set_pages (q_put None (pages_queue s)) s))
| step_pages_stopped s :
    main s = StopPages 0 ->
    step w num_pages s (set_main JoinPageThreads s)
| step_join_page_threads s :
    main s = JoinPageThreads -> Forall terminated (page_threads s) ->
    step w num_pages s (set_main JoinMovies s)
| step_join_movies s :
    main s = JoinMovies -> unfinished (movies_queue s) = 0 ->
    step w num_pages s (set_main (StopMovies num_movie_threads) s)
| step_stop_movie s left :
    main s = StopMovies (S left) ->
    step w num_pages s
      (set_main (StopMovies left) (set_movies (q_put None (movies_queue s)) s))
| step_movies_stopped s :
    main s = StopMovies 0 ->
    step w num_pages s (set_main JoinMovieThreads s)
| step_join_movie_threads s :
    main s = JoinMovieThreads -> Forall terminated (movie_threads s) ->
    step w num_pages s (set_main Report s)
(* a page thread *)
| step_page_get s before after item rest :
    page_threads s = before ++ AtGet :: after ->
    items (pages_queue s) = item :: rest ->
    step w num_pages s
      (set_page_threads (before ++ page_thread_takes w item :: after)
         (set_pages {| items := rest; unfinished := unfinished (pages_queue s) |} s))
| step_page_perform s s' before after url ev pending outcome :
    page_threads s = before ++ Running url (ev :: pending) outcome :: after ->
    perform url ev s = Some s' ->
    step w num_pages s
      (set_page_threads (before ++ Running url pending outcome :: after) s')
| step_page_raise s before after url ev pending outcome :
    page_threads s = before ++ Running url (ev :: pending) outcome :: after ->
    perform url ev s = None ->
    step w num_pages s (set_page_threads (before ++ Died url ValueError :: after) s)
| step_page_end s before after url outcome :
    page_threads s = before ++ Running url [] outcome :: after ->
    step w num_pages s (set_page_threads (before ++ body_ends url outcome :: after) s)
(* a movie thread *)
| step_movie_get s before after item rest :
    movie_threads s = before ++ AtGet :: after ->
    items (movies_queue s) = item :: rest ->
    step w num_pages s
      (set_movie_threads
         (before ++ movie_thread_takes w (result_list s) item :: after)
         (set_movies {| items := rest; unfinished := unfinished (movies_queue s) |} s))
| step_movie_perform s s' before after url ev pending outcome :
    movie_threads s = before ++ Running url (ev :: pending) outcome :: after ->
    perform url ev s = Some s' ->
    step w num_pages s
      (set_movie_threads (before ++ Running url pending outcome :: after) s')
| step_movie_raise s before after url ev pending outcome :
    movie_threads s = before ++ Running url (ev :: pending) outcome :: after ->
    perform url ev s = None ->
    step w num_pages s (set_movie_threads (before ++ Died url ValueError :: after) s)
| step_movie_end s before after url outcome :
    movie_threads s = before ++ Running url [] outcome :: after ->
    step w num_pages s (set_movie_threads (before ++ body_ends url outcome :: after) s).

(** The states a run can be in. *)
Inductive reachable (w : World) (num_pages : nat) : crawl -> Prop :=
| reach_initial : reachable w num_pages initial
| reach_step s s' :
    reachable w num_pages s -> step w num_pages s s' -> reachable w num_pages s'.

(** A movie thread has shut down: it left its loop and returned. *)
Definition movie_thread_shut_down (s : crawl) : Prop := In Returned (movie_threads s).

(** ** Notions used in the pipeline invariant *)

(** The code ended without an exception. *)
Definition ends_ok {A} (r : res A) : bool :=
  match r with Ok _ => true | Raise _ => false end.

(** Operations that touch no shared object. *)
Definition quiet (ev : event) : bool :=
  match ev with EvRequest _ _ | EvTranslate _ | EvPrint _ => true | _ => false end.

(** Operations a movie thread may have pending: none on the pages queue and
    no [put]. *)
Definition movie_ev (ev : event) : bool :=
  match ev with EvPut _ | EvPagesTaskDone => false | _ => true end.

(** Operations a page thread may have pending: no acknowledgement on the
    movies queue, nothing for the result list, and only non-empty URLs are
    put. *)
Definition page_ev (ev : event) : bool :=
  match ev with
  | EvPut u => nonempty u
  | EvMoviesTaskDone | EvAppend _ => false
  | _ => true
  end.

(** The number of [movies_queue.task_done()] calls in a list of operations. *)
Fixpoint acks (evs : list event) : nat :=
  match evs with
  | [] => 0
  | EvMoviesTaskDone :: evs' => S (acks evs')
  | _ :: evs' => acks evs'
  end.

(** A busy movie thread still owes the acknowledgement of its URL: it is
    yet to come, or the body ends with an exception and it never comes. *)
Definition owes (pending : list event) (outcome : res unit) : bool :=
  match outcome with
  | Ok _ => negb (Nat.eqb (acks pending) 0)
  | Raise _ => true
  end.

(** The URL a movie thread has taken and not acknowledged. *)
Definition held (t : thread) : list pystr :=
  match t with
  | Running url pending outcome => if owes pending outcome then [url] else []
  | Died url _ => [url]
  | AtGet | Returned => []
  end.

Definition movie_thread_ok (t : thread) : Prop :=
  match t with
  | Running _ pending outcome =>
      forallb movie_ev pending = true /\ acks pending <= 1
      /\ (forall e, outcome = Raise e -> acks pending = 0)
  | _ => True
  end.

Definition page_thread_ok (t : thread) : Prop :=
  match t with
  | Running _ pending _ => forallb page_ev pending = true
  | _ => True
  end.

(** The URLs among the items of a queue. *)
Definition queue_urls (l : list (option pystr)) : list pystr :=
  flat_map (fun item => match item with Some u => [u] | None => [] end) l.

(** A record of the result list is earned: it pairs the URL of a detail
    page with the database URL of a rating above 8 resolved for it. *)
Definition earned (w : World) (rec : result_record) : Prop :=
  exists url imdb_id r,
    rating_resolved w url imdb_id r /\ SFltb eight r = true
    /\ rec = (url, imdb_url (Some imdb_id)).

(** The records a busy thread is still to append are earned. *)
Definition appends_earned (w : World) (t : thread) : Prop :=
  match t with
  | Running _ pending _ => forall rec, In (EvAppend rec) pending -> earned w rec
  | _ => True
  end.

(** The main thread has started to stop the movie threads. *)
Definition stopping_movies (pc : main_pc) : bool :=
  match pc with StopMovies _ | JoinMovieThreads | Report => true | _ => false end.

(** The main thread has joined the page threads. *)
Definition pages_joined (pc : main_pc) : bool :=
  match pc with JoinMovies | StopMovies _ | JoinMovieThreads | Report => true | _ => false end.

Definition item_ok (pc : main_pc) (item : option pystr) : Prop :=
  match item with
  | Some u => nonempty u = true
  | None => stopping_movies pc = true
  end.

Record invariant (s : crawl) : Prop := {
  inv_movie_threads : Forall movie_thread_ok (movie_threads s);
  inv_page_threads : Forall page_thread_ok (page_threads s);
  inv_accounted :
    Permutation (discovered s)
      (processed s ++ queue_urls (items (movies_queue s)) ++ flat_map held (movie_threads s));
  inv_items : Forall (item_ok (main s)) (items (movies_queue s));
  inv_before :
    stopping_movies (main s) = false ->
    unfinished (movies_queue s)
    = length (items (movies_queue s)) + length (flat_map held (movie_threads s))
    /\ ~ In Returned (movie_threads s);
  inv_joined : pages_joined (main s) = true -> Forall terminated (page_threads s);
  inv_after :
    stopping_movies (main s) = true ->
    queue_urls (items (movies_queue s)) = [] /\ flat_map held (movie_threads s) = [];
}.

(** A web with one listing page that shows one poster, the movie at
    [amelie_url], rated 9.3 by the film database. *)
Definition listing_web : World := {|
  unicode_decimal := fun _ => None;
  requests_get := fun url params =>
    if pystr_eqb url (page_url 1) then Ok {| status_code := 200; text := py "listing" |}
    else requests_get (small_web [] amelie [py "9.3"]) url params;
  lh_fromstring := fun t =>
    if pystr_eqb t (py "listing")
    then Ok (with_elements XPosters
               [with_strings XButtonText [py "Tijden en tickets"]
                  (with_strings XOverlayHref [py "/film/1/amelie"] blank)]
               blank)
    else lh_fromstring (small_web [] amelie [py "9.3"]) t;
  goslate_translate := goslate_translate (small_web [] amelie [py "9.3"]);
  py_float := py_float (small_web [] amelie [py "9.3"]);
|}.

(** The result list and the appends still to come hold earned records only. *)
Definition records_ok (w : World) (s : crawl) : Prop :=
  Forall (earned w) (result_list s) /\ Forall (appends_earned w) (movie_threads s).

(** ** Notions used in the statements about the listing pages *)

(** The detail URL the loop over the posters puts for one poster: the first
    text of its button is one of the two labels and its first link is not
    the sneak preview. *)
Definition poster_target (movie : element) : option pystr :=
  match xpath_strings movie XButtonText with
  | label :: _ =>
      if py_in label [py "Tijden en tickets"; py "Verwacht"]
      then match xpath_strings movie XOverlayHref with
           | href :: _ =>
               if pystr_eqb href (py "/film/845/sneak-preview") then None
               else Some (py "http://www.pathe.nl" ++ href)
           | [] => None
           end
      else None
  | [] => None
  end.

(** The loop over the posters cannot go on at this poster: it has no
    button text, or it has one of the two labels and no link. *)
Definition poster_broken (movie : element) : Prop :=
  match xpath_strings movie XButtonText with
  | label :: _ =>
      py_in label [py "Tijden en tickets"; py "Verwacht"] = true
      /\ xpath_strings movie XOverlayHref = []
  | [] => True
  end.

(** The URL is shown, with one of the two labels, on one of the listing
    pages 1 to [num_pages]. *)
Definition listed (w : World) (num_pages : nat) (u : pystr) : Prop :=
  exists p page doc movie,
    1 <= p <= num_pages /\ requests_get w (page_url p) [] = Ok page
    /\ lh_fromstring w (text page) = Ok doc
    /\ In movie (xpath_elements doc XPosters) /\ poster_target movie = Some u.

(** A listing page with the given posters, each a button label and a link. *)
Definition poster (label href : pystr) : element :=
  with_strings XButtonText [label] (with_strings XOverlayHref [href] blank).

(** ** Notions used in the shutdown invariant *)

(** The number of [pages_queue.task_done()] calls in a list of operations. *)
Fixpoint page_acks (evs : list event) : nat :=
  match evs with
  | [] => 0
  | EvPagesTaskDone :: evs' => S (page_acks evs')
  | _ :: evs' => page_acks evs'
  end.

(** A busy page thread still owes the acknowledgement of its URL: it is
    yet to come, or the body ends with an exception and it never comes. *)
Definition page_owes (pending : list event) (outcome : res unit) : bool :=
  match outcome with
  | Ok _ => negb (Nat.eqb (page_acks pending) 0)
  | Raise _ => true
  end.

(** The URL a page thread has taken and not acknowledged. *)
Definition page_held (t : thread) : list pystr :=
  match t with
  | Running url pending outcome => if page_owes pending outcome then [url] else []
  | Died url _ => [url]
  | AtGet | Returned => []
  end.

Definition page_thread_acks_ok (t : thread) : Prop :=
  match t with
  | Running _ pending outcome =>
      page_acks pending <= 1 /\ (forall e, outcome = Raise e -> page_acks pending = 0)
  | _ => True
  end.

(** The main thread has started to stop the page threads. *)
Definition stopping_pages (pc : main_pc) : bool :=
  match pc with Seeding _ | JoinPages => false | _ => true end.

Definition is_returned (t : thread) : bool :=
  match t with Returned => true | _ => false end.

(** The number of threads of a pool that have returned. *)
Definition returned (l : list thread) : nat := length (List.filter is_returned l).

(** The sentinels the main thread is still to put on a queue. *)
Definition page_sentinels_left (pc : main_pc) : nat :=
  match pc with StopPages n => n | _ => 0 end.
Definition movie_sentinels_left (pc : main_pc) : nat :=
  match pc with StopMovies n => n | _ => 0 end.

Definition page_item_ok (item : option pystr) : Prop :=
  match item with Some u => nonempty u = true | None => False end.

Record shutdown (s : crawl) : Prop := {
  sd_page_count : length (page_threads s) = num_page_threads;
  sd_movie_count : length (movie_threads s) = num_movie_threads;
  sd_page_acks : Forall page_thread_acks_ok (page_threads s);
  sd_pages_before :
    stopping_pages (main s) = false ->
    unfinished (pages_queue s)
    = length (items (pages_queue s)) + length (flat_map page_held (page_threads s))
    /\ Forall page_item_ok (items (pages_queue s))
    /\ ~ In Returned (page_threads s);
  sd_pages_after :
    stopping_pages (main s) = true ->
    queue_urls (items (pages_queue s)) = []
    /\ flat_map page_held (page_threads s) = []
    /\ length (items (pages_queue s)) + returned (page_threads s)
       + page_sentinels_left (main s) = num_page_threads;
  sd_movies_after :
    stopping_movies (main s) = true ->
    length (items (movies_queue s)) + returned (movie_threads s)
    + movie_sentinels_left (main s) = num_movie_threads;
  sd_report : main s = Report -> Forall terminated (movie_threads s);
}.

(** A thread killed by an exception. *)
Definition died (t : thread) : Prop :=
  match t with Died _ _ => True | _ => False end.

(** The run goes on from [s] to a later state. *)
Inductive continues (w : World) (num_pages : nat) (s : crawl) : crawl -> Prop :=
| cont_here : continues w num_pages s s
| cont_step s' s'' :
    continues w num_pages s s' -> step w num_pages s' s'' -> continues w num_pages s s''.

(** ** Notions used in the provenance invariant *)

(** The URL of one of the listing pages 1 to [num_pages]. *)
Definition listing_url (num_pages : nat) (u : pystr) : Prop :=
  exists p, 1 <= p <= num_pages /\ u = page_url p.

Definition page_item_listing (num_pages : nat) (item : option pystr) : Prop :=
  forall u, item = Some u -> listing_url num_pages u.

(** The URLs a busy page thread is still to put are listed. *)
Definition page_thread_listed (w : World) (num_pages : nat) (t : thread) : Prop :=
  match t with
  | Running _ pending _ => forall u, In (EvPut u) pending -> listed w num_pages u
  | _ => True
  end.

(** The URL of a busy movie thread is one of [known], and the records the
    thread is still to append are records of that URL. *)
Definition movie_thread_known (known : list pystr) (t : thread) : Prop :=
  match t with
  | Running url pending _ =>
      In url known /\ forall rec, In (EvAppend rec) pending -> fst rec = url
  | _ => True
  end.

(** The record is the record of a URL of [known]. *)
Definition record_known (known : list pystr) (rec : result_record) : Prop :=
  In (fst rec) known.

Record provenance (w : World) (num_pages : nat) (s : crawl) : Prop := {
  pv_seeding : forall p, main s = Seeding p -> 1 <= p;
  pv_items : Forall (page_item_listing num_pages) (items (pages_queue s));
  pv_page_threads : Forall (page_thread_listed w num_pages) (page_threads s);
  pv_discovered : Forall (listed w num_pages) (discovered s);
  pv_movie_threads : Forall (movie_thread_known (discovered s)) (movie_threads s);
  pv_results : Forall (record_known (discovered s)) (result_list s);
}.

(** ** Notions used in the statements about numerals and the resolver *)

(** An ASCII digit. *)
Definition ascii_digit (c : N) : bool := ((48 <=? c) && (c <=? 57))%N.

(** A non-empty string of ASCII digits. *)
Definition ascii_number (s : pystr) : bool := nonempty s && forallb ascii_digit s.

(** The query parameters of a title search. *)
Definition find_params (title : pyval) : list (pystr * pyval) :=
  [(py "q", title); (py "s", PStr (py "tt")); (py "ttype", PStr (py "ft"))].

(** The title search for [title] is answered, without an HTTP error, by a
    page that parses into [doc]. *)
Definition search_page (w : World) (title : pyval) (doc : element) : Prop :=
  exists page,
    requests_get w (py "http://www.imdb.com/find") (find_params title) = Ok page
    /\ raise_for_status page = Ok tt /\ lh_fromstring w (text page) = Ok doc.

(** The request fails: no response, or a response with a 4xx or 5xx
    status. *)
Definition request_fails (w : World) (url : pystr) (params : list (pystr * pyval)) : Prop :=
  match requests_get w url params with
  | Ok page => raise_for_status page = Raise requests_HTTPError
  | Raise e => is_RequestException e = true
  end.

Definition is_request (ev : event) : bool :=
  match ev with EvRequest _ _ => true | _ => false end.
Definition is_translate (ev : event) : bool :=
  match ev with EvTranslate _ => true | _ => false end.

(** The requests to the film database among some operations. *)
Definition imdb_requests (evs : list event) : list event :=
  List.filter (fun ev => match ev with
                         | EvRequest url _ => starts_with (py "http://www.imdb.com/") url
                         | _ => false
                         end) evs.
(** The translation calls among some operations. *)
Definition translations (evs : list event) : list event := List.filter is_translate evs.

(** A search result page whose first title links to [href]. *)
Definition titles_page (href : pystr) : element :=
  with_elements XFindTitles [with_string XFirstResultHref href blank] blank.

(** The request of a title search. *)
Definition search_request (title : pyval) : event :=
  EvRequest (py "http://www.imdb.com/find") (find_params title).

(** The title search for [title] finds nothing: its page has no 'Titles'
    section. *)
Definition search_finds_nothing (w : World) (title : pyval) : Prop :=
  exists doc, search_page w title doc /\ xpath_elements doc XFindTitles = [].

(** A web like [small_web] whose film database has no titles at all. *)
Definition empty_database (special title : pystr) : World := {|
  unicode_decimal := fun _ => None;
  requests_get := requests_get (small_web special title []);
  lh_fromstring := fun t =>
    if pystr_eqb t (py "find") then Ok blank else lh_fromstring (small_web special title []) t;
  goslate_translate := fun _ => Raise urllib_HTTPError;
  py_float := fun _ => Raise ValueError;
|}.

(** ** Notions used in the statements about the extractors *)

(** The string has no colon. *)
Definition colon_free (s : pystr) : bool := forallb (fun c => negb (58 =? c)%N) s.

(** The string has no comma. *)
Definition comma_free (s : pystr) : bool := forallb (fun c => negb (44 =? c)%N) s.

(** Nothing, or a colon and more text. *)
Definition colon_tail (s : pystr) : Prop := s = [] \/ exists more, s = 58%N :: more.

(** A detail page whose technology line reads [s]. *)
Definition tech_page (s : pystr) : element := with_string XTeZienIn s blank.

(** A detail page whose genre line reads [s]. *)
Definition genre_page (s : pystr) : element := with_string XGenre s blank.

(** An entry of the directors-and-cast slider has a name, its first text;
    is marked as director. *)
Definition has_name (person : element) : bool :=
  match xpath_strings person XSpanText with [] => false | _ :: _ => true end.
Definition person_name (person : element) : pystr :=
  match xpath_strings person XSpanText with [] => [] | name :: _ => name end.
Definition is_director (person : element) : bool :=
  match xpath_elements person XRegisseurEm with [] => false | _ :: _ => true end.

(** An ASCII whitespace character. *)
Definition ascii_space (c : N) : bool := isspace c && (c <? 128)%N.

(** A non-empty run of whitespace, of ASCII whitespace. *)
Definition spaces (s : pystr) : bool := nonempty s && forallb isspace s.
Definition ascii_spaces (s : pystr) : bool := nonempty s && forallb ascii_space s.

(** A detail page whose duration line reads [s]. *)
Definition duration_page (s : pystr) : element := with_string XDuur s blank.

(** ** Notions used in the statements about dates *)

(** The number two ASCII digits spell. *)
Definition two_digits (d1 d2 : N) : Z := (10 * (Z.of_N d1 - 48) + (Z.of_N d2 - 48))%Z.

(** The string has no whitespace character. *)
Definition no_space (s : pystr) : bool := forallb (fun c => negb (isspace c)) s.

(** The pieces of the pattern of [strptime]: the day, the month. *)
Definition strptime_day_group (w : World) : regex :=
  RGroup (ralt [rseq [RChar 51; RClass (range 48 49)];
                rseq [RClass (range 49 50); RClass (isdecimal w)];
                rseq [RChar 48; RClass (range 49 57)];
                RClass (range 49 57);
                rseq [RChar 32; RClass (range 49 57)]]).
Definition strptime_month_group : regex :=
  RGroup (ralt [rseq [RChar 49; RClass (range 48 50)];
                rseq [RChar 48; RClass (range 49 57)];
                RClass (range 49 57)]).

(** The pattern of a dated label after its first part. *)
Definition precise_date_tail (w : World) : regex :=
  rseq [RClass isspace; RGroup (RTimes (isdecimal w) 2); RClass isspace;
        RGroup (RTimes lower_az 3); REnd].

(** The month as [normalize_date] writes it: two digits. *)
Definition month_two_digits (month : Z) : pystr :=
  if (month <? 10)%Z then py "0" ++ py_str_of_Z month else py_str_of_Z month.

(** The clock at noon of 2024-06-10. *)
Definition noon_june_10 : datetime := mkdatetime (mkdate 2024 6 10) 12 0 0 0.

(** A dated label: anything on one line, a whitespace character, two
    decimal digits, a whitespace character, three letters of a to z, and
    possibly a final newline. *)
Definition dated_form (w : World) (label : pystr) : Prop :=
  exists prefix ws1 dd ws2 abbr nl,
    label = prefix ++ ws1 :: dd ++ ws2 :: abbr ++ nl
    /\ single_line prefix = true /\ isspace ws1 = true
    /\ length dd = 2 /\ forallb (isdecimal w) dd = true /\ isspace ws2 = true
    /\ length abbr = 3 /\ forallb lower_az abbr = true
    /\ (nl = [] \/ nl = [NEWLINE]).

(** The labels of the first three branches of [normalize_date]. *)
Definition RELATIVE_LABELS : list pystr := py "vandaag" :: py "morgen" :: DAYS_OF_WEEK.

(** The number a string of ASCII digits spells. *)
Definition digits_value (s : pystr) : Z :=
  fold_left (fun acc c => 10 * acc + (Z.of_N c - 48))%Z s 0%Z.

(** A detail page whose release date reads [s]. *)
Definition release_date_page (s : pystr) : element := with_string XReleaseDate s blank.

(** Nothing, or the separator ': ' and more text. *)
Definition colon_space_tail (s : pystr) : Prop := s = [] \/ exists more, s = py ": " ++ more.

(** A detail page whose language line reads [s]. *)
Definition language_page (s : pystr) : element := with_string XTaalversie s blank.

(** ** Showtime parser

    The two schedule functions ask queries of their own. A link of a
    schedule row is seen through [string(@href)] and [span/text()], a row
    through [th/text()] and [td/a], and the page through the query for the
    ids of the schedule tables and through the query for the rows of one
    table, whose text is built from the cinema's name. *)
Record showtime_link : Type := { link_href : pystr; link_span_texts : list pystr }.

Record showtime_row : Type := { row_th_texts : list pystr; row_links : list showtime_link }.

Record schedule_doc : Type := {
  (** //section[@id='ScheduleContainer']/section[@id='MovieScheduleDetails']/section/div/div/table/@id *)
  schedule_table_ids : list pystr;
  (** [.xpath(query)] for a query that selects rows, or the exception of
      a query that cannot be evaluated *)
  xpath_rows : pystr -> res (list showtime_row);
}.

Fixpoint res_map {A B} (f : A -> res B) (l : list A) : res (list B) :=
  match l with
  | [] => Ok []
  | a :: l' => (let* b := f a in let* bs := res_map f l' in Ok (b :: bs))%res
  end.

Definition get_movie_cinemas (movie_page_doc : schedule_doc) : res (list pystr) :=
  res_map (fun cinema => py_getitem (py_split (py "_") cinema) 1)
          (schedule_table_ids movie_page_doc).

(** '//table[@id=<quote>Schedule_{0}<quote>]/tr'.format(cinema), the quote
    being the double one (code point 34). *)
Definition schedule_rows_query (cinema : pystr) : pystr :=
  py "//table[@id=" ++ [34%N] ++ py "Schedule_" ++ cinema ++ [34%N] ++ py "]/tr".

(** A showtime: its id, its moment and its technology. *)
Definition showtime_tuple : Type := Z * datetime * pystr.

(** The date of a [date] or of a [datetime]. *)
Definition date_of (d : pydate) : date :=
  match d with
  | PDate d => d
  | PDatetime t => dt_date t
  end.

(** [datetime.datetime.combine(d, t)] for a time [t] of hours and minutes. *)
Definition combine (d : pydate) (t : Z * Z) : datetime :=
  mkdatetime (date_of d) (fst t) (snd t) 0 0.

(** ^javascript:openPopup\('https://onlinetickets.pathe.nl/ticketweb.php?.*&ShowID=(\d+)&.*'\)$
    The dots of the address are the pattern's (any character), and so is
    the question mark: the p before it is optional. *)
Definition popup_regex (w : World) : regex :=
  rseq [RLit "javascript:openPopup('https://onlinetickets"; RClass dot; RLit "pathe";
        RClass dot; RLit "nl/ticketweb"; RClass dot; RLit "ph";
        RRep (N.eqb 112) 0 (Some 1); RStar dot; RLit "&ShowID=";
        RGroup (RPlus (isdecimal w)); RChar 38; RStar dot; RLit "')"; REnd].

(** ^/tickets/start/(\d+)$ *)
Definition tickets_regex (w : World) : regex :=
  rseq [RLit "/tickets/start/"; RGroup (RPlus (isdecimal w)); REnd].

(** ^(\d{2}:\d{2})(.* )$ *)
Definition showtime_time_regex (w : World) : regex :=
  rseq [RGroup (rseq [RTimes (isdecimal w) 2; RChar 58; RTimes (isdecimal w) 2]);
        RGroup (RStar dot); REnd].

(** [datetime.datetime.strptime(s, '%H:%M').time()]. The format becomes
    the pattern (2[0-3]|[0-1]\d|\d):([0-5]\d|\d) and the whole of [s] has
    to be matched. *)
Definition strptime_HM_regex (w : World) : regex :=
  let d := isdecimal w in
  rseq [RGroup (ralt [rseq [RChar 50; RClass (range 48 51)];
                      rseq [RClass (range 48 49); RClass d];
                      RClass d]);
        RChar 58;
        RGroup (ralt [rseq [RClass (range 48 53); RClass d]; RClass d])].

Definition strptime_HM (w : World) (s : pystr) : res (Z * Z) :=
  match re_match_rest (strptime_HM_regex w) s with
  | Some ([h; m], []) => Ok (py_int w h, py_int w m)
  | _ => Raise ValueError
  end.

(** [re.match(r, s).group(1)]. *)
Definition match_group_1 (r : regex) (s : pystr) : res pystr :=
  match re_match r s with
  | Some (group1 :: _) => Ok group1
  | Some [] => Raise IndexError
  | None => Raise AttributeError       (* [None.group(1)] *)
  end.

Section Showtimes.

Variable w : World.
Variable g : globals.
(** [datetime_to_utc]: the conversion pytz makes from Amsterdam time to
    UTC, or the exception it raises. *)
Variable datetime_to_utc : datetime -> res datetime.
(** The readings of [datetime.datetime.now()] made during a call, in
    order. *)
Variable clock : nat -> datetime.

(** [normalize_date] after [n] readings of the clock. A call that returns
    has read the clock twice for a dated label and not at all for the
    relative ones; the count after a call that raises is not used. *)
Definition normalize_date_at (n : nat) (day_name : pystr) : res pydate * nat :=
  (normalize_date w g (clock n) (clock (S n)) day_name,
   if py_in day_name RELATIVE_LABELS then n else S (S n)).

(** The body of the loop over the links of a row, for a link that is not
    sold out. *)
Definition showtime_of_link (showtime_date : pydate) (showtime : showtime_link)
    : io showtime_tuple :=
  (let showtime_url := link_href showtime in
   let* showtime_id :=
     io_lift (if py_contains (py "javascript:openPopup") showtime_url
              then match_group_1 (popup_regex w) showtime_url
              else match_group_1 (tickets_regex w) showtime_url) in
   let showtime_id := py_int w showtime_id in
   let showtime_items := map squeeze (link_span_texts showtime) in
   let showtime_items :=
     if (length showtime_items <? 2)%nat then showtime_items ++ [py "2D"]
     else showtime_items in
   let* item1 := io_lift (py_getitem showtime_items 1) in
   let showtime_items :=
     if negb (py_in item1 PATHE_TECHNOLOGIES) then <[1%nat := py "2D"]> showtime_items
     else showtime_items in
   let* item0 := io_lift (py_getitem showtime_items 0) in
   match re_match (showtime_time_regex w) item0 with
   | None => io_raise AttributeError       (* [None.groups()] *)
   | Some showtime_time_groups =>
       let* extra := io_lift (py_getitem showtime_time_groups 1) in
       let* _ :=
         if nonempty extra
         then io_emit (EvPrint [py "Something special about this showtime: " ++ extra])
         else io_ret tt in
       let* hhmm := io_lift (py_getitem showtime_time_groups 0) in
       let* showtime_time := io_lift (strptime_HM w hhmm) in
       let showtime_datetime := combine showtime_date showtime_time in
       let* showtime_datetime := io_lift (datetime_to_utc showtime_datetime) in
       let* technology := io_lift (py_getitem showtime_items 1) in
       io_ret (showtime_id, showtime_datetime, technology)
   end)%io.

(** [for showtime in showtimes: ...] *)
Fixpoint showtimes_loop (showtime_date : pydate) (showtimes : list showtime_link)
    (cinema_movie_showtimes : list showtime_tuple) : io (list showtime_tuple) :=
  match showtimes with
  | [] => io_ret cinema_movie_showtimes
  | showtime :: rest =>
      if pystr_eqb (link_href showtime) (py "#modal-soldout")
      then showtimes_loop showtime_date rest cinema_movie_showtimes
      else
        (let* item := showtime_of_link showtime_date showtime in
         showtimes_loop showtime_date rest (cinema_movie_showtimes ++ [item]))%io
  end.

(** [for showtime_day in showtime_days: ...], after [n] readings of the
    clock. *)
Fixpoint showtime_days_loop (showtime_days : list showtime_row) (n : nat)
    (cinema_movie_showtimes : list showtime_tuple) : io (list showtime_tuple) :=
  match showtime_days with
  | [] => io_ret cinema_movie_showtimes
  | showtime_day :: rest =>
      let day_name := row_th_texts showtime_day in
      if (1 <? length day_name)%nat
      then showtime_days_loop rest n cinema_movie_showtimes
      else
        (let* day_name := io_lift (py_getitem day_name 0) in
         let* showtime_date := io_lift (fst (normalize_date_at n day_name)) in
         let* cinema_movie_showtimes :=
           showtimes_loop showtime_date (row_links showtime_day) cinema_movie_showtimes in
         showtime_days_loop rest (snd (normalize_date_at n day_name))
           cinema_movie_showtimes)%io
  end.

Definition get_movie_showtimes_for_cinema (movie_page_doc : schedule_doc)
    (cinema : pystr) : io (list showtime_tuple) :=
  (let* showtime_days :=
     io_lift (xpath_rows movie_page_doc (schedule_rows_query cinema)) in
   showtime_days_loop showtime_days 0 [])%io.

End Showtimes.

(** ** Notions used in the statements about showtimes *)

(** The technologies a showtime can have. *)
Definition SHOWTIME_TECHNOLOGIES : list pystr := py "2D" :: PATHE_TECHNOLOGIES.

Definition technology_of (s : showtime_tuple) : pystr := snd s.
Definition id_of (s : showtime_tuple) : Z := fst (fst s).
Definition moment_of (s : showtime_tuple) : datetime := snd (fst s).

(** A link that is sold out; a row that is taken for a day: it has no
    more than one header text. *)
Definition sold_out (l : showtime_link) : bool :=
  pystr_eqb (link_href l) (py "#modal-soldout").
Definition day_row (r : showtime_row) : bool := negb (1 <? length (row_th_texts r))%nat.

(** The rows and links that are not skipped. *)
Definition bookable (r : showtime_row) : showtime_row :=
  {| row_th_texts := row_th_texts r;
     row_links := List.filter (fun l => negb (sold_out l)) (row_links r) |}.
Definition bookable_rows (rows : list showtime_row) : list showtime_row :=
  map bookable (List.filter day_row rows).

(** The page without the rows and links that are skipped. *)
Definition bookable_doc (doc : schedule_doc) : schedule_doc :=
  {| schedule_table_ids := schedule_table_ids doc;
     xpath_rows := fun query =>
       match xpath_rows doc query with
       | Ok rows => Ok (bookable_rows rows)
       | Raise e => Raise e
       end |}.

(** The links of the rows that are not skipped, in page order, each with
    the header text of its row. *)
Definition labelled_links (rows : list showtime_row) : list (pystr * showtime_link) :=
  flat_map (fun r => map (fun l => (List.hd [] (row_th_texts r), l)) (row_links r))
           (bookable_rows rows).

(** A schedule table for the statements: a day with an ordinary showtime,
    one that is sold out and one behind a popup; a row of white space; a
    dated day with a showtime in the night. *)
Definition popup_href : pystr :=
  py "javascript:openPopup('https://onlinetickets.pathe.nl/ticketweb.php?sign=30&UserCenterID=1&ShowID=4567&lang=nl')".

Definition arena_rows : list showtime_row :=
  [{| row_th_texts := [py "vandaag"];
      row_links := [{| link_href := py "/tickets/start/123";
                       link_span_texts := [py "20:30"; py " IMAX 3D "] |};
                    {| link_href := py "#modal-soldout"; link_span_texts := [] |};
                    {| link_href := popup_href; link_span_texts := [py "22:45"] |}] |};
   {| row_th_texts := [py " "; py " "]; row_links := [] |};
   {| row_th_texts := [py "woensdag 27 mei"];
      row_links := [{| link_href := py "/tickets/start/9";
                       link_span_texts := [py "23:59"; py "Nacht 27 op 28 mei"] |}] |}].

Definition arena_doc : schedule_doc :=
  {| schedule_table_ids := [py "Schedule_arena"];
     xpath_rows := fun query =>
       if pystr_eqb query (schedule_rows_query (py "arena")) then Ok arena_rows
       else Ok [] |}.

(** A conversion for the statements: the clock of Amsterdam taken for
    UTC. *)
Definition no_shift (t : datetime) : res datetime := Ok t.

Definition arena_showtimes : list showtime_tuple :=
  [(123%Z, mkdatetime (mkdate 2024 6 10) 20 30 0 0, py "IMAX3D");
   (4567%Z, mkdatetime (mkdate 2024 6 10) 22 45 0 0, py "2D");
   (9%Z, mkdatetime (mkdate 2024 5 27) 23 59 0 0, py "2D")].

(** The showtime [s] is the one of a link of a row with a given header
    text: the one the body of the inner loop makes of the link, with the
    date the header text is normalized to. *)
Definition showtime_from (w : World) (g : globals)
    (datetime_to_utc : datetime -> res datetime) (clock : nat -> datetime)
    (ll : pystr * showtime_link) (s : showtime_tuple) : Prop :=
  exists n showtime_date evs,
    fst (normalize_date_at w g clock n (fst ll)) = Ok showtime_date
    /\ showtime_of_link w datetime_to_utc showtime_date (snd ll) = (Ok s, evs).

(** The two forms of the address of a showtime that is on sale: the
    address of the ticket shop with the id at its end, and the popup of the
    online shop with the id as its ShowID parameter. *)
Definition tickets_link (digits : pystr) : pystr := py "/tickets/start/" ++ digits.
Definition popup_link (a digits b : pystr) : pystr :=
  py "javascript:openPopup('https://onlinetickets.pathe.nl/ticketweb.php"
  ++ a ++ py "&ShowID=" ++ digits ++ py "&" ++ b ++ py "')".

(** [digits] is the id of the address [href]: the address has one of the
    two forms, in the popup with nothing but the end of a line missing
    around the id and no ShowID parameter after it. *)
Definition showtime_address (href digits : pystr) : Prop :=
  ascii_number digits = true
  /\ (href = tickets_link digits
      \/ exists a b,
           href = popup_link a digits b
           /\ single_line a = true /\ single_line b = true
           /\ py_contains (py "&ShowID=") (py "&" ++ b ++ py "')") = false).

(** The technology of a showtime, from the texts of its link after the
    first. *)
Definition technology_for (more : list pystr) : pystr :=
  match more with
  | [] => py "2D"
  | t :: _ => if py_in (squeeze t) PATHE_TECHNOLOGIES then squeeze t else py "2D"
  end.

(** What is printed about a showtime whose time is followed by [extra]. *)
Definition remark_about (extra : pystr) : list event :=
  if nonempty extra
  then [EvPrint [py "Something special about this showtime: " ++ extra]]
  else [].

(** The pieces of the pattern of [strptime] for a time: the hour, the
    minute. *)
Definition strptime_hour_group (w : World) : regex :=
  RGroup (ralt [rseq [RChar 50; RClass (range 48 51)];
                rseq [RClass (range 48 49); RClass (isdecimal w)];
                RClass (isdecimal w)]).
Definition strptime_minute_group (w : World) : regex :=
  RGroup (ralt [rseq [RClass (range 48 53); RClass (isdecimal w)]; RClass (isdecimal w)]).

(** The text of a time: two digits, a colon, two digits. *)
Definition time_text (h1 h2 m1 m2 : N) : pystr := [h1; h2; 58%N; m1; m2].

(** Links for the statements: a showtime in the large hall behind the
    popup, one at an impossible time, one without texts, one with a full
    address, one whose text is no time. *)
Definition popup_showtime : showtime_link :=
  {| link_href := popup_href; link_span_texts := [py "22:45 Grote zaal"; py "IMAX 3D"] |}.
Definition late_showtime : showtime_link :=
  {| link_href := py "/tickets/start/77"; link_span_texts := [py "24:00"] |}.
Definition bare_showtime : showtime_link :=
  {| link_href := py "/tickets/start/77"; link_span_texts := [] |}.
Definition absolute_showtime : showtime_link :=
  {| link_href := py "https://www.pathe.nl/tickets/start/77";
     link_span_texts := [py "20:30"] |}.
Definition untimed_showtime : showtime_link :=
  {| link_href := py "/tickets/start/77"; link_span_texts := [py "Nacht"; py "20:30"] |}.

(** The first character of a string is no decimal digit, or there is
    none. *)
Definition no_leading_digit (w : World) (s : pystr) : bool :=
  match s with
  | [] => true
  | c :: _ => negb (isdecimal w c)
  end.

(** The string has no underscore. *)
Definition underscore_free (s : pystr) : bool := forallb (fun c => negb (95 =? c)%N) s.

(** [name] is the part of the table id [id] between its first underscore
    and the second, or the end. *)
Definition cinema_of_id (id name : pystr) : Prop :=
  exists prefix tail,
    id = prefix ++ 95%N :: name ++ tail
    /\ underscore_free prefix = true /\ underscore_free name = true
    /\ (tail = [] \/ exists more, tail = 95%N :: more).

(** A page with the schedule tables of given ids. *)
Definition tables_doc (ids : list pystr) : schedule_doc :=
  {| schedule_table_ids := ids; xpath_rows := fun _ => Ok [] |}.

(** ** Numerals

    The digits of a string of ASCII digits as a decimal numeral of the
    standard library. *)
Definition digit_of (c : N) (d : Decimal.uint) : Decimal.uint :=
  match c with
  | 48%N => Decimal.D0 d | 49%N => Decimal.D1 d | 50%N => Decimal.D2 d
  | 51%N => Decimal.D3 d | 52%N => Decimal.D4 d | 53%N => Decimal.D5 d
  | 54%N => Decimal.D6 d | 55%N => Decimal.D7 d | 56%N => Decimal.D8 d
  | _ => Decimal.D9 d
  end.

Definition uint_of_digits (s : pystr) : Decimal.uint := fold_right digit_of Decimal.Nil s.

(** A run of the digit 0. *)
Definition zeros_only (s : pystr) : bool := forallb (N.eqb 48) s.

(** The string has no slash. *)
Definition slash_free (s : pystr) : bool := forallb (fun c => negb (47 =? c)%N) s.

(** The URL the listing worker makes of the link of a poster. *)
Definition poster_url (href : pystr) : pystr := py "http://www.pathe.nl" ++ href.

(** ** Notions used in the statements about titles *)

(** The text ends in a whitespace character and a parenthesized note,
    possibly followed by one line break, with no line break before the
    whitespace character nor in the note. *)
Definition trailing_note (s : pystr) : Prop :=
  exists t ws n nl,
    s = t ++ ws :: 40%N :: n ++ 41%N :: nl
    /\ single_line t = true /\ isspace ws = true /\ single_line n = true
    /\ (nl = [] \/ nl = [NEWLINE]).

(** The string has no parenthesis. *)
Definition paren_free (s : pystr) : bool :=
  forallb (fun c => negb (40 =? c)%N && negb (41 =? c)%N) s.

(** ** Notions used in the statements about restriction icons *)

(** The path is an icon of the icon directory with the given name: the
    directory, the name, any one character and 'png', possibly followed by
    one line break; the name and the character are no line breaks. *)
Definition icon_named (p name : pystr) : Prop :=
  exists c nl,
    p = KIJKWIJZER_DIR ++ name ++ c :: py "png" ++ nl
    /\ single_line name = true /\ dot c = true /\ (nl = [] \/ nl = [NEWLINE]).

(** The names with a tag. *)
Definition name_tag (name tag : pystr) : Prop :=
  (name = py "rating-onbekend-z" /\ tag = py "unknown")
  \/ (name = py "rating-nvt-z" /\ tag = py "n/a")
  \/ (name = py "kijkwijzer-" ++ tag /\ py_contains (py "kijkwijzer-") tag = false).

(** A name without a tag. *)
Definition unknown_name (name : pystr) : Prop :=
  name <> py "rating-onbekend-z" /\ name <> py "rating-nvt-z"
  /\ py_contains (py "kijkwijzer-") name = false.

(** What the extractor makes of one path: nothing when it is no icon of
    the directory, the tag of its name when it is one. *)
Inductive icon_reads : pystr -> option pystr -> Prop :=
| icon_skipped (p : pystr) : (forall name, ~ icon_named p name) -> icon_reads p None
| icon_tagged (p name tag : pystr) :
    icon_named p name -> name_tag name tag -> icon_reads p (Some tag).

(** * Properties *)

(** ** Translation adapter *)

Lemma nl_to_en_success w txt translated :
  goslate_translate w txt = Ok translated ->
  nl_to_en w txt = (Ok (PStr translated), [EvTranslate txt]).
Proof. intros H. unfold nl_to_en. cbn. rewrite H. reflexivity. Qed.

(** C10, as amended: when the translation call fails with
    [urllib.error.HTTPError] the adapter returns its input unchanged; a
    failure of any other class is raised to the caller. *)
Theorem nl_to_en_failure w txt e :
  goslate_translate w txt = Raise e ->
  nl_to_en w txt =
    (if is_urllib_HTTPError e then Ok txt else Raise e, [EvTranslate txt]).
Proof.
  intros H. unfold nl_to_en. cbn. rewrite H. cbn.
  destruct (is_urllib_HTTPError e); reflexivity.
Qed.

Lemma nl_to_en_failure_witness :
  nl_to_en (small_web [] [] []) (PStr (py "komedie"))
  = (Ok (PStr (py "komedie")), [EvTranslate (PStr (py "komedie"))]).
Proof.
  exact (nl_to_en_failure (small_web [] [] []) (PStr (py "komedie")) urllib_HTTPError eq_refl).
Defined.

(** C10 as stated fails: a connection failure ([urllib.error.URLError]) of
    the translation call is not swallowed. *)
Lemma nl_to_en_propagates_URLError :
  goslate_translate offline (PStr (py "komedie")) = Raise urllib_URLError /\
  fst (nl_to_en offline (PStr (py "komedie"))) = Raise urllib_URLError /\
  ~ (forall w txt e, goslate_translate w txt = Raise e -> fst (nl_to_en w txt) = Ok txt).
Proof.
  split; [reflexivity|]. split; [reflexivity|].
  intros H. specialize (H offline (PStr (py "komedie")) urllib_URLError eq_refl).
  discriminate H.
Qed.

(** ** Rating resolver: the keyword arguments *)

(** C9, as amended: a call with neither [title] nor [id] is rejected with a
    [RuntimeError] before any request is made; a call with a [title] is
    resolved by title whatever else is passed, so an [id] given next to a
    [title] is ignored. *)
Theorem get_movie_imdb_rating_keys w (kw : kwargs) :
  (kw !! "title"%string = None -> kw !! "id"%string = None ->
   get_movie_imdb_rating w kw
   = (Raise (RuntimeError "Either title or ID must be provided as a search term"), []))
  /\ (forall title, kw !! "title"%string = Some title ->
      get_movie_imdb_rating w kw = get_movie_imdb_rating w {[ "title"%string := title ]}).
Proof.
  split.
  - intros Ht Hi. unfold get_movie_imdb_rating. rewrite Ht, Hi. reflexivity.
  - intros title Ht. unfold get_movie_imdb_rating.
    rewrite Ht, lookup_singleton_eq. reflexivity.
Qed.

Lemma get_movie_imdb_rating_keys_witness :
  get_movie_imdb_rating offline ∅
  = (Raise (RuntimeError "Either title or ID must be provided as a search term"), [])
  /\ get_movie_imdb_rating (small_web [] amelie [py "9.3"]) both_keys
     = get_movie_imdb_rating (small_web [] amelie [py "9.3"])
         {[ "title"%string := PStr amelie ]}.
Proof.
  split.
  - exact (proj1 (get_movie_imdb_rating_keys offline ∅) eq_refl eq_refl).
  - exact (proj2 (get_movie_imdb_rating_keys (small_web [] amelie [py "9.3"]) both_keys)
             (PStr amelie) eq_refl).
Defined.

(** C9 as stated fails: a call that passes both a [title] and an [id] is
    not rejected; it returns the rating found by title. *)
Lemma get_movie_imdb_rating_accepts_both :
  both_keys !! "title"%string = Some (PStr amelie) /\
  both_keys !! "id"%string = Some (PInt 5) /\
  fst (get_movie_imdb_rating (small_web [] amelie [py "9.3"]) both_keys)
  = Ok (PInt 211915, Some rating_9_3).
Proof. split; [reflexivity|]. split; [reflexivity|]. vm_compute. reflexivity. Qed.

(** ** The matcher: greedy repetition *)

Section Greedy.
Context {X : Type} (p : N -> bool) (k : pystr -> option X).

(** The star gives back nothing it could keep: when no non-empty run of
    [p]-characters at the front of [s] leads to a match, the star stops
    at once. *)
Lemma rep_star_stop (s : pystr) :
  (forall t u, s = t ++ u -> t <> [] -> forallb p t = true -> k u = None) ->
  rep_match p 0 None s k = k s.
Proof.
  induction s as [|c s IH]; intros Hno; [reflexivity|].
  cbn [rep_match pred option_map may_take].
  destruct (p c) eqn:Hc; cbn [andb]; [|reflexivity].
  rewrite IH.
  - rewrite (Hno [c] s eq_refl); [reflexivity|discriminate|].
    cbn. rewrite Hc. reflexivity.
  - intros t u -> Ht Hp. apply (Hno (c :: t) u eq_refl); [discriminate|].
    cbn. rewrite Hc. exact Hp.
Qed.

(** The star takes the longest run that lets the rest of the pattern
    match. *)
Lemma rep_star_greedy (s1 s2 : pystr) (x : X) :
  forallb p s1 = true ->
  k s2 = Some x ->
  (forall t u, s2 = t ++ u -> t <> [] -> forallb p t = true -> k u = None) ->
  rep_match p 0 None (s1 ++ s2) k = Some x.
Proof.
  intros Hp Hk Hno. induction s1 as [|c s1 IH].
  - cbn [app]. rewrite rep_star_stop by exact Hno. exact Hk.
  - cbn in Hp. apply andb_prop in Hp as [Hc Hp].
    cbn [app rep_match pred option_map may_take]. rewrite Hc. cbn [andb].
    rewrite (IH Hp). reflexivity.
Qed.

(** A match of the star splits the string into a run of [p]-characters
    and a rest on which the rest of the pattern matched. *)
Lemma rep_star_inv (s : pystr) (x : X) :
  rep_match p 0 None s k = Some x ->
  exists t u, s = t ++ u /\ forallb p t = true /\ k u = Some x.
Proof.
  induction s as [|c s IH]; cbn [rep_match pred option_map may_take].
  - intros H. exists [], []. auto.
  - destruct (p c) eqn:Hc; cbn [andb].
    + destruct (rep_match p 0 None s k) as [y|] eqn:Hr.
      * intros [= ->]. destruct (IH eq_refl) as (t & u & -> & Hp & Hk).
        exists (c :: t), u. cbn. rewrite Hc. auto.
      * intros H. exists [], (c :: s). auto.
    + intros H. exists [], (c :: s). auto.
Qed.
End Greedy.

(** ** Title normalization *)

Lemma firstn_consumed {A} (a b : list A) :
  firstn (length (a ++ b) - length b) (a ++ b) = a.
Proof.
  rewrite length_app. replace (length a + length b - length b) with (length a) by lia.
  induction a as [|x a IH]; cbn; [destruct b; reflexivity|]. rewrite IH. reflexivity.
Qed.

(** A whitespace character directly followed by an opening parenthesis
    does not begin in a note without such a pair, nor in what follows the
    note when this has no opening parenthesis. *)
Lemma space_then_paren_tail (n tail a b : pystr) (c : N) :
  space_then_paren n = false -> forallb (fun d => negb (40 =? d)%N) tail = true ->
  n ++ tail = a ++ c :: 40%N :: b -> isspace c = false.
Proof.
  intros Hn Htail. revert a Hn. induction n as [|x n IH]; intros a Hn Heq.
  - cbn [app] in Heq. rewrite Heq, forallb_app in Htail.
    apply andb_prop in Htail as [_ Htail]. cbn in Htail.
    rewrite andb_false_r in Htail. discriminate Htail.
  - destruct a as [|y a].
    + cbn [app] in Heq. injection Heq as -> Heq.
      destruct n as [|d n].
      * cbn [app] in Heq. rewrite Heq in Htail. discriminate Htail.
      * cbn [app] in Heq. injection Heq as -> _.
        cbn in Hn. apply orb_false_elim in Hn as [Hn _].
        rewrite andb_true_r in Hn. exact Hn.
    + cbn [app] in Heq. injection Heq as _ Heq.
      apply (IH a); [|exact Heq].
      destruct n as [|d n]; [reflexivity|].
      cbn in Hn. apply orb_false_elim in Hn as [_ Hn]. exact Hn.
Qed.

(** On a title text that ends in a whitespace character and a
    parenthesized note, title and note on one line, the pattern matches and
    its first group is the text before the whitespace character, when the
    note has no whitespace character directly followed by an opening
    parenthesis, or the whitespace character is a line break. One final
    line break is allowed. *)
Lemma title_regex_reads (t n nl : pystr) (ws : N) :
  single_line t = true -> single_line n = true -> isspace ws = true ->
  nl = [] \/ nl = [NEWLINE] ->
  space_then_paren n = false \/ ws = NEWLINE ->
  re_match title_regex (t ++ ws :: 40%N :: n ++ 41%N :: nl)
  = Some [t; 40%N :: n ++ [41%N]].
Proof.
  intros Ht Hn Hws Hnl Hsp. unfold re_match, re_match_rest, title_regex.
  cbn [rseq fold_right rmatch].
  unfold RStar, RChar. cbn [rmatch].
  set (x := ([t; 40%N :: n ++ [41%N]], nl) : list pystr * pystr).
  assert (Hfree : forallb (fun d => negb (40 =? d)%N) (41%N :: nl) = true)
    by (destruct Hnl as [-> | ->]; reflexivity).
  rewrite (rep_star_greedy (X:=list pystr * pystr) dot _ t (ws :: 40%N :: n ++ 41%N :: nl) x);
    [reflexivity|exact Ht| |].
  - rewrite Hws. change (40 =? 40)%N with true. cbv iota.
    rewrite (rep_star_greedy (X:=list pystr * pystr) dot _ n (41%N :: nl) x);
      [reflexivity|exact Hn| |].
    + change (41 =? 41)%N with true. cbv iota. rewrite firstn_consumed.
      change (40%N :: n ++ 41%N :: nl) with ((40%N :: n) ++ [41%N] ++ nl).
      rewrite app_assoc, firstn_consumed. subst x.
      destruct Hnl as [-> | ->]; reflexivity.
    + intros t' u Heq Hne Hdot. destruct t' as [|a t']; [congruence|].
      injection Heq as _ Heq. destruct u as [|c u]; [reflexivity|].
      destruct (N.eqb 41 c) eqn:Hc; [|reflexivity]. exfalso.
      apply N.eqb_eq in Hc. subst c.
      destruct Hnl as [-> | ->]; destruct t' as [|? [|? ?]]; discriminate Heq.
  - intros t' u Heq Hne Hdot.
    destruct u as [|c u]; [reflexivity|].
    destruct (isspace c) eqn:Hc; [|reflexivity].
    destruct u as [|d u]; [reflexivity|].
    destruct (N.eqb 40 d) eqn:Hd; [|reflexivity].
    apply N.eqb_eq in Hd. subst d. exfalso.
    destruct t' as [|a t']; [congruence|].
    injection Heq as <- Heq.
    destruct Hsp as [Hsp| ->]; [|discriminate Hdot].
    destruct t' as [|a' t'].
    + cbn in Heq. injection Heq as Heq _. subst c. discriminate Hc.
    + injection Heq as _ Heq.
      rewrite (space_then_paren_tail n (41%N :: nl) t' u c Hsp Hfree Heq) in Hc.
      discriminate Hc.
Qed.

(** A title text the pattern matches ends in a whitespace character and a
    parenthesized note, possibly followed by one line break; there is no
    line break before the whitespace character nor in the note. *)
Lemma title_regex_inv (s : pystr) (groups : list pystr) :
  re_match title_regex s = Some groups -> trailing_note s.
Proof.
  unfold re_match, re_match_rest, title_regex.
  cbn [rseq fold_right rmatch]. unfold RStar, RChar. cbn [rmatch].
  destruct (rep_match _ _ _ _ _) as [x|] eqn:Hm; [|discriminate].
  intros _. apply rep_star_inv in Hm as (t & u & -> & Ht & Hk).
  destruct u as [|c u]; [discriminate|].
  destruct (isspace c) eqn:Hc; [|discriminate].
  destruct u as [|d u]; [discriminate|].
  destruct (N.eqb 40 d) eqn:Hd; [|discriminate].
  apply N.eqb_eq in Hd. subst d.
  apply rep_star_inv in Hk as (t2 & u2 & -> & Ht2 & Hk).
  destruct u2 as [|e u2]; [discriminate|].
  destruct (N.eqb 41 e) eqn:He; [|discriminate].
  apply N.eqb_eq in He. subst e.
  exists t, c, t2, u2. repeat split; try assumption.
  destruct u2 as [|f [|? ?]]; [left; reflexivity| |discriminate].
  destruct (N.eqb f NEWLINE) eqn:Hf; [|discriminate].
  apply N.eqb_eq in Hf. subst f. right. reflexivity.
Qed.

Lemma get_movie_title_unfold (doc : element) :
  get_movie_title doc =
    match re_match title_regex (raw_title doc) with
    | Some (group1 :: _) => group1
    | _ => raw_title doc
    end.
Proof. reflexivity. Qed.

(** C6, as amended: when the title text is a title, one whitespace
    character and a parenthesized note, possibly followed by one final line
    break, title and note without a line break, and the note has no
    whitespace character directly followed by an opening parenthesis (or
    the whitespace character before the note is a line break), the
    normalized title is that title; a title text that has no such trailing
    note, whatever is taken for the title, is returned unchanged. *)
Theorem get_movie_title_normalizes (doc : element) :
  (forall t ws n nl,
     raw_title doc = t ++ ws :: 40%N :: n ++ 41%N :: nl ->
     single_line t = true -> single_line n = true -> isspace ws = true ->
     nl = [] \/ nl = [NEWLINE] ->
     space_then_paren n = false \/ ws = NEWLINE ->
     get_movie_title doc = t)
  /\ (~ trailing_note (raw_title doc) -> get_movie_title doc = raw_title doc).
Proof.
  split.
  - intros t ws n nl Hraw Ht Hn Hws Hnl Hsp. rewrite get_movie_title_unfold, Hraw.
    rewrite title_regex_reads by assumption. reflexivity.
  - intros Hno. rewrite get_movie_title_unfold.
    destruct (re_match title_regex (raw_title doc)) as [groups|] eqn:Hm; [|reflexivity].
    destruct Hno. exact (title_regex_inv _ _ Hm).
Qed.

Lemma get_movie_title_normalizes_witness :
  get_movie_title (titled (amelie ++ py " (French with subtitles)")) = amelie
  /\ get_movie_title (titled (py "Foo (a) (b)")) = py "Foo (a)"
  /\ get_movie_title (titled (py "Film" ++ [NEWLINE] ++ py "(x)" ++ [NEWLINE])) = py "Film"
  /\ get_movie_title (titled amelie) = amelie
  /\ get_movie_title (titled (py "Film (x")) = py "Film (x"
  /\ get_movie_title (titled ([NEWLINE] ++ py "Film (x)")) = [NEWLINE] ++ py "Film (x)".
Proof.
  split; [|split; [|split; [|split; [|split]]]].
  - apply (proj1 (get_movie_title_normalizes
                    (titled (amelie ++ py " (French with subtitles)")))
             amelie 32%N (py "French with subtitles") []); try reflexivity;
      left; reflexivity.
  - apply (proj1 (get_movie_title_normalizes (titled (py "Foo (a) (b)")))
             (py "Foo (a)") 32%N (py "b") []); try reflexivity; left; reflexivity.
  - apply (proj1 (get_movie_title_normalizes
                    (titled (py "Film" ++ [NEWLINE] ++ py "(x)" ++ [NEWLINE])))
             (py "Film") NEWLINE (py "x") [NEWLINE]); try reflexivity;
      right; reflexivity.
  - apply (proj2 (get_movie_title_normalizes (titled amelie))).
    intros (t & ws & n & nl & H & _).
    assert (Hin : In 40%N (raw_title (titled amelie)))
      by (rewrite H; apply in_or_app; right; right; left; reflexivity).
    vm_compute in Hin. repeat (destruct Hin as [Hin|Hin]; [discriminate Hin|]).
    exact Hin.
  - apply (proj2 (get_movie_title_normalizes (titled (py "Film (x")))).
    intros (t & ws & n & nl & H & _).
    assert (Hin : In 41%N (raw_title (titled (py "Film (x"))))
      by (rewrite H; apply in_or_app; right; right; right; apply in_or_app; right; left;
          reflexivity).
    vm_compute in Hin. repeat (destruct Hin as [Hin|Hin]; [discriminate Hin|]).
    exact Hin.
  - apply (proj2 (get_movie_title_normalizes (titled ([NEWLINE] ++ py "Film (x)")))).
    intros (t & ws & n & nl & H & Ht & _).
    destruct t as [|c t].
    + injection H as _ H. discriminate H.
    + injection H as <- _. discriminate Ht.
Defined.

(** C6 as stated fails, also for titles and notes without any
    parenthesis of their own: the pattern reads one line, so a title text
    that begins with a line break keeps its note, and so does one with a
    line break in the note. *)
Lemma get_movie_title_line_break_keeps_note :
  get_movie_title (titled ([NEWLINE] ++ py "Film" ++ py " (" ++ py "x" ++ py ")"))
  = [NEWLINE] ++ py "Film (x)"
  /\ get_movie_title (titled (py "Film" ++ py " (" ++ (py "a" ++ [NEWLINE] ++ py "b") ++ py ")"))
     = py "Film (a" ++ [NEWLINE] ++ py "b)"
  /\ ~ (forall t n,
          paren_free t = true -> paren_free n = true ->
          get_movie_title (titled (t ++ py " (" ++ n ++ py ")")) = t).
Proof.
  split; [reflexivity|]. split; [reflexivity|].
  intros H. specialize (H ([NEWLINE] ++ py "Film") (py "x") eq_refl eq_refl).
  discriminate H.
Qed.

(** ** Content restrictions *)

(** A literal matches exactly the strings that start with it. *)
Lemma rmatch_literal {X} (l s : pystr) (caps : list pystr)
    (k : pystr -> list pystr -> option X) :
  rmatch (fold_right (fun c r => RSeq (RChar c) r) REmpty l) s caps k
  = if starts_with l s then k (skipn (length l) s) caps else None.
Proof.
  revert s. induction l as [|c l IH]; intros s; [reflexivity|].
  cbn [fold_right rmatch RChar starts_with length skipn].
  destruct s as [|d s]; [reflexivity|].
  destruct (N.eqb c d); cbn [andb]; [apply IH|reflexivity].
Qed.

Lemma starts_with_skipn (l s : pystr) :
  starts_with l s = true -> s = l ++ skipn (length l) s.
Proof.
  revert s. induction l as [|a l IH]; intros s; [reflexivity|].
  destruct s as [|b s]; [discriminate|]. cbn [starts_with length skipn app].
  intros H. apply andb_prop in H as [Hab H]. apply N.eqb_eq in Hab. subst b.
  rewrite <- (IH s H). reflexivity.
Qed.

Lemma starts_with_app (l s : pystr) : starts_with l (l ++ s) = true.
Proof. induction l as [|a l IH]; [reflexivity|]. cbn. rewrite N.eqb_refl. exact IH. Qed.

Lemma skipn_app_length {A} (l s : list A) : skipn (length l) (l ++ s) = s.
Proof. induction l as [|a l IH]; [reflexivity|]. exact IH. Qed.

Lemma split_sep_aux_nonempty (sep s cur : pystr) (skip : nat) :
  split_sep_aux sep s cur skip <> [].
Proof.
  revert cur skip. induction s as [|d s IH]; intros cur skip; [discriminate|].
  cbn [split_sep_aux]. destruct skip; [|apply IH].
  destruct (starts_with sep (d :: s)); [discriminate|apply IH].
Qed.

(** Splitting a string in which the separator does not occur. *)
Lemma split_sep_aux_absent (sep s cur : pystr) :
  py_contains sep s = false -> split_sep_aux sep s cur 0 = [rev cur ++ s].
Proof.
  revert cur. induction s as [|c s IH]; intros cur H.
  - cbn. rewrite app_nil_r. reflexivity.
  - cbn [py_contains] in H. apply orb_false_elim in H as [Hs H].
    cbn [split_sep_aux]. rewrite Hs, (IH (c :: cur) H). cbn [rev].
    rewrite <- app_assoc. reflexivity.
Qed.

Lemma py_contains_unfold (sub s : pystr) :
  py_contains sub s
  = starts_with sub s || match s with [] => false | _ :: s' => py_contains sub s' end.
Proof. destruct s; reflexivity. Qed.

(** The characters of an occurrence that are still to drop are dropped. *)
Lemma split_sep_aux_skip (sep l s cur : pystr) :
  split_sep_aux sep (l ++ s) cur (length l) = split_sep_aux sep s cur 0.
Proof.
  induction l as [|c l IH]; [destruct s; reflexivity|]. cbn [app length split_sep_aux].
  exact IH.
Qed.

(** Splitting a string that starts with the separator. *)
Lemma split_sep_aux_prefix (c : N) (sep s : pystr) :
  split_sep_aux (c :: sep) ((c :: sep) ++ s) [] 0 = [] :: split_sep_aux (c :: sep) s [] 0.
Proof.
  cbn [app split_sep_aux]. change (c :: sep ++ s) with ((c :: sep) ++ s).
  rewrite starts_with_app. cbn [rev length pred]. rewrite split_sep_aux_skip. reflexivity.
Qed.

(** A string in which the separator occurs splits into two pieces at
    least. *)
Lemma split_sep_aux_two (c : N) (sep s cur : pystr) :
  py_contains (c :: sep) s = true ->
  exists a b rest, split_sep_aux (c :: sep) s cur 0 = a :: b :: rest.
Proof.
  revert cur. induction s as [|d s IH]; intros cur H; [discriminate H|].
  cbn [split_sep_aux]. cbn [py_contains] in H.
  destruct (starts_with (c :: sep) (d :: s)) eqn:Hs.
  - pose proof (split_sep_aux_nonempty (c :: sep) s [] (pred (length (c :: sep)))) as Hne.
    destruct (split_sep_aux (c :: sep) s [] _) as [|b rest]; [congruence|].
    exists (rev cur), b, rest. reflexivity.
  - cbn [orb] in H. exact (IH (d :: cur) H).
Qed.

Lemma restriction_regex_named (p name : pystr) :
  icon_named p name -> re_match restriction_regex p = Some [name].
Proof.
  intros (c & nl & -> & Hn & Hc & Hnl).
  unfold re_match, re_match_rest, restriction_regex, RLit.
  cbn [rseq fold_right rmatch].
  change (py "/themes/main/gfx/icons/kijkwijzer/") with KIJKWIJZER_DIR.
  rewrite rmatch_literal, starts_with_app, skipn_app_length.
  unfold RStar. cbn [rmatch].
  rewrite (rep_star_greedy (X:=list pystr * pystr) dot _ name (c :: py "png" ++ nl)
             ([name], nl)); [reflexivity|exact Hn| |].
  - rewrite Hc. rewrite rmatch_literal, starts_with_app, skipn_app_length, firstn_consumed.
    destruct Hnl as [-> | ->]; reflexivity.
  - intros t u Heq Hne _. change (py "png") with [112%N; 110%N; 103%N] in Heq.
    destruct t as [|a1 t]; [congruence|]. injection Heq as _ Heq.
    destruct Hnl as [-> | ->]; cbn [app] in Heq;
      repeat (destruct t as [|? t];
              [cbn [app] in Heq; subst u; reflexivity
              |first [injection Heq as _ Heq|discriminate Heq]]).
Qed.

Lemma restriction_regex_inv (p : pystr) (groups : list pystr) :
  re_match restriction_regex p = Some groups ->
  exists name, groups = [name] /\ icon_named p name.
Proof.
  unfold re_match, re_match_rest, restriction_regex, RLit.
  cbn [rseq fold_right rmatch].
  change (py "/themes/main/gfx/icons/kijkwijzer/") with KIJKWIJZER_DIR.
  rewrite rmatch_literal.
  destruct (starts_with KIJKWIJZER_DIR p) eqn:Hdir; [|discriminate].
  apply starts_with_skipn in Hdir.
  set (rest := skipn (length KIJKWIJZER_DIR) p) in *.
  unfold RStar. cbn [rmatch].
  destruct (rep_match _ _ _ _ _) as [x|] eqn:Hm; [|discriminate].
  intros [= <-]. apply rep_star_inv in Hm as (t & u & Hrest & Ht & Hk).
  rewrite Hrest in Hk. rewrite firstn_consumed in Hk.
  destruct u as [|c u]; [discriminate Hk|].
  destruct (dot c) eqn:Hc; [|discriminate Hk].
  rewrite rmatch_literal in Hk.
  destruct (starts_with (py "png") u) eqn:Hpng; [|discriminate Hk].
  apply starts_with_skipn in Hpng.
  set (nl := skipn (length (py "png")) u) in *.
  exists t. split.
  - destruct nl as [|f [|? ?]]; [injection Hk as <-; reflexivity| |discriminate Hk].
    destruct (N.eqb f NEWLINE); [injection Hk as <-; reflexivity|discriminate Hk].
  - exists c, nl. rewrite Hdir, Hrest, Hpng. repeat split; try assumption.
    destruct nl as [|f [|? ?]]; [left; reflexivity| |discriminate Hk].
    destruct (N.eqb f NEWLINE) eqn:Hf; [|discriminate Hk].
    apply N.eqb_eq in Hf. subst f. right. reflexivity.
Qed.

(** A path the pattern does not match is no icon of the directory, and
    the other way round. *)
Lemma restriction_regex_none (p : pystr) :
  re_match restriction_regex p = None <-> (forall name, ~ icon_named p name).
Proof.
  split.
  - intros Hnone name Hname. rewrite (restriction_regex_named p name Hname) in Hnone.
    discriminate Hnone.
  - intros Hno. destruct (re_match restriction_regex p) as [groups|] eqn:Hm; [|reflexivity].
    apply restriction_regex_inv in Hm as (name & _ & Hname). destruct (Hno name Hname).
Qed.

Lemma name_tag_ok (name tag : pystr) : name_tag name tag -> restriction_tag name = Ok tag.
Proof.
  intros [[-> ->]|[[-> ->]|[-> Hfree]]]; [reflexivity|reflexivity|].
  unfold restriction_tag, pystr_eqb.
  rewrite !bool_decide_eq_false_2 by (intros H; discriminate H).
  rewrite py_contains_unfold, starts_with_app. cbn [orb].
  unfold py_split. change (py "kijkwijzer-") with (107%N :: py "ijkwijzer-").
  rewrite split_sep_aux_prefix.
  rewrite (split_sep_aux_absent (107%N :: py "ijkwijzer-") tag [] Hfree). reflexivity.
Qed.

Lemma unknown_name_raises (name : pystr) :
  unknown_name name ->
  restriction_tag name = Raise (PatheMovieParseError "Unexpected restriction name").
Proof.
  intros (H1 & H2 & H3). unfold restriction_tag, pystr_eqb.
  rewrite !bool_decide_eq_false_2 by assumption. rewrite H3. reflexivity.
Qed.

(** The only exception the naming conventions raise is the parse error. *)
Lemma restriction_tag_raises (name : pystr) (e : exn) :
  restriction_tag name = Raise e ->
  e = PatheMovieParseError "Unexpected restriction name".
Proof.
  unfold restriction_tag.
  destruct (pystr_eqb name _); [discriminate|].
  destruct (pystr_eqb name _); [discriminate|].
  destruct (py_contains _ name) eqn:Hc; [|intros [= <-]; reflexivity].
  change (py "kijkwijzer-") with (107%N :: py "ijkwijzer-") in *.
  unfold py_split. destruct (split_sep_aux_two _ _ name [] Hc) as (a & b & rest & ->).
  discriminate.
Qed.

(** The loop on a page whose paths are all read or skipped. *)
Lemma restrictions_loop_reads (icons : list pystr) (outs : list (option pystr))
    (acc : list pystr) :
  Forall2 icon_reads icons outs -> restrictions_loop icons acc = Ok (acc ++ omap id outs).
Proof.
  intros Hall. revert acc.
  induction Hall as [|p out icons outs Hp Hall IH]; intros acc.
  - cbn. rewrite app_nil_r. reflexivity.
  - cbn [restrictions_loop]. destruct Hp as [p Hno|p name tag Hname Htag].
    + rewrite (proj2 (restriction_regex_none p) Hno). apply IH.
    + rewrite (restriction_regex_named p name Hname).
      cbn [py_getitem nth_error res_bind]. rewrite (name_tag_ok name tag Htag).
      cbn [res_bind]. rewrite IH, <- app_assoc. reflexivity.
Qed.

(** An icon with an unknown name makes the loop fail, whatever comes
    before it or after it. *)
Lemma restrictions_loop_unknown (before after acc : list pystr) (p name : pystr) :
  icon_named p name -> unknown_name name ->
  restrictions_loop (before ++ p :: after) acc
  = Raise (PatheMovieParseError "Unexpected restriction name").
Proof.
  intros Hname Hunknown. revert acc. induction before as [|q before IH]; intros acc.
  - cbn [app restrictions_loop]. rewrite (restriction_regex_named p name Hname).
    cbn [py_getitem nth_error res_bind]. rewrite (unknown_name_raises name Hunknown).
    reflexivity.
  - cbn [app restrictions_loop].
    destruct (re_match restriction_regex q) as [groups|] eqn:Hq; [|apply IH].
    apply restriction_regex_inv in Hq as (qname & -> & _).
    cbn [py_getitem nth_error res_bind].
    destruct (restriction_tag qname) as [tag|e] eqn:Htag; cbn [res_bind]; [apply IH|].
    rewrite (restriction_tag_raises qname e Htag). reflexivity.
Qed.

Lemma restrictions_loop_skip (before after acc : list pystr) (p : pystr) :
  (forall name, ~ icon_named p name) ->
  restrictions_loop (before ++ p :: after) acc = restrictions_loop (before ++ after) acc.
Proof.
  intros Hp. apply restriction_regex_none in Hp.
  revert acc. induction before as [|q before IH]; intros acc.
  - cbn [app restrictions_loop]. rewrite Hp. reflexivity.
  - cbn [app restrictions_loop].
    destruct (re_match restriction_regex q) as [groups|]; [|apply IH].
    destruct (py_getitem groups 0) as [name|e]; [|reflexivity]. cbn [res_bind].
    destruct (restriction_tag name) as [tag|e]; [|reflexivity]. cbn [res_bind].
    apply IH.
Qed.

(** C8, as amended: the extractor reads all icon paths of the page in
    order. The icon kijkwijzer-12.png of the icon directory gives the tag
    "12" and rating-onbekend-z.png gives "unknown"; a page whose paths are
    all either no icon of the directory or an icon named rating-onbekend-z,
    rating-nvt-z or kijkwijzer-<tag> gives the tags of its icons in page
    order; an icon of the directory, anywhere on the page, whose name is
    neither rating-onbekend-z nor rating-nvt-z and does not contain
    "kijkwijzer-" makes the extractor fail with the parse error; a path
    that is no icon of the directory is skipped: the result is that of the
    page without it. *)
Theorem get_movie_restrictions_cases :
  get_movie_restrictions (with_icons [KIJKWIJZER_DIR ++ py "kijkwijzer-12.png"])
  = Ok [py "12"]
  /\ get_movie_restrictions (with_icons [KIJKWIJZER_DIR ++ py "rating-onbekend-z.png"])
     = Ok [py "unknown"]
  /\ (forall doc outs,
        Forall2 icon_reads (xpath_strings doc XKijkwijzerSrc) outs ->
        get_movie_restrictions doc = Ok (omap id outs))
  /\ (forall doc before p after name,
        xpath_strings doc XKijkwijzerSrc = before ++ p :: after ->
        icon_named p name -> unknown_name name ->
        get_movie_restrictions doc
        = Raise (PatheMovieParseError "Unexpected restriction name"))
  /\ (forall doc before p after,
        xpath_strings doc XKijkwijzerSrc = before ++ p :: after ->
        (forall name, ~ icon_named p name) ->
        get_movie_restrictions doc = get_movie_restrictions (with_icons (before ++ after))).
Proof.
  split; [reflexivity|]. split; [reflexivity|]. split; [|split].
  - intros doc outs Hall. unfold get_movie_restrictions.
    exact (restrictions_loop_reads _ outs [] Hall).
  - intros doc before p after name Hsrc Hname Hunknown.
    unfold get_movie_restrictions. rewrite Hsrc.
    exact (restrictions_loop_unknown before after [] p name Hname Hunknown).
  - intros doc before p after Hsrc Hp. unfold get_movie_restrictions.
    rewrite Hsrc. exact (restrictions_loop_skip before after [] p Hp).
Qed.

Lemma get_movie_restrictions_cases_witness :
  get_movie_restrictions
    (with_icons [KIJKWIJZER_DIR ++ py "kijkwijzer-12.png"; py "/img/18.png";
                 KIJKWIJZER_DIR ++ py "rating-nvt-z.png"; KIJKWIJZER_DIR ++ py "png"])
  = Ok [py "12"; py "n/a"]
  /\ get_movie_restrictions
       (with_icons [KIJKWIJZER_DIR ++ py "kijkwijzer-12.png";
                    KIJKWIJZER_DIR ++ py "geweld.png"])
     = Raise (PatheMovieParseError "Unexpected restriction name")
  /\ get_movie_restrictions
       (with_icons [py "/img/18.png"; KIJKWIJZER_DIR ++ py "kijkwijzer-12.png"])
     = get_movie_restrictions (with_icons [KIJKWIJZER_DIR ++ py "kijkwijzer-12.png"]).
Proof.
  destruct get_movie_restrictions_cases as (_ & _ & Hreads & Hunknown & Hskip).
  split; [|split].
  - apply (Hreads _ [Some (py "12"); None; Some (py "n/a"); None]).
    constructor; [|constructor; [|constructor; [|constructor; [|constructor]]]].
    + apply (icon_tagged _ (py "kijkwijzer-12")).
      * exists 46%N, []. repeat split; try reflexivity. left. reflexivity.
      * right. right. split; reflexivity.
    + apply icon_skipped. apply restriction_regex_none. reflexivity.
    + apply (icon_tagged _ (py "rating-nvt-z")).
      * exists 46%N, []. repeat split; try reflexivity. left. reflexivity.
      * right. left. split; reflexivity.
    + apply icon_skipped. apply restriction_regex_none. reflexivity.
  - apply (Hunknown _ [KIJKWIJZER_DIR ++ py "kijkwijzer-12.png"]
             (KIJKWIJZER_DIR ++ py "geweld.png") [] (py "geweld")).
    + reflexivity.
    + exists 46%N, []. repeat split; try reflexivity. left. reflexivity.
    + repeat split; try reflexivity; discriminate.
  - apply (Hskip _ [] (py "/img/18.png") [KIJKWIJZER_DIR ++ py "kijkwijzer-12.png"]);
      [reflexivity|]. apply restriction_regex_none. reflexivity.
Defined.

(** C8 as stated fails: an icon path that follows no known convention
    because it lies outside the icon directory raises nothing; it is left
    out of the result. The bare file name rating-onbekend-z.png is such a
    path. *)
Lemma get_movie_restrictions_skips_unknown_shape :
  get_movie_restrictions (with_icons [py "/img/18.png"]) = Ok []
  /\ get_movie_restrictions (with_icons [py "rating-onbekend-z.png"]) = Ok [].
Proof. split; reflexivity. Qed.

(** ** Field extractors on a missing element *)

(** X2: nine of the ten extractors give [None] or an empty result when the
    element they query is absent. *)
Theorem extractors_absent (w : World) (doc : element) :
  (xpath_string doc XSpecial = [] -> get_movie_special doc = Ok None)
  /\ (xpath_string doc XTitleItemprop = [] -> xpath_string doc XTitlePage = [] ->
      get_movie_title doc = [])
  /\ (xpath_string doc XGenre = [] -> get_movie_genres w doc = (Ok None, []))
  /\ (xpath_string doc XDuur = [] -> get_movie_duration w doc = Ok None)
  /\ (xpath_string doc XTaalversie = [] -> get_movie_language w doc = (Ok None, []))
  /\ (xpath_strings doc XKijkwijzerSrc = [] -> get_movie_restrictions doc = Ok [])
  /\ (xpath_string doc XTeZienIn = [] -> get_movie_technologies doc = Ok None)
  /\ (xpath_string doc XAggregateRating = [] -> get_movie_rating w doc = Ok None)
  /\ (xpath_elements doc XSliderEntry = [] -> get_movie_directors_cast doc = Ok ([], [])).
Proof.
  repeat split.
  - intros H. unfold get_movie_special. rewrite H. reflexivity.
  - intros H1 H2. unfold get_movie_title. rewrite H1, H2. reflexivity.
  - intros H. unfold get_movie_genres. rewrite H. reflexivity.
  - intros H. unfold get_movie_duration. rewrite H. reflexivity.
  - intros H. unfold get_movie_language. rewrite H. reflexivity.
  - intros H. unfold get_movie_restrictions. rewrite H. reflexivity.
  - intros H. unfold get_movie_technologies. rewrite H. reflexivity.
  - intros H. unfold get_movie_rating. rewrite H. reflexivity.
  - intros H. unfold get_movie_directors_cast. rewrite H. reflexivity.
Qed.

Lemma extractors_absent_witness :
  get_movie_special blank = Ok None
  /\ get_movie_title blank = []
  /\ get_movie_genres offline blank = (Ok None, [])
  /\ get_movie_duration offline blank = Ok None
  /\ get_movie_language offline blank = (Ok None, [])
  /\ get_movie_restrictions blank = Ok []
  /\ get_movie_technologies blank = Ok None
  /\ get_movie_rating offline blank = Ok None
  /\ get_movie_directors_cast blank = Ok ([], []).
Proof.
  destruct (extractors_absent offline blank)
    as (H1 & H2 & H3 & H4 & H5 & H6 & H7 & H8 & H9).
  exact (conj (H1 eq_refl) (conj (H2 eq_refl eq_refl) (conj (H3 eq_refl)
          (conj (H4 eq_refl) (conj (H5 eq_refl) (conj (H6 eq_refl) (conj (H7 eq_refl)
             (conj (H8 eq_refl) (H9 eq_refl))))))))).
Defined.

(** C7: the release-date extractor does not return [None] when its element
    is absent: the pattern does not match the empty string and reading the
    groups of the missing match raises [AttributeError]. *)
Theorem get_movie_release_date_absent (w : World) (doc : element) :
  xpath_string doc XReleaseDate = [] ->
  get_movie_release_date w doc = Raise AttributeError.
Proof. intros H. unfold get_movie_release_date. rewrite H. reflexivity. Qed.

Lemma get_movie_release_date_absent_witness :
  get_movie_release_date offline blank = Raise AttributeError.
Proof. exact (get_movie_release_date_absent offline blank eq_refl). Defined.

(** ** Date normalizer: dated labels *)

(** The result of [normalize_date] does not depend on the clock reading it
    compares with: the branch taken for a date in the past parses the same
    string again. *)
Lemma normalize_date_ignores_comparison w g now_year a b day_name :
  normalize_date w g now_year a day_name = normalize_date w g now_year b day_name.
Proof.
  unfold normalize_date.
  repeat match goal with |- context [if ?c then _ else _] =>
    lazymatch c with
    | datetime_ltb _ _ => fail
    | _ => destruct c; try reflexivity
    end end.
  destruct (re_match _ _) as [groups|]; [|reflexivity].
  destruct (py_getitem groups 0) as [day|]; [|reflexivity]. cbn [res_bind].
  destruct (py_getitem groups 1) as [mn|]; [|reflexivity]. cbn [res_bind].
  destruct (index_plus_1 mn MONTHS_SHORT) as [m|]; [|reflexivity]. cbn [res_bind].
  destruct (strptime_dmY w _) as [t|] eqn:Hs; [|reflexivity]. cbn [res_bind].
  destruct (datetime_ltb t a), (datetime_ltb t b); reflexivity.
Qed.

(** C4: on 2024-06-10, at any time of the day, the date parsed from the
    label "woensdag 27 mei" is before the clock reading, so the branch that
    is meant to advance the year is taken; the label is nevertheless
    normalized to 2024-05-27 and not to a date of 2025. On 2024-01-10 it is
    normalized to 2024-05-27 as well. *)
Theorem normalize_date_keeps_past_date (w : World) (h m s us : Z) :
  datetime_ltb (midnight (mkdate 2024 5 27)) (at_time (TODAY june_10) h m s us) = true
  /\ normalize_date w june_10 (at_time (TODAY june_10) h m s us)
       (at_time (TODAY june_10) h m s us) (py "woensdag 27 mei")
     = Ok (PDatetime (midnight (mkdate 2024 5 27)))
  /\ normalize_date w january_10 (at_time (TODAY january_10) h m s us)
       (at_time (TODAY january_10) h m s us) (py "woensdag 27 mei")
     = Ok (PDatetime (midnight (mkdate 2024 5 27))).
Proof.
  split; [reflexivity|]. split.
  - rewrite (normalize_date_ignores_comparison w june_10 _ _ (midnight (mkdate 2024 1 1))).
    vm_compute. reflexivity.
  - rewrite (normalize_date_ignores_comparison w january_10 _ _ (midnight (mkdate 2024 1 1))).
    vm_compute. reflexivity.
Qed.

(** ** Detail worker: the rating filter *)

(** A float above 8 is a true value. *)
Lemma above_eight_truthy (r : float) : SFltb eight r = true -> float_truthy r = true.
Proof. destruct r as [[]|[]| |[] ? ?]; cbn; intros H; try reflexivity; discriminate H. Qed.

Lemma process_movie_item_resolved w url rl imdb_id r :
  rating_resolved w url imdb_id r ->
  result_list_after (process_movie_item w url rl)
  = if SFltb eight r then rl ++ [(url, imdb_url (Some imdb_id))] else rl.
Proof.
  intros (doc & special & evs & ((pid & code & Hm) & page & Hget & Hparse & Hsp) & Hskip & Hres).
  unfold process_movie_item, result_list_after, prog_bind, prog_io, io_lift, io_emit.
  rewrite Hm. cbn [fst snd]. rewrite Hget. cbn [fst snd]. rewrite Hparse. cbn [fst snd].
  rewrite Hsp. cbn [fst snd]. unfold in_skip_set in Hskip. rewrite Hskip.
  rewrite Hres. cbn [io_try io_bind io_ret fst snd].
  destruct (SFltb eight r) eqn:Hgt.
  - rewrite (above_eight_truthy r Hgt). reflexivity.
  - rewrite andb_false_r. reflexivity.
Qed.

Lemma process_movie_item_nothing_or_resolved w url rl :
  result_list_after (process_movie_item w url rl) = rl
  \/ exists imdb_id r,
       rating_resolved w url imdb_id r /\ SFltb eight r = true
       /\ result_list_after (process_movie_item w url rl)
          = rl ++ [(url, imdb_url (Some imdb_id))].
Proof.
  destruct (re_match (movie_url_regex w) url) as [[|pid [|code [|x groups]]]|] eqn:Hm;
    try (left; unfold process_movie_item, result_list_after, prog_bind, prog_io, io_lift;
         rewrite Hm; reflexivity).
  destruct (requests_get w url []) as [page|e] eqn:Hget;
    [|left; unfold process_movie_item, result_list_after, prog_bind, prog_io, io_lift, io_emit;
      rewrite Hm; cbn [fst snd]; rewrite Hget; reflexivity].
  destruct (lh_fromstring w (text page)) as [doc|e] eqn:Hparse;
    [|left; unfold process_movie_item, result_list_after, prog_bind, prog_io, io_lift, io_emit;
      rewrite Hm; cbn [fst snd]; rewrite Hget; cbn [fst snd]; rewrite Hparse; reflexivity].
  destruct (get_movie_special doc) as [special|e] eqn:Hsp;
    [|left; unfold process_movie_item, result_list_after, prog_bind, prog_io, io_lift, io_emit;
      rewrite Hm; cbn [fst snd]; rewrite Hget; cbn [fst snd]; rewrite Hparse; cbn [fst snd];
      rewrite Hsp; reflexivity].
  destruct (in_skip_set special) eqn:Hskip;
    [left; unfold process_movie_item, result_list_after, prog_bind, prog_io, io_lift, io_emit;
     rewrite Hm; cbn [fst snd]; rewrite Hget; cbn [fst snd]; rewrite Hparse; cbn [fst snd];
     rewrite Hsp; cbn [fst snd]; unfold in_skip_set in Hskip; rewrite Hskip; reflexivity|].
  destruct (get_movie_imdb_rating w {[ "title"%string := PStr (get_movie_title doc) ]})
    as [[[imdb_id [r|]]|e] evs] eqn:Hres.
  - destruct (SFltb eight r) eqn:Hgt.
    + right. exists imdb_id, r.
      assert (Hrr : rating_resolved w url imdb_id r).
      { exists doc, special, evs. repeat split; eauto. }
      split; [exact Hrr|]. split; [exact Hgt|].
      rewrite (process_movie_item_resolved w url rl imdb_id r Hrr), Hgt. reflexivity.
    + left.
      assert (Hrr : rating_resolved w url imdb_id r).
      { exists doc, special, evs. repeat split; eauto. }
      rewrite (process_movie_item_resolved w url rl imdb_id r Hrr), Hgt. reflexivity.
  - left. unfold process_movie_item, result_list_after, prog_bind, prog_io, io_lift, io_emit.
    rewrite Hm; cbn [fst snd]; rewrite Hget; cbn [fst snd]; rewrite Hparse; cbn [fst snd].
    rewrite Hsp; cbn [fst snd]; unfold in_skip_set in Hskip; rewrite Hskip.
    rewrite Hres. reflexivity.
  - left. unfold process_movie_item, result_list_after, prog_bind, prog_io, io_lift, io_emit.
    rewrite Hm; cbn [fst snd]; rewrite Hget; cbn [fst snd]; rewrite Hparse; cbn [fst snd].
    rewrite Hsp; cbn [fst snd]; unfold in_skip_set in Hskip; rewrite Hskip.
    rewrite Hres. cbn [io_try io_bind io_ret fst snd].
    destruct (is_IMDBMovieNotFoundError e); reflexivity.
Qed.

Lemma app_one_neq {A} (l : list A) (x : A) : l <> l ++ [x].
Proof.
  intros H. apply (f_equal (@length A)) in H. rewrite length_app in H. cbn in H. lia.
Qed.

(** C1: processing a detail page appends a record to the shared result list
    exactly when an external rating was resolved for the movie and that
    rating is above 8.0, and the record is then the page URL paired with the
    database URL; nothing else is appended. A resolved rating of exactly
    8.0 appends nothing, one of 8.1 appends the record, and when no rating
    is resolved nothing is appended. *)
Theorem process_movie_item_emits_iff (w : World) (url : pystr) (rl : list result_record) :
  (forall rec,
     result_list_after (process_movie_item w url rl) = rl ++ [rec]
     <-> exists imdb_id r,
           rating_resolved w url imdb_id r /\ SFltb eight r = true
           /\ rec = (url, imdb_url (Some imdb_id)))
  /\ (result_list_after (process_movie_item w url rl) = rl
      \/ exists rec, result_list_after (process_movie_item w url rl) = rl ++ [rec])
  /\ (forall imdb_id, rating_resolved w url imdb_id eight ->
      result_list_after (process_movie_item w url rl) = rl)
  /\ (forall imdb_id, rating_resolved w url imdb_id rating_8_1 ->
      result_list_after (process_movie_item w url rl)
      = rl ++ [(url, imdb_url (Some imdb_id))])
  /\ ((forall imdb_id r, ~ rating_resolved w url imdb_id r) ->
      result_list_after (process_movie_item w url rl) = rl).
Proof.
  pose proof (process_movie_item_nothing_or_resolved w url rl) as Hd.
  repeat split.
  - intros Hrec. destruct Hd as [Hd|(imdb_id & r & Hrr & Hgt & Hd)].
    + rewrite Hd in Hrec. destruct (app_one_neq _ _ Hrec).
    + exists imdb_id, r. repeat split; try assumption.
      rewrite Hd in Hrec. apply app_inj_tail in Hrec as [_ Hrec]. congruence.
  - intros (imdb_id & r & Hrr & Hgt & ->).
    rewrite (process_movie_item_resolved w url rl imdb_id r Hrr), Hgt. reflexivity.
  - destruct Hd as [Hd|(imdb_id & r & _ & _ & Hd)]; [left; exact Hd|right; eauto].
  - intros imdb_id Hrr. rewrite (process_movie_item_resolved w url rl imdb_id _ Hrr).
    reflexivity.
  - intros imdb_id Hrr. rewrite (process_movie_item_resolved w url rl imdb_id _ Hrr).
    reflexivity.
  - intros Hnone. destruct Hd as [Hd|(imdb_id & r & Hrr & _)]; [exact Hd|].
    destruct (Hnone imdb_id r Hrr).
Qed.

Lemma small_web_resolves_8_0 :
  rating_resolved (small_web [] amelie [py "8.0"]) amelie_url (PInt 211915) eight.
Proof.
  exists (detail_page [] amelie), None. eexists. split; [|split].
  - split; [eexists; eexists; reflexivity|]. eexists. repeat split.
  - reflexivity.
  - vm_compute. reflexivity.
Defined.

Lemma small_web_resolves_8_1 :
  rating_resolved (small_web [] amelie [py "8.1"]) amelie_url (PInt 211915) rating_8_1.
Proof.
  exists (detail_page [] amelie), None. eexists. split; [|split].
  - split; [eexists; eexists; reflexivity|]. eexists. repeat split.
  - reflexivity.
  - vm_compute. reflexivity.
Defined.

Lemma process_movie_item_emits_iff_witness :
  result_list_after (process_movie_item (small_web [] amelie [py "8.0"]) amelie_url []) = []
  /\ result_list_after (process_movie_item (small_web [] amelie [py "8.1"]) amelie_url [])
     = [] ++ [amelie_record].
Proof.
  split.
  - exact (proj1 (proj2 (proj2 (process_movie_item_emits_iff
                                  (small_web [] amelie [py "8.0"]) amelie_url [])))
             (PInt 211915) small_web_resolves_8_0).
  - exact (proj1 (proj2 (proj2 (proj2 (process_movie_item_emits_iff
                                         (small_web [] amelie [py "8.1"]) amelie_url []))))
             (PInt 211915) small_web_resolves_8_1).
Defined.

(** ** Detail worker: the skip-set *)

(** C2: when the special tag extracted from a detail page is in the
    skip-set, processing the page is the page request followed by the
    queue acknowledgement and nothing else: no request to the film database
    and no translation call is made, the outcome does not depend on the
    title of the page, and the shared result list is left as it was. *)
Theorem process_movie_item_skips (w : World) (url : pystr) (rl : list result_record)
    (doc : element) (special : pystr) :
  page_special w url doc (Some special) ->
  py_in special SKIP_SPECIAL = true ->
  process_movie_item w url rl = (Ok tt, rl, [EvRequest url []; EvMoviesTaskDone]).
Proof.
  intros ((pid & code & Hm) & page & Hget & Hparse & Hsp) Hskip.
  unfold process_movie_item, prog_bind, prog_io, io_lift, io_emit.
  rewrite Hm. cbn [fst snd]. rewrite Hget. cbn [fst snd]. rewrite Hparse. cbn [fst snd].
  rewrite Hsp. cbn [fst snd]. rewrite Hskip. reflexivity.
Qed.

Lemma small_web_opera :
  page_special (small_web opera_line amelie [py "9.3"]) amelie_url
    (detail_page opera_line amelie) (Some (pathe_tag "Opera")).
Proof.
  split; [eexists; eexists; reflexivity|]. eexists. repeat split.
Defined.

Lemma process_movie_item_skips_witness :
  process_movie_item (small_web opera_line amelie [py "9.3"]) amelie_url []
  = (Ok tt, [], [EvRequest amelie_url []; EvMoviesTaskDone]).
Proof.
  exact (process_movie_item_skips (small_web opera_line amelie [py "9.3"]) amelie_url []
           (detail_page opera_line amelie) (pathe_tag "Opera") small_web_opera eq_refl).
Defined.

(** The same movie without the special line is reported. *)
Example process_movie_item_reports :
  process_movie_item (small_web [] amelie [py "9.3"]) amelie_url []
  = (Ok tt, [amelie_record],
     [EvRequest amelie_url [];
      EvRequest (py "http://www.imdb.com/find")
        [(py "q", PStr amelie); (py "s", PStr (py "tt")); (py "ttype", PStr (py "ft"))];
      EvRequest (py "http://www.imdb.com/title/tt211915") [];
      EvPrint [amelie_url; py "http://imdb.com/title/tt211915"];
      EvAppend amelie_record;
      EvMoviesTaskDone]).
Proof. vm_compute. reflexivity. Qed.

(** ** Calendar arithmetic *)

Open Scope Z_scope.

Lemma month_day_ok_all (leapyear : bool) (n : Z) :
  0 <= n < (if leapyear then 366 else 365) -> month_day_ok leapyear n = true.
Proof.
  intros Hn.
  assert (Hall : forallb (fun i => month_day_ok true (Z.of_nat i)
                                   && (month_day_ok false (Z.of_nat i)
                                       || (365 <=? Z.of_nat i))) (seq 0 366) = true)
    by (vm_compute; reflexivity).
  rewrite forallb_forall in Hall.
  specialize (Hall (Z.to_nat n)). rewrite Z2Nat.id in Hall by lia.
  assert (Hin : In (Z.to_nat n) (seq 0 366)).
  { apply in_seq. destruct leapyear; lia. }
  apply Hall in Hin. apply andb_prop in Hin as [Ht Hf].
  destruct leapyear; [exact Ht|].
  apply orb_prop in Hf as [Hf|Hf]; [exact Hf|]. apply Z.leb_le in Hf. lia.
Qed.

(** The days before a year and its leap status, from the position of the
    year in the 400-, 100- and 4-year cycles. *)
Lemma year_in_cycles (a b c d : Z) :
  0 <= a -> 0 <= b <= 3 -> 0 <= c <= 24 -> 0 <= d <= 3 ->
  let y := 400 * a + 100 * b + 4 * c + d + 1 in
  days_before_year y = 146097 * a + 36524 * b + 1461 * c + 365 * d
  /\ is_leap y = (d =? 3) && (negb (c =? 24) || (b =? 3)).
Proof.
  intros Ha Hb Hc Hd y. subst y. split.
  - unfold days_before_year. Z.div_mod_to_equations. lia.
  - unfold is_leap.
    destruct (Z.eqb_spec d 3), (Z.eqb_spec c 24), (Z.eqb_spec b 3);
      repeat match goal with
             | |- context [?x mod ?m =? 0] => destruct (Z.eqb_spec (x mod m) 0)
             end; cbn; try reflexivity; exfalso; Z.div_mod_to_equations; lia.
Qed.

(** [ord2ymd] inverts [ymd2ord]: the date built from an ordinal has that
    ordinal, and it is a date of the calendar when the ordinal is at most
    that of 9999-12-31. *)
Lemma of_ordinal_spec (n : Z) :
  1 <= n ->
  toordinal (of_ordinal n) = n
  /\ (n <= MAXORDINAL -> valid_date (of_ordinal n) = true).
Proof.
  intros Hn. unfold of_ordinal, ord2ymd, DI400Y, DI100Y, DI4Y, MAXORDINAL. cbv zeta.
  set (n0 := n - 1).
  set (a := n0 / 146097). set (r1 := n0 mod 146097).
  set (b := r1 / 36524). set (r2 := r1 mod 36524).
  set (c := r2 / 1461). set (r3 := r2 mod 1461).
  set (d := r3 / 365). set (r4 := r3 mod 365).
  assert (Hn0 : n0 = 146097 * a + r1 /\ 0 <= r1 < 146097)
    by (subst a r1; Z.div_mod_to_equations; lia).
  assert (Hr1 : r1 = 36524 * b + r2 /\ 0 <= r2 < 36524)
    by (subst b r2; Z.div_mod_to_equations; lia).
  assert (Hr2 : r2 = 1461 * c + r3 /\ 0 <= r3 < 1461)
    by (subst c r3; Z.div_mod_to_equations; lia).
  assert (Hr3 : r3 = 365 * d + r4 /\ 0 <= r4 < 365)
    by (subst d r4; Z.div_mod_to_equations; lia).
  assert (Ha : 0 <= a) by (subst a n0; Z.div_mod_to_equations; lia).
  assert (Hnn : n = n0 + 1) by (subst n0; lia).
  clearbody a r1 b r2 c r3 d r4 n0.
  assert (Hb : 0 <= b <= 4) by lia.
  assert (Hc : 0 <= c <= 24) by lia.
  assert (Hd : 0 <= d <= 4) by lia.
  destruct (Z.eqb_spec d 4) as [Hd4|Hd4]; cbn [orb].
  - (* the last day of a leap year *)
    destruct (year_in_cycles a b c 3 ltac:(lia) ltac:(lia) ltac:(lia) ltac:(lia))
      as [Hdby Hleap].
    cbv zeta in Hdby, Hleap.
    unfold valid_date, days_in_month, toordinal, ymd2ord, days_before_month, MINYEAR, MAXYEAR.
    cbn [year month day].
    replace (a * 400 + 1 + b * 100 + c * 4 + d - 1) with (400 * a + 100 * b + 4 * c + 3 + 1)
      by lia.
    rewrite Hdby, Hleap.
    replace (c =? 24) with false by (symmetry; apply Z.eqb_neq; lia).
    change (nth (Z.to_nat 12) DAYS_BEFORE_MONTH 0) with 334.
    change (nth (Z.to_nat 12) DAYS_IN_MONTH 0) with 31. cbn.
    split; [lia|]. intros Hmax.
    replace (1 <=? 400 * a + 100 * b + 4 * c + 3 + 1) with true
      by (symmetry; apply Z.leb_le; lia).
    replace (400 * a + 100 * b + 4 * c + 3 + 1 <=? 9999) with true
      by (symmetry; apply Z.leb_le; lia).
    reflexivity.
  - destruct (Z.eqb_spec b 4) as [Hb4|Hb4].
    + (* the last day of a 400-year cycle *)
      destruct (year_in_cycles a 3 24 3 ltac:(lia) ltac:(lia) ltac:(lia) ltac:(lia))
        as [Hdby Hleap].
      cbv zeta in Hdby, Hleap.
      unfold valid_date, days_in_month, toordinal, ymd2ord, days_before_month, MINYEAR,
        MAXYEAR.
      cbn [year month day].
      replace (a * 400 + 1 + b * 100 + c * 4 + d - 1) with (400 * a + 100 * 3 + 4 * 24 + 3 + 1)
        by lia.
      rewrite Hdby, Hleap.
      change (nth (Z.to_nat 12) DAYS_BEFORE_MONTH 0) with 334.
      change (nth (Z.to_nat 12) DAYS_IN_MONTH 0) with 31. cbn.
      split; [lia|]. intros Hmax.
      replace (1 <=? 400 * a + 100 * 3 + 4 * 24 + 3 + 1) with true
        by (symmetry; apply Z.leb_le; lia).
      replace (400 * a + 100 * 3 + 4 * 24 + 3 + 1 <=? 9999) with true
        by (symmetry; apply Z.leb_le; lia).
      reflexivity.
    + destruct (year_in_cycles a b c d ltac:(lia) ltac:(lia) ltac:(lia) ltac:(lia))
        as [Hdby Hleap].
      cbv zeta in Hdby, Hleap.
      set (leap := (d =? 3) && (negb (c =? 24) || (b =? 3))) in *.
      pose proof (month_day_ok_all leap r4) as Hok.
      assert (Hr4 : 0 <= r4 < (if leap then 366 else 365)) by (destruct leap; lia).
      specialize (Hok Hr4). unfold month_day_ok, month_day in Hok. cbv zeta in Hok.
      replace (a * 400 + 1 + b * 100 + c * 4 + d) with (400 * a + 100 * b + 4 * c + d + 1)
        by lia.
      match goal with |- context [if ?cnd then _ else _] => destruct cnd end;
        unfold valid_date, days_in_month, toordinal, ymd2ord, days_before_month, MINYEAR,
          MAXYEAR;
        cbn [year month day]; rewrite Hdby, Hleap;
        repeat (apply andb_prop in Hok as [Hok ?]);
        (split;
         [match goal with H : (_ =? _) = true |- _ => apply Z.eqb_eq in H end; lia
         |intros Hmax;
          repeat (apply andb_true_intro; split); try assumption; apply Z.leb_le; lia]).
Qed.

Lemma toordinal_of_ordinal (n : Z) : 1 <= n -> toordinal (of_ordinal n) = n.
Proof. intros Hn. apply (of_ordinal_spec n Hn). Qed.

Lemma of_ordinal_valid (n : Z) :
  1 <= n <= MAXORDINAL -> valid_date (of_ordinal n) = true.
Proof. intros [Hn Hmax]. apply (of_ordinal_spec n Hn). exact Hmax. Qed.

Lemma toordinal_positive (d : date) : valid_date d = true -> 1 <= toordinal d.
Proof.
  unfold valid_date, MINYEAR, MAXYEAR. intros H.
  repeat (apply andb_prop in H as [H ?]).
  repeat match goal with
         | H : (_ <=? _) = true |- _ => apply Z.leb_le in H
         end.
  unfold toordinal, ymd2ord, days_before_year, days_before_month.
  assert (Hm : 0 <= nth (Z.to_nat (month d)) DAYS_BEFORE_MONTH 0).
  { assert (Hc : exists k, (1 <= k < 13)%nat /\ Z.to_nat (month d) = k)
      by (exists (Z.to_nat (month d)); lia).
    destruct Hc as (k & Hk & ->).
    do 13 (destruct k as [|k]; [cbn; lia|]). lia. }
  destruct ((2 <? month d) && is_leap (year d)); Z.div_mod_to_equations; lia.
Qed.

(** ** Date normalizer: relative labels *)

Lemma next_weekday_next (g : globals) (i : Z) :
  0 <= i <= 6 -> 1 <= toordinal (TODAY g) ->
  let k := if i - weekday (TODAY g) <=? 0 then i - weekday (TODAY g) + 7
           else i - weekday (TODAY g) in
  1 <= k <= 7
  /\ next_weekday g i
     = (if toordinal (TODAY g) + k <=? MAXORDINAL
        then Ok (of_ordinal (toordinal (TODAY g) + k)) else Raise OverflowError)
  /\ (toordinal (TODAY g) + k + 6) mod 7 = i.
Proof.
  intros Hi Hpos k. subst k. unfold next_weekday, date_add_days, weekday.
  set (o := toordinal (TODAY g)) in *.
  assert (Hw : 0 <= (o + 6) mod 7 < 7) by (apply Z.mod_pos_bound; lia).
  destruct (Z.leb_spec (i - (o + 6) mod 7) 0) as [Hle|Hgt].
  - split; [lia|]. split.
    + replace (0 <? o + (i - (o + 6) mod 7 + 7)) with true
        by (symmetry; apply Z.ltb_lt; lia).
      reflexivity.
    + Z.div_mod_to_equations. lia.
  - split; [lia|]. split.
    + replace (0 <? o + (i - (o + 6) mod 7)) with true
        by (symmetry; apply Z.ltb_lt; lia).
      reflexivity.
    + Z.div_mod_to_equations. lia.
Qed.

Lemma weekday_label (W : pystr) (i : Z) :
  py_index W DAYS_OF_WEEK = Some i ->
  0 <= i <= 6 /\ nth_error DAYS_OF_WEEK (Z.to_nat i) = Some W.
Proof.
  unfold py_index, DAYS_OF_WEEK, pystr_eqb.
  repeat (case_bool_decide; [intros [= <-]; subst W; split; [lia|reflexivity]|]).
  cbn. discriminate.
Qed.

Lemma normalize_date_weekday w g now_year now_cmp (W : pystr) (i : Z) :
  py_index W DAYS_OF_WEEK = Some i ->
  normalize_date w g now_year now_cmp W
  = res_bind (next_weekday g i) (fun d => Ok (PDate d)).
Proof.
  intros Hi. destruct (weekday_label W i Hi) as [Hr Hn].
  assert (Hc : exists k, (k < 7)%nat /\ Z.to_nat i = k) by (exists (Z.to_nat i); lia).
  destruct Hc as (k & Hk & Hik). rewrite Hik in Hn.
  assert (i = Z.of_nat k) by lia. subst i.
  do 7 (destruct k as [|k]; [injection Hn as <-; reflexivity|]). lia.
Qed.

Lemma module_init_inv (D : date) (g : globals) :
  valid_date D = true -> module_init D = Ok g ->
  TODAY g = D /\ date_add_days D 1 = Ok (TOMORROW g)
  /\ toordinal (TOMORROW g) = toordinal D + 1 /\ valid_date (TOMORROW g) = true.
Proof.
  intros Hv. pose proof (toordinal_positive D Hv) as Hpos.
  unfold module_init, date_add_days.
  destruct ((0 <? toordinal D + 1) && (toordinal D + 1 <=? MAXORDINAL)) eqn:Hrange;
    [|discriminate].
  apply andb_prop in Hrange as [_ Hmax]. apply Z.leb_le in Hmax.
  cbn [res_bind]. intros [= <-]. cbn [TODAY TOMORROW].
  repeat split.
  - apply toordinal_of_ordinal. lia.
  - apply of_ordinal_valid. lia.
Qed.

(** C5, as amended: for a current date D on which the module loads, the
    label "vandaag" is normalized to D and "morgen" to D + 1 day; a weekday
    name W is normalized to the date 1 to 7 days after D whose weekday is W
    whenever D is at most 9999-12-24, and in general unless that date
    falls after 9999-12-31, in which case the normalizer fails with
    [OverflowError]. *)
Theorem normalize_date_relative (w : World) (D : date) (g : globals)
    (now_year now_cmp : datetime) :
  valid_date D = true -> module_init D = Ok g ->
  normalize_date w g now_year now_cmp (py "vandaag") = Ok (PDate D)
  /\ (normalize_date w g now_year now_cmp (py "morgen") = Ok (PDate (TOMORROW g))
      /\ date_add_days D 1 = Ok (TOMORROW g)
      /\ toordinal (TOMORROW g) = toordinal D + 1
      /\ valid_date (TOMORROW g) = true)
  /\ (forall W i, py_index W DAYS_OF_WEEK = Some i ->
      (exists d, normalize_date w g now_year now_cmp W = Ok (PDate d)
                 /\ valid_date d = true
                 /\ 1 <= toordinal d - toordinal D <= 7 /\ weekday d = i)
      \/ (MAXORDINAL < toordinal D + 7
          /\ normalize_date w g now_year now_cmp W = Raise OverflowError))
  /\ (toordinal D + 7 <= MAXORDINAL ->
      forall W i, py_index W DAYS_OF_WEEK = Some i ->
      exists d, normalize_date w g now_year now_cmp W = Ok (PDate d)
                /\ valid_date d = true
                /\ 1 <= toordinal d - toordinal D <= 7 /\ weekday d = i).
Proof.
  intros Hv Hinit. pose proof (toordinal_positive D Hv) as Hpos.
  destruct (module_init_inv D g Hv Hinit) as (Htoday & Htom & Hord & Hvalid).
  assert (Hweek : forall W i, py_index W DAYS_OF_WEEK = Some i ->
            (exists d, normalize_date w g now_year now_cmp W = Ok (PDate d)
                       /\ valid_date d = true
                       /\ 1 <= toordinal d - toordinal D <= 7 /\ weekday d = i)
            \/ (MAXORDINAL < toordinal D + 7
                /\ normalize_date w g now_year now_cmp W = Raise OverflowError)).
  { intros W i Hi. rewrite (normalize_date_weekday w g now_year now_cmp W i Hi).
    destruct (weekday_label W i Hi) as [Hr _].
    destruct (next_weekday_next g i Hr) as (Hk & Hnext & Hmod); [rewrite Htoday; exact Hpos|].
    rewrite Hnext. rewrite Htoday in *.
    set (k := if i - weekday D <=? 0 then i - weekday D + 7 else i - weekday D) in *.
    destruct (Z.leb_spec (toordinal D + k) MAXORDINAL) as [Hle|Hgt].
    - left. exists (of_ordinal (toordinal D + k)). split; [reflexivity|].
      split; [apply of_ordinal_valid; lia|].
      unfold weekday at 1. rewrite toordinal_of_ordinal by lia. split; [lia|exact Hmod].
    - right. split; [lia|reflexivity]. }
  split; [rewrite <- Htoday; reflexivity|].
  split; [split; [reflexivity|repeat split; assumption]|].
  split; [exact Hweek|].
  intros Hmax W i Hi. destruct (Hweek W i Hi) as [Hd|[Hover _]]; [exact Hd|lia].
Qed.

Lemma normalize_date_relative_witness :
  normalize_date offline june_10 (midnight (mkdate 2024 6 10)) (midnight (mkdate 2024 6 10))
    (py "vandaag") = Ok (PDate (mkdate 2024 6 10))
  /\ exists d, normalize_date offline june_10 (midnight (mkdate 2024 6 10))
                 (midnight (mkdate 2024 6 10)) (py "zondag") = Ok (PDate d)
               /\ valid_date d = true
               /\ 1 <= toordinal d - toordinal (mkdate 2024 6 10) <= 7 /\ weekday d = 6.
Proof.
  pose proof (normalize_date_relative offline (mkdate 2024 6 10) june_10
                (midnight (mkdate 2024 6 10)) (midnight (mkdate 2024 6 10))
                eq_refl eq_refl) as (H1 & _ & _ & H4).
  split; [exact H1|].
  apply (H4 ltac:(vm_compute; discriminate) (py "zondag") 6 eq_refl).
Defined.

(** C5 as stated fails for a current date in the last week of the year
    9999: on 9999-12-30, a Thursday, the label "zaterdag" names a day after
    the last date and the normalizer raises [OverflowError]. *)
Lemma normalize_date_weekday_overflows :
  valid_date (mkdate 9999 12 30) = true
  /\ module_init (mkdate 9999 12 30) = Ok last_thursday
  /\ weekday (mkdate 9999 12 30) = 3
  /\ normalize_date offline last_thursday (midnight (mkdate 9999 12 30))
       (midnight (mkdate 9999 12 30)) (py "zaterdag") = Raise OverflowError.
Proof. repeat split; reflexivity. Qed.

Close Scope Z_scope.

(** ** The loop bodies as sequences of operations *)

Lemma forallb_app_true {A} (f : A -> bool) (l1 l2 : list A) :
  forallb f l1 = true -> forallb f l2 = true -> forallb f (l1 ++ l2) = true.
Proof. intros H1 H2. rewrite forallb_app, H1, H2. reflexivity. Qed.

Lemma io_bind_quiet {A B} (m : io A) (k : A -> io B) :
  forallb quiet (snd m) = true -> (forall a, forallb quiet (snd (k a)) = true) ->
  forallb quiet (snd (io_bind m k)) = true.
Proof.
  intros Hm Hk. destruct m as [[a|e] t1]; cbn in *; [|exact Hm].
  specialize (Hk a). destruct (k a) as [r t2]. cbn in *.
  apply forallb_app_true; assumption.
Qed.

Lemma io_try_quiet {A} (m h : io A) (catches : exn -> bool) :
  forallb quiet (snd m) = true -> forallb quiet (snd h) = true ->
  forallb quiet (snd (io_try m catches h)) = true.
Proof.
  intros Hm Hh. destruct m as [[a|e] t1]; cbn in *; [exact Hm|].
  destruct (catches e); [|exact Hm]. destruct h as [r t2]. cbn in *.
  apply forallb_app_true; assumption.
Qed.

Lemma nl_to_en_quiet w txt : forallb quiet (snd (nl_to_en w txt)) = true.
Proof.
  unfold nl_to_en. apply io_try_quiet; [|reflexivity].
  apply io_bind_quiet; [reflexivity|]. intros _.
  apply io_bind_quiet; [reflexivity|]. reflexivity.
Qed.

Lemma do_imdb_request_quiet w path params :
  forallb quiet (snd (do_imdb_request w path params)) = true.
Proof.
  unfold do_imdb_request. apply io_bind_quiet; [reflexivity|]. intros _.
  destruct (res_bind _ _) as [r|e]; [reflexivity|].
  destruct (is_RequestException e); reflexivity.
Qed.

Lemma get_imdb_id_by_title_quiet w title :
  forallb quiet (snd (get_imdb_id_by_title w title)) = true.
Proof.
  unfold get_imdb_id_by_title. apply io_bind_quiet; [apply do_imdb_request_quiet|].
  intros page. apply io_bind_quiet; [reflexivity|]. intros doc.
  destruct (xpath_elements doc XFindTitles) as [|movie ?]; [reflexivity|].
  destruct (re_match _ _) as [groups|]; [|reflexivity].
  apply io_bind_quiet; [reflexivity|]. reflexivity.
Qed.

Lemma get_movie_imdb_rating_quiet w (kw : kwargs) :
  forallb quiet (snd (get_movie_imdb_rating w kw)) = true.
Proof.
  unfold get_movie_imdb_rating. apply io_bind_quiet.
  - destruct (kw !! "title"%string) as [title|].
    + apply io_try_quiet.
      * apply io_bind_quiet; [apply get_imdb_id_by_title_quiet|]. reflexivity.
      * apply io_bind_quiet; [apply nl_to_en_quiet|]. intros t.
        apply io_bind_quiet; [apply get_imdb_id_by_title_quiet|]. reflexivity.
    + destruct (kw !! "id"%string); reflexivity.
  - intros imdb_id. apply io_bind_quiet; [apply do_imdb_request_quiet|]. intros page.
    apply io_bind_quiet; [reflexivity|]. intros doc.
    apply io_bind_quiet; [|reflexivity].
    destruct (xpath_strings doc XRatingValue) as [|first ?]; [reflexivity|].
    apply io_bind_quiet; [reflexivity|]. reflexivity.
Qed.

Lemma quiet_acks (evs : list event) : forallb quiet evs = true -> acks evs = 0.
Proof.
  induction evs as [|ev evs IH]; [reflexivity|]. cbn [forallb].
  intros H. apply andb_prop in H as [Hq H]. destruct ev; try discriminate Hq; cbn; auto.
Qed.

Lemma quiet_movie_ev (evs : list event) :
  forallb quiet evs = true -> forallb movie_ev evs = true.
Proof.
  induction evs as [|ev evs IH]; [reflexivity|]. cbn [forallb].
  intros H. apply andb_prop in H as [Hq H]. rewrite (IH H).
  destruct ev; try discriminate Hq; reflexivity.
Qed.

Lemma acks_app (a b : list event) : acks (a ++ b) = acks a + acks b.
Proof.
  induction a as [|ev a IH]; [reflexivity|]. destruct ev; cbn; rewrite ?IH; reflexivity.
Qed.

(** The operations of the movie loop body: nothing is put on a queue, and
    the URL is acknowledged exactly once when the body ends normally and
    not at all when it raises. *)
Lemma process_movie_item_ops w url rl :
  forallb movie_ev (snd (process_movie_item w url rl)) = true
  /\ acks (snd (process_movie_item w url rl))
     = if ends_ok (fst (fst (process_movie_item w url rl))) then 1 else 0.
Proof.
  unfold process_movie_item, prog_bind, prog_io, io_lift, io_emit.
  destruct (re_match (movie_url_regex w) url) as [[|pid [|code [|x groups]]]|];
    cbn [fst snd]; try (split; reflexivity).
  destruct (requests_get w url []) as [page|e]; cbn [fst snd]; [|split; reflexivity].
  destruct (lh_fromstring w (text page)) as [doc|e]; cbn [fst snd]; [|split; reflexivity].
  destruct (get_movie_special doc) as [special|e]; cbn [fst snd]; [|split; reflexivity].
  destruct (match special with Some s => py_in s SKIP_SPECIAL | None => false end);
    [split; reflexivity|].
  pose proof (get_movie_imdb_rating_quiet w {[ "title"%string := PStr (get_movie_title doc) ]})
    as Hq.
  destruct (get_movie_imdb_rating w {[ "title"%string := PStr (get_movie_title doc) ]})
    as [[[imdb_id rating]|e] evs]; cbn [snd] in Hq; cbn [io_try io_bind io_ret fst snd].
  - rewrite app_nil_r.
    destruct rating as [r|]; [destruct (float_truthy r && SFltb eight r)|];
      cbn [fst snd result_list_append prog_ret app]; rewrite ?app_nil_r;
      (split; [cbn [forallb movie_ev andb];
               rewrite ?forallb_app, (quiet_movie_ev evs Hq); reflexivity
              |cbn [acks]; rewrite ?acks_app, (quiet_acks evs Hq); reflexivity]).
  - destruct (is_IMDBMovieNotFoundError e); cbn [fst snd prog_ret app]; rewrite ?app_nil_r;
      (split; [cbn [forallb movie_ev andb];
               rewrite ?forallb_app, (quiet_movie_ev evs Hq); reflexivity
              |cbn [acks]; rewrite ?acks_app, (quiet_acks evs Hq); reflexivity]).
Qed.

Lemma posters_loop_ops (movies_list : list element) :
  forallb page_ev (snd (posters_loop movies_list)) = true.
Proof.
  induction movies_list as [|movie rest IH]; [reflexivity|].
  cbn [posters_loop]. unfold io_lift.
  destruct (py_getitem (xpath_strings movie XButtonText) 0) as [label|e];
    cbn [io_bind]; [|reflexivity].
  destruct (negb _).
  - destruct (posters_loop rest) as [r t]. cbn [snd app] in *. exact IH.
  - destruct (py_getitem (xpath_strings movie XOverlayHref) 0) as [movie_url|e];
      cbn [io_bind]; [|reflexivity].
    destruct (pystr_eqb movie_url _).
    + destruct (posters_loop rest) as [r t]. cbn [snd app] in *. exact IH.
    + destruct (posters_loop rest) as [r t]. cbn [snd app io_emit io_bind] in *.
      cbn [forallb page_ev]. rewrite IH. reflexivity.
Qed.

(** The operations of the page loop body: every URL put on the movies
    queue is non-empty, and the movies queue is never acknowledged. *)
Lemma process_movies_list_page_item_ops w url :
  forallb page_ev (snd (process_movies_list_page_item w url)) = true.
Proof.
  unfold process_movies_list_page_item, io_lift, io_emit. cbn [io_bind].
  destruct (requests_get w url []) as [page|e]; [|reflexivity].
  destruct (lh_fromstring w (text page)) as [doc|e]; [|reflexivity].
  pose proof (posters_loop_ops (xpath_elements doc XPosters)) as Hp.
  destruct (posters_loop (xpath_elements doc XPosters)) as [[[]|e] t];
    cbn [snd app io_bind forallb page_ev andb] in *.
  - rewrite forallb_app, Hp. reflexivity.
  - exact Hp.
Qed.

(** ** The pipeline invariant *)

Lemma held_middle (before after : list thread) (t : thread) :
  flat_map held (before ++ t :: after)
  = flat_map held before ++ held t ++ flat_map held after.
Proof. rewrite flat_map_app. reflexivity. Qed.

Lemma Forall_middle {A} (P : A -> Prop) (before after : list A) (x : A) :
  Forall P (before ++ x :: after) <-> Forall P before /\ P x /\ Forall P after.
Proof.
  rewrite Forall_app. split.
  - intros [Hb Ha]. inversion Ha; subst. auto.
  - intros (Hb & Hx & Ha). split; [exact Hb|]. constructor; assumption.
Qed.

Lemma not_all_terminated (before after : list thread) (t : thread) :
  Forall terminated (before ++ t :: after) -> terminated t.
Proof. intros H. apply Forall_middle in H. tauto. Qed.

Lemma item_ok_early (pc pc' : main_pc) (l : list (option pystr)) :
  stopping_movies pc = false -> Forall (item_ok pc) l -> Forall (item_ok pc') l.
Proof.
  intros Hpc H. induction H as [|item l Hi _ IH]; constructor; [|exact IH].
  destruct item as [u|]; [exact Hi|]. cbn in Hi. congruence.
Qed.

Lemma invariant_initial : invariant initial.
Proof.
  constructor; cbn.
  - repeat constructor.
  - repeat constructor.
  - constructor.
  - constructor.
  - intros _. split; [reflexivity|]. intros H.
    repeat (destruct H as [H|H]; [discriminate H|]). exact H.
  - discriminate.
  - discriminate.
Qed.

(** The pages queue and the result list play no part in the invariant. *)
Lemma invariant_set_pages s q : invariant s -> invariant (set_pages q s).
Proof. intros [? ? ? ? ? ? ?]. constructor; assumption. Qed.

Lemma invariant_set_result_list s l : invariant s -> invariant (set_result_list l s).
Proof. intros [? ? ? ? ? ? ?]. constructor; assumption. Qed.

Lemma invariant_set_main_before s pc :
  invariant s -> stopping_movies (main s) = false -> stopping_movies pc = false ->
  (pages_joined pc = true -> Forall terminated (page_threads s)) ->
  invariant (set_main pc s).
Proof.
  intros [Hm Hp Hacc Hit Hbef Hj Haft] Hs Hpc Hjoin. constructor; cbn; try assumption.
  - apply (item_ok_early (main s)); assumption.
  - intros _. apply Hbef. exact Hs.
  - rewrite Hpc. discriminate.
Qed.

Lemma invariant_set_main_after s pc :
  invariant s -> stopping_movies (main s) = true -> stopping_movies pc = true ->
  invariant (set_main pc s).
Proof.
  intros [Hm Hp Hacc Hit Hbef Hj Haft] Hs Hpc. constructor; cbn; try assumption.
  - clear -Hit Hpc. induction Hit as [|item l Hi _ IH]; constructor; [|exact IH].
    destruct item as [u|]; [exact Hi|exact Hpc].
  - rewrite Hpc. discriminate.
  - intros _. apply Hj. destruct (main s); try discriminate Hs; reflexivity.
  - intros _. apply Haft. exact Hs.
Qed.

Lemma queue_urls_app (a b : list (option pystr)) :
  queue_urls (a ++ b) = queue_urls a ++ queue_urls b.
Proof. apply flat_map_app. Qed.

Lemma invariant_put_sentinel s :
  invariant s -> stopping_movies (main s) = true ->
  invariant (set_movies (q_put None (movies_queue s)) s).
Proof.
  intros [Hm Hp Hacc Hit Hbef Hj Haft] Hs. constructor; cbn; try assumption.
  - rewrite queue_urls_app. cbn. rewrite app_nil_r. exact Hacc.
  - apply Forall_app. split; [exact Hit|]. constructor; [exact Hs|constructor].
  - rewrite Hs. discriminate.
  - intros _. rewrite queue_urls_app. cbn. rewrite app_nil_r. apply Haft. exact Hs.
Qed.

Lemma invariant_join_movies s :
  invariant s -> main s = JoinMovies -> unfinished (movies_queue s) = 0 ->
  invariant (set_main (StopMovies num_movie_threads) s).
Proof.
  intros [Hm Hp Hacc Hit Hbef Hj Haft] Hpc Hzero.
  destruct Hbef as [Hcount Hnone]; [rewrite Hpc; reflexivity|].
  rewrite Hzero in Hcount.
  assert (Hq : items (movies_queue s) = []) by (apply length_zero_iff_nil; lia).
  assert (Hh : flat_map held (movie_threads s) = []) by (apply length_zero_iff_nil; lia).
  constructor; cbn; try assumption.
  - rewrite Hq. constructor.
  - discriminate.
  - intros _. apply Hj. rewrite Hpc. reflexivity.
  - intros _. rewrite Hq. split; [reflexivity|exact Hh].
Qed.

Lemma invariant_set_page_threads s l :
  invariant s -> Forall page_thread_ok l ->
  (pages_joined (main s) = true -> Forall terminated l) ->
  invariant (set_page_threads l s).
Proof. intros [? ? ? ? ? ? ?] Hl Hj. constructor; assumption. Qed.

Lemma pages_joined_before (pc : main_pc) :
  pages_joined pc = false -> stopping_movies pc = false.
Proof. destruct pc; cbn; congruence. Qed.

Lemma invariant_put_url s u :
  invariant s -> pages_joined (main s) = false -> nonempty u = true ->
  invariant (log_discovered u (set_movies (q_put (Some u) (movies_queue s)) s)).
Proof.
  intros [Hm Hp Hacc Hit Hbef Hj Haft] Hpj Hu.
  pose proof (pages_joined_before _ Hpj) as Hs.
  constructor; cbn; try assumption.
  - rewrite queue_urls_app. cbn [queue_urls flat_map app].
    rewrite Hacc. rewrite <- !app_assoc. apply Permutation_app_head.
    apply Permutation_app_head. apply Permutation_app_comm.
  - apply Forall_app. split; [exact Hit|]. constructor; [exact Hu|constructor].
  - intros _. destruct (Hbef Hs) as [Hcount Hnone]. split; [|exact Hnone].
    rewrite length_app. cbn [length]. lia.
  - rewrite Hs. discriminate.
Qed.

(** Replacing a movie thread by one that holds the same URL. *)
Lemma invariant_movie_thread_same s before after t t' :
  invariant s -> movie_threads s = before ++ t :: after ->
  held t' = held t -> movie_thread_ok t' -> t' <> Returned ->
  invariant (set_movie_threads (before ++ t' :: after) s).
Proof.
  intros [Hm Hp Hacc Hit Hbef Hj Haft] Hth Hheld Hok Hret.
  rewrite Hth in *. rewrite held_middle in *.
  constructor; cbn; try assumption.
  - apply Forall_middle. apply Forall_middle in Hm. tauto.
  - rewrite held_middle, Hheld. exact Hacc.
  - intros Hs. destruct (Hbef Hs) as [Hcount Hnone]. split.
    + rewrite held_middle, Hheld. exact Hcount.
    + intros Hin. apply Hnone. apply in_app_iff in Hin as [Hin|[Hin|Hin]].
      * apply in_app_iff. left. exact Hin.
      * congruence.
      * apply in_app_iff. right. right. exact Hin.
  - intros Hs. rewrite held_middle, Hheld. apply Haft. exact Hs.
Qed.

Lemma invariant_movie_get w s before after item rest :
  invariant s -> movie_threads s = before ++ AtGet :: after ->
  items (movies_queue s) = item :: rest ->
  invariant
    (set_movie_threads (before ++ movie_thread_takes w (result_list s) item :: after)
       (set_movies {| items := rest; unfinished := unfinished (movies_queue s) |} s)).
Proof.
  intros [Hm Hp Hacc Hit Hbef Hj Haft] Hth Hq.
  rewrite Hth, Hq in *. rewrite held_middle in *. cbn [held app] in *.
  apply Forall_middle in Hm as (Hmb & _ & Hma).
  inversion Hit as [|? ? Hitem Hrest]; subst.
  destruct (stopping_movies (main s)) eqn:Hs.
  - (* only sentinels are left *)
    destruct (Haft eq_refl) as [Hqu Hh].
    destruct item as [u|]; [discriminate Hqu|]. cbn [queue_urls flat_map app] in *.
    constructor; cbn; try assumption.
    + apply Forall_middle. repeat split; assumption.
    + rewrite held_middle. exact Hacc.
    + rewrite Hs. discriminate.
    + intros _. rewrite held_middle. split; assumption.
  - destruct item as [u|]; [|cbn in Hitem; congruence]. cbn in Hitem.
    cbn [movie_thread_takes]. rewrite Hitem.
    pose proof (process_movie_item_ops w u (result_list s)) as [Hev Hack].
    destruct (process_movie_item w u (result_list s)) as [[outcome rl'] evs].
    cbn [fst snd] in Hev, Hack.
    assert (Hheld : held (Running u evs outcome) = [u]).
    { cbn. destruct outcome as [[]|e]; cbn in *; [rewrite Hack|]; reflexivity. }
    destruct (Hbef eq_refl) as [Hcount Hnone].
    constructor; cbn -[held]; try assumption.
    + apply Forall_middle. repeat split; try assumption.
      * destruct outcome; cbn in Hack; lia.
      * intros e ->. exact Hack.
    + rewrite held_middle, Hheld. rewrite Hacc. cbn [queue_urls flat_map app].
      apply Permutation_app_head. cbn [app]. rewrite !app_assoc.
      apply Permutation_middle.
    + intros _. split.
      * rewrite held_middle, Hheld. cbn [length] in *. rewrite !length_app in *.
        cbn [length]. lia.
      * intros Hin. apply Hnone. apply in_app_iff in Hin as [Hin|[Hin|Hin]].
        -- apply in_app_iff. left. exact Hin.
        -- discriminate Hin.
        -- apply in_app_iff. right. right. exact Hin.
    + rewrite Hs. discriminate.
Qed.

Lemma movie_thread_before_ack url pending outcome :
  movie_thread_ok (Running url (EvMoviesTaskDone :: pending) outcome) ->
  held (Running url (EvMoviesTaskDone :: pending) outcome) = [url]
  /\ held (Running url pending outcome) = []
  /\ movie_thread_ok (Running url pending outcome).
Proof.
  cbn [movie_thread_ok forallb movie_ev andb acks]. intros (Hev & Hle & Hraise).
  assert (Hz : acks pending = 0) by lia.
  destruct outcome as [[]|e]; [|specialize (Hraise e eq_refl); discriminate].
  cbn. rewrite Hz. repeat split; try assumption; try lia;
    try (intros e He; discriminate He).
Qed.

Lemma invariant_movie_ack s q before after url pending outcome :
  invariant s ->
  movie_threads s = before ++ Running url (EvMoviesTaskDone :: pending) outcome :: after ->
  q_task_done (movies_queue s) = Some q ->
  invariant (set_movie_threads (before ++ Running url pending outcome :: after)
               (log_processed url (set_movies q s))).
Proof.
  intros [Hm Hp Hacc Hit Hbef Hj Haft] Hth Hq.
  rewrite Hth in *. rewrite held_middle in *.
  apply Forall_middle in Hm as (Hmb & Hok & Hma).
  destruct (movie_thread_before_ack _ _ _ Hok) as (Hh1 & Hh0 & Hok').
  rewrite Hh1 in *.
  unfold q_task_done in Hq. destruct (unfinished (movies_queue s)) as [|n] eqn:Hn;
    [discriminate|]. injection Hq as <-.
  destruct (stopping_movies (main s)) eqn:Hs.
  - destruct (Haft eq_refl) as [_ Hh]. apply app_eq_nil in Hh as [_ Hh]. discriminate Hh.
  - destruct (Hbef eq_refl) as [Hcount Hnone].
    constructor; cbn -[held]; try assumption.
    + apply Forall_middle. split; [assumption|split; assumption].
    + rewrite held_middle, Hh0. rewrite Hacc. cbn [app]. rewrite <- !app_assoc.
      apply Permutation_app_head. rewrite !app_assoc. symmetry.
      apply Permutation_middle.
    + intros _. split.
      * rewrite held_middle, Hh0. rewrite !length_app in *. cbn [length] in *. lia.
      * intros Hin. apply Hnone. apply in_app_iff in Hin as [Hin|[Hin|Hin]].
        -- apply in_app_iff. left. exact Hin.
        -- discriminate Hin.
        -- apply in_app_iff. right. right. exact Hin.
    + rewrite Hs. discriminate.
Qed.

Lemma page_thread_takes_ok w item : page_thread_ok (page_thread_takes w item).
Proof.
  destruct item as [url|]; [|exact I]. cbn [page_thread_takes].
  destruct (nonempty url); [|exact I].
  pose proof (process_movies_list_page_item_ops w url) as H.
  destruct (process_movies_list_page_item w url) as [outcome evs]. exact H.
Qed.

Lemma page_threads_replace s before after t t' :
  invariant s -> page_threads s = before ++ t :: after ->
  ~ terminated t -> page_thread_ok t' ->
  Forall page_thread_ok (before ++ t' :: after)
  /\ pages_joined (main s) = false.
Proof.
  intros Hinv Hth Hrun Hok. split.
  - pose proof (inv_page_threads s Hinv) as Hp. rewrite Hth in Hp.
    apply Forall_middle. apply Forall_middle in Hp. tauto.
  - destruct (pages_joined (main s)) eqn:Hpj; [|reflexivity].
    pose proof (inv_joined s Hinv Hpj) as Hj. rewrite Hth in Hj.
    destruct (Hrun (not_all_terminated _ _ _ Hj)).
Qed.

Lemma invariant_page_step s s' l :
  invariant s' -> page_threads s' = page_threads s -> main s' = main s ->
  Forall page_thread_ok l -> pages_joined (main s) = false ->
  invariant (set_page_threads l s').
Proof.
  intros Hinv Hth Hpc Hl Hpj. apply invariant_set_page_threads; [exact Hinv|exact Hl|].
  rewrite Hpc, Hpj. discriminate.
Qed.

(** Every step of the main thread and of the workers keeps the invariant. *)
Lemma invariant_step w num_pages s s' :
  invariant s -> step w num_pages s s' -> invariant s'.
Proof.
  intros Hinv Hstep.
  destruct Hstep as
    [s p Hpc Hle | s p Hpc Hlt | s Hpc Hz | s left Hpc | s Hpc | s Hpc Hall
    | s Hpc Hz | s left Hpc | s Hpc | s Hpc Hall
    | s before after item rest Hth Hq
    | s s' before after url ev pending outcome Hth Hperf
    | s before after url ev pending outcome Hth Hperf
    | s before after url outcome Hth
    | s before after item rest Hth Hq
    | s s' before after url ev pending outcome Hth Hperf
    | s before after url ev pending outcome Hth Hperf
    | s before after url outcome Hth].
  - apply invariant_set_main_before; cbn;
      [apply invariant_set_pages; exact Hinv|rewrite Hpc; reflexivity|reflexivity|discriminate].
  - apply invariant_set_main_before;
      [exact Hinv|rewrite Hpc; reflexivity|reflexivity|discriminate].
  - apply invariant_set_main_before;
      [exact Hinv|rewrite Hpc; reflexivity|reflexivity|discriminate].
  - apply invariant_set_main_before; cbn;
      [apply invariant_set_pages; exact Hinv|rewrite Hpc; reflexivity|reflexivity|discriminate].
  - apply invariant_set_main_before;
      [exact Hinv|rewrite Hpc; reflexivity|reflexivity|discriminate].
  - apply invariant_set_main_before;
      [exact Hinv|rewrite Hpc; reflexivity|reflexivity|intros _; exact Hall].
  - apply invariant_join_movies; assumption.
  - apply invariant_set_main_after; cbn;
      [apply invariant_put_sentinel; [exact Hinv|rewrite Hpc; reflexivity]
      |rewrite Hpc; reflexivity|reflexivity].
  - apply invariant_set_main_after; [exact Hinv|rewrite Hpc; reflexivity|reflexivity].
  - apply invariant_set_main_after; [exact Hinv|rewrite Hpc; reflexivity|reflexivity].
  - (* a page thread takes an item *)
    destruct (page_threads_replace s before after AtGet (page_thread_takes w item)
                Hinv Hth (fun H => H) (page_thread_takes_ok w item)) as [Hl Hpj].
    apply invariant_page_step with (s := s);
      [apply invariant_set_pages; exact Hinv|reflexivity|reflexivity|exact Hl|exact Hpj].
  - (* a page thread performs an operation *)
    pose proof (inv_page_threads s Hinv) as Hok. rewrite Hth in Hok.
    apply Forall_middle in Hok as (_ & Hok & _). cbn [page_thread_ok forallb] in Hok.
    apply andb_prop in Hok as [Hev Hpend].
    destruct (page_threads_replace s before after _ (Running url pending outcome)
                Hinv Hth (fun H => H) Hpend) as [Hl Hpj].
    destruct ev as [u params|txt|fields|u|r| |]; cbn [perform] in Hperf.
    + injection Hperf as <-. apply invariant_page_step with (s := s); auto.
    + injection Hperf as <-. apply invariant_page_step with (s := s); auto.
    + injection Hperf as <-. apply invariant_page_step with (s := s); auto.
    + injection Hperf as <-. apply invariant_page_step with (s := s); auto.
      apply invariant_put_url; assumption.
    + discriminate Hev.
    + destruct (q_task_done (pages_queue s)) as [q|]; [|discriminate].
      injection Hperf as <-. apply invariant_page_step with (s := s); auto.
      apply invariant_set_pages. exact Hinv.
    + discriminate Hev.
  - (* an operation of a page thread raises *)
    destruct (page_threads_replace s before after _ (Died url ValueError)
                Hinv Hth (fun H => H) I) as [Hl Hpj].
    apply invariant_page_step with (s := s); auto.
  - (* a page thread ends its loop body *)
    destruct (page_threads_replace s before after _ (body_ends url outcome)
                Hinv Hth (fun H => H)) as [Hl Hpj]; [destruct outcome; exact I|].
    apply invariant_page_step with (s := s); auto.
  - apply invariant_movie_get; assumption.
  - (* a movie thread performs an operation *)
    pose proof (inv_movie_threads s Hinv) as Hok. rewrite Hth in Hok.
    apply Forall_middle in Hok as (_ & Hok & _).
    assert (Hsame : forall s0, invariant s0 -> movie_threads s0 = movie_threads s ->
              acks (ev :: pending) = acks pending -> movie_ev ev = true ->
              invariant (set_movie_threads (before ++ Running url pending outcome :: after) s0)).
    { intros s0 Hinv0 Hth0 Hacks Hmev.
      apply invariant_movie_thread_same with (t := Running url (ev :: pending) outcome);
        [exact Hinv0|rewrite Hth0; exact Hth| | |discriminate].
      - cbn [held]. unfold owes. rewrite Hacks. reflexivity.
      - cbn [movie_thread_ok forallb] in *. rewrite Hacks, Hmev in Hok. exact Hok. }
    destruct ev as [u params|txt|fields|u|r| |]; cbn [perform] in Hperf.
    + injection Hperf as <-. apply Hsame; auto.
    + injection Hperf as <-. apply Hsame; auto.
    + injection Hperf as <-. apply Hsame; auto.
    + cbn in Hok. destruct Hok as [Hok _]. discriminate Hok.
    + injection Hperf as <-. apply Hsame; auto.
      apply invariant_set_result_list. exact Hinv.
    + cbn in Hok. destruct Hok as [Hok _]. discriminate Hok.
    + destruct (q_task_done (movies_queue s)) as [q|] eqn:Hq; [|discriminate].
      injection Hperf as <-. apply invariant_movie_ack; assumption.
  - (* an operation of a movie thread raises *)
    pose proof (inv_movie_threads s Hinv) as Hok. rewrite Hth in Hok.
    apply Forall_middle in Hok as (_ & Hok & _).
    destruct ev as [u params|txt|fields|u|r| |]; cbn [perform] in Hperf;
      try discriminate Hperf.
    + cbn in Hok. destruct Hok as [Hok _]. discriminate Hok.
    + destruct (movie_thread_before_ack _ _ _ Hok) as (Hh1 & _ & _).
      apply invariant_movie_thread_same
        with (t := Running url (EvMoviesTaskDone :: pending) outcome);
        [exact Hinv|exact Hth|rewrite Hh1; reflexivity|exact I|discriminate].
  - (* a movie thread ends its loop body *)
    apply invariant_movie_thread_same with (t := Running url [] outcome);
      [exact Hinv|exact Hth| | |].
    + destruct outcome as [[]|e]; reflexivity.
    + destruct outcome; exact I.
    + destruct outcome; discriminate.
Qed.

Lemma invariant_reachable w num_pages s : reachable w num_pages s -> invariant s.
Proof.
  induction 1 as [|s s' _ IH Hstep]; [apply invariant_initial|].
  apply (invariant_step w num_pages s s' IH Hstep).
Qed.

(** ** The shutdown sequence *)

(** C3: in every state a run can reach, if a movie thread has shut down,
    then every URL put on the movies queue by a page thread has been
    processed up to its acknowledgement by a movie thread (the two
    histories agree up to order, repetitions counted); moreover no URL is
    left on the movies queue and every page thread has ended, so none will
    be put later. *)
Theorem no_detail_url_lost (w : World) (num_pages : nat) (s : crawl) :
  reachable w num_pages s -> movie_thread_shut_down s ->
  Permutation (discovered s) (processed s)
  /\ queue_urls (items (movies_queue s)) = []
  /\ Forall terminated (page_threads s).
Proof.
  intros Hreach Hdown. pose proof (invariant_reachable w num_pages s Hreach) as Hinv.
  destruct (stopping_movies (main s)) eqn:Hs.
  - destruct (inv_after s Hinv Hs) as [Hq Hh]. split; [|split].
    + pose proof (inv_accounted s Hinv) as Hacc. rewrite Hq, Hh, !app_nil_r in Hacc.
      exact Hacc.
    + exact Hq.
    + apply (inv_joined s Hinv). destruct (main s); try discriminate Hs; reflexivity.
  - destruct (inv_before s Hinv Hs) as [_ Hnone]. destruct (Hnone Hdown).
Qed.

(** The sentinels for the movie threads are put only after the movies queue
    was joined: while the main thread has not reached that point, no movie
    thread has shut down. *)
Lemma movie_threads_run_until_stopped w num_pages s :
  reachable w num_pages s -> stopping_movies (main s) = false ->
  ~ movie_thread_shut_down s.
Proof.
  intros Hreach Hs. apply (inv_before s (invariant_reachable w num_pages s Hreach) Hs).
Qed.

(** A run on [listing_web], one thread at a time: the listing page is
    read, its movie is put on the movies queue, the page threads are
    stopped and joined, a movie thread processes the movie, the movies
    queue is joined and the first sentinel stops a movie thread. *)
Ltac advance R tac :=
  match type of R with
  | reachable ?w ?n ?s =>
      let St := fresh "St" in
      let R' := fresh "R" in
      eassert (St : step w n s _) by tac;
      pose proof (reach_step w n s _ R St) as R';
      match type of R' with
      | reachable _ _ ?s1 =>
          let s' := eval vm_compute in s1 in
          change (reachable w n s') in R'
      end;
      clear R St; rename R' into R
  end.

Ltac stop_page_thread k :=
  eapply (step_page_get _ _ _ (repeat Returned k) (repeat AtGet (9 - k))); reflexivity.

Ltac run_listing_web R :=
  advance R ltac:(eapply (step_seed _ _ _ 1); [reflexivity|lia]);
  advance R ltac:(eapply (step_seeded _ _ _ 2); [reflexivity|lia]);
  advance R ltac:(eapply (step_page_get _ _ _ [] (repeat AtGet 9)); reflexivity);
  do 3 advance R ltac:(eapply (step_page_perform _ _ _ _ [] (repeat AtGet 9)); reflexivity);
  advance R ltac:(eapply (step_page_end _ _ _ [] (repeat AtGet 9)); reflexivity);
  advance R ltac:(eapply step_join_pages; reflexivity);
  do 10 advance R ltac:(eapply step_stop_page; reflexivity);
  advance R ltac:(eapply step_pages_stopped; reflexivity);
  advance R ltac:(stop_page_thread 0); advance R ltac:(stop_page_thread 1);
  advance R ltac:(stop_page_thread 2); advance R ltac:(stop_page_thread 3);
  advance R ltac:(stop_page_thread 4); advance R ltac:(stop_page_thread 5);
  advance R ltac:(stop_page_thread 6); advance R ltac:(stop_page_thread 7);
  advance R ltac:(stop_page_thread 8); advance R ltac:(stop_page_thread 9);
  advance R ltac:(eapply step_join_page_threads; [reflexivity|repeat constructor]);
  advance R ltac:(eapply (step_movie_get _ _ _ [] (repeat AtGet 17)); reflexivity);
  do 6 advance R ltac:(eapply (step_movie_perform _ _ _ _ [] (repeat AtGet 17)); reflexivity);
  advance R ltac:(eapply (step_movie_end _ _ _ [] (repeat AtGet 17)); reflexivity);
  advance R ltac:(eapply step_join_movies; reflexivity);
  advance R ltac:(eapply step_stop_movie; reflexivity);
  advance R ltac:(eapply (step_movie_get _ _ _ [] (repeat AtGet 17)); reflexivity).

Lemma no_detail_url_lost_witness :
  exists s,
    reachable listing_web 1 s /\ movie_thread_shut_down s
    /\ discovered s = [amelie_url] /\ result_list s = [amelie_record]
    /\ Permutation (discovered s) (processed s).
Proof.
  pose proof (reach_initial listing_web 1) as R. run_listing_web R.
  eexists. split; [exact R|].
  assert (Hdown : movie_thread_shut_down
                    (set_movie_threads (Returned :: repeat AtGet 17) initial))
    by (left; reflexivity).
  split; [exact Hdown|]. split; [reflexivity|]. split; [reflexivity|].
  exact (proj1 (no_detail_url_lost _ _ _ R Hdown)).
Defined.

(** ** The library models on sample inputs *)

Example re_title_samples :
  re_match title_regex (py "Foo (a) (b)") = Some [py "Foo (a)"; py "(b)"]
  /\ re_match title_regex (py "Foo") = None
  /\ re_match title_regex (py "Foo (x)" ++ [NEWLINE]) = Some [py "Foo"; py "(x)"]
  /\ re_match title_regex (py "Foo (x)" ++ [NEWLINE; NEWLINE]) = None
  /\ re_match title_regex (py "Foo" ++ [NEWLINE] ++ py "(x)") = Some [py "Foo"; py "(x)"]
  /\ re_match title_regex (py "Foo" ++ [160%N] ++ py "(x)") = Some [py "Foo"; py "(x)"].
Proof. repeat split; reflexivity. Qed.

Example re_restriction_samples :
  re_match restriction_regex (KIJKWIJZER_DIR ++ py "geweldXpng") = Some [py "geweld"]
  /\ re_match restriction_regex (KIJKWIJZER_DIR ++ py "a.png" ++ [NEWLINE]) = Some [py "a"]
  /\ re_match restriction_regex (KIJKWIJZER_DIR ++ py "png") = None.
Proof. repeat split; reflexivity. Qed.

Example str_samples :
  py_split (py ":") (py "a:b:c") = [py "a"; py "b"; py "c"]
  /\ py_split (py "aa") (py "aaa") = [[]; py "a"]
  /\ py_split (py "kijkwijzer-") (py "kijkwijzer-12") = [[]; py "12"]
  /\ py_split_ws (py "  a b  ") = [py "a"; py "b"]
  /\ py_strip (py "  a b ") = py "a b"
  /\ squeeze (py " Special: x y ") = py "Special:xy"
  /\ py_str_of_Z 2024 = py "2024" /\ py_str_of_Z 0 = py "0".
Proof. repeat split; reflexivity. Qed.

Example strptime_samples :
  strptime_dmY offline (py "27.05.2024") = Ok (midnight (mkdate 2024 5 27))
  /\ strptime_dmY offline (py "1.5.2024") = Ok (midnight (mkdate 2024 5 1))
  /\ strptime_dmY offline (py "31.02.2024") = Raise ValueError
  /\ strptime_dmY offline (py "27.05.999") = Raise ValueError
  /\ strptime_dmY offline (py "27.05.20245") = Raise ValueError
  /\ strptime_dmY offline (py "00.05.2024") = Raise ValueError.
Proof. repeat split; reflexivity. Qed.

Example date_samples :
  toordinal (mkdate 9999 12 31) = MAXORDINAL
  /\ toordinal (mkdate 2024 5 27) = 739033%Z
  /\ of_ordinal 739033 = mkdate 2024 5 27
  /\ weekday (mkdate 2024 6 10) = 0%Z
  /\ date_add_days (mkdate 2024 2 28) 1 = Ok (mkdate 2024 2 29)
  /\ date_add_days (mkdate 9999 12 31) 1 = Raise OverflowError
  /\ module_init (mkdate 2024 6 10) = Ok june_10
  /\ module_init (mkdate 9999 12 31) = Raise OverflowError.
Proof. repeat split; reflexivity. Qed.

Example float_samples :
  SFltb eight eight = false /\ SFltb eight rating_8_1 = true
  /\ float_truthy float_zero = false /\ float_truthy S754_nan = true
  /\ SFltb eight S754_nan = false.
Proof. repeat split; reflexivity. Qed.

(** ** The records of the shared result list *)

Lemma quiet_no_append (evs : list event) (rec : result_record) :
  forallb quiet evs = true -> ~ In (EvAppend rec) evs.
Proof.
  intros Hq Hin. rewrite forallb_forall in Hq. specialize (Hq _ Hin). discriminate Hq.
Qed.

Lemma append_after_quiet (rec : result_record) url params (evs tail : list event) :
  forallb quiet evs = true ->
  In (EvAppend rec) (EvRequest url params :: evs ++ tail) -> In (EvAppend rec) tail.
Proof.
  intros Hq [H|H]; [discriminate H|].
  apply in_app_iff in H as [H|H]; [destruct (quiet_no_append _ _ Hq H)|exact H].
Qed.

(** The only record the movie loop body appends is an earned one. *)
Lemma process_movie_item_appends w url rl rec :
  In (EvAppend rec) (snd (process_movie_item w url rl)) -> earned w rec.
Proof.
  unfold process_movie_item, prog_bind, prog_io, io_lift, io_emit.
  destruct (re_match (movie_url_regex w) url) as [[|pid [|code [|x groups]]]|] eqn:Hm;
    cbn [fst snd]; try (intros []; fail).
  destruct (requests_get w url []) as [page|e] eqn:Hget; cbn [fst snd];
    [|intros [H|[]]; discriminate H].
  destruct (lh_fromstring w (text page)) as [doc|e] eqn:Hparse; cbn [fst snd];
    [|intros [H|[]]; discriminate H].
  destruct (get_movie_special doc) as [special|e] eqn:Hsp; cbn [fst snd];
    [|intros [H|[]]; discriminate H].
  destruct (match special with Some s => py_in s SKIP_SPECIAL | None => false end) eqn:Hskip;
    [intros [H|[H|[]]]; discriminate H|].
  pose proof (get_movie_imdb_rating_quiet w {[ "title"%string := PStr (get_movie_title doc) ]})
    as Hq.
  destruct (get_movie_imdb_rating w {[ "title"%string := PStr (get_movie_title doc) ]})
    as [[[imdb_id rating]|e] evs] eqn:Hres; cbn [snd] in Hq;
    cbn [io_try io_bind io_ret fst snd].
  - rewrite app_nil_r.
    destruct rating as [r|]; [destruct (float_truthy r && SFltb eight r) eqn:Hcond|];
      cbn [fst snd result_list_append prog_ret app]; rewrite ?app_nil_r; intros H;
      apply (append_after_quiet _ _ _ _ _ Hq) in H.
    + destruct H as [H|[H|[H|[]]]]; try discriminate H.
      injection H as <-. apply andb_prop in Hcond as [_ Hgt].
      exists url, imdb_id, r. split; [|split; [exact Hgt|reflexivity]].
      exists doc, special, evs. split; [|split; [exact Hskip|exact Hres]].
      split; [exists pid, code; exact Hm|]. exists page. auto.
    + destruct H as [H|[]]; discriminate H.
    + destruct H as [H|[]]; discriminate H.
  - destruct (is_IMDBMovieNotFoundError e); cbn [fst snd prog_ret app]; rewrite ?app_nil_r;
      intros H.
    + apply (append_after_quiet _ _ _ _ _ Hq) in H. destruct H as [H|[]]; discriminate H.
    + rewrite <- (app_nil_r evs) in H. apply (append_after_quiet _ _ _ _ _ Hq) in H.
      destruct H.
Qed.

Lemma perform_result_list url ev s s' :
  perform url ev s = Some s' ->
  movie_threads s' = movie_threads s
  /\ result_list s' = result_list s ++ match ev with EvAppend r => [r] | _ => [] end.
Proof.
  destruct ev; cbn [perform]; try (intros [= <-]; cbn; rewrite ?app_nil_r; auto; fail).
  - destruct (q_task_done (pages_queue s)); [|discriminate].
    intros [= <-]. cbn. rewrite app_nil_r. auto.
  - destruct (q_task_done (movies_queue s)); [|discriminate].
    intros [= <-]. cbn. rewrite app_nil_r. auto.
Qed.

Lemma movie_thread_takes_earned w rl item : appends_earned w (movie_thread_takes w rl item).
Proof.
  destruct item as [url|]; [|exact I]. cbn [movie_thread_takes].
  destruct (nonempty url); [|exact I].
  pose proof (process_movie_item_appends w url rl) as H.
  destruct (process_movie_item w url rl) as [[outcome rl'] evs]. exact H.
Qed.

Lemma records_ok_step w num_pages s s' :
  invariant s -> records_ok w s -> step w num_pages s s' -> records_ok w s'.
Proof.
  intros Hinv [Hrl Hth] Hstep.
  destruct Hstep as
    [s p Hpc Hle | s p Hpc Hlt | s Hpc Hz | s left Hpc | s Hpc | s Hpc Hall
    | s Hpc Hz | s left Hpc | s Hpc | s Hpc Hall
    | s before after item rest Hpt Hq
    | s s' before after url ev pending outcome Hpt Hperf
    | s before after url ev pending outcome Hpt Hperf
    | s before after url outcome Hpt
    | s before after item rest Hmt Hq
    | s s' before after url ev pending outcome Hmt Hperf
    | s before after url ev pending outcome Hmt Hperf
    | s before after url outcome Hmt];
    try (split; assumption).
  - (* a page thread performs an operation: never an append *)
    pose proof (inv_page_threads s Hinv) as Hok. rewrite Hpt in Hok.
    apply Forall_middle in Hok as (_ & Hok & _). cbn [page_thread_ok forallb] in Hok.
    apply andb_prop in Hok as [Hev _].
    destruct (perform_result_list url ev s s' Hperf) as [Hm Hr].
    split; cbn; [rewrite Hr|rewrite Hm; exact Hth].
    destruct ev; try discriminate Hev; rewrite app_nil_r; exact Hrl.
  - (* a movie thread takes an item *)
    split; cbn; [exact Hrl|]. rewrite Hmt in Hth.
    apply Forall_middle. apply Forall_middle in Hth as (Hb & _ & Ha).
    split; [exact Hb|split; [apply movie_thread_takes_earned|exact Ha]].
  - (* a movie thread performs an operation *)
    destruct (perform_result_list url ev s s' Hperf) as [Hm Hr].
    rewrite Hmt in Hth. apply Forall_middle in Hth as (Hb & Hrun & Ha).
    cbn [appends_earned] in Hrun. split; cbn.
    + rewrite Hr. apply Forall_app. split; [exact Hrl|].
      destruct ev; try constructor; [|constructor]. apply Hrun. left. reflexivity.
    + apply Forall_middle. split; [exact Hb|split; [|exact Ha]].
      intros rec Hin. apply Hrun. right. exact Hin.
  - split; cbn; [exact Hrl|]. rewrite Hmt in Hth.
    apply Forall_middle. apply Forall_middle in Hth as (Hb & _ & Ha).
    split; [exact Hb|split; [exact I|exact Ha]].
  - split; cbn; [exact Hrl|]. rewrite Hmt in Hth.
    apply Forall_middle. apply Forall_middle in Hth as (Hb & _ & Ha).
    split; [exact Hb|split; [destruct outcome; exact I|exact Ha]].
Qed.

(** X1: in every state a run can reach, every record of the shared result
    list pairs the URL of a detail page with the database URL of a rating
    above 8 that was resolved for that page. *)
Theorem result_list_earned w num_pages s :
  reachable w num_pages s -> Forall (earned w) (result_list s).
Proof.
  intros Hreach.
  assert (H : records_ok w s).
  { induction Hreach as [|s s' Hreach IH Hstep].
    - split; [constructor|]. cbn. repeat constructor.
    - apply (records_ok_step w num_pages s s'); [|exact IH|exact Hstep].
      apply (invariant_reachable w num_pages s Hreach). }
  apply H.
Qed.

Lemma result_list_earned_witness :
  exists s,
    reachable listing_web 1 s /\ result_list s = [amelie_record]
    /\ Forall (earned listing_web) (result_list s).
Proof.
  pose proof (reach_initial listing_web 1) as R. run_listing_web R.
  eexists. split; [exact R|]. split; [reflexivity|].
  exact (result_list_earned _ _ _ R).
Defined.

(** ** The loop over the posters of a listing page *)

(** One round of the loop: it stops at a broken poster, and otherwise puts
    the poster's detail URL, if it has one, and goes on. *)
Lemma posters_loop_cons (movie : element) (l : list element) :
  (poster_broken movie /\ posters_loop (movie :: l) = (Raise IndexError, []))
  \/ (~ poster_broken movie
      /\ posters_loop (movie :: l)
         = (fst (posters_loop l),
            map EvPut (omap poster_target [movie]) ++ snd (posters_loop l))).
Proof.
  cbn [posters_loop omap list_omap]. unfold poster_broken, poster_target, io_lift, py_getitem.
  cbn [nth_error].
  destruct (xpath_strings movie XButtonText) as [|label labels]; cbn [io_bind];
    [left; auto|].
  destruct (py_in label _); cbn [negb].
  - destruct (xpath_strings movie XOverlayHref) as [|href hrefs]; cbn [io_bind];
      [left; auto|].
    right. split; [intros [_ H]; discriminate H|]. destruct (pystr_eqb href _).
    + destruct (posters_loop l); reflexivity.
    + unfold io_emit. cbn [io_bind]. destruct (posters_loop l); reflexivity.
  - right. split; [intros [H _]; discriminate H|]. destruct (posters_loop l); reflexivity.
Qed.

Lemma omap_cons_app {A B} (f : A -> option B) (x : A) (l : list A) :
  omap f (x :: l) = omap f [x] ++ omap f l.
Proof. cbn. destruct (f x); reflexivity. Qed.

(** X3: the loop over the posters of a listing page handles the posters in
    page order. For each poster whose first button text is 'Tijden en
    tickets' or 'Verwacht' and whose first link is not
    '/film/845/sneak-preview' it puts 'http://www.pathe.nl' + link on the
    movies queue, and it does nothing else. It ends normally after the last
    poster when no poster is broken, and otherwise with IndexError at the
    first broken poster, one that has no button text, or has one of the two
    labels and no link; the URLs of the posters before that one, none of
    them broken, have been put by then. *)
Theorem posters_loop_puts_listed (movies_list : list element) :
  exists done rest,
    movies_list = done ++ rest
    /\ Forall (fun movie => ~ poster_broken movie) done
    /\ snd (posters_loop movies_list) = map EvPut (omap poster_target done)
    /\ match rest with
       | [] => fst (posters_loop movies_list) = Ok tt
       | movie :: _ =>
           poster_broken movie /\ fst (posters_loop movies_list) = Raise IndexError
       end.
Proof.
  induction movies_list as [|movie l IH].
  - exists [], []. repeat split. constructor.
  - destruct (posters_loop_cons movie l) as [[Hbroken ->]|[Hsound ->]].
    + exists [], (movie :: l). repeat split; [constructor|exact Hbroken].
    + destruct IH as (done & rest & -> & Hdone & Hev & Hres). exists (movie :: done), rest.
      cbn [fst snd]. split; [reflexivity|]. split; [constructor; assumption|].
      split; [|exact Hres].
      rewrite (omap_cons_app _ movie done), map_app, Hev. reflexivity.
Qed.

(** The loop on a page whose second poster is not on sale yet, and on a
    page whose second poster has no button text. *)
Lemma posters_loop_puts_listed_example :
  posters_loop [poster (py "Tijden en tickets") (py "/film/1/amelie");
                poster (py "Binnenkort") (py "/film/2/later")]
  = (Ok tt, [EvPut amelie_url])
  /\ posters_loop [poster (py "Verwacht") (py "/film/1/amelie"); blank;
                   poster (py "Verwacht") (py "/film/3/lost")]
     = (Raise IndexError, [EvPut amelie_url]).
Proof. split; reflexivity. Qed.

(** Every operation of the loop over the posters is the put of the detail
    URL of one of the posters. *)
Lemma posters_loop_sources (l : list element) (ev : event) :
  In ev (snd (posters_loop l)) ->
  exists movie u, In movie l /\ poster_target movie = Some u /\ ev = EvPut u.
Proof.
  induction l as [|movie l IH]; [intros []|].
  destruct (posters_loop_cons movie l) as [[_ ->]|[_ ->]]; [intros []|].
  cbn [snd omap list_omap]. intros Hin. apply in_app_iff in Hin as [Hin|Hin].
  - destruct (poster_target movie) as [u|] eqn:Ht; [|destruct Hin].
    destruct Hin as [<-|[]]. exists movie, u. split; [left; reflexivity|]. auto.
  - destruct (IH Hin) as (movie' & u & Hm & Ht & ->). exists movie', u.
    split; [right; exact Hm|]. auto.
Qed.

Lemma page_acks_app (a b : list event) : page_acks (a ++ b) = page_acks a + page_acks b.
Proof.
  induction a as [|ev a IH]; [reflexivity|]. destruct ev; cbn; rewrite ?IH; reflexivity.
Qed.

Lemma posters_loop_page_acks (l : list element) : page_acks (snd (posters_loop l)) = 0.
Proof.
  pose proof (posters_loop_sources l) as H. induction (snd (posters_loop l)) as [|ev evs IH];
    [reflexivity|].
  destruct (H ev (or_introl eq_refl)) as (_ & u & _ & _ & ->). cbn.
  apply IH. intros ev' Hin. apply H. right. exact Hin.
Qed.

(** The operations of the page loop body: the request, the puts of the
    posters of the page requested, and one acknowledgement at the end when
    the body ends normally, none when it raises. *)
Lemma process_movies_list_page_item_events w url :
  (forall ev, In ev (snd (process_movies_list_page_item w url)) ->
     ev = EvRequest url [] \/ ev = EvPagesTaskDone
     \/ exists page doc movie u,
          requests_get w url [] = Ok page /\ lh_fromstring w (text page) = Ok doc
          /\ In movie (xpath_elements doc XPosters) /\ poster_target movie = Some u
          /\ ev = EvPut u)
  /\ page_acks (snd (process_movies_list_page_item w url))
     = if ends_ok (fst (process_movies_list_page_item w url)) then 1 else 0.
Proof.
  unfold process_movies_list_page_item, io_lift, io_emit. cbn [io_bind].
  destruct (requests_get w url []) as [page|e]; [|split; [intros ev [<-|[]]; auto|reflexivity]].
  destruct (lh_fromstring w (text page)) as [doc|e] eqn:Hparse;
    [|split; [intros ev [<-|[]]; auto|reflexivity]].
  pose proof (posters_loop_sources (xpath_elements doc XPosters)) as Hsrc.
  pose proof (posters_loop_page_acks (xpath_elements doc XPosters)) as Hacks.
  destruct (posters_loop (xpath_elements doc XPosters)) as [[[]|e] t];
    cbn [fst snd app ends_ok io_bind] in *.
  - split.
    + intros ev [<-|Hin]; [auto|]. apply in_app_iff in Hin as [Hin|[<-|[]]]; [|auto].
      destruct (Hsrc ev Hin) as (movie & u & Hm & Ht & ->). right. right.
      exists page, doc, movie, u. auto.
    + cbn [page_acks]. rewrite page_acks_app, Hacks. reflexivity.
  - split.
    + intros ev [<-|Hin]; [auto|].
      destruct (Hsrc ev Hin) as (movie & u & Hm & Ht & ->). right. right.
      exists page, doc, movie, u. auto.
    + cbn [page_acks]. exact Hacks.
Qed.

(** ** The shutdown invariant *)

(** The fields of a state after an update. *)
Ltac state_simpl :=
  cbn [pages_queue movies_queue page_threads movie_threads result_list main discovered
       processed set_pages set_movies set_page_threads set_movie_threads set_result_list
       set_main log_discovered log_processed q_put items unfinished] in *.

Lemma returned_middle (before after : list thread) (t : thread) :
  returned (before ++ t :: after)
  = returned before + (if is_returned t then 1 else 0) + returned after.
Proof.
  unfold returned. rewrite List.filter_app, length_app. cbn [List.filter].
  destruct (is_returned t); cbn [length]; lia.
Qed.

Lemma page_held_middle (before after : list thread) (t : thread) :
  flat_map page_held (before ++ t :: after)
  = flat_map page_held before ++ page_held t ++ flat_map page_held after.
Proof. rewrite flat_map_app. reflexivity. Qed.

Lemma length_middle {A} (before after : list A) (x : A) :
  length (before ++ x :: after) = length before + S (length after).
Proof. rewrite length_app. reflexivity. Qed.

Lemma none_returned (l : list thread) : ~ In Returned l -> returned l = 0.
Proof.
  induction l as [|t l IH]; [reflexivity|]. intros Hno. unfold returned in *.
  cbn [List.filter]. destruct t; cbn [is_returned length];
    try (apply IH; intros H; apply Hno; right; exact H).
  destruct Hno. left. reflexivity.
Qed.

Lemma not_returned_middle (before after : list thread) (t t' : thread) :
  ~ In Returned (before ++ t :: after) -> t' <> Returned ->
  ~ In Returned (before ++ t' :: after).
Proof.
  intros Hno Ht Hin. apply Hno. apply in_app_iff in Hin as [Hin|[Hin|Hin]].
  - apply in_app_iff. left. exact Hin.
  - congruence.
  - apply in_app_iff. right. right. exact Hin.
Qed.

Lemma shutdown_initial : shutdown initial.
Proof.
  constructor; cbn; try discriminate; try reflexivity.
  - repeat constructor.
  - intros _. split; [reflexivity|]. split; [constructor|]. intros H.
    repeat (destruct H as [H|H]; [discriminate H|]). exact H.
Qed.

(** The parts of the state the shutdown invariant speaks of. *)
Lemma shutdown_frame s s' :
  shutdown s -> pages_queue s' = pages_queue s ->
  items (movies_queue s') = items (movies_queue s) ->
  page_threads s' = page_threads s -> movie_threads s' = movie_threads s ->
  main s' = main s -> shutdown s'.
Proof.
  intros [? ? ? ? ? ? ?] Hp Hm Hpt Hmt Hpc.
  constructor; rewrite ?Hp, ?Hm, ?Hpt, ?Hmt, ?Hpc; assumption.
Qed.

(** Replacing a page thread by one that holds the same URL. *)
Lemma shutdown_page_thread_same s before after t t' :
  shutdown s -> page_threads s = before ++ t :: after ->
  page_held t' = page_held t -> page_thread_acks_ok t' ->
  t <> Returned -> t' <> Returned ->
  shutdown (set_page_threads (before ++ t' :: after) s).
Proof.
  intros [Hpc Hmc Hacks Hbef Haft Hmaft Hrep] Hth Hheld Hok Ht Ht'.
  rewrite Hth in *. rewrite page_held_middle, returned_middle, length_middle in *.
  constructor; state_simpl; try assumption.
  - rewrite length_middle. exact Hpc.
  - apply Forall_middle. apply Forall_middle in Hacks. tauto.
  - intros Hs. destruct (Hbef Hs) as (Hcount & Hitems & Hnone).
    rewrite page_held_middle, Hheld. split; [exact Hcount|]. split; [exact Hitems|].
    apply (not_returned_middle before after t t' Hnone Ht').
  - intros Hs. destruct (Haft Hs) as (Hq & Hh & Hcount).
    rewrite page_held_middle, returned_middle, Hheld. split; [exact Hq|]. split; [exact Hh|].
    destruct t, t'; cbn [is_returned] in *; congruence.
Qed.

(** Replacing a movie thread that has not ended by one that has not
    returned. *)
Lemma shutdown_movie_thread_same s before after t t' :
  shutdown s -> movie_threads s = before ++ t :: after ->
  ~ terminated t -> t' <> Returned ->
  shutdown (set_movie_threads (before ++ t' :: after) s).
Proof.
  intros [Hpc Hmc Hacks Hbef Haft Hmaft Hrep] Hth Ht Ht'.
  rewrite Hth in *. rewrite returned_middle, length_middle in *.
  constructor; state_simpl; try assumption.
  - rewrite length_middle. exact Hmc.
  - intros Hs. rewrite returned_middle. specialize (Hmaft Hs).
    destruct t, t'; cbn [is_returned terminated] in *; try congruence; tauto.
  - intros Hr. destruct (Ht (not_all_terminated _ _ _ (Hrep Hr))).
Qed.

Lemma page_url_nonempty (p : nat) : nonempty (page_url p) = true.
Proof. reflexivity. Qed.

(** While a page thread has not ended the main thread has not joined the
    page threads. *)
Lemma page_thread_busy s before after t :
  invariant s -> page_threads s = before ++ t :: after -> ~ terminated t ->
  stopping_movies (main s) = false /\ main s <> Report.
Proof.
  intros Hinv Hth Ht.
  assert (Hpj : pages_joined (main s) = false).
  { destruct (pages_joined (main s)) eqn:Hpj; [|reflexivity].
    pose proof (inv_joined s Hinv Hpj) as Hj. rewrite Hth in Hj.
    destruct (Ht (not_all_terminated _ _ _ Hj)). }
  split; [apply pages_joined_before; exact Hpj|]. intros Hr. rewrite Hr in Hpj.
  discriminate Hpj.
Qed.

(** A page thread takes an item from the pages queue. *)
Lemma shutdown_page_get w s before after item rest :
  shutdown s -> page_threads s = before ++ AtGet :: after ->
  items (pages_queue s) = item :: rest ->
  shutdown (set_page_threads (before ++ page_thread_takes w item :: after)
              (set_pages {| items := rest; unfinished := unfinished (pages_queue s) |} s)).
Proof.
  intros [Hpc Hmc Hacks Hbef Haft Hmaft Hrep] Hth Hq.
  rewrite Hth, Hq in *. rewrite page_held_middle, returned_middle, length_middle in *.
  cbn [page_held is_returned app] in *.
  apply Forall_middle in Hacks as (Hab & _ & Haa).
  constructor; state_simpl; try assumption.
  - rewrite length_middle. exact Hpc.
  - apply Forall_middle. split; [exact Hab|split; [|exact Haa]].
    destruct item as [url|]; [|exact I]. cbn [page_thread_takes].
    destruct (nonempty url); [|exact I].
    pose proof (process_movies_list_page_item_events w url) as [_ Hack].
    destruct (process_movies_list_page_item w url) as [outcome evs]. cbn [fst snd] in Hack.
    cbn [page_thread_acks_ok]. rewrite Hack. split.
    + destruct (ends_ok outcome); lia.
    + intros e ->. reflexivity.
  - intros Hs. destruct (Hbef Hs) as (Hcount & Hitems & Hnone).
    inversion Hitems as [|? ? Hitem Hrest]; subst.
    destruct item as [url|]; [|destruct Hitem]. cbn [page_item_ok] in Hitem.
    cbn [page_thread_takes]. rewrite Hitem.
    pose proof (process_movies_list_page_item_events w url) as [_ Hack].
    destruct (process_movies_list_page_item w url) as [outcome evs]. cbn [fst snd] in Hack.
    assert (Hheld : page_held (Running url evs outcome) = [url]).
    { cbn. destruct outcome as [[]|e]; cbn in *; [rewrite Hack|]; reflexivity. }
    rewrite page_held_middle, Hheld. split; [|split; [exact Hrest|]].
    + rewrite !length_app in *. cbn [length] in *. lia.
    + apply (not_returned_middle before after AtGet _ Hnone). discriminate.
  - intros Hs. destruct (Haft Hs) as (Hqu & Hh & Hcount).
    destruct item as [url|]; [discriminate Hqu|]. cbn [queue_urls flat_map app] in Hqu.
    cbn [page_thread_takes]. rewrite page_held_middle, returned_middle.
    cbn [page_held is_returned app length] in *. split; [exact Hqu|]. split; [exact Hh|]. lia.
Qed.

(** A page thread acknowledges its URL. *)
Lemma shutdown_page_ack s q before after url pending outcome :
  shutdown s ->
  page_threads s = before ++ Running url (EvPagesTaskDone :: pending) outcome :: after ->
  q_task_done (pages_queue s) = Some q ->
  shutdown (set_page_threads (before ++ Running url pending outcome :: after)
              (set_pages q s)).
Proof.
  intros [Hpc Hmc Hacks Hbef Haft Hmaft Hrep] Hth Hq.
  rewrite Hth in *. rewrite page_held_middle, returned_middle, length_middle in *.
  apply Forall_middle in Hacks as (Hab & Hok & Haa).
  cbn [page_thread_acks_ok page_acks] in Hok. destruct Hok as [Hle Hraise].
  assert (Hz : page_acks pending = 0) by lia.
  destruct outcome as [[]|e]; [|specialize (Hraise e eq_refl); discriminate].
  assert (Hh1 : page_held (Running url (EvPagesTaskDone :: pending) (Ok tt)) = [url])
    by reflexivity.
  assert (Hh0 : page_held (Running url pending (Ok tt)) = []) by (cbn; rewrite Hz; reflexivity).
  rewrite Hh1 in *.
  unfold q_task_done in Hq. destruct (unfinished (pages_queue s)) as [|n] eqn:Hn;
    [discriminate|]. injection Hq as <-.
  constructor; state_simpl; try assumption.
  - rewrite length_middle. exact Hpc.
  - apply Forall_middle. split; [exact Hab|split; [|exact Haa]].
    cbn [page_thread_acks_ok]. split; [lia|]. intros e He. discriminate He.
  - intros Hs. destruct (Hbef Hs) as (Hcount & Hitems & Hnone).
    rewrite page_held_middle, Hh0. split; [|split; [exact Hitems|]].
    + rewrite !length_app in *. cbn [length] in *. lia.
    + apply (not_returned_middle before after _ _ Hnone). discriminate.
  - intros Hs. destruct (Haft Hs) as (_ & Hh & _).
    apply app_eq_nil in Hh as [_ Hh]. discriminate Hh.
Qed.

(** A page thread puts a URL on the movies queue. *)
Lemma shutdown_put_url s u :
  shutdown s -> stopping_movies (main s) = false ->
  shutdown (log_discovered u (set_movies (q_put (Some u) (movies_queue s)) s)).
Proof.
  intros [Hpc Hmc Hacks Hbef Haft Hmaft Hrep] Hs.
  constructor; state_simpl; try assumption.
  rewrite Hs. discriminate.
Qed.

(** Every step of the main thread and of the workers keeps the shutdown
    invariant. *)
Lemma shutdown_step w num_pages s s' :
  invariant s -> shutdown s -> step w num_pages s s' -> shutdown s'.
Proof.
  intros Hinv Hsd Hstep.
  destruct Hstep as
    [s p Hpc Hle | s p Hpc Hlt | s Hpc Hz | s left Hpc | s Hpc | s Hpc Hall
    | s Hpc Hz | s left Hpc | s Hpc | s Hpc Hall
    | s before after item rest Hth Hq
    | s s' before after url ev pending outcome Hth Hperf
    | s before after url ev pending outcome Hth Hperf
    | s before after url outcome Hth
    | s before after item rest Hth Hq
    | s s' before after url ev pending outcome Hth Hperf
    | s before after url ev pending outcome Hth Hperf
    | s before after url outcome Hth].
  - (* the put of a page URL *)
    destruct Hsd as [Hpcn Hmc Hacks Hbef Haft Hmaft Hrep]. rewrite Hpc in *.
    constructor; state_simpl; try assumption; try discriminate.
    intros _. destruct (Hbef eq_refl) as (Hcount & Hitems & Hnone).
    split; [|split; [|exact Hnone]].
    + rewrite length_app. cbn [length]. lia.
    + apply Forall_app. split; [exact Hitems|]. constructor; [|constructor].
      apply page_url_nonempty.
  - destruct Hsd as [Hpcn Hmc Hacks Hbef Haft Hmaft Hrep]. rewrite Hpc in *.
    constructor; state_simpl; try assumption; try discriminate.
  - (* pages_queue.join() returns *)
    destruct Hsd as [Hpcn Hmc Hacks Hbef Haft Hmaft Hrep]. rewrite Hpc in *.
    destruct (Hbef eq_refl) as (Hcount & Hitems & Hnone). rewrite Hz in Hcount.
    assert (Hq : items (pages_queue s) = []) by (apply length_zero_iff_nil; lia).
    assert (Hh : flat_map page_held (page_threads s) = [])
      by (apply length_zero_iff_nil; lia).
    constructor; state_simpl; try assumption; try discriminate.
    intros _. rewrite Hq, (none_returned _ Hnone). cbn. auto.
  - (* a sentinel for a page thread *)
    destruct Hsd as [Hpcn Hmc Hacks Hbef Haft Hmaft Hrep]. rewrite Hpc in *.
    destruct (Haft eq_refl) as (Hqu & Hh & Hcount).
    constructor; state_simpl; try assumption; try discriminate.
    intros _. rewrite queue_urls_app, Hqu, length_app. cbn [page_sentinels_left length] in *.
    split; [reflexivity|]. split; [exact Hh|]. lia.
  - destruct Hsd as [Hpcn Hmc Hacks Hbef Haft Hmaft Hrep]. rewrite Hpc in *.
    constructor; state_simpl; try assumption; try discriminate.
  - destruct Hsd as [Hpcn Hmc Hacks Hbef Haft Hmaft Hrep]. rewrite Hpc in *.
    constructor; state_simpl; try assumption; try discriminate.
  - (* movies_queue.join() returns *)
    destruct Hsd as [Hpcn Hmc Hacks Hbef Haft Hmaft Hrep].
    destruct (inv_before s Hinv) as [Hcount Hnone]; [rewrite Hpc; reflexivity|].
    rewrite Hpc in *. rewrite Hz in Hcount.
    assert (Hq : items (movies_queue s) = []) by (apply length_zero_iff_nil; lia).
    constructor; state_simpl; try assumption; try discriminate.
    intros _. rewrite Hq, (none_returned _ Hnone). reflexivity.
  - (* a sentinel for a movie thread *)
    destruct Hsd as [Hpcn Hmc Hacks Hbef Haft Hmaft Hrep]. rewrite Hpc in *.
    constructor; state_simpl; try assumption; try discriminate.
    intros _. specialize (Hmaft eq_refl). rewrite length_app.
    cbn [movie_sentinels_left length] in *. lia.
  - destruct Hsd as [Hpcn Hmc Hacks Hbef Haft Hmaft Hrep]. rewrite Hpc in *.
    constructor; state_simpl; try assumption; try discriminate.
  - destruct Hsd as [Hpcn Hmc Hacks Hbef Haft Hmaft Hrep]. rewrite Hpc in *.
    constructor; state_simpl; try assumption; try discriminate.
    intros _. exact Hall.
  - apply shutdown_page_get; assumption.
  - (* a page thread performs an operation *)
    destruct (page_thread_busy s before after _ Hinv Hth (fun H => H)) as [Hsm _].
    pose proof (inv_page_threads s Hinv) as Hok. rewrite Hth in Hok.
    apply Forall_middle in Hok as (_ & Hok & _). cbn [page_thread_ok forallb] in Hok.
    apply andb_prop in Hok as [Hev _].
    assert (Hsame : forall s0, shutdown s0 -> page_threads s0 = page_threads s ->
              page_acks (ev :: pending) = page_acks pending ->
              shutdown (set_page_threads (before ++ Running url pending outcome :: after) s0)).
    { intros s0 Hsd0 Hth0 Hacks.
      apply shutdown_page_thread_same with (t := Running url (ev :: pending) outcome);
        [exact Hsd0|rewrite Hth0; exact Hth| | |discriminate|discriminate].
      - cbn [page_held]. unfold page_owes. rewrite Hacks. reflexivity.
      - pose proof (sd_page_acks s Hsd) as Hall. rewrite Hth in Hall.
        apply Forall_middle in Hall as (_ & Hall & _).
        cbn [page_thread_acks_ok] in *. rewrite Hacks in Hall. exact Hall. }
    destruct ev as [u params|txt|fields|u|r| |]; cbn [perform] in Hperf;
      try discriminate Hev.
    + injection Hperf as <-. apply Hsame; auto.
    + injection Hperf as <-. apply Hsame; auto.
    + injection Hperf as <-. apply Hsame; auto.
    + injection Hperf as <-. apply Hsame; auto. apply shutdown_put_url; assumption.
    + destruct (q_task_done (pages_queue s)) as [q|] eqn:Hq; [|discriminate].
      injection Hperf as <-. apply shutdown_page_ack; assumption.
  - (* an operation of a page thread raises *)
    pose proof (inv_page_threads s Hinv) as Hok. rewrite Hth in Hok.
    apply Forall_middle in Hok as (_ & Hok & _). cbn [page_thread_ok forallb] in Hok.
    apply andb_prop in Hok as [Hev _].
    destruct ev as [u params|txt|fields|u|r| |]; cbn [perform] in Hperf;
      try discriminate Hperf; try discriminate Hev.
    apply shutdown_page_thread_same
      with (t := Running url (EvPagesTaskDone :: pending) outcome);
      [exact Hsd|exact Hth| |exact I|discriminate|discriminate].
    destruct outcome; reflexivity.
  - (* a page thread ends its loop body *)
    apply shutdown_page_thread_same with (t := Running url [] outcome);
      [exact Hsd|exact Hth| | |discriminate|destruct outcome; discriminate].
    + destruct outcome as [[]|e]; reflexivity.
    + destruct outcome; exact I.
  - (* a movie thread takes an item *)
    destruct Hsd as [Hpcn Hmc Hacks Hbef Haft Hmaft Hrep].
    pose proof (inv_after s Hinv) as Hia.
    rewrite Hth, Hq in *. rewrite returned_middle, length_middle in *.
    constructor; state_simpl; try assumption.
    + rewrite length_middle. exact Hmc.
    + intros Hs. specialize (Hmaft Hs). destruct (Hia Hs) as [Hqu _].
      destruct item as [u|]; [discriminate Hqu|]. cbn [movie_thread_takes].
      rewrite returned_middle. cbn [is_returned length] in *. lia.
    + intros Hr. destruct (not_all_terminated _ _ _ (Hrep Hr)).
  - (* a movie thread performs an operation *)
    pose proof (inv_movie_threads s Hinv) as Hok. rewrite Hth in Hok.
    apply Forall_middle in Hok as (_ & Hok & _). cbn [movie_thread_ok forallb] in Hok.
    destruct Hok as [Hev _]. apply andb_prop in Hev as [Hev _].
    assert (Hsame : forall s0, shutdown s0 -> movie_threads s0 = movie_threads s ->
              shutdown (set_movie_threads (before ++ Running url pending outcome :: after) s0)).
    { intros s0 Hsd0 Hth0.
      apply shutdown_movie_thread_same with (t := Running url (ev :: pending) outcome);
        [exact Hsd0|rewrite Hth0; exact Hth|intros []|discriminate]. }
    destruct ev as [u params|txt|fields|u|r| |]; cbn [perform] in Hperf;
      try discriminate Hev.
    + injection Hperf as <-. apply Hsame; auto.
    + injection Hperf as <-. apply Hsame; auto.
    + injection Hperf as <-. apply Hsame; auto.
    + injection Hperf as <-. apply Hsame; [|reflexivity].
      apply (shutdown_frame s); auto.
    + destruct (q_task_done (movies_queue s)) as [q|] eqn:Hq; [|discriminate].
      injection Hperf as <-. apply Hsame; [|reflexivity].
      apply (shutdown_frame s); auto. unfold q_task_done in Hq.
      destruct (unfinished (movies_queue s)); [discriminate|]. injection Hq as <-.
      reflexivity.
  - (* an operation of a movie thread raises *)
    apply shutdown_movie_thread_same with (t := Running url (ev :: pending) outcome);
      [exact Hsd|exact Hth|intros []|discriminate].
  - (* a movie thread ends its loop body *)
    apply shutdown_movie_thread_same with (t := Running url [] outcome);
      [exact Hsd|exact Hth|intros []|destruct outcome; discriminate].
Qed.

Lemma shutdown_reachable w num_pages s : reachable w num_pages s -> shutdown s.
Proof.
  induction 1 as [|s s' Hreach IH Hstep]; [apply shutdown_initial|].
  apply (shutdown_step w num_pages s s'); [|exact IH|exact Hstep].
  apply (invariant_reachable w num_pages s Hreach).
Qed.

(** ** The end of a run *)

Lemma returned_repeat (k : nat) : returned (repeat Returned k) = k.
Proof. induction k as [|k IH]; [reflexivity|]. unfold returned in *. cbn. rewrite IH. reflexivity. Qed.

(** Threads that have all ended and hold nothing have all returned. *)
Lemma all_returned (hold : thread -> list pystr) (l : list thread) :
  (forall url e, hold (Died url e) <> []) ->
  Forall terminated l -> flat_map hold l = [] -> l = repeat Returned (length l).
Proof.
  intros Hdied Hall. induction Hall as [|t l Ht _ IH]; [reflexivity|].
  cbn [flat_map length repeat]. intros Hh. apply app_eq_nil in Hh as [Ht0 Hl].
  destruct t as [| | |url e]; try destruct Ht.
  - rewrite <- (IH Hl). reflexivity.
  - destruct (Hdied url e Ht0).
Qed.

(** X4: the report is composed only after a clean shutdown. In every state
    of a run in which the main thread has passed the last join, all ten
    page threads and all eighteen movie threads have returned from their
    loops (none was killed by an exception), both queues are empty, and
    every URL put on the movies queue has been acknowledged. *)
Theorem report_after_clean_shutdown (w : World) (num_pages : nat) (s : crawl) :
  reachable w num_pages s -> main s = Report ->
  page_threads s = repeat Returned num_page_threads
  /\ movie_threads s = repeat Returned num_movie_threads
  /\ items (pages_queue s) = [] /\ items (movies_queue s) = []
  /\ Permutation (discovered s) (processed s).
Proof.
  intros Hreach Hpc.
  pose proof (invariant_reachable w num_pages s Hreach) as Hinv.
  pose proof (shutdown_reachable w num_pages s Hreach) as Hsd.
  destruct (sd_pages_after s Hsd) as (Hpq & Hph & Hpn); [rewrite Hpc; reflexivity|].
  destruct (inv_after s Hinv) as [Hmq Hmh]; [rewrite Hpc; reflexivity|].
  pose proof (sd_movies_after s Hsd) as Hmn. rewrite Hpc in Hpn, Hmn.
  specialize (Hmn eq_refl). cbn [page_sentinels_left movie_sentinels_left] in *.
  assert (Hpt : page_threads s = repeat Returned num_page_threads).
  { rewrite <- (sd_page_count s Hsd). apply (all_returned page_held); [discriminate| |exact Hph].
    apply (inv_joined s Hinv). rewrite Hpc. reflexivity. }
  assert (Hmt : movie_threads s = repeat Returned num_movie_threads).
  { rewrite <- (sd_movie_count s Hsd). apply (all_returned held); [discriminate| |exact Hmh].
    apply (sd_report s Hsd Hpc). }
  rewrite Hpt, returned_repeat in Hpn. rewrite Hmt, returned_repeat in Hmn.
  split; [exact Hpt|]. split; [exact Hmt|].
  split; [apply length_zero_iff_nil; lia|]. split; [apply length_zero_iff_nil; lia|].
  pose proof (inv_accounted s Hinv) as Hacc. rewrite Hmq, Hmh, !app_nil_r in Hacc.
  exact Hacc.
Qed.

(** The run on [listing_web] of [run_listing_web], continued to the end:
    the other seventeen sentinels are put, every movie thread takes one, and
    the main thread joins the movie threads. *)
Ltac stop_movie_thread k :=
  eapply (step_movie_get _ _ _ (repeat Returned k) (repeat AtGet (17 - k))); reflexivity.

Ltac finish_listing_web R :=
  do 17 advance R ltac:(eapply step_stop_movie; reflexivity);
  advance R ltac:(eapply step_movies_stopped; reflexivity);
  advance R ltac:(stop_movie_thread 1); advance R ltac:(stop_movie_thread 2);
  advance R ltac:(stop_movie_thread 3); advance R ltac:(stop_movie_thread 4);
  advance R ltac:(stop_movie_thread 5); advance R ltac:(stop_movie_thread 6);
  advance R ltac:(stop_movie_thread 7); advance R ltac:(stop_movie_thread 8);
  advance R ltac:(stop_movie_thread 9); advance R ltac:(stop_movie_thread 10);
  advance R ltac:(stop_movie_thread 11); advance R ltac:(stop_movie_thread 12);
  advance R ltac:(stop_movie_thread 13); advance R ltac:(stop_movie_thread 14);
  advance R ltac:(stop_movie_thread 15); advance R ltac:(stop_movie_thread 16);
  advance R ltac:(stop_movie_thread 17);
  advance R ltac:(eapply step_join_movie_threads; [reflexivity|repeat constructor]).

Lemma report_after_clean_shutdown_witness :
  exists s,
    reachable listing_web 1 s /\ main s = Report /\ result_list s = [amelie_record]
    /\ page_threads s = repeat Returned num_page_threads
    /\ items (movies_queue s) = [].
Proof.
  pose proof (reach_initial listing_web 1) as R. run_listing_web R. finish_listing_web R.
  eexists. split; [exact R|]. split; [reflexivity|]. split; [reflexivity|].
  pose proof (report_after_clean_shutdown _ _ _ R eq_refl) as H.
  split; [exact (proj1 H)|exact (proj1 (proj2 (proj2 (proj2 H))))].
Defined.

Lemma perform_threads url ev s s' :
  perform url ev s = Some s' ->
  page_threads s' = page_threads s /\ movie_threads s' = movie_threads s.
Proof.
  destruct ev; cbn [perform]; try (intros [= <-]; auto; fail).
  - destruct (q_task_done (pages_queue s)); [|discriminate]. intros [= <-]. auto.
  - destruct (q_task_done (movies_queue s)); [|discriminate]. intros [= <-]. auto.
Qed.

Lemma Exists_replace {A} (P : A -> Prop) (before after : list A) (x y : A) :
  Exists P (before ++ x :: after) -> ~ P x -> Exists P (before ++ y :: after).
Proof.
  intros H Hx. apply Exists_app in H as [H|H]; apply Exists_app; [left; exact H|].
  right. inversion H; subst; [contradiction|]. apply Exists_cons_tl. assumption.
Qed.

(** A dead thread stays dead. *)
Lemma died_persists w num_pages s s' :
  step w num_pages s s' ->
  (Exists died (page_threads s) -> Exists died (page_threads s'))
  /\ (Exists died (movie_threads s) -> Exists died (movie_threads s')).
Proof.
  intros Hstep.
  destruct Hstep as
    [s p Hpc Hle | s p Hpc Hlt | s Hpc Hz | s left Hpc | s Hpc | s Hpc Hall
    | s Hpc Hz | s left Hpc | s Hpc | s Hpc Hall
    | s before after item rest Hth Hq
    | s s' before after url ev pending outcome Hth Hperf
    | s before after url ev pending outcome Hth Hperf
    | s before after url outcome Hth
    | s before after item rest Hth Hq
    | s s' before after url ev pending outcome Hth Hperf
    | s before after url ev pending outcome Hth Hperf
    | s before after url outcome Hth];
    try (destruct (perform_threads _ _ _ _ Hperf) as [Hpt Hmt]);
    state_simpl; rewrite ?Hpt, ?Hmt; (split; [|]); try (intros H; exact H);
    rewrite Hth; intros H; apply (Exists_replace _ _ _ _ _ H); intros [].
Qed.

(** X5: an exception in a worker blocks the run. Once a page thread has
    been killed by an exception, the main thread never gets past
    pages_queue.join(); once a movie thread has been killed, it never gets
    past movies_queue.join(). In both cases the report is never reached,
    however the run goes on. *)
Theorem worker_death_blocks_report (w : World) (num_pages : nat) (s s' : crawl) :
  reachable w num_pages s -> continues w num_pages s s' ->
  (Exists died (page_threads s) -> stopping_pages (main s') = false)
  /\ (Exists died (movie_threads s) -> stopping_movies (main s') = false)
  /\ (Exists died (page_threads s) \/ Exists died (movie_threads s) -> main s' <> Report).
Proof.
  intros Hreach Hcont.
  assert (H : reachable w num_pages s'
              /\ (Exists died (page_threads s) -> Exists died (page_threads s'))
              /\ (Exists died (movie_threads s) -> Exists died (movie_threads s'))).
  { induction Hcont as [|s' s'' _ (Hr & Hp & Hm) Hstep]; [auto|].
    destruct (died_persists w num_pages s' s'' Hstep) as [Hp' Hm'].
    split; [exact (reach_step w num_pages s' s'' Hr Hstep)|]. auto. }
  destruct H as (Hr & Hp & Hm).
  pose proof (invariant_reachable w num_pages s' Hr) as Hinv.
  pose proof (shutdown_reachable w num_pages s' Hr) as Hsd.
  assert (Hpages : Exists died (page_threads s) -> stopping_pages (main s') = false).
  { intros Hd. destruct (stopping_pages (main s')) eqn:Hs; [|reflexivity].
    destruct (sd_pages_after s' Hsd Hs) as (_ & Hh & _).
    apply Hp in Hd. apply List.Exists_exists in Hd as (t & Hin & Ht).
    destruct t; try destruct Ht. apply in_split in Hin as (l1 & l2 & Hl).
    rewrite Hl, page_held_middle in Hh. apply app_eq_nil in Hh as [_ Hh]. discriminate Hh. }
  assert (Hmovies : Exists died (movie_threads s) -> stopping_movies (main s') = false).
  { intros Hd. destruct (stopping_movies (main s')) eqn:Hs; [|reflexivity].
    destruct (inv_after s' Hinv Hs) as [_ Hh].
    apply Hm in Hd. apply List.Exists_exists in Hd as (t & Hin & Ht).
    destruct t; try destruct Ht. apply in_split in Hin as (l1 & l2 & Hl).
    rewrite Hl, held_middle in Hh. apply app_eq_nil in Hh as [_ Hh]. discriminate Hh. }
  split; [exact Hpages|]. split; [exact Hmovies|].
  intros [Hd|Hd] Hrep; [apply Hpages in Hd|apply Hmovies in Hd]; rewrite Hrep in Hd;
    discriminate Hd.
Qed.

(** Without network the first page thread that takes a listing URL is
    killed by the exception of its request. *)
Lemma worker_death_blocks_report_witness :
  exists s,
    reachable offline 1 s /\ Exists died (page_threads s)
    /\ unfinished (pages_queue s) = 1 /\ main s <> Report.
Proof.
  pose proof (reach_initial offline 1) as R.
  advance R ltac:(eapply (step_seed _ _ _ 1); [reflexivity|lia]).
  advance R ltac:(eapply (step_seeded _ _ _ 2); [reflexivity|lia]).
  advance R ltac:(eapply (step_page_get _ _ _ [] (repeat AtGet 9)); reflexivity).
  advance R ltac:(eapply (step_page_perform _ _ _ _ [] (repeat AtGet 9)); reflexivity).
  advance R ltac:(eapply (step_page_end _ _ _ [] (repeat AtGet 9)); reflexivity).
  assert (Hd : Exists died
                 (Died (page_url 1) requests_RequestException :: repeat AtGet 9))
    by (left; exact I).
  eexists. split; [exact R|]. split; [exact Hd|]. split; [reflexivity|].
  exact (proj2 (proj2 (worker_death_blocks_report _ _ _ _ R (cont_here _ _ _)))
           (or_introl Hd)).
Defined.

(** ** Where the reported movies come from *)

(** The record the movie loop body appends is a record of its URL. *)
Lemma process_movie_item_append_url w url rl rec :
  In (EvAppend rec) (snd (process_movie_item w url rl)) -> fst rec = url.
Proof.
  unfold process_movie_item, prog_bind, prog_io, io_lift, io_emit.
  destruct (re_match (movie_url_regex w) url) as [[|pid [|code [|x groups]]]|];
    cbn [fst snd]; try (intros []; fail).
  destruct (requests_get w url []) as [page|e]; cbn [fst snd];
    [|intros [H|[]]; discriminate H].
  destruct (lh_fromstring w (text page)) as [doc|e]; cbn [fst snd];
    [|intros [H|[]]; discriminate H].
  destruct (get_movie_special doc) as [special|e]; cbn [fst snd];
    [|intros [H|[]]; discriminate H].
  destruct (match special with Some s => py_in s SKIP_SPECIAL | None => false end);
    [intros [H|[H|[]]]; discriminate H|].
  pose proof (get_movie_imdb_rating_quiet w {[ "title"%string := PStr (get_movie_title doc) ]})
    as Hq.
  destruct (get_movie_imdb_rating w {[ "title"%string := PStr (get_movie_title doc) ]})
    as [[[imdb_id rating]|e] evs]; cbn [snd] in Hq;
    cbn [io_try io_bind io_ret fst snd].
  - rewrite app_nil_r.
    destruct rating as [r|]; [destruct (float_truthy r && SFltb eight r)|];
      cbn [fst snd result_list_append prog_ret app]; rewrite ?app_nil_r; intros H;
      apply (append_after_quiet _ _ _ _ _ Hq) in H.
    + destruct H as [H|[H|[H|[]]]]; try discriminate H. injection H as <-. reflexivity.
    + destruct H as [H|[]]; discriminate H.
    + destruct H as [H|[]]; discriminate H.
  - destruct (is_IMDBMovieNotFoundError e); cbn [fst snd prog_ret app]; rewrite ?app_nil_r;
      intros H.
    + apply (append_after_quiet _ _ _ _ _ Hq) in H. destruct H as [H|[]]; discriminate H.
    + rewrite <- (app_nil_r evs) in H. apply (append_after_quiet _ _ _ _ _ Hq) in H.
      destruct H.
Qed.

Lemma movie_thread_known_more (known : list pystr) (u : pystr) (t : thread) :
  movie_thread_known known t -> movie_thread_known (known ++ [u]) t.
Proof.
  destruct t; cbn; auto. intros [Hin Hrec]. split; [|exact Hrec].
  apply in_app_iff. left. exact Hin.
Qed.

Lemma provenance_initial w num_pages : provenance w num_pages initial.
Proof.
  constructor; cbn; try constructor; try (repeat constructor; fail).
  intros p [= <-]. lia.
Qed.

(** Replacing a page thread. *)
Lemma provenance_page_thread w num_pages s before after t t' :
  provenance w num_pages s -> page_threads s = before ++ t :: after ->
  page_thread_listed w num_pages t' ->
  provenance w num_pages (set_page_threads (before ++ t' :: after) s).
Proof.
  intros [Hseed Hitems Hpt Hdisc Hmt Hres] Hth Ht'. rewrite Hth in Hpt.
  constructor; state_simpl; try assumption.
  apply Forall_middle. apply Forall_middle in Hpt. tauto.
Qed.

(** Replacing a movie thread. *)
Lemma provenance_movie_thread w num_pages s before after t t' :
  provenance w num_pages s -> movie_threads s = before ++ t :: after ->
  movie_thread_known (discovered s) t' ->
  provenance w num_pages (set_movie_threads (before ++ t' :: after) s).
Proof.
  intros [Hseed Hitems Hpt Hdisc Hmt Hres] Hth Ht'. rewrite Hth in Hmt.
  constructor; state_simpl; try assumption.
  apply Forall_middle. apply Forall_middle in Hmt. tauto.
Qed.

(** A change of the main thread's position past the seeding, of the count
    of unfinished tasks or of the history of acknowledgements. *)
Lemma provenance_frame w num_pages s s' :
  provenance w num_pages s ->
  (forall p, main s' = Seeding p -> main s = Seeding p) ->
  items (pages_queue s') = items (pages_queue s) ->
  page_threads s' = page_threads s -> movie_threads s' = movie_threads s ->
  discovered s' = discovered s -> result_list s' = result_list s ->
  provenance w num_pages s'.
Proof.
  intros [Hseed Hitems Hpt Hdisc Hmt Hres] Hpc Hq Hp Hm Hd Hr.
  constructor; rewrite ?Hq, ?Hp, ?Hm, ?Hd, ?Hr; try assumption.
  intros p Hp'. apply Hseed. apply Hpc. exact Hp'.
Qed.

Lemma provenance_step w num_pages s s' :
  invariant s -> provenance w num_pages s -> step w num_pages s s' ->
  provenance w num_pages s'.
Proof.
  intros Hinv Hpv Hstep.
  destruct Hstep as
    [s p Hpc Hle | s p Hpc Hlt | s Hpc Hz | s left Hpc | s Hpc | s Hpc Hall
    | s Hpc Hz | s left Hpc | s Hpc | s Hpc Hall
    | s before after item rest Hth Hq
    | s s' before after url ev pending outcome Hth Hperf
    | s before after url ev pending outcome Hth Hperf
    | s before after url outcome Hth
    | s before after item rest Hth Hq
    | s s' before after url ev pending outcome Hth Hperf
    | s before after url ev pending outcome Hth Hperf
    | s before after url outcome Hth];
    try (apply (provenance_frame w num_pages s); [exact Hpv|discriminate|reflexivity..]).
  - (* the put of a page URL *)
    destruct Hpv as [Hseed Hitems Hpt Hdisc Hmt Hres].
    constructor; state_simpl; try assumption.
    + intros p' [= <-]. lia.
    + apply Forall_app. split; [exact Hitems|]. constructor; [|constructor].
      intros u [= <-]. exists p. split; [|reflexivity]. specialize (Hseed p Hpc). lia.
  - (* a sentinel for a page thread *)
    destruct Hpv as [Hseed Hitems Hpt Hdisc Hmt Hres].
    constructor; state_simpl; try assumption; [discriminate|].
    apply Forall_app. split; [exact Hitems|]. constructor; [|constructor].
    intros u Hu. discriminate Hu.
  - (* a page thread takes an item *)
    pose proof (pv_items w num_pages s Hpv) as Hitems. rewrite Hq in Hitems.
    inversion Hitems as [|? ? Hitem Hrest]; subst.
    apply provenance_page_thread with (t := AtGet); [|exact Hth|].
    + destruct Hpv as [Hseed _ Hpt Hdisc Hmt Hres].
      constructor; state_simpl; assumption.
    + destruct item as [u|]; [|exact I]. cbn [page_thread_takes].
      destruct (nonempty u); [|exact I].
      pose proof (process_movies_list_page_item_events w u) as [Hev _].
      destruct (process_movies_list_page_item w u) as [outcome evs]. cbn [snd] in Hev.
      intros u' Hin. destruct (Hev _ Hin) as [H|[H|H]]; try discriminate H.
      destruct H as (page & doc & movie & u0 & Hget & Hparse & Hm & Ht & [= ->]).
      destruct (Hitem u eq_refl) as (p & Hp & ->). exists p, page, doc, movie. auto.
  - (* a page thread performs an operation *)
    pose proof (inv_page_threads s Hinv) as Hok. rewrite Hth in Hok.
    apply Forall_middle in Hok as (_ & Hok & _). cbn [page_thread_ok forallb] in Hok.
    apply andb_prop in Hok as [Hev _].
    pose proof (pv_page_threads w num_pages s Hpv) as Hl. rewrite Hth in Hl.
    apply Forall_middle in Hl as (_ & Hl & _). cbn [page_thread_listed] in Hl.
    assert (Hl' : page_thread_listed w num_pages (Running url pending outcome)).
    { intros u Hin. apply Hl. right. exact Hin. }
    destruct (perform_threads _ _ _ _ Hperf) as [Hpt _].
    apply provenance_page_thread with (t := Running url (ev :: pending) outcome);
      [|rewrite Hpt; exact Hth|exact Hl'].
    destruct ev as [u params|txt|fields|u|r| |]; cbn [perform] in Hperf;
      try discriminate Hev; try (injection Hperf as <-; exact Hpv).
    + injection Hperf as <-. destruct Hpv as [Hseed Hitems Hpth Hdisc Hmt Hres].
      constructor; state_simpl; try assumption.
      * apply Forall_app. split; [exact Hdisc|]. constructor; [|constructor].
        apply Hl. left. reflexivity.
      * apply (List.Forall_impl _ (movie_thread_known_more _ u) Hmt).
      * apply (List.Forall_impl (record_known (discovered s ++ [u]))) with (2 := Hres).
        intros rec Hin. apply in_app_iff. left. exact Hin.
    + destruct (q_task_done (pages_queue s)) as [q|] eqn:Hq; [|discriminate].
      injection Hperf as <-. apply (provenance_frame w num_pages s); auto.
      unfold q_task_done in Hq. destruct (unfinished (pages_queue s)); [discriminate|].
      injection Hq as <-. reflexivity.
  - apply provenance_page_thread with (t := Running url (ev :: pending) outcome);
      [exact Hpv|exact Hth|exact I].
  - apply provenance_page_thread with (t := Running url [] outcome);
      [exact Hpv|exact Hth|destruct outcome; exact I].
  - (* a movie thread takes an item *)
    apply provenance_movie_thread with (t := AtGet);
      [apply (provenance_frame w num_pages s); auto|exact Hth|].
    state_simpl. destruct item as [u|]; [|exact I]. cbn [movie_thread_takes].
    destruct (nonempty u); [|exact I].
    pose proof (process_movie_item_append_url w u (result_list s)) as Hrec.
    destruct (process_movie_item w u (result_list s)) as [[outcome rl'] evs].
    cbn [snd] in Hrec. split; [|exact Hrec].
    apply (Permutation_in _ (Permutation_sym (inv_accounted s Hinv))).
    apply in_app_iff. right. apply in_app_iff. left. rewrite Hq. left. reflexivity.
  - (* a movie thread performs an operation *)
    pose proof (inv_movie_threads s Hinv) as Hok. rewrite Hth in Hok.
    apply Forall_middle in Hok as (_ & Hok & _). cbn [movie_thread_ok forallb] in Hok.
    destruct Hok as [Hev _]. apply andb_prop in Hev as [Hev _].
    pose proof (pv_movie_threads w num_pages s Hpv) as Hk. rewrite Hth in Hk.
    apply Forall_middle in Hk as (_ & Hk & _). cbn [movie_thread_known] in Hk.
    destruct Hk as [Hurl Hrec].
    destruct (perform_threads _ _ _ _ Hperf) as [_ Hmt].
    assert (Hd : discovered s' = discovered s).
    { destruct ev; cbn [perform] in Hperf; try discriminate Hev;
        try (injection Hperf as <-; reflexivity).
      destruct (q_task_done (movies_queue s)); [|discriminate].
      injection Hperf as <-. reflexivity. }
    apply provenance_movie_thread with (t := Running url (ev :: pending) outcome);
      [|rewrite Hmt; exact Hth|].
    + destruct ev as [u params|txt|fields|u|r| |]; cbn [perform] in Hperf;
        try discriminate Hev; try (injection Hperf as <-; exact Hpv).
      * injection Hperf as <-. destruct Hpv as [Hseed Hitems Hpth Hdisc Hmth Hres].
        constructor; state_simpl; try assumption.
        apply Forall_app. split; [exact Hres|]. constructor; [|constructor].
        unfold record_known. rewrite (Hrec r (or_introl eq_refl)). exact Hurl.
      * destruct (q_task_done (movies_queue s)) as [q|] eqn:Hq; [|discriminate].
        injection Hperf as <-. apply (provenance_frame w num_pages s); auto.
    + rewrite Hd. split; [exact Hurl|]. intros rec Hin. apply Hrec. right. exact Hin.
  - apply provenance_movie_thread with (t := Running url (ev :: pending) outcome);
      [exact Hpv|exact Hth|exact I].
  - apply provenance_movie_thread with (t := Running url [] outcome);
      [exact Hpv|exact Hth|destruct outcome; exact I].
Qed.

Lemma provenance_reachable w num_pages s :
  reachable w num_pages s -> provenance w num_pages s.
Proof.
  induction 1 as [|s s' Hreach IH Hstep]; [apply provenance_initial|].
  apply (provenance_step w num_pages s s'); [|exact IH|exact Hstep].
  apply (invariant_reachable w num_pages s Hreach).
Qed.

(** X6: in every state a run can reach, every URL that was put on the
    movies queue is 'http://www.pathe.nl' + link for a poster that one of
    the listing pages 1 to num_pages shows with the label 'Tijden en
    tickets' or 'Verwacht' and a link other than the sneak preview's. *)
Theorem discovered_are_listed (w : World) (num_pages : nat) (s : crawl) :
  reachable w num_pages s -> Forall (listed w num_pages) (discovered s).
Proof. intros Hreach. apply (pv_discovered w num_pages s (provenance_reachable _ _ _ Hreach)). Qed.

Lemma discovered_are_listed_witness :
  exists s,
    reachable listing_web 1 s /\ discovered s = [amelie_url]
    /\ Forall (listed listing_web 1) (discovered s).
Proof.
  pose proof (reach_initial listing_web 1) as R. run_listing_web R.
  eexists. split; [exact R|]. split; [reflexivity|].
  exact (discovered_are_listed _ _ _ R).
Defined.

(** X7: in every state a run can reach, the listing URL of every record
    of the result list is a URL that a page thread put on the movies queue
    before: the movie threads report no movie of their own. *)
Theorem reported_are_discovered (w : World) (num_pages : nat) (s : crawl) :
  reachable w num_pages s -> Forall (record_known (discovered s)) (result_list s).
Proof. intros Hreach. apply (pv_results w num_pages s (provenance_reachable _ _ _ Hreach)). Qed.

Lemma reported_are_discovered_witness :
  exists s,
    reachable listing_web 1 s /\ result_list s = [amelie_record]
    /\ Forall (record_known (discovered s)) (result_list s).
Proof.
  pose proof (reach_initial listing_web 1) as R. run_listing_web R.
  eexists. split; [exact R|]. split; [reflexivity|].
  exact (reported_are_discovered _ _ _ R).
Defined.

(** ** Decimal numerals: [str] and [int] *)

Lemma isdecimal_ascii w (c : N) : ascii_digit c = true -> isdecimal w c = true.
Proof.
  unfold ascii_digit, isdecimal, digit_value. intros H.
  assert (Hlt : (c <? 128)%N = true).
  { apply andb_prop in H as [_ H]. apply N.leb_le in H. apply N.ltb_lt. lia. }
  rewrite Hlt, H. reflexivity.
Qed.

Lemma ascii_digit_cases (c : N) :
  ascii_digit c = true ->
  c = 48%N \/ c = 49%N \/ c = 50%N \/ c = 51%N \/ c = 52%N \/ c = 53%N \/ c = 54%N
  \/ c = 55%N \/ c = 56%N \/ c = 57%N.
Proof.
  unfold ascii_digit. intros H. apply andb_prop in H as [H1 H2].
  apply N.leb_le in H1, H2. lia.
Qed.

Lemma ascii_digit_not_space (c : N) : ascii_digit c = true -> isspace c = false.
Proof.
  intros H. apply ascii_digit_cases in H.
  destruct H as [->|[->|[->|[->|[->|[->|[->|[->|[->| ->]]]]]]]]]; reflexivity.
Qed.

Import DecimalPos.Unsigned.

(** Reading the digits of a numeral from left to right, as [int] does,
    continues the number read so far. *)
Lemma digits_of_uint w (d e : Decimal.uint) :
  fold_left (fun acc c => match digit_value w c with
                          | Some v => 10 * acc + v
                          | None => acc
                          end)%Z
    (py (NilEmpty.string_of_uint d)) (Z.of_N (of_lu e))
  = Z.of_N (of_lu (Decimal.revapp d e)).
Proof.
  revert e. induction d as [|d IH|d IH|d IH|d IH|d IH|d IH|d IH|d IH|d IH|d IH]; intros e;
    [reflexivity|..];
    cbn [NilEmpty.string_of_uint py list_ascii_of_string map fold_left Decimal.revapp];
    rewrite <- IH; f_equal;
    match goal with
    | |- context [digit_value w ?c] =>
        let v := eval cbv in (digit_value w c) in change (digit_value w c) with v
    end;
    cbn [of_lu]; lia.
Qed.

Lemma uint_digits (d : Decimal.uint) :
  forallb ascii_digit (py (NilEmpty.string_of_uint d)) = true.
Proof. induction d; cbn; auto. Qed.

Lemma uint_nonempty (d : Decimal.uint) :
  d <> Decimal.Nil -> nonempty (py (NilEmpty.string_of_uint d)) = true.
Proof. destruct d; cbn; congruence. Qed.

Lemma py_str_of_Z_pos (p : positive) :
  py_str_of_Z (Z.pos p) = py (NilEmpty.string_of_uint (Pos.to_uint p)).
Proof.
  unfold py_str_of_Z. cbn [Z.to_int NilZero.string_of_int].
  pose proof (to_uint_nonnil p) as H. revert H.
  destruct (Pos.to_uint p); intros H; [congruence|reflexivity..].
Qed.

(** [str(n)] of a natural number is a non-empty string of ASCII digits. *)
Lemma py_str_of_Z_number (n : Z) : (0 <= n)%Z -> ascii_number (py_str_of_Z n) = true.
Proof.
  intros Hn. destruct n as [|p|p]; [reflexivity| |lia].
  rewrite py_str_of_Z_pos. unfold ascii_number.
  rewrite uint_digits, uint_nonempty; [reflexivity|apply to_uint_nonnil].
Qed.

Lemma lstrip_number (s : pystr) : ascii_number s = true -> py_lstrip s = s.
Proof.
  unfold ascii_number. destruct s as [|c s]; [discriminate|]. cbn. intros H.
  apply andb_prop in H as [H _]. rewrite (ascii_digit_not_space c H). reflexivity.
Qed.

(** [int(str(n)) = n] for a natural number. *)
Lemma py_int_str w (n : Z) : (0 <= n)%Z -> py_int w (py_str_of_Z n) = n.
Proof.
  intros Hn. unfold py_int. rewrite (lstrip_number _ (py_str_of_Z_number n Hn)).
  destruct n as [|p|p]; [reflexivity| |lia].
  rewrite py_str_of_Z_pos.
  pose proof (digits_of_uint w (Pos.to_uint p) Decimal.Nil) as H.
  change (Decimal.revapp (Pos.to_uint p) Decimal.Nil) with (Decimal.rev (Pos.to_uint p)) in H.
  rewrite <- of_uint_alt, of_to in H. exact H.
Qed.

(** ** Greedy repetition with bounds *)

Section Repetition.
Context {X : Type} (p : N -> bool) (k : pystr -> option X).

(** The plus takes the longest non-empty run that lets the rest of the
    pattern match. *)
Lemma rep_plus_greedy (s1 s2 : pystr) (x : X) :
  s1 <> [] -> forallb p s1 = true -> k s2 = Some x ->
  (forall t u, s2 = t ++ u -> t <> [] -> forallb p t = true -> k u = None) ->
  rep_match p 1 None (s1 ++ s2) k = Some x.
Proof.
  intros Hne Hp Hk Hno. destruct s1 as [|c s1]; [congruence|].
  cbn in Hp. apply andb_prop in Hp as [Hc Hp].
  cbn [app rep_match pred option_map may_take]. rewrite Hc. cbn [andb].
  rewrite (rep_star_greedy p k s1 s2 x Hp Hk Hno). reflexivity.
Qed.

(** A repetition that may take nothing more stops. *)
Lemma rep_zero (s : pystr) : rep_match p 0 (Some 0) s k = k s.
Proof. destruct s as [|c s]; [reflexivity|]. cbn. rewrite andb_false_r. reflexivity. Qed.

(** An exact count takes just that many characters. *)
Lemma rep_times_exact (s1 s2 : pystr) (x : X) :
  forallb p s1 = true -> k s2 = Some x ->
  rep_match p (length s1) (Some (length s1)) (s1 ++ s2) k = Some x.
Proof.
  intros Hp Hk. induction s1 as [|c s1 IH]; [cbn [length app]; rewrite rep_zero; exact Hk|].
  cbn in Hp. apply andb_prop in Hp as [Hc Hp].
  cbn [app length rep_match pred option_map may_take]. rewrite Hc. cbn [andb].
  rewrite (IH Hp). reflexivity.
Qed.

(** A match of a repetition splits the string into a run of
    [p]-characters, of a length within the bounds, and a rest on which the
    rest of the pattern matched. *)
Lemma rep_inv (lo : nat) (hi : option nat) (s : pystr) (x : X) :
  rep_match p lo hi s k = Some x ->
  exists t u,
    s = t ++ u /\ forallb p t = true /\ lo <= length t
    /\ (forall h, hi = Some h -> length t <= h) /\ k u = Some x.
Proof.
  revert lo hi. induction s as [|c s IH]; intros lo hi.
  - cbn [rep_match]. destruct lo; [|discriminate]. intros H. exists [], [].
    cbn. repeat split; auto. intros h _. lia.
  - cbn [rep_match].
    assert (Hstop : match lo with 0 => k (c :: s) | S _ => None end = Some x ->
              exists t u, c :: s = t ++ u /\ forallb p t = true /\ lo <= length t
                          /\ (forall h, hi = Some h -> length t <= h) /\ k u = Some x).
    { destruct lo; [|discriminate]. intros H. exists [], (c :: s). cbn.
      repeat split; auto. intros h _. lia. }
    destruct (p c && may_take hi) eqn:Hc; [|exact Hstop].
    destruct (rep_match p (pred lo) (option_map pred hi) s k) as [y|] eqn:Hr; [|exact Hstop].
    intros [= ->]. apply andb_prop in Hc as [Hc Hhi].
    destruct (IH _ _ Hr) as (t & u & -> & Hp & Hlo & Hbound & Hk).
    exists (c :: t), u. cbn [app forallb length]. rewrite Hc, Hp.
    split; [reflexivity|]. split; [reflexivity|]. split; [lia|]. split; [|exact Hk].
    intros h ->. destruct h as [|h]; [discriminate Hhi|].
    specialize (Hbound h eq_refl). lia.
Qed.
End Repetition.

(** ** The rating resolver *)

Lemma do_imdb_request_events w path params :
  snd (do_imdb_request w path params)
  = [EvRequest (py "http://www.imdb.com/" ++ path) params].
Proof.
  unfold do_imdb_request, io_emit. cbn [io_bind].
  destruct (res_bind _ _) as [r|e]; [reflexivity|].
  destruct (is_RequestException e); reflexivity.
Qed.

Lemma get_imdb_id_by_title_events w title :
  snd (get_imdb_id_by_title w title)
  = [EvRequest (py "http://www.imdb.com/find") (find_params title)].
Proof.
  unfold get_imdb_id_by_title.
  pose proof (do_imdb_request_events w (py "find") (find_params title)) as H.
  fold (find_params title).
  destruct (do_imdb_request w (py "find") (find_params title)) as [[page|e] evs];
    cbn [snd] in H; subst evs; cbn [io_bind]; [|reflexivity].
  unfold io_lift. destruct (lh_fromstring w page) as [doc|e]; cbn [io_bind]; [|reflexivity].
  destruct (xpath_elements doc XFindTitles) as [|movie ?]; [reflexivity|].
  destruct (re_match _ _) as [groups|]; [|reflexivity].
  destruct (py_getitem groups 0); reflexivity.
Qed.

Lemma nl_to_en_events w txt : snd (nl_to_en w txt) = [EvTranslate txt].
Proof.
  unfold nl_to_en, io_emit, io_lift. cbn [io_bind].
  destruct (goslate_translate w txt) as [t|e]; cbn [io_try io_bind io_ret]; [reflexivity|].
  destruct (is_urllib_HTTPError e); reflexivity.
Qed.

(** The pattern of a result link reads the digits between '/title/tt' and
    the rest of the link. *)
Lemma imdb_link_regex_reads w (digits : pystr) :
  digits <> [] -> forallb (isdecimal w) digits = true ->
  re_match (imdb_link_regex w) (py "/title/tt" ++ digits ++ py "/?ref_=fn_ft_tt_1")
  = Some [digits].
Proof.
  intros Hne Hd. unfold re_match, re_match_rest, imdb_link_regex.
  cbn [rseq fold_right rmatch]. unfold RLit at 1. rewrite rmatch_literal.
  change (starts_with (py "/title/tt") (py "/title/tt" ++ digits ++ py "/?ref_=fn_ft_tt_1"))
    with true.
  change (skipn (length (py "/title/tt")) (py "/title/tt" ++ digits ++ py "/?ref_=fn_ft_tt_1"))
    with (digits ++ py "/?ref_=fn_ft_tt_1").
  unfold RPlus. cbn [rmatch].
  set (x := ([digits], []) : list pystr * pystr).
  rewrite (rep_plus_greedy (X:=list pystr * pystr) (isdecimal w) _ digits
             (py "/?ref_=fn_ft_tt_1") x); [reflexivity|exact Hne|exact Hd| |].
  - unfold RLit. rewrite rmatch_literal. rewrite firstn_consumed. reflexivity.
  - intros t u Heq Hnt Ht. destruct t as [|c t]; [congruence|].
    injection Heq as <- _. discriminate Ht.
Qed.

(** A link that does not start with '/title/tt' is not a result link. *)
Lemma imdb_link_regex_other w (href : pystr) :
  starts_with (py "/title/tt") href = false -> re_match (imdb_link_regex w) href = None.
Proof.
  intros H. unfold re_match, re_match_rest, imdb_link_regex.
  cbn [rseq fold_right rmatch]. unfold RLit at 1. rewrite rmatch_literal, H. reflexivity.
Qed.

(** The search, once its page is there. *)
Lemma get_imdb_id_by_title_unfold w title doc :
  search_page w title doc ->
  fst (get_imdb_id_by_title w title)
  = match xpath_elements doc XFindTitles with
    | [] => Raise (IMDBMovieNotFoundError "Movie not found on IMDB")
    | movie :: _ =>
        match re_match (imdb_link_regex w) (xpath_string movie XFirstResultHref) with
        | None => Raise AttributeError
        | Some groups => (let* imdb_id := py_getitem groups 0 in Ok (py_int w imdb_id))%res
        end
    end.
Proof.
  intros (page & Hget & Hstatus & Hparse).
  unfold get_imdb_id_by_title, do_imdb_request, io_emit, io_lift. fold (find_params title).
  change (py "http://www.imdb.com/" ++ py "find") with (py "http://www.imdb.com/find").
  cbn [io_bind]. rewrite Hget. cbn [res_bind]. rewrite Hstatus. cbn [res_bind io_ret io_bind].
  rewrite Hparse. destruct (xpath_elements doc XFindTitles) as [|movie ?]; [reflexivity|].
  destruct (re_match _ _) as [groups|]; [|reflexivity].
  destruct (py_getitem groups 0); reflexivity.
Qed.

(** X8: what the title search makes of its result page. When the page
    has no 'Titles' section the search raises IMDBMovieNotFoundError. When
    it has one and the link of its first result is '/title/tt' + digits +
    '/?ref_=fn_ft_tt_1', the search returns the number the digits spell.
    When the link does not start with '/title/tt' (for one, when the
    section has no first result and the link is the empty string), the
    search raises AttributeError, not IMDBMovieNotFoundError. *)
Theorem get_imdb_id_by_title_outcomes (w : World) (title : pyval) (doc : element) :
  search_page w title doc ->
  (xpath_elements doc XFindTitles = [] ->
   fst (get_imdb_id_by_title w title)
   = Raise (IMDBMovieNotFoundError "Movie not found on IMDB"))
  /\ (forall movie rest digits,
        xpath_elements doc XFindTitles = movie :: rest ->
        xpath_string movie XFirstResultHref
        = py "/title/tt" ++ digits ++ py "/?ref_=fn_ft_tt_1" ->
        digits <> [] -> forallb (isdecimal w) digits = true ->
        fst (get_imdb_id_by_title w title) = Ok (py_int w digits))
  /\ (forall movie rest,
        xpath_elements doc XFindTitles = movie :: rest ->
        starts_with (py "/title/tt") (xpath_string movie XFirstResultHref) = false ->
        fst (get_imdb_id_by_title w title) = Raise AttributeError).
Proof.
  intros Hpage. rewrite (get_imdb_id_by_title_unfold w title doc Hpage).
  split; [|split].
  - intros ->. reflexivity.
  - intros movie rest digits -> -> Hne Hd. rewrite imdb_link_regex_reads by assumption.
    reflexivity.
  - intros movie rest -> H. rewrite imdb_link_regex_other by exact H. reflexivity.
Qed.

Lemma get_imdb_id_by_title_outcomes_witness :
  search_page (small_web [] amelie []) (PStr amelie)
    (titles_page (py "/title/tt0211915/?ref_=fn_ft_tt_1"))
  /\ fst (get_imdb_id_by_title (small_web [] amelie []) (PStr amelie)) = Ok 211915%Z.
Proof.
  assert (Hpage : search_page (small_web [] amelie []) (PStr amelie)
                    (titles_page (py "/title/tt0211915/?ref_=fn_ft_tt_1"))).
  { exists {| status_code := 200; text := py "find" |}. repeat split. }
  split; [exact Hpage|].
  exact (proj1 (proj2 (get_imdb_id_by_title_outcomes _ _ _ Hpage)) _ [] (py "0211915")
           eq_refl eq_refl ltac:(discriminate) eq_refl).
Defined.

(** The operations of the resolver: up to two searches with one translation
    between them, then the request of the title page. *)
Lemma get_movie_imdb_rating_trace w (kw : kwargs) :
  exists searching fetching,
    snd (get_movie_imdb_rating w kw) = searching ++ fetching
    /\ (fetching = [] \/ exists path, fetching = [EvRequest (py "http://www.imdb.com/" ++ path) []])
    /\ match kw !! "title"%string with
       | Some title =>
           searching = [EvRequest (py "http://www.imdb.com/find") (find_params title)]
           \/ searching = [EvRequest (py "http://www.imdb.com/find") (find_params title);
                           EvTranslate title]
           \/ exists translated,
                searching = [EvRequest (py "http://www.imdb.com/find") (find_params title);
                             EvTranslate title;
                             EvRequest (py "http://www.imdb.com/find") (find_params translated)]
       | None => searching = []
       end.
Proof.
  unfold get_movie_imdb_rating.
  match goal with |- context [io_bind ?m ?k] => set (resolve := m); set (fetch := k) end.
  assert (Hfetch : forall i, exists r,
            fetch i = (r, [EvRequest (py "http://www.imdb.com/" ++ (py "title/tt" ++ py_str i)) []])).
  { intros i. subst fetch. cbv beta.
    pose proof (do_imdb_request_events w (py "title/tt" ++ py_str i) []) as H.
    destruct (do_imdb_request w (py "title/tt" ++ py_str i) []) as [[page|e] evs];
      cbn [snd] in H; subst evs; cbn [io_bind]; [|eexists; reflexivity].
    unfold io_lift. destruct (lh_fromstring w page) as [doc|e]; cbn [io_bind];
      [|eexists; reflexivity].
    destruct (xpath_strings doc XRatingValue) as [|first ?]; cbn [io_bind io_ret];
      [eexists; reflexivity|].
    destruct (py_float w (py_strip first)); cbn [io_bind]; eexists; reflexivity. }
  assert (Hres : exists r searching,
            resolve = (r, searching)
            /\ match kw !! "title"%string with
               | Some title =>
                   searching = [EvRequest (py "http://www.imdb.com/find") (find_params title)]
                   \/ searching = [EvRequest (py "http://www.imdb.com/find") (find_params title);
                                   EvTranslate title]
                   \/ exists translated,
                        searching = [EvRequest (py "http://www.imdb.com/find") (find_params title);
                                     EvTranslate title;
                                     EvRequest (py "http://www.imdb.com/find")
                                       (find_params translated)]
               | None => searching = []
               end).
  { subst resolve. destruct (kw !! "title"%string) as [title|].
    - pose proof (get_imdb_id_by_title_events w title) as H1.
      destruct (get_imdb_id_by_title w title) as [[n|e] evs1]; cbn [snd] in H1; subst evs1;
        cbn [io_bind io_ret io_try app]; [eexists; eexists; split; [reflexivity|]; auto|].
      destruct (is_IMDBMovieNotFoundError e);
        [|eexists; eexists; split; [reflexivity|]; auto].
      pose proof (nl_to_en_events w title) as H2.
      destruct (nl_to_en w title) as [[translated|e2] evs2]; cbn [snd] in H2; subst evs2;
        cbn [io_bind app]; [|eexists; eexists; split; [reflexivity|]; auto].
      pose proof (get_imdb_id_by_title_events w translated) as H3.
      destruct (get_imdb_id_by_title w translated) as [[n|e3] evs3]; cbn [snd] in H3;
        subst evs3; cbn [io_bind io_ret app];
        (eexists; eexists; split; [reflexivity|]; right; right; exists translated; reflexivity).
    - destruct (kw !! "id"%string); eexists; eexists; split; reflexivity. }
  destruct Hres as (r & searching & -> & Hsearch).
  destruct r as [i|e]; cbn [io_bind].
  - destruct (Hfetch i) as [r ->]. cbn [snd]. eexists searching, _.
    split; [reflexivity|]. split; [right; eexists; reflexivity|exact Hsearch].
  - exists searching, []. cbn [snd]. rewrite app_nil_r. auto.
Qed.

(** X9: the effort of the resolver for one movie. Whatever the film
    database and the translation service answer, one call makes at most
    three requests to the film database (two searches and one title page),
    calls the translation service at most once, and does nothing else; a
    call without a title makes no search and no translation call: at most
    the one request of the title page. *)
Theorem get_movie_imdb_rating_effort (w : World) (kw : kwargs) :
  length (imdb_requests (snd (get_movie_imdb_rating w kw))) <= 3
  /\ length (translations (snd (get_movie_imdb_rating w kw))) <= 1
  /\ length (snd (get_movie_imdb_rating w kw))
     = length (imdb_requests (snd (get_movie_imdb_rating w kw)))
       + length (translations (snd (get_movie_imdb_rating w kw)))
  /\ (kw !! "title"%string = None ->
      length (imdb_requests (snd (get_movie_imdb_rating w kw))) <= 1
      /\ translations (snd (get_movie_imdb_rating w kw)) = []).
Proof.
  destruct (get_movie_imdb_rating_trace w kw) as (searching & fetching & -> & Hf & Hs).
  unfold imdb_requests, translations. rewrite !List.filter_app, !length_app.
  assert (Hfetching :
            length (List.filter (fun ev => match ev with
                                           | EvRequest url _ =>
                                               starts_with (py "http://www.imdb.com/") url
                                           | _ => false
                                           end) fetching) = length fetching
            /\ List.filter is_translate fetching = [] /\ length fetching <= 1).
  { destruct Hf as [->|[path ->]]; cbn; auto. }
  destruct Hfetching as (Hf1 & Hf2 & Hf3). rewrite Hf1, Hf2. cbn [length].
  destruct (kw !! "title"%string) as [title|].
  - destruct Hs as [->|[->|[translated ->]]]; vm_compute List.filter; cbn [length];
      (split; [lia|split; [lia|split; [lia|intros H; discriminate H]]]).
  - subst searching. cbn. split; [lia|]. split; [lia|]. split; [lia|].
    intros _. split; [lia|reflexivity].
Qed.

Lemma io_pair {A} (m : io A) (r : res A) (evs : list event) :
  fst m = r -> snd m = evs -> m = (r, evs).
Proof. destruct m. cbn. intros -> ->. reflexivity. Qed.

Lemma get_imdb_id_by_title_not_found w title :
  search_finds_nothing w title ->
  get_imdb_id_by_title w title
  = (Raise (IMDBMovieNotFoundError "Movie not found on IMDB"), [search_request title]).
Proof.
  intros (doc & Hpage & Hnone). apply io_pair; [|apply get_imdb_id_by_title_events].
  rewrite (get_imdb_id_by_title_unfold w title doc Hpage), Hnone. reflexivity.
Qed.

Lemma do_imdb_request_fails w path params :
  request_fails w (py "http://www.imdb.com/" ++ path) params ->
  do_imdb_request w path params
  = (Raise (RuntimeError "IMDB HTTP request failed"),
     [EvRequest (py "http://www.imdb.com/" ++ path) params]).
Proof.
  unfold request_fails, do_imdb_request, io_emit. cbn [io_bind].
  destruct (requests_get w _ params) as [page|e]; cbn [res_bind].
  - intros ->. reflexivity.
  - intros ->. reflexivity.
Qed.

(** X10: a failed request to the film database is not a movie that was not
    found. When the search request of a call with a title gets no
    response, or one with a 4xx or 5xx status, the resolver raises
    RuntimeError after that one request: it does not translate the title
    and does not search again. When the search finds nothing and the search
    for the translated title (the title itself when the translation
    service answered with an HTTP error) finds nothing either, the
    resolver raises IMDBMovieNotFoundError after the two searches with the
    translation call between them. *)
Theorem get_movie_imdb_rating_failures (w : World) (kw : kwargs) (title : pyval) :
  kw !! "title"%string = Some title ->
  (request_fails w (py "http://www.imdb.com/find") (find_params title) ->
   get_movie_imdb_rating w kw
   = (Raise (RuntimeError "IMDB HTTP request failed"), [search_request title]))
  /\ (forall translated,
        search_finds_nothing w title -> fst (nl_to_en w title) = Ok translated ->
        search_finds_nothing w translated ->
        get_movie_imdb_rating w kw
        = (Raise (IMDBMovieNotFoundError "Movie not found on IMDB"),
           [search_request title; EvTranslate title; search_request translated])).
Proof.
  intros Hkw. split.
  - intros Hfail. unfold get_movie_imdb_rating. rewrite Hkw.
    unfold get_imdb_id_by_title. fold (find_params title).
    rewrite (do_imdb_request_fails w (py "find") (find_params title) Hfail). reflexivity.
  - intros translated Hnone Htr Hnone'. unfold get_movie_imdb_rating. rewrite Hkw.
    rewrite (get_imdb_id_by_title_not_found w title Hnone).
    cbn [io_bind io_try is_IMDBMovieNotFoundError].
    rewrite (io_pair (nl_to_en w title) _ _ Htr (nl_to_en_events w title)).
    cbn [io_bind]. rewrite (get_imdb_id_by_title_not_found w translated Hnone').
    reflexivity.
Qed.

Lemma empty_database_finds_nothing (special title : pystr) (t : pyval) :
  search_finds_nothing (empty_database special title) t.
Proof.
  exists blank. split; [|reflexivity].
  exists {| status_code := 200; text := py "find" |}. repeat split.
Qed.

Lemma get_movie_imdb_rating_failures_witness :
  get_movie_imdb_rating offline {[ "title"%string := PStr amelie ]}
  = (Raise (RuntimeError "IMDB HTTP request failed"), [search_request (PStr amelie)])
  /\ get_movie_imdb_rating (empty_database [] amelie) {[ "title"%string := PStr amelie ]}
     = (Raise (IMDBMovieNotFoundError "Movie not found on IMDB"),
        [search_request (PStr amelie); EvTranslate (PStr amelie);
         search_request (PStr amelie)]).
Proof.
  split.
  - exact (proj1 (get_movie_imdb_rating_failures offline {[ "title"%string := PStr amelie ]}
                    (PStr amelie) eq_refl) eq_refl).
  - exact (proj2 (get_movie_imdb_rating_failures (empty_database [] amelie)
                    {[ "title"%string := PStr amelie ]} (PStr amelie) eq_refl)
             (PStr amelie) (empty_database_finds_nothing _ _ _) eq_refl
             (empty_database_finds_nothing _ _ _)).
Defined.

(** X11: how the movie loop body ends when the resolver raises. For a
    detail page outside the skip-set: when the resolver raises
    IMDBMovieNotFoundError the body ends normally, appends nothing and
    acknowledges the URL; when it raises anything else (the RuntimeError of
    a failed request, an AttributeError, a ValueError of [float]) the body
    raises that exception, appends nothing and does not acknowledge the
    URL. *)
Theorem process_movie_item_resolver_failure (w : World) (url : pystr)
    (rl : list result_record) (doc : element) (special : option pystr) (e : exn)
    (evs : list event) :
  page_special w url doc special -> in_skip_set special = false ->
  get_movie_imdb_rating w {[ "title"%string := PStr (get_movie_title doc) ]} = (Raise e, evs) ->
  process_movie_item w url rl
  = if is_IMDBMovieNotFoundError e
    then (Ok tt, rl, EvRequest url [] :: evs ++ [EvMoviesTaskDone])
    else (Raise e, rl, EvRequest url [] :: evs).
Proof.
  intros ((pid & code & Hm) & page & Hget & Hparse & Hsp) Hskip Hres.
  unfold process_movie_item, prog_bind, prog_io, io_lift, io_emit.
  rewrite Hm. cbn [fst snd]. rewrite Hget. cbn [fst snd]. rewrite Hparse. cbn [fst snd].
  rewrite Hsp. cbn [fst snd]. unfold in_skip_set in Hskip. rewrite Hskip.
  rewrite Hres. cbn [io_try io_bind io_ret fst snd].
  destruct (is_IMDBMovieNotFoundError e); cbn [fst snd prog_ret app]; rewrite ?app_nil_r;
    reflexivity.
Qed.

Lemma empty_database_page :
  page_special (empty_database [] amelie) amelie_url (detail_page [] amelie) None.
Proof.
  split; [exists (py "1"), (py "amelie"); reflexivity|].
  exists {| status_code := 200; text := py "detail" |}. repeat split.
Qed.

Lemma process_movie_item_resolver_failure_witness :
  process_movie_item (empty_database [] amelie) amelie_url []
  = (Ok tt, [],
     [EvRequest amelie_url []; search_request (PStr amelie); EvTranslate (PStr amelie);
      search_request (PStr amelie); EvMoviesTaskDone]).
Proof.
  exact (process_movie_item_resolver_failure (empty_database [] amelie) amelie_url []
           (detail_page [] amelie) None _ _ empty_database_page eq_refl eq_refl).
Defined.

(** ** The loop of the movie worker *)

Lemma process_movie_cons w url rest rl :
  nonempty url = true ->
  process_movie w (Some url :: rest) rl
  = match process_movie_item w url rl with
    | (Ok _, rl1, t1) =>
        let '(r, rl2, t2) := process_movie w rest rl1 in (r, rl2, t1 ++ t2)
    | (Raise e, rl1, t1) => (Raise e, rl1, t1)
    end.
Proof. intros H. cbn [process_movie]. rewrite H. reflexivity. Qed.

Lemma process_movie_stops w (stop : option pystr) (gets rest : list (option pystr))
    (rl : list result_record) :
  stop = None \/ stop = Some [] ->
  process_movie w (gets ++ stop :: rest) rl = process_movie w (gets ++ [stop]) rl.
Proof.
  intros Hstop. revert rl. induction gets as [|item gets IH]; intros rl.
  - destruct Hstop as [->| ->]; reflexivity.
  - destruct item as [url|]; [|reflexivity]. destruct (nonempty url) eqn:Hurl.
    + cbn [app]. rewrite !process_movie_cons by exact Hurl.
      destruct (process_movie_item w url rl) as [[[[]|e] rl1] t1]; [|reflexivity].
      rewrite IH. reflexivity.
    + cbn [app process_movie]. rewrite Hurl. reflexivity.
Qed.

Lemma process_movie_grows w (gets : list (option pystr)) (rl : list result_record) :
  exists added,
    result_list_after (process_movie w gets rl) = rl ++ added
    /\ length added <= length gets
    /\ forall rec, In rec added -> In (Some (fst rec)) gets.
Proof.
  assert (Hnil : forall (l : list (option pystr)),
            exists added : list result_record,
              rl = rl ++ added /\ length added <= length l
              /\ forall rec, In rec added -> In (Some (fst rec)) l).
  { intros l. exists []. rewrite app_nil_r. split; [reflexivity|].
    split; [cbn; lia|intros ? []]. }
  revert rl Hnil. induction gets as [|item gets IH]; intros rl Hnil; [apply Hnil|].
  destruct item as [url|]; [|apply Hnil]. destruct (nonempty url) eqn:Hurl.
  - rewrite process_movie_cons by exact Hurl.
    pose proof (process_movie_item_nothing_or_resolved w url rl) as Hitem.
    unfold result_list_after in *.
    destruct (process_movie_item w url rl) as [[[[]|e] rl1] t1]; cbn [fst snd] in Hitem.
    + destruct (IH rl1) as (added & Hadd & Hlen & Hin).
      { intros l. exists []. rewrite app_nil_r. split; [reflexivity|].
        split; [cbn; lia|intros ? []]. }
      destruct (process_movie w gets rl1) as [[r rl2] t2]. cbn [fst snd] in *.
      destruct Hitem as [->|(imdb_id & r0 & _ & _ & ->)].
      * exists added. split; [exact Hadd|]. split; [cbn [length]; lia|].
        intros rec Hrec. right. apply Hin. exact Hrec.
      * exists ((url, imdb_url (Some imdb_id)) :: added).
        split; [rewrite Hadd, <- app_assoc; reflexivity|].
        split; [cbn [length]; lia|].
        intros rec [<-|Hrec]; [left; reflexivity|right; apply Hin; exact Hrec].
    + cbn [fst snd]. destruct Hitem as [->|(imdb_id & r0 & _ & _ & ->)]; [apply Hnil|].
      exists [(url, imdb_url (Some imdb_id))]. cbn [fst snd length].
      split; [reflexivity|]. split; [lia|]. intros rec [<-|[]]. left. reflexivity.
  - cbn [process_movie]. rewrite Hurl. apply Hnil.
Qed.

(** X12: the loop of the movie worker, seen from one thread that gets the
    items [gets] in turn. It never removes or changes a record of the
    result list: the list afterwards is the list before followed by at most
    one record per item taken, each a record of a URL among the items. And
    it stops at the first false item: what follows a [None] or an empty
    string among the items plays no part. *)
Theorem process_movie_loop (w : World) (gets : list (option pystr))
    (rl : list result_record) :
  (exists added,
     result_list_after (process_movie w gets rl) = rl ++ added
     /\ length added <= length gets
     /\ forall rec, In rec added -> In (Some (fst rec)) gets)
  /\ (forall rest,
        process_movie w (gets ++ None :: rest) rl = process_movie w (gets ++ [None]) rl)
  /\ (forall rest,
        process_movie w (gets ++ Some [] :: rest) rl
        = process_movie w (gets ++ [Some []]) rl).
Proof.
  split; [apply process_movie_grows|].
  split; intros rest; apply process_movie_stops; auto.
Qed.

(** ** Lines of the form label: value *)

Lemma py_join_empty_cons (p : pystr) (rest : list pystr) :
  py_join [] (p :: rest) = p ++ py_join [] rest.
Proof. destruct rest; cbn; [rewrite app_nil_r|]; reflexivity. Qed.

Lemma split_ws_aux_join (s cur : pystr) :
  py_join [] (split_ws_aux s cur)
  = rev cur ++ List.filter (fun c => negb (isspace c)) s.
Proof.
  revert cur. induction s as [|c s IH]; intros cur.
  - cbn [split_ws_aux List.filter]. destruct cur; [reflexivity|].
    cbn [py_join]. rewrite app_nil_r. reflexivity.
  - cbn [split_ws_aux List.filter]. destruct (isspace c); cbn [negb].
    + destruct cur as [|d cur]; [apply IH|].
      rewrite py_join_empty_cons, IH. reflexivity.
    + rewrite IH. cbn [rev]. rewrite <- app_assoc. reflexivity.
Qed.

(** [''.join(s.split())] removes the whitespace characters of [s], and
    nothing else. *)
Lemma squeeze_filter (s : pystr) :
  squeeze s = List.filter (fun c => negb (isspace c)) s.
Proof. unfold squeeze, py_split_ws. apply split_ws_aux_join. Qed.

Lemma squeeze_app (a b : pystr) : squeeze (a ++ b) = squeeze a ++ squeeze b.
Proof. rewrite !squeeze_filter. apply List.filter_app. Qed.

Lemma squeeze_cons_keep (c : N) (s : pystr) :
  isspace c = false -> squeeze (c :: s) = c :: squeeze s.
Proof. intros H. rewrite !squeeze_filter. cbn. rewrite H. reflexivity. Qed.

Lemma squeeze_forallb (f : N -> bool) (s : pystr) :
  forallb f s = true -> forallb f (squeeze s) = true.
Proof.
  rewrite squeeze_filter. induction s as [|c s IH]; [reflexivity|]. cbn.
  intros H. apply andb_prop in H as [Hc H]. destruct (isspace c); cbn; [auto|].
  rewrite Hc. auto.
Qed.

(** Splitting at a one-character separator: the text before its first
    occurrence is the first piece. *)
Lemma split_char_aux_first (c : N) (a b cur : pystr) :
  forallb (fun d => negb (c =? d)%N) a = true ->
  split_sep_aux [c] (a ++ c :: b) cur 0 = (rev cur ++ a) :: split_sep_aux [c] b [] 0.
Proof.
  revert cur. induction a as [|d a IH]; intros cur Ha.
  - cbn [app split_sep_aux starts_with length pred]. rewrite N.eqb_refl. cbn [andb].
    rewrite app_nil_r. reflexivity.
  - cbn in Ha. apply andb_prop in Ha as [Hd Ha]. apply negb_true_iff in Hd.
    cbn [app split_sep_aux starts_with]. rewrite Hd. cbn [andb].
    rewrite (IH (d :: cur) Ha). cbn [rev]. rewrite <- app_assoc. reflexivity.
Qed.

Lemma split_char_aux_none (c : N) (a cur : pystr) :
  forallb (fun d => negb (c =? d)%N) a = true ->
  split_sep_aux [c] a cur 0 = [rev cur ++ a].
Proof.
  revert cur. induction a as [|d a IH]; intros cur Ha.
  - cbn. rewrite app_nil_r. reflexivity.
  - cbn in Ha. apply andb_prop in Ha as [Hd Ha]. apply negb_true_iff in Hd.
    cbn [split_sep_aux starts_with]. rewrite Hd. cbn [andb].
    rewrite (IH (d :: cur) Ha). cbn [rev]. rewrite <- app_assoc. reflexivity.
Qed.

(** The value of a line 'label: value': the squeezed text between the
    first colon and the next one, or the end. *)
Lemma labelled_value (label body tail : pystr) :
  colon_free label = true -> colon_free body = true -> colon_tail tail ->
  py_getitem (py_split (py ":") (squeeze (label ++ 58%N :: body ++ tail))) 1
  = Ok (squeeze body).
Proof.
  intros Hl Hb Ht. rewrite squeeze_app, squeeze_cons_keep by reflexivity.
  rewrite squeeze_app. unfold py_split. change (py ":") with [58%N].
  rewrite split_char_aux_first by (apply squeeze_forallb; exact Hl).
  destruct Ht as [->|[more ->]].
  - change (squeeze []) with (@nil N). rewrite app_nil_r.
    rewrite split_char_aux_none by (apply squeeze_forallb; exact Hb). reflexivity.
  - rewrite squeeze_cons_keep by reflexivity.
    rewrite split_char_aux_first by (apply squeeze_forallb; exact Hb). reflexivity.
Qed.

Lemma py_join_cons (sep p : pystr) (rest : list pystr) :
  rest <> [] -> py_join sep (p :: rest) = p ++ sep ++ py_join sep rest.
Proof. destruct rest; [congruence|reflexivity]. Qed.

(** Joining the pieces of a split at a character with that character gives
    the string back. *)
Lemma split_char_aux_join (c : N) (s cur : pystr) :
  py_join [c] (split_sep_aux [c] s cur 0) = rev cur ++ s.
Proof.
  revert cur. induction s as [|d s IH]; intros cur; [cbn; rewrite app_nil_r; reflexivity|].
  cbn [split_sep_aux starts_with length pred]. destruct (N.eqb_spec c d) as [<-|Hd]; cbn [andb].
  - rewrite py_join_cons by apply split_sep_aux_nonempty. rewrite IH. reflexivity.
  - rewrite IH. cbn [rev]. rewrite <- app_assoc. reflexivity.
Qed.

Lemma forallb_rev_eq {A} (f : A -> bool) (l : list A) : forallb f (rev l) = forallb f l.
Proof.
  induction l as [|x l IH]; [reflexivity|]. cbn. rewrite forallb_app, IH. cbn.
  rewrite andb_true_r. apply andb_comm.
Qed.

Lemma split_char_aux_free (c : N) (s cur : pystr) :
  forallb (fun d => negb (c =? d)%N) cur = true ->
  Forall (fun piece => forallb (fun d => negb (c =? d)%N) piece = true)
    (split_sep_aux [c] s cur 0).
Proof.
  revert cur. induction s as [|d s IH]; intros cur Hcur.
  - constructor; [|constructor]. rewrite forallb_rev_eq. exact Hcur.
  - cbn [split_sep_aux starts_with length pred]. destruct (c =? d)%N eqn:Hd; cbn [andb].
    + constructor; [rewrite forallb_rev_eq; exact Hcur|]. apply IH. reflexivity.
    + apply IH. cbn. rewrite Hd, Hcur. reflexivity.
Qed.

(** X13: the special tag and the technologies of a detail page are read
    from lines of the form 'label: value'. When the text of the line is
    label + ':' + value, with no colon in the label and none in the value
    (more text may follow after a second colon), the special tag is the
    value with all its whitespace removed, also the whitespace inside it;
    the technologies are the pieces of that squeezed value between its
    commas, in order: joined with commas they give it back, and no piece
    has a comma or a whitespace character. *)
Theorem labelled_lines_read (doc : element) (label body tail : pystr) :
  colon_free label = true -> colon_free body = true -> colon_tail tail ->
  (xpath_string doc XSpecial = label ++ 58%N :: body ++ tail ->
   get_movie_special doc = Ok (Some (squeeze body))
   /\ squeeze body = List.filter (fun c => negb (isspace c)) body)
  /\ (xpath_string doc XTeZienIn = label ++ 58%N :: body ++ tail ->
      exists technologies,
        get_movie_technologies doc = Ok (Some technologies)
        /\ py_join (py ",") technologies = squeeze body
        /\ Forall (fun t => comma_free t = true
                            /\ forallb (fun c => negb (isspace c)) t = true) technologies).
Proof.
  intros Hl Hb Ht. split.
  - intros Htext. split; [|apply squeeze_filter]. unfold get_movie_special.
    rewrite Htext. rewrite labelled_value by assumption.
    destruct label; reflexivity.
  - intros Htext. exists (py_split (py ",") (squeeze body)). split; [|split].
    + unfold get_movie_technologies. rewrite Htext. rewrite labelled_value by assumption.
      destruct label; reflexivity.
    + apply (split_char_aux_join 44 (squeeze body) []).
    + pose proof (split_char_aux_free 44 (squeeze body) [] eq_refl) as Hfree.
      pose proof (split_char_aux_join 44 (squeeze body) []) as Hjoin.
      fold (py_split [44%N] (squeeze body)) in Hfree, Hjoin.
      change (py ",") with [44%N].
      assert (Hns : forallb (fun c => negb (isspace c))
                      (py_join [44%N] (py_split [44%N] (squeeze body))) = true).
      { rewrite Hjoin. cbn [rev app]. rewrite squeeze_filter.
        apply forallb_forall. intros x Hx. apply List.filter_In in Hx. tauto. }
      clear Hjoin. induction Hfree as [|t l Hfree_t _ IH]; [constructor|].
      destruct l as [|t' l].
      * constructor; [|constructor]. split; [exact Hfree_t|exact Hns].
      * rewrite py_join_cons in Hns by discriminate.
        rewrite !forallb_app in Hns. apply andb_prop in Hns as [H1 H2].
        apply andb_prop in H2 as [_ H2].
        constructor; [split; [exact Hfree_t|exact H1]|]. apply IH. exact H2.
Qed.

Lemma labelled_lines_read_witness :
  get_movie_special (detail_page (py " Special: Path" ++ [233%N] ++ py " Opera ") amelie)
  = Ok (Some (pathe_tag "Opera"))
  /\ get_movie_technologies (tech_page (py "Te zien in: 3D, IMAX 3D"))
     = Ok (Some [py "3D"; py "IMAX3D"]).
Proof.
  split.
  - exact (proj1 (proj1 (labelled_lines_read
                          (detail_page (py " Special: Path" ++ [233%N] ++ py " Opera ") amelie)
                          (py " Special") (py " Path" ++ [233%N] ++ py " Opera ") []
                          eq_refl eq_refl (or_introl eq_refl)) eq_refl)).
  - destruct (proj2 (labelled_lines_read (tech_page (py "Te zien in: 3D, IMAX 3D"))
                       (py "Te zien in") (py " 3D, IMAX 3D") []
                       eq_refl eq_refl (or_introl eq_refl)) eq_refl)
      as (technologies & Heq & _). reflexivity.
Defined.

(** ** Genres *)

Lemma io_map_ok {A B} (f : A -> io B) (g : A -> B) (ev : A -> event) (l : list A) :
  (forall a, In a l -> f a = (Ok (g a), [ev a])) ->
  io_map f l = (Ok (map g l), map ev l).
Proof.
  induction l as [|a l IH]; intros H; [reflexivity|].
  cbn [io_map map]. rewrite (H a (or_introl eq_refl)). cbn [io_bind].
  rewrite IH by (intros b Hb; apply H; right; exact Hb). cbn [io_bind io_ret app].
  rewrite app_nil_r. reflexivity.
Qed.

(** X14: the genres of a detail page. When the text of the genre line is
    label + ':' + value, with no colon in the label and none in the value,
    the extractor removes all whitespace from the value, splits it at its
    commas and passes each piece to the translation adapter, in order, one
    call per piece; when every call ends normally it returns the list of
    the adapter's results, in the same order. *)
Theorem get_movie_genres_translates (w : World) (doc : element) (label body tail : pystr)
    (tr : pystr -> pyval) :
  colon_free label = true -> colon_free body = true -> colon_tail tail ->
  xpath_string doc XGenre = label ++ 58%N :: body ++ tail ->
  (forall g, In g (py_split (py ",") (squeeze body)) -> fst (nl_to_en w (PStr g)) = Ok (tr g)) ->
  get_movie_genres w doc
  = (Ok (Some (map tr (py_split (py ",") (squeeze body)))),
     map (fun g => EvTranslate (PStr g)) (py_split (py ",") (squeeze body))).
Proof.
  intros Hl Hb Ht Htext Htr. unfold get_movie_genres. rewrite Htext.
  replace (nonempty (label ++ 58%N :: body ++ tail)) with true by (destruct label; reflexivity).
  unfold io_lift. rewrite labelled_value by assumption. cbn [io_bind].
  rewrite (io_map_ok _ tr (fun g => EvTranslate (PStr g))).
  - cbn [io_bind io_ret]. rewrite app_nil_r. reflexivity.
  - intros g Hg. apply io_pair; [apply Htr; exact Hg|apply nl_to_en_events].
Qed.

Lemma get_movie_genres_translates_witness :
  get_movie_genres (small_web [] amelie []) (genre_page (py "Genre: Drama, Komedie"))
  = (Ok (Some [PStr (py "Drama"); PStr (py "Komedie")]),
     [EvTranslate (PStr (py "Drama")); EvTranslate (PStr (py "Komedie"))]).
Proof.
  exact (get_movie_genres_translates (small_web [] amelie [])
           (genre_page (py "Genre: Drama, Komedie")) (py "Genre") (py " Drama, Komedie") []
           PStr eq_refl eq_refl (or_introl eq_refl) eq_refl (fun g _ => eq_refl)).
Defined.

(** ** Directors and cast *)

Lemma directors_cast_loop_partition (items : list element) (directors cast : list pystr) :
  directors_cast_loop items directors cast
  = if forallb has_name items
    then Ok (directors ++ map person_name (List.filter is_director items),
             cast ++ map person_name (List.filter (fun p => negb (is_director p)) items))
    else Raise IndexError.
Proof.
  revert directors cast. induction items as [|person rest IH]; intros directors cast.
  - cbn. rewrite !app_nil_r. reflexivity.
  - cbn [directors_cast_loop forallb List.filter]. unfold py_getitem. cbn [nth_error].
    destruct (xpath_strings person XSpanText) as [|name names] eqn:Hn.
    + unfold has_name. rewrite Hn. reflexivity.
    + assert (Hname : person_name person = name) by (unfold person_name; rewrite Hn; reflexivity).
      assert (Hhas : has_name person = true) by (unfold has_name; rewrite Hn; reflexivity).
      rewrite Hhas. cbn [res_bind andb].
      destruct (xpath_elements person XRegisseurEm) as [|em ems] eqn:Hd.
      * assert (His : is_director person = false)
          by (unfold is_director; rewrite Hd; reflexivity).
        rewrite His, IH. cbn [negb map]. rewrite Hname, <- !app_assoc. reflexivity.
      * assert (His : is_director person = true)
          by (unfold is_director; rewrite Hd; reflexivity).
        rewrite His, IH. cbn [negb map]. rewrite Hname, <- !app_assoc. reflexivity.
Qed.

(** X15: directors and cast. The extractor goes through the entries of the
    slider in page order; the name of an entry is its first text. When
    every entry has a name, it returns the names of the entries marked
    'Regisseur' as directors and the names of all other entries as cast,
    each list in page order, so that every entry is in exactly one of the
    two; when some entry has no text it raises IndexError. *)
Theorem get_movie_directors_cast_partition (doc : element) :
  get_movie_directors_cast doc
  = if forallb has_name (xpath_elements doc XSliderEntry)
    then Ok (map person_name (List.filter is_director (xpath_elements doc XSliderEntry)),
             map person_name
               (List.filter (fun p => negb (is_director p)) (xpath_elements doc XSliderEntry)))
    else Raise IndexError.
Proof. unfold get_movie_directors_cast. apply directors_cast_loop_partition. Qed.

(** ** Duration *)

Lemma ascii_space_not_decimal w (c : N) : ascii_space c = true -> isdecimal w c = false.
Proof.
  unfold ascii_space, isdecimal, digit_value. intros H.
  apply andb_prop in H as [Hs Hlt]. rewrite Hlt.
  destruct ((48 <=? c) && (c <=? 57))%N eqn:Hd; [|reflexivity].
  rewrite (ascii_digit_not_space c Hd) in Hs. discriminate Hs.
Qed.

(** What the pattern of the duration line matches. *)
Lemma duration_regex_inv w (s : pystr) (groups : list pystr) :
  re_match (duration_regex w) s = Some groups ->
  exists ws1 d ws2 tail,
    groups = [d]
    /\ s = py "Duur:" ++ ws1 ++ d ++ ws2 ++ py "minuten" ++ tail
    /\ spaces ws1 = true /\ d <> [] /\ forallb (isdecimal w) d = true
    /\ spaces ws2 = true /\ (tail = [] \/ tail = [NEWLINE]).
Proof.
  unfold re_match, re_match_rest, duration_regex.
  cbn [rseq fold_right rmatch]. unfold RLit at 1. rewrite rmatch_literal.
  destruct (starts_with (py "Duur:") s) eqn:H0; [|discriminate].
  apply starts_with_skipn in H0. set (s1 := skipn (length (py "Duur:")) s) in *.
  clearbody s1. subst s. unfold RPlus. cbn [rmatch].
  destruct (rep_match isspace 1 None s1 _) as [x|] eqn:H1; [|discriminate].
  cbn [option_map]. intros [= <-].
  apply rep_inv in H1 as (ws1 & u1 & -> & Hws1 & Hlen1 & _ & H1).
  apply rep_inv in H1 as (d & u2 & -> & Hd & Hlen2 & _ & H2).
  apply rep_inv in H2 as (ws2 & u3 & -> & Hws2 & Hlen3 & _ & H3).
  unfold RLit in H3. rewrite rmatch_literal in H3.
  destruct (starts_with (py "minuten") u3) eqn:H4; [|discriminate].
  apply starts_with_skipn in H4. set (tail := skipn (length (py "minuten")) u3) in *.
  clearbody tail. subst u3. cbn [rmatch] in H3.
  rewrite firstn_consumed in H3.
  exists ws1, d, ws2, tail.
  assert (Htail : (tail = [] \/ tail = [NEWLINE]) /\ x = ([d], tail)).
  { destruct tail as [|c [|c' tail]]; cbn [app] in H3.
    - injection H3 as <-. auto.
    - destruct (c =? NEWLINE)%N eqn:Hc; [|discriminate]. apply N.eqb_eq in Hc. subst c.
      injection H3 as <-. auto.
    - discriminate. }
  destruct Htail as [Htail ->]. cbn [fst].
  split; [reflexivity|]. split; [reflexivity|].
  unfold spaces. rewrite Hws1, Hws2.
  destruct ws1; [cbn in Hlen1; lia|]. destruct ws2; [cbn in Hlen3; lia|].
  destruct d; [cbn in Hlen2; lia|].
  split; [reflexivity|]. split; [discriminate|]. split; [exact Hd|].
  split; [reflexivity|exact Htail].
Qed.

Lemma ascii_spaces_spaces (s : pystr) :
  ascii_spaces s = true -> s <> [] /\ forallb isspace s = true.
Proof.
  unfold ascii_spaces. intros H. apply andb_prop in H as [Hne H]. split.
  - destruct s; [discriminate|discriminate].
  - clear Hne. induction s as [|c s IH]; [reflexivity|]. cbn in *.
    apply andb_prop in H as [Hc H]. unfold ascii_space in Hc.
    apply andb_prop in Hc as [Hc _]. rewrite Hc. auto.
Qed.

Lemma ascii_number_decimal w (s : pystr) :
  ascii_number s = true -> s <> [] /\ forallb (isdecimal w) s = true.
Proof.
  unfold ascii_number. intros H. apply andb_prop in H as [Hne H]. split.
  - destruct s; [discriminate|discriminate].
  - clear Hne. induction s as [|c s IH]; [reflexivity|]. cbn in *.
    apply andb_prop in H as [Hc H]. rewrite (isdecimal_ascii w c Hc). auto.
Qed.

(** The pattern of the duration line on a line of its shape. *)
Lemma duration_regex_reads w (ws1 d ws2 : pystr) :
  ascii_spaces ws1 = true -> ascii_number d = true -> ascii_spaces ws2 = true ->
  re_match (duration_regex w) (py "Duur:" ++ ws1 ++ d ++ ws2 ++ py "minuten") = Some [d].
Proof.
  intros Hws1 Hd Hws2.
  destruct (ascii_spaces_spaces ws1 Hws1) as [Hne1 Hsp1].
  destruct (ascii_spaces_spaces ws2 Hws2) as [Hne2 Hsp2].
  destruct (ascii_number_decimal w d Hd) as [Hned Hdec].
  unfold re_match, re_match_rest, duration_regex.
  cbn [rseq fold_right rmatch]. unfold RLit at 1.
  rewrite rmatch_literal, starts_with_app, skipn_app_length.
  unfold RPlus. cbn [rmatch].
  set (x := ([d], []) : list pystr * pystr).
  rewrite (rep_plus_greedy (X:=list pystr * pystr) isspace _ ws1
             (d ++ ws2 ++ py "minuten") x); [reflexivity|exact Hne1|exact Hsp1| |].
  - rewrite (rep_plus_greedy (X:=list pystr * pystr) (isdecimal w) _ d
               (ws2 ++ py "minuten") x); [reflexivity|exact Hned|exact Hdec| |].
    + rewrite (rep_plus_greedy (X:=list pystr * pystr) isspace _ ws2 (py "minuten") x);
        [reflexivity|exact Hne2|exact Hsp2| |].
      * unfold RLit. rewrite rmatch_literal. rewrite firstn_consumed. reflexivity.
      * intros t u Heq Hnt Ht. destruct t as [|c t]; [congruence|].
        injection Heq as <- _. discriminate Ht.
    + intros t u Heq Hnt Ht. destruct t as [|c t]; [congruence|].
      destruct ws2 as [|c2 ws2]; [congruence|]. injection Heq as <- _.
      unfold ascii_spaces in Hws2. cbn in Hws2, Ht.
      apply andb_prop in Hws2 as [Hc2 _].
      rewrite (ascii_space_not_decimal w c2 Hc2) in Ht. discriminate Ht.
  - intros t u Heq Hnt Ht. destruct t as [|c t]; [congruence|].
    destruct d as [|c2 d]; [congruence|]. injection Heq as <- _.
    unfold ascii_number in Hd. cbn in Hd, Ht. apply andb_prop in Hd as [Hc2 _].
    rewrite (ascii_digit_not_space c2 Hc2) in Ht. discriminate Ht.
Qed.

Lemma py_lstrip_head (s : pystr) (c : N) (rest : pystr) :
  py_lstrip s = c :: rest -> isspace c = false.
Proof.
  induction s as [|a s IH]; [discriminate|]. cbn. destruct (isspace a) eqn:Ha; [exact IH|].
  intros [= <- _]. exact Ha.
Qed.

(** [s.strip()] does not end in a whitespace character. *)
Lemma py_strip_last (s a : pystr) (c : N) : py_strip s = a ++ [c] -> isspace c = false.
Proof.
  unfold py_strip. intros H. apply (f_equal (@rev N)) in H.
  rewrite rev_involutive, rev_app_distr in H. cbn in H.
  exact (py_lstrip_head _ _ _ H).
Qed.

(** X16: the duration of a detail page. The extractor never raises. It
    returns a duration exactly when the text of the duration line, without
    the whitespace around it, is 'Duur:', whitespace, decimal digits,
    whitespace, 'minuten': what it returns then is the string of the digits,
    never empty; on any other text it returns None. For ASCII digits and
    ASCII whitespace every text of that form is read. *)
Theorem get_movie_duration_reads (w : World) (doc : element) :
  (get_movie_duration w doc = Ok None
   \/ exists ws1 d ws2,
        get_movie_duration w doc = Ok (Some d)
        /\ py_strip (xpath_string doc XDuur)
           = py "Duur:" ++ ws1 ++ d ++ ws2 ++ py "minuten"
        /\ spaces ws1 = true /\ d <> [] /\ forallb (isdecimal w) d = true
        /\ spaces ws2 = true)
  /\ (forall ws1 d ws2,
        py_strip (xpath_string doc XDuur) = py "Duur:" ++ ws1 ++ d ++ ws2 ++ py "minuten" ->
        ascii_spaces ws1 = true -> ascii_number d = true -> ascii_spaces ws2 = true ->
        get_movie_duration w doc = Ok (Some d)).
Proof.
  unfold get_movie_duration. split.
  - destruct (re_match (duration_regex w) (py_strip (xpath_string doc XDuur)))
      as [groups|] eqn:Hm; [|left; reflexivity].
    right. apply duration_regex_inv in Hm
      as (ws1 & d & ws2 & tail & -> & Hs & Hws1 & Hne & Hd & Hws2 & Htail).
    exists ws1, d, ws2. split; [reflexivity|]. split; [|auto].
    destruct Htail as [-> | ->]; [rewrite app_nil_r in Hs; exact Hs|]. exfalso.
    rewrite !app_assoc in Hs. apply py_strip_last in Hs. discriminate Hs.
  - intros ws1 d ws2 -> Hws1 Hd Hws2. rewrite duration_regex_reads by assumption.
    reflexivity.
Qed.

Lemma get_movie_duration_reads_witness :
  get_movie_duration offline (duration_page (py " Duur:  95 minuten ")) = Ok (Some (py "95")).
Proof.
  exact (proj2 (get_movie_duration_reads offline (duration_page (py " Duur:  95 minuten ")))
           (py "  ") (py "95") (py " ") eq_refl eq_refl eq_refl eq_refl).
Defined.

(** ** Dates: the pattern of [strptime] *)

Lemma sub_succ1 (n : nat) : S n - n = 1.
Proof. lia. Qed.

Lemma sub_succ2 (n : nat) : S (S n) - n = 2.
Proof. lia. Qed.

Lemma strptime_regex_parts w :
  strptime_regex w
  = RSeq (strptime_day_group w)
      (RSeq (RChar 46)
         (RSeq strptime_month_group
            (RSeq (RChar 46) (RSeq (RGroup (RTimes (isdecimal w) 4)) REmpty)))).
Proof. reflexivity. Qed.

Ltac digit_cases H :=
  apply ascii_digit_cases in H;
  destruct H as [->|[->|[->|[->|[->|[->|[->|[->|[->| ->]]]]]]]]].

(** The day of a date text: two ASCII digits that spell a number from 1
    to 31. *)
Lemma strptime_day2 {X} w (d1 d2 : N) (r : regex) (s : pystr) (caps : list pystr)
    (k : pystr -> list pystr -> option X) :
  ascii_digit d1 = true -> ascii_digit d2 = true ->
  rmatch (RSeq (strptime_day_group w) (RSeq (RChar 46) r)) (d1 :: d2 :: 46%N :: s) caps k
  = if ((1 <=? two_digits d1 d2) && (two_digits d1 d2 <=? 31))%Z
    then rmatch r s (caps ++ [[d1; d2]]) k
    else None.
Proof.
  intros H1 H2. digit_cases H1; digit_cases H2;
    cbn; rewrite ?sub_succ2, ?sub_succ1; cbn [firstn];
    try reflexivity; destruct (rmatch r s _ k); reflexivity.
Qed.

(** The day of a date text: one ASCII digit other than 0. *)
Lemma strptime_day1 {X} w (d1 : N) (r : regex) (s : pystr) (caps : list pystr)
    (k : pystr -> list pystr -> option X) :
  ascii_digit d1 = true ->
  rmatch (RSeq (strptime_day_group w) (RSeq (RChar 46) r)) (d1 :: 46%N :: s) caps k
  = if (49 <=? d1)%N then rmatch r s (caps ++ [[d1]]) k else None.
Proof.
  intros H1. digit_cases H1;
    cbn; rewrite ?sub_succ2, ?sub_succ1; cbn [firstn];
    try reflexivity; destruct (rmatch r s _ k); reflexivity.
Qed.

Lemma month_cases (m : Z) :
  (1 <= m <= 12)%Z ->
  m = 1%Z \/ m = 2%Z \/ m = 3%Z \/ m = 4%Z \/ m = 5%Z \/ m = 6%Z \/ m = 7%Z \/ m = 8%Z
  \/ m = 9%Z \/ m = 10%Z \/ m = 11%Z \/ m = 12%Z.
Proof. lia. Qed.

Ltac month_cases H :=
  apply month_cases in H;
  destruct H as [->|[->|[->|[->|[->|[->|[->|[->|[->|[->|[->| ->]]]]]]]]]]].

(** The month of a date text, written as [str] writes it or with two
    digits. *)
Lemma strptime_month {X} (m : Z) (r : regex) (s : pystr) (caps : list pystr)
    (k : pystr -> list pystr -> option X) :
  (1 <= m <= 12)%Z ->
  rmatch (RSeq strptime_month_group (RSeq (RChar 46) r)) (py_str_of_Z m ++ 46%N :: s) caps k
  = rmatch r s (caps ++ [py_str_of_Z m]) k
  /\ rmatch (RSeq strptime_month_group (RSeq (RChar 46) r))
       (month_two_digits m ++ 46%N :: s) caps k
     = rmatch r s (caps ++ [month_two_digits m]) k.
Proof.
  intros Hm. month_cases Hm;
    (split;
     [match goal with
      | |- context [py_str_of_Z ?n] =>
          let v := eval vm_compute in (py_str_of_Z n) in change (py_str_of_Z n) with v
      end
     |match goal with
      | |- context [month_two_digits ?n] =>
          let v := eval vm_compute in (month_two_digits n) in
          change (month_two_digits n) with v
      end];
     cbn; rewrite ?sub_succ2, ?sub_succ1; cbn [firstn];
     try reflexivity; destruct (rmatch r s _ k); reflexivity).
Qed.

Lemma month_texts_value w (m : Z) :
  (1 <= m <= 12)%Z -> py_int w (month_two_digits m) = m.
Proof. intros Hm. month_cases Hm; reflexivity. Qed.

Lemma digit_value_ascii w (c : N) :
  ascii_digit c = true -> digit_value w c = Some (Z.of_N c - 48)%Z.
Proof. intros H. digit_cases H; reflexivity. Qed.

Lemma py_int_two_digits w (d1 d2 : N) :
  ascii_digit d1 = true -> ascii_digit d2 = true -> py_int w [d1; d2] = two_digits d1 d2.
Proof. intros H1 H2. digit_cases H1; digit_cases H2; reflexivity. Qed.

(** The numerals of the years 1000 to 9999 have four digits. *)
Lemma year_text_length (y : Z) : (1000 <= y <= 9999)%Z -> length (py_str_of_Z y) = 4.
Proof.
  intros Hy.
  assert (Hall : forallb (fun n => Nat.eqb (length (py_str_of_Z (1000 + Z.of_nat n))) 4)
                   (seq 0 (Z.to_nat 9000)) = true) by (vm_compute; reflexivity).
  rewrite forallb_forall in Hall.
  specialize (Hall (Z.to_nat (y - 1000))). rewrite in_seq in Hall.
  replace (1000 + Z.of_nat (Z.to_nat (y - 1000)))%Z with y in Hall by lia.
  apply Nat.eqb_eq. apply Hall. lia.
Qed.

(** The year of a date text: four decimal digits up to the end. *)
Lemma strptime_year w (yyyy : pystr) (caps : list pystr) :
  length yyyy = 4 -> forallb (isdecimal w) yyyy = true ->
  rmatch (RSeq (RGroup (RTimes (isdecimal w) 4)) REmpty) yyyy caps
    (fun rest caps' => Some (caps', rest))
  = Some (caps ++ [yyyy], []).
Proof.
  intros Hlen Hd. unfold RTimes. cbn [rmatch].
  pose proof (rep_times_exact (X:=list pystr * pystr) (isdecimal w)
                (fun s1 => Some (caps ++ [firstn (length yyyy - length s1) yyyy], s1))
                yyyy [] (caps ++ [yyyy], []) Hd) as H.
  rewrite app_nil_r in H. rewrite <- Hlen. apply H.
  cbn [length]. rewrite Nat.sub_0_r, firstn_all. reflexivity.
Qed.

(** A date that has no such day. *)
Lemma make_date_no_day (y m d : Z) :
  (1 <= m <= 12)%Z -> ((1 <=? d) && (d <=? 31))%Z = false -> make_date y m d = Raise ValueError.
Proof.
  intros Hm Hd. unfold make_date, valid_date. cbn [year month day].
  assert (Hdim : (days_in_month y m <= 31)%Z).
  { unfold days_in_month, DAYS_IN_MONTH.
    month_cases Hm; destruct (is_leap y); vm_compute; discriminate. }
  destruct (MINYEAR <=? y)%Z, (y <=? MAXYEAR)%Z, (1 <=? m)%Z, (m <=? 12)%Z; cbn [andb];
    try reflexivity.
  destruct (1 <=? d)%Z eqn:H1; cbn [andb] in *; [|reflexivity].
  destruct (Z.leb_spec d (days_in_month y m)); [|reflexivity].
  apply Z.leb_gt in Hd. lia.
Qed.

(** [strptime] on a date text with a two-digit day, a two-digit month and
    the current year. *)
Lemma strptime_dmY_two w (d1 d2 : N) (m y : Z) :
  ascii_digit d1 = true -> ascii_digit d2 = true -> (1 <= m <= 12)%Z ->
  (1000 <= y <= 9999)%Z ->
  strptime_dmY w ([d1; d2] ++ py "." ++ month_two_digits m ++ py "." ++ py_str_of_Z y)
  = (let* d := make_date y m (two_digits d1 d2) in Ok (mkdatetime d 0 0 0 0))%res.
Proof.
  intros H1 H2 Hm Hy. unfold strptime_dmY, re_match_rest.
  rewrite strptime_regex_parts. change (py ".") with [46%N]. cbn [app].
  rewrite (strptime_day2 w d1 d2 _ _ _ _ H1 H2).
  destruct ((1 <=? two_digits d1 d2) && (two_digits d1 d2 <=? 31))%Z eqn:Hday;
    [|rewrite (make_date_no_day y m _ Hm Hday); reflexivity].
  rewrite (proj2 (strptime_month m _ _ _ _ Hm)).
  assert (Hnum : ascii_number (py_str_of_Z y) = true) by (apply py_str_of_Z_number; lia).
  rewrite strptime_year;
    [|apply year_text_length; exact Hy|apply (ascii_number_decimal w); exact Hnum].
  cbn [app]. rewrite (py_int_str w y) by lia.
  rewrite (month_texts_value w m Hm), (py_int_two_digits w d1 d2 H1 H2). reflexivity.
Qed.

(** ** Dates: dated labels *)

Lemma sub_succ3 (n : nat) : S (S (S n)) - n = 3.
Proof. lia. Qed.

Lemma precise_date_regex_parts w :
  precise_date_regex w = RSeq (RStar dot) (precise_date_tail w).
Proof. reflexivity. Qed.

(** The part of the pattern after [.*] reads a text of the expected form. *)
Lemma precise_date_tail_reads w (ws1 : N) (dd : pystr) (ws2 : N) (abbr nl : pystr)
    (caps : list pystr) :
  isspace ws1 = true -> length dd = 2 -> forallb (isdecimal w) dd = true ->
  isspace ws2 = true -> length abbr = 3 -> forallb lower_az abbr = true ->
  nl = [] \/ nl = [NEWLINE] ->
  rmatch (precise_date_tail w) (ws1 :: dd ++ ws2 :: abbr ++ nl) caps
    (fun rest caps' => Some (caps', rest))
  = Some (caps ++ [dd; abbr], nl).
Proof.
  intros Hws1 Hld Hd Hws2 Hla Ha Hnl.
  destruct dd as [|a [|b [|? ?]]]; try discriminate Hld.
  destruct abbr as [|x [|y [|z [|? ?]]]]; try discriminate Hla.
  cbn in Hd, Ha.
  apply andb_prop in Hd as [Hda Hd]. apply andb_prop in Hd as [Hdb _].
  apply andb_prop in Ha as [Hx Ha]. apply andb_prop in Ha as [Hy Ha].
  apply andb_prop in Ha as [Hz _].
  unfold precise_date_tail, RTimes.
  destruct Hnl as [-> | ->];
    cbn [rseq fold_right rmatch rep_match app pred option_map may_take];
    rewrite Hws1, Hda, Hdb, Hws2, Hx, Hy, Hz, ?andb_false_r; cbn;
    rewrite <- app_assoc; reflexivity.
Qed.

(** What the part of the pattern after [.*] can read. *)
Lemma precise_date_tail_inv w (u : pystr) (caps groups : list pystr) (rest : pystr) :
  rmatch (precise_date_tail w) u caps (fun rest caps' => Some (caps', rest))
  = Some (groups, rest) ->
  exists ws1 dd ws2 abbr nl,
    u = ws1 :: dd ++ ws2 :: abbr ++ nl
    /\ isspace ws1 = true /\ length dd = 2 /\ forallb (isdecimal w) dd = true
    /\ isspace ws2 = true /\ length abbr = 3 /\ forallb lower_az abbr = true
    /\ (nl = [] \/ nl = [NEWLINE]) /\ groups = caps ++ [dd; abbr].
Proof.
  unfold precise_date_tail, RTimes. cbn [rseq fold_right rmatch].
  destruct u as [|ws1 u]; [discriminate|].
  destruct (isspace ws1) eqn:Hws1; [|discriminate].
  intros H. apply rep_inv in H as (dd & u2 & -> & Hd & Hlo & Hhi & H).
  specialize (Hhi 2 eq_refl).
  destruct u2 as [|ws2 u2]; [discriminate|].
  destruct (isspace ws2) eqn:Hws2; [|discriminate].
  apply rep_inv in H as (abbr & nl & -> & Ha & Hlo2 & Hhi2 & H).
  specialize (Hhi2 3 eq_refl).
  rewrite firstn_consumed, (firstn_consumed abbr nl) in H.
  exists ws1, dd, ws2, abbr, nl.
  assert (Hnl : (nl = [] \/ nl = [NEWLINE]) /\ groups = (caps ++ [dd]) ++ [abbr]).
  { destruct nl as [|c [|? ?]]; [| |discriminate].
    - injection H as <- _. auto.
    - destruct (c =? NEWLINE)%N eqn:Hc; [|discriminate].
      apply N.eqb_eq in Hc. subst c. injection H as <- _. auto. }
  destruct Hnl as [Hnl ->]. rewrite <- app_assoc.
  repeat split; auto; lia.
Qed.

(** The pattern of a dated label on a text with a single reading. *)
Lemma precise_date_regex_reads w (prefix : pystr) (ws1 : N) (dd : pystr) (ws2 : N)
    (abbr : pystr) :
  single_line prefix = true -> isspace ws1 = true -> length dd = 2 ->
  forallb (isdecimal w) dd = true -> isspace ws2 = true -> length abbr = 3 ->
  forallb lower_az abbr = true ->
  re_match (precise_date_regex w) (prefix ++ ws1 :: dd ++ ws2 :: abbr) = Some [dd; abbr].
Proof.
  intros Hp Hws1 Hld Hd Hws2 Hla Ha.
  unfold re_match, re_match_rest. rewrite precise_date_regex_parts.
  unfold RStar. cbn [rmatch].
  rewrite (rep_star_greedy (X:=list pystr * pystr) dot _ prefix
             (ws1 :: dd ++ ws2 :: abbr) ([dd; abbr], [])); [reflexivity|exact Hp| |].
  - pose proof (precise_date_tail_reads w ws1 dd ws2 abbr [] [] Hws1 Hld Hd Hws2 Hla Ha
                  (or_introl eq_refl)) as H.
    rewrite app_nil_r in H. exact H.
  - intros t u Heq Hnt _.
    destruct (rmatch (precise_date_tail w) u [] _) as [[groups rest]|] eqn:Hm; [|reflexivity].
    apply precise_date_tail_inv in Hm
      as (c1 & dd' & c2 & abbr' & nl & -> & _ & Hld' & _ & _ & Hla' & _).
    apply (f_equal (@length N)) in Heq.
    cbn [length] in Heq. rewrite !length_app in Heq. cbn [length] in Heq.
    rewrite !length_app in Heq. cbn [length] in Heq. rewrite !length_app in Heq.
    destruct t; [congruence|]. cbn [length] in Heq. lia.
Qed.

(** A string with a whitespace character is none of the labels of the
    first three branches. *)
Lemma spaced_not_relative (a : pystr) (c : N) (b : pystr) :
  isspace c = true -> py_in (a ++ c :: b) RELATIVE_LABELS = false.
Proof.
  intros Hc. unfold py_in. apply not_true_is_false. intros H.
  apply existsb_exists in H as (word & Hin & Heq).
  unfold pystr_eqb in Heq. apply bool_decide_eq_true in Heq.
  assert (Hns : no_space word = true).
  { assert (Hall : forallb no_space RELATIVE_LABELS = true) by (vm_compute; reflexivity).
    rewrite forallb_forall in Hall. exact (Hall word Hin). }
  rewrite <- Heq in Hns. unfold no_space in Hns. rewrite forallb_app in Hns.
  apply andb_prop in Hns as [_ Hns]. cbn in Hns. rewrite Hc in Hns. discriminate Hns.
Qed.

(** The branches of [normalize_date] for a label that is none of the
    relative ones. *)
Lemma normalize_date_not_relative w g now_year now_cmp label :
  py_in label RELATIVE_LABELS = false ->
  normalize_date w g now_year now_cmp label
  = match re_match (precise_date_regex w) label with
    | None => Raise (PatheMovieParseError "Unexpected day name")
    | Some match_groups =>
        (let* day := py_getitem match_groups 0 in
         let* month_name := py_getitem match_groups 1 in
         let* month := index_plus_1 month_name MONTHS_SHORT in
         let* showtime_date :=
           strptime_dmY w (day ++ py "." ++ month_two_digits month ++ py "."
                           ++ py_str_of_Z (year (dt_date now_year))) in
         Ok (PDatetime showtime_date))%res
    end.
Proof.
  intros Hrel. unfold RELATIVE_LABELS, py_in in Hrel. cbn [existsb] in Hrel.
  apply orb_false_elim in Hrel as [H1 Hrel]. apply orb_false_elim in Hrel as [H2 H3].
  unfold normalize_date. rewrite H1, H2. unfold py_in. rewrite H3.
  destruct (re_match _ _) as [groups|]; [|reflexivity].
  destruct (py_getitem groups 0) as [day|]; [|reflexivity]. cbn [res_bind].
  destruct (py_getitem groups 1) as [mn|]; [|reflexivity]. cbn [res_bind].
  destruct (index_plus_1 mn MONTHS_SHORT) as [m|]; [|reflexivity]. cbn [res_bind].
  fold (month_two_digits m).
  destruct (strptime_dmY w _) as [t|]; [|reflexivity]. cbn [res_bind].
  destruct (datetime_ltb t now_cmp); reflexivity.
Qed.

Lemma py_index_bounds (x : pystr) (l : list pystr) (i : Z) :
  py_index x l = Some i -> (0 <= i < Z.of_nat (length l))%Z.
Proof.
  revert i. induction l as [|y l IH]; intros i; [discriminate|]. cbn [py_index length].
  destruct (pystr_eqb x y); [intros [= <-]; lia|].
  destruct (py_index x l) as [j|]; [|discriminate]. intros [= <-].
  specialize (IH j eq_refl). lia.
Qed.

(** X17: a dated label, written with ASCII digits, in a year of four
    digits: the label means that day of that month in the year of the
    clock, at midnight, whether or not this lies in the past; the readings
    of the clock other than its year, and TODAY, play no part. An
    abbreviation that is no month, or a day the month does not have, is a
    [ValueError]. *)
Theorem normalize_date_dated (w : World) (g : globals) (now_year now_cmp : datetime)
    (prefix : pystr) (ws1 d1 d2 ws2 : N) (abbr : pystr) :
  single_line prefix = true -> isspace ws1 = true ->
  ascii_digit d1 = true -> ascii_digit d2 = true -> isspace ws2 = true ->
  length abbr = 3 -> forallb lower_az abbr = true ->
  (1000 <= year (dt_date now_year) <= 9999)%Z ->
  normalize_date w g now_year now_cmp (prefix ++ ws1 :: d1 :: d2 :: ws2 :: abbr)
  = match py_index abbr MONTHS_SHORT with
    | Some i =>
        (let* d := make_date (year (dt_date now_year)) (i + 1) (two_digits d1 d2) in
         Ok (PDatetime (midnight d)))%res
    | None => Raise ValueError
    end.
Proof.
  intros Hp Hws1 Hd1 Hd2 Hws2 Hla Ha Hy.
  rewrite normalize_date_not_relative by (apply spaced_not_relative; exact Hws1).
  change (d1 :: d2 :: ws2 :: abbr) with ([d1; d2] ++ ws2 :: abbr).
  rewrite (precise_date_regex_reads w prefix ws1 [d1; d2] ws2 abbr Hp Hws1 eq_refl);
    [|cbn; rewrite (isdecimal_ascii w d1 Hd1), (isdecimal_ascii w d2 Hd2); reflexivity
     |exact Hws2|exact Hla|exact Ha].
  cbn [py_getitem nth_error res_bind]. unfold index_plus_1.
  destruct (py_index abbr MONTHS_SHORT) as [i|] eqn:Hi; [|reflexivity].
  cbn [res_bind]. apply py_index_bounds in Hi. cbn [length MONTHS_SHORT] in Hi.
  rewrite (strptime_dmY_two w d1 d2 (i + 1) _ Hd1 Hd2) by (try exact Hy; lia).
  destruct (make_date _ _ _); reflexivity.
Qed.

Lemma normalize_date_dated_witness :
  single_line (py "woensdag") = true
  /\ (py_index (py "mei") MONTHS_SHORT = Some 4%Z
      /\ two_digits 50 55 = 27%Z
      /\ datetime_ltb (midnight (mkdate 2024 5 27)) noon_june_10 = true)
  /\ normalize_date offline june_10 noon_june_10 noon_june_10 (py "woensdag 27 mei")
     = Ok (PDatetime (midnight (mkdate 2024 5 27)))
  /\ normalize_date offline june_10 noon_june_10 noon_june_10 (py "zondag 31 jun")
     = Raise ValueError
  /\ normalize_date offline june_10 noon_june_10 noon_june_10 (py "zondag 12 may")
     = Raise ValueError.
Proof.
  split; [reflexivity|]. split; [repeat split; reflexivity|]. split; [|split].
  - exact (normalize_date_dated offline june_10 noon_june_10 noon_june_10 (py "woensdag")
             32 50 55 32 (py "mei") eq_refl eq_refl eq_refl eq_refl eq_refl eq_refl eq_refl
             (conj (proj1 (Z.leb_le 1000 2024) eq_refl) (proj1 (Z.leb_le 2024 9999) eq_refl))).
  - exact (normalize_date_dated offline june_10 noon_june_10 noon_june_10 (py "zondag")
             32 51 49 32 (py "jun") eq_refl eq_refl eq_refl eq_refl eq_refl eq_refl eq_refl
             (conj (proj1 (Z.leb_le 1000 2024) eq_refl) (proj1 (Z.leb_le 2024 9999) eq_refl))).
  - exact (normalize_date_dated offline june_10 noon_june_10 noon_june_10 (py "zondag")
             32 49 50 32 (py "may") eq_refl eq_refl eq_refl eq_refl eq_refl eq_refl eq_refl
             (conj (proj1 (Z.leb_le 1000 2024) eq_refl) (proj1 (Z.leb_le 2024 9999) eq_refl))).
Defined.

(** A greedy [p*] finds a match whenever some split of the string gives
    one. *)
Lemma rep_star_some {X} (p : N -> bool) (k : pystr -> option X) (s1 s2 : pystr) (x : X) :
  forallb p s1 = true -> k s2 = Some x ->
  exists y, rep_match p 0 None (s1 ++ s2) k = Some y.
Proof.
  intros Hp Hk. induction s1 as [|c s1 IH].
  - cbn [app]. destruct s2 as [|c s2]; cbn [rep_match]; [eauto|].
    destruct (p c && may_take None); [|eauto].
    destruct (rep_match p _ _ s2 k); eauto.
  - cbn in Hp. apply andb_prop in Hp as [Hc Hp]. destruct (IH Hp) as [y Hy].
    cbn [app rep_match pred option_map may_take]. rewrite Hc. cbn [andb].
    rewrite Hy. eauto.
Qed.

(** The pattern of a dated label matches the strings of that form, no
    others, and gives two groups. *)
Lemma precise_date_regex_matches w (label : pystr) :
  (dated_form w label -> exists dd abbr, re_match (precise_date_regex w) label = Some [dd; abbr])
  /\ (forall groups, re_match (precise_date_regex w) label = Some groups -> dated_form w label).
Proof.
  unfold re_match, re_match_rest. rewrite precise_date_regex_parts.
  unfold RStar. cbn [rmatch]. split.
  - intros (prefix & ws1 & dd & ws2 & abbr & nl & -> & Hp & Hws1 & Hld & Hd & Hws2 & Hla
            & Ha & Hnl).
    pose proof (precise_date_tail_reads w ws1 dd ws2 abbr nl [] Hws1 Hld Hd Hws2 Hla Ha Hnl)
      as Htail.
    destruct (rep_star_some dot
                (fun s' => rmatch (precise_date_tail w) s' []
                             (fun rest caps' => Some (caps', rest)))
                prefix _ _ Hp Htail) as [[groups rest] Hy].
    destruct (rep_inv dot _ _ _ _ _ Hy) as (t & u & _ & _ & _ & _ & Hu).
    apply precise_date_tail_inv in Hu as (_ & dd' & _ & abbr' & _ & _ & _ & _ & _ & _ & _ & _
                                          & _ & ->).
    exists dd', abbr'. rewrite Hy. reflexivity.
  - intros groups H.
    destruct (rep_match dot 0 None label _) as [[groups' rest]|] eqn:Hy; [|discriminate].
    destruct (rep_inv dot _ _ _ _ _ Hy) as (t & u & -> & Ht & _ & _ & Hu).
    apply precise_date_tail_inv in Hu
      as (ws1 & dd & ws2 & abbr & nl & -> & Hws1 & Hld & Hd & Hws2 & Hla & Ha & Hnl & _).
    exists t, ws1, dd, ws2, abbr, nl. repeat split; auto.
Qed.

(** X18: a label that is none of the relative ones is rejected as an
    unexpected day name exactly when it has not the form of a dated label;
    a label of that form gives a [datetime], or a [ValueError] when the
    three letters are no month or the date does not exist. *)
Theorem normalize_date_unexpected (w : World) (g : globals) (now_year now_cmp : datetime)
    (label : pystr) :
  py_in label RELATIVE_LABELS = false ->
  (~ dated_form w label ->
   normalize_date w g now_year now_cmp label
   = Raise (PatheMovieParseError "Unexpected day name"))
  /\ (dated_form w label ->
      normalize_date w g now_year now_cmp label = Raise ValueError
      \/ exists t, normalize_date w g now_year now_cmp label = Ok (PDatetime t)).
Proof.
  intros Hrel. rewrite (normalize_date_not_relative w g now_year now_cmp label Hrel).
  destruct (precise_date_regex_matches w label) as [Hsome Hform]. split.
  - intros Hno. destruct (re_match _ _) as [groups|]; [|reflexivity].
    destruct Hno. exact (Hform groups eq_refl).
  - intros Hd. destruct (Hsome Hd) as (dd & abbr & ->).
    cbn [py_getitem nth_error res_bind]. unfold index_plus_1.
    destruct (py_index abbr MONTHS_SHORT) as [i|]; [|left; reflexivity]. cbn [res_bind].
    unfold strptime_dmY.
    destruct (re_match_rest _ _) as [[[|d [|m [|y [|? ?]]]] [|? ?]]|]; try (left; reflexivity).
    destruct (make_date _ _ _) as [dt|e] eqn:Hmk; [right; eexists; reflexivity|].
    left. unfold make_date in Hmk. destruct (valid_date _); [discriminate|].
    injection Hmk as <-. reflexivity.
Qed.

Lemma normalize_date_unexpected_witness :
  py_in (py "overmorgen") RELATIVE_LABELS = false
  /\ ~ dated_form offline (py "overmorgen")
  /\ normalize_date offline june_10 noon_june_10 noon_june_10 (py "overmorgen")
     = Raise (PatheMovieParseError "Unexpected day name").
Proof.
  pose proof (normalize_date_unexpected offline june_10 noon_june_10 noon_june_10
                (py "overmorgen") eq_refl) as [Hno Hyes].
  assert (Hform : ~ dated_form offline (py "overmorgen")).
  { intros Hd. destruct (Hyes Hd) as [H|[t H]]; vm_compute in H; discriminate H. }
  split; [reflexivity|]. split; [exact Hform|exact (Hno Hform)].
Defined.

(** ** Release date *)

Lemma lower_az_not_space (c : N) : lower_az c = true -> isspace c = false.
Proof.
  unfold lower_az. intros H. apply andb_prop in H as [H1 H2].
  apply N.leb_le in H1, H2. unfold isspace.
  assert (E1 : (c <=? 13)%N = false) by (apply N.leb_gt; lia).
  assert (E2 : (c <=? 32)%N = false) by (apply N.leb_gt; lia).
  assert (E3 : (8192 <=? c)%N = false) by (apply N.leb_gt; lia).
  assert (E4 : forall n, (122 < n)%N -> (c =? n)%N = false)
    by (intros n Hn; apply N.eqb_neq; lia).
  rewrite E1, E2, E3, !E4 by lia. rewrite !andb_false_r. reflexivity.
Qed.

Lemma space_not_lower_az (c : N) : isspace c = true -> lower_az c = false.
Proof.
  intros H. destruct (lower_az c) eqn:Hl; [|reflexivity].
  rewrite (lower_az_not_space c Hl) in H. discriminate H.
Qed.

(** An exact count has one reading. *)
Lemma rep_times_eq {X} (p : N -> bool) (k : pystr -> option X) (s1 s2 : pystr) :
  forallb p s1 = true ->
  rep_match p (length s1) (Some (length s1)) (s1 ++ s2) k = k s2.
Proof.
  intros Hp. induction s1 as [|c s1 IH]; [cbn [length app]; apply rep_zero|].
  cbn in Hp. apply andb_prop in Hp as [Hc Hp].
  cbn [app length rep_match pred option_map may_take]. rewrite Hc. cbn [andb].
  rewrite (IH Hp). destruct (k s2); reflexivity.
Qed.

Lemma py_int_digits w (s : pystr) :
  forallb ascii_digit s = true -> py_int w s = digits_value s.
Proof.
  intros H. unfold py_int, digits_value.
  assert (Hl : py_lstrip s = s).
  { destruct s as [|c s]; [reflexivity|]. apply lstrip_number. exact H. }
  rewrite Hl. generalize 0%Z as acc. induction s as [|c s IH]; intros acc; [reflexivity|].
  cbn in H. apply andb_prop in H as [Hc H].
  cbn [fold_left]. rewrite (digit_value_ascii w c Hc).
  apply IH; [exact H|].
  destruct s as [|c' s]; [reflexivity|]. apply lstrip_number. exact H.
Qed.

(** One or two characters of a class: the second is given back when the
    rest of the pattern cannot go on after it. *)
Lemma rep_one_of_two {X} (p : N -> bool) (k : pystr -> option X) (d1 c : N) (s : pystr)
    (x : X) :
  p d1 = true -> k (c :: s) = Some x -> k s = None ->
  rep_match p 1 (Some 2) (d1 :: c :: s) k = Some x.
Proof.
  intros Hd1 Hk Hno. cbn [rep_match pred option_map may_take]. rewrite Hd1. cbn [andb].
  destruct (p c); cbn [andb]; [rewrite rep_zero, Hno, Hk|rewrite Hk]; reflexivity.
Qed.

Lemma rep_two_of_two {X} (p : N -> bool) (k : pystr -> option X) (d1 d2 : N) (s : pystr)
    (x : X) :
  p d1 = true -> p d2 = true -> k s = Some x ->
  rep_match p 1 (Some 2) (d1 :: d2 :: s) k = Some x.
Proof.
  intros Hd1 Hd2 Hk. cbn [rep_match pred option_map may_take]. rewrite Hd1, Hd2. cbn [andb].
  rewrite rep_zero, Hk. reflexivity.
Qed.

(** The pattern of the release date on a text of the expected form. *)
Lemma release_date_regex_reads w (dd : pystr) (ws1 : N) (name : pystr) (ws2 : N)
    (yyyy rest : pystr) :
  ascii_number dd = true -> length dd <= 2 -> isspace ws1 = true ->
  nonempty name = true -> forallb lower_az name = true -> isspace ws2 = true ->
  length yyyy = 4 -> forallb ascii_digit yyyy = true ->
  re_match (release_date_regex w) (dd ++ ws1 :: name ++ ws2 :: yyyy ++ rest)
  = Some [dd; name; yyyy].
Proof.
  intros Hdd Hld Hws1 Hnn Hname Hws2 Hly Hy.
  unfold re_match, re_match_rest, release_date_regex.
  cbn [rseq fold_right rmatch].
  set (s := dd ++ ws1 :: name ++ ws2 :: yyyy ++ rest).
  match goal with |- option_map fst (rep_match _ _ _ _ ?K) = _ => set (k1 := K) end.
  assert (Hk1 : k1 (ws1 :: name ++ ws2 :: yyyy ++ rest) = Some ([dd; name; yyyy], rest)).
  { subst k1 s. cbn beta iota. rewrite Hws1. unfold RPlus, RTimes. cbn [rmatch].
    rewrite (rep_plus_greedy (X:=list pystr * pystr) lower_az _ name (ws2 :: yyyy ++ rest)
               ([dd; name; yyyy], rest)); [reflexivity| |exact Hname| |].
    - destruct name; [discriminate Hnn|discriminate].
    - rewrite Hws2. rewrite <- Hly.
      rewrite (rep_times_eq (isdecimal w));
        [|clear -Hy; induction yyyy as [|c yyyy IH]; [reflexivity|]; cbn in *;
          apply andb_prop in Hy as [Hc Hy]; rewrite (isdecimal_ascii w c Hc); auto].
      rewrite (firstn_consumed dd), (firstn_consumed name), (firstn_consumed yyyy).
      reflexivity.
    - intros t u Heq Hnt Ht. destruct t as [|c t]; [congruence|].
      injection Heq as <- _. cbn in Ht. rewrite (space_not_lower_az _ Hws2) in Ht.
      discriminate Ht. }
  assert (Hk0 : k1 (name ++ ws2 :: yyyy ++ rest) = None).
  { subst k1. cbn beta iota. destruct name as [|n1 name]; [discriminate Hnn|].
    cbn in Hname. apply andb_prop in Hname as [Hn1 _].
    cbn [app]. rewrite (lower_az_not_space n1 Hn1). reflexivity. }
  clearbody k1. subst s.
  unfold ascii_number in Hdd. apply andb_prop in Hdd as [Hne Hdd].
  destruct dd as [|d1 [|d2 [|? ?]]]; [discriminate Hne| | |cbn in Hld; lia];
    cbn in Hdd; cbn [app].
  - apply andb_prop in Hdd as [Hd1 _].
    rewrite (rep_one_of_two _ k1 d1 ws1 _ _ (isdecimal_ascii w d1 Hd1) Hk1 Hk0). reflexivity.
  - apply andb_prop in Hdd as [Hd1 Hdd]. apply andb_prop in Hdd as [Hd2 _].
    rewrite (rep_two_of_two _ k1 d1 d2 _ _ (isdecimal_ascii w d1 Hd1)
               (isdecimal_ascii w d2 Hd2) Hk1).
    reflexivity.
Qed.

(** [strptime] on a date text with a day of one or two digits, a month as
    [str] writes it and a year of four digits. *)
Lemma strptime_dmY_plain w (dd : pystr) (m : Z) (yyyy : pystr) :
  ascii_number dd = true -> length dd <= 2 -> (1 <= m <= 12)%Z ->
  length yyyy = 4 -> forallb ascii_digit yyyy = true ->
  strptime_dmY w (dd ++ py "." ++ py_str_of_Z m ++ py "." ++ yyyy)
  = (let* d := make_date (digits_value yyyy) m (digits_value dd) in
     Ok (mkdatetime d 0 0 0 0))%res.
Proof.
  intros Hdd Hld Hm Hly Hy.
  assert (Hyd : forallb (isdecimal w) yyyy = true).
  { clear -Hy. induction yyyy as [|c yyyy IH]; [reflexivity|]. cbn in *.
    apply andb_prop in Hy as [Hc Hy]. rewrite (isdecimal_ascii w c Hc). auto. }
  assert (Hrest : forall caps,
            rmatch (RSeq strptime_month_group
                      (RSeq (RChar 46) (RSeq (RGroup (RTimes (isdecimal w) 4)) REmpty)))
              (py_str_of_Z m ++ 46%N :: yyyy) caps (fun rest caps' => Some (caps', rest))
            = Some (caps ++ [py_str_of_Z m; yyyy], [])).
  { intros caps. rewrite (proj1 (strptime_month m _ _ _ _ Hm)).
    rewrite (strptime_year w yyyy _ Hly Hyd). rewrite <- app_assoc. reflexivity. }
  unfold strptime_dmY, re_match_rest.
  rewrite strptime_regex_parts. change (py ".") with [46%N].
  pose proof Hdd as Hnum. unfold ascii_number in Hdd. apply andb_prop in Hdd as [Hne Hdd].
  destruct dd as [|d1 [|d2 [|? ?]]]; [discriminate Hne| | |cbn in Hld; lia];
    cbn in Hdd; cbn [app].
  - apply andb_prop in Hdd as [Hd1 _].
    rewrite (strptime_day1 w d1 _ _ _ _ Hd1).
    destruct (49 <=? d1)%N eqn:Hpos.
    + rewrite Hrest. cbn [app]. rewrite (py_int_str w m) by lia.
      rewrite (py_int_digits w yyyy Hy), (py_int_digits w [d1]); [reflexivity|].
      cbn. rewrite Hd1. reflexivity.
    + rewrite make_date_no_day; [reflexivity|exact Hm|].
      apply N.leb_gt in Hpos. apply ascii_digit_cases in Hd1.
      assert (d1 = 48%N) as -> by lia. reflexivity.
  - apply andb_prop in Hdd as [Hd1 Hdd]. apply andb_prop in Hdd as [Hd2 _].
    rewrite (strptime_day2 w d1 d2 _ _ _ _ Hd1 Hd2).
    assert (Hv : digits_value [d1; d2] = two_digits d1 d2)
      by (unfold digits_value, two_digits; cbn [fold_left]; lia).
    rewrite Hv.
    destruct ((1 <=? two_digits d1 d2) && (two_digits d1 d2 <=? 31))%Z eqn:Hday;
      [|rewrite (make_date_no_day _ m _ Hm Hday); reflexivity].
    rewrite Hrest. cbn [app]. rewrite (py_int_str w m) by lia.
    rewrite (py_int_digits w yyyy Hy), (py_int_two_digits w d1 d2 Hd1 Hd2). reflexivity.
Qed.

(** X19: the release date. When the text of the release date starts with
    one or two ASCII digits, a whitespace character, lowercase letters, a
    whitespace character and four ASCII digits, whatever follows, the
    extractor returns the date of that day, month and year, the month being
    the position of the letters in MONTHS_FULL plus 1; letters that are no
    entry of MONTHS_FULL, and a date that does not exist, are a
    [ValueError]. *)
Theorem get_movie_release_date_reads (w : World) (movie_page_doc : element)
    (dd : pystr) (ws1 : N) (name : pystr) (ws2 : N) (yyyy rest : pystr) :
  xpath_string movie_page_doc XReleaseDate = dd ++ ws1 :: name ++ ws2 :: yyyy ++ rest ->
  ascii_number dd = true -> length dd <= 2 -> isspace ws1 = true ->
  nonempty name = true -> forallb lower_az name = true -> isspace ws2 = true ->
  length yyyy = 4 -> forallb ascii_digit yyyy = true ->
  get_movie_release_date w movie_page_doc
  = match py_index name MONTHS_FULL with
    | Some i => make_date (digits_value yyyy) (i + 1) (digits_value dd)
    | None => Raise ValueError
    end.
Proof.
  intros Htext Hdd Hld Hws1 Hnn Hname Hws2 Hly Hy.
  unfold get_movie_release_date. rewrite Htext.
  rewrite (release_date_regex_reads w dd ws1 name ws2 yyyy rest Hdd Hld Hws1 Hnn Hname
             Hws2 Hly Hy).
  cbn [py_getitem nth_error res_bind]. unfold index_plus_1.
  destruct (py_index name MONTHS_FULL) as [i|] eqn:Hi; [|reflexivity].
  cbn [res_bind]. apply py_index_bounds in Hi. cbn [length MONTHS_FULL] in Hi.
  rewrite (strptime_dmY_plain w dd (i + 1) yyyy Hdd Hld) by (try assumption; lia).
  destruct (make_date _ _ _); reflexivity.
Qed.

Lemma get_movie_release_date_reads_witness :
  get_movie_release_date offline (release_date_page (py "7 mei 2015 (NL)"))
  = Ok (mkdate 2015 5 7)
  /\ get_movie_release_date offline (release_date_page (py "31 november 2015"))
     = Raise ValueError
  /\ get_movie_release_date offline (release_date_page (py "12 mrt 2015"))
     = Raise ValueError.
Proof.
  split; [|split].
  - apply (get_movie_release_date_reads offline _ (py "7") 32 (py "mei") 32 (py "2015")
             (py " (NL)")); try reflexivity; cbn; lia.
  - apply (get_movie_release_date_reads offline _ (py "31") 32 (py "november") 32 (py "2015")
             []); try reflexivity; cbn; lia.
  - apply (get_movie_release_date_reads offline _ (py "12") 32 (py "mrt") 32 (py "2015")
             []); try reflexivity; cbn; lia.
Defined.

(** ** Language *)

(** Splitting at a separator of two characters: the text before the
    separator's first character is the first piece. *)
Lemma split_pair_aux_first (a b : N) (l rest cur : pystr) :
  forallb (fun d => negb (a =? d)%N) l = true ->
  split_sep_aux [a; b] (l ++ a :: b :: rest) cur 0
  = (rev cur ++ l) :: split_sep_aux [a; b] rest [] 0.
Proof.
  revert cur. induction l as [|d l IH]; intros cur Hl.
  - cbn [app split_sep_aux starts_with length pred]. rewrite !N.eqb_refl. cbn [andb].
    rewrite app_nil_r. reflexivity.
  - cbn in Hl. apply andb_prop in Hl as [Hd Hl]. apply negb_true_iff in Hd.
    cbn [app split_sep_aux starts_with]. rewrite Hd. cbn [andb].
    rewrite (IH (d :: cur) Hl). cbn [rev]. rewrite <- app_assoc. reflexivity.
Qed.

Lemma split_pair_aux_none (a b : N) (l cur : pystr) :
  forallb (fun d => negb (a =? d)%N) l = true ->
  split_sep_aux [a; b] l cur 0 = [rev cur ++ l].
Proof.
  revert cur. induction l as [|d l IH]; intros cur Hl.
  - cbn. rewrite app_nil_r. reflexivity.
  - cbn in Hl. apply andb_prop in Hl as [Hd Hl]. apply negb_true_iff in Hd.
    cbn [split_sep_aux starts_with]. rewrite Hd. cbn [andb].
    rewrite (IH (d :: cur) Hl). cbn [rev]. rewrite <- app_assoc. reflexivity.
Qed.

Lemma io_bind_lift_ok {A B} (a : A) (k : A -> io B) : io_bind (io_lift (Ok a)) k = k a.
Proof. unfold io_bind, io_lift. destruct (k a) as [r t]. reflexivity. Qed.

Lemma py_strip_nonempty (s : pystr) : py_strip s <> [] -> nonempty s = true.
Proof. destruct s; [intros H; destruct H; reflexivity|reflexivity]. Qed.

(** X20: the language. The line is stripped of surrounding whitespace and
    split at ': ' (a colon and a space); the second piece, inner whitespace
    kept, goes to the translation adapter in one call and the adapter's
    result is returned. A non-empty line without ': ' is an [IndexError],
    raised before any call of the translation service. *)
Theorem get_movie_language_reads (w : World) (doc : element) :
  (forall label value tail,
     py_strip (xpath_string doc XTaalversie) = label ++ py ": " ++ value ++ tail ->
     colon_free label = true -> colon_free value = true -> colon_space_tail tail ->
     get_movie_language w doc
     = (let* language := nl_to_en w (PStr value) in io_ret (Some language))%io
     /\ snd (get_movie_language w doc) = [EvTranslate (PStr value)])
  /\ (nonempty (xpath_string doc XTaalversie) = true ->
      py_contains (py ": ") (py_strip (xpath_string doc XTaalversie)) = false ->
      get_movie_language w doc = (Raise IndexError, [])).
Proof.
  split.
  - intros label value tail Htext Hl Hv Ht.
    assert (Hget : get_movie_language w doc
                   = (let* language := nl_to_en w (PStr value) in io_ret (Some language))%io).
    { unfold get_movie_language.
      rewrite py_strip_nonempty by (rewrite Htext; destruct label; discriminate).
      rewrite Htext. unfold py_split. change (py ": ") with [58%N; 32%N]. cbn [app].
      rewrite split_pair_aux_first by exact Hl.
      destruct Ht as [->|[more ->]].
      - rewrite app_nil_r, split_pair_aux_none by exact Hv.
        cbn [rev app py_getitem nth_error]. rewrite io_bind_lift_ok. reflexivity.
      - change (py ": ") with [58%N; 32%N]. cbn [app].
        rewrite split_pair_aux_first by exact Hv.
        cbn [rev app py_getitem nth_error]. rewrite io_bind_lift_ok. reflexivity. }
    split; [exact Hget|]. rewrite Hget. unfold io_bind, io_ret.
    pose proof (nl_to_en_events w (PStr value)) as Hev.
    destruct (nl_to_en w (PStr value)) as [[language|e] evs]; cbn [snd] in *;
      [rewrite app_nil_r|]; exact Hev.
  - intros Hne Hno. unfold get_movie_language. rewrite Hne. unfold py_split.
    rewrite split_sep_aux_absent by exact Hno. reflexivity.
Qed.

Lemma get_movie_language_reads_witness :
  get_movie_language offline (language_page (py " Taalversie: Engels gesproken "))
  = (let* language := nl_to_en offline (PStr (py "Engels gesproken")) in
     io_ret (Some language))%io
  /\ snd (get_movie_language offline (language_page (py " Taalversie: Engels gesproken ")))
     = [EvTranslate (PStr (py "Engels gesproken"))]
  /\ get_movie_language offline (language_page (py "Taalversie:Engels"))
     = (Raise IndexError, []).
Proof.
  pose proof (get_movie_language_reads offline
                (language_page (py " Taalversie: Engels gesproken "))) as [Hreads _].
  pose proof (get_movie_language_reads offline (language_page (py "Taalversie:Engels")))
    as [_ Hnone].
  destruct (Hreads (py "Taalversie") (py "Engels gesproken") []
              eq_refl eq_refl eq_refl (or_introl eq_refl)) as [H1 H2].
  split; [exact H1|]. split; [exact H2|]. exact (Hnone eq_refl eq_refl).
Defined.

(** ** Showtimes: what the loops keep and what they skip *)

Section ShowtimeLoops.

Variable w : World.
Variable g : globals.
Variable datetime_to_utc : datetime -> res datetime.
Variable clock : nat -> datetime.

Lemma io_bind_ok {A B} (m : io A) (k : A -> io B) (b : B) (evs : list event) :
  io_bind m k = (Ok b, evs) ->
  exists a e1 e2, m = (Ok a, e1) /\ k a = (Ok b, e2) /\ evs = e1 ++ e2.
Proof.
  unfold io_bind. destruct m as [[a|e] e1]; [|discriminate].
  destruct (k a) as [r e2] eqn:Hk. intros [= -> <-]. eauto 6.
Qed.

Lemma technology_choice (items : list pystr) (item1 technology : pystr) :
  py_getitem items 1 = Ok item1 ->
  py_getitem (if negb (py_in item1 PATHE_TECHNOLOGIES) then <[1%nat := py "2D"]> items
              else items) 1 = Ok technology ->
  In technology SHOWTIME_TECHNOLOGIES.
Proof.
  intros H1 Ht. destruct items as [|a [|b items]]; try discriminate H1.
  injection H1 as ->.
  destruct (py_in item1 PATHE_TECHNOLOGIES) eqn:Hin; cbn [negb] in Ht;
    injection Ht as <-.
  - unfold py_in in Hin. apply existsb_exists in Hin as (t & Hin & Heq).
    unfold pystr_eqb in Heq. apply bool_decide_eq_true in Heq. subst t.
    right. exact Hin.
  - left. reflexivity.
Qed.

(** The technology of a showtime is the second text of its link when this
    names a technology, and 2D otherwise. *)
Lemma showtime_of_link_technology (showtime_date : pydate) (showtime : showtime_link)
    (item : showtime_tuple) (evs : list event) :
  showtime_of_link w datetime_to_utc showtime_date showtime = (Ok item, evs) ->
  In (technology_of item) SHOWTIME_TECHNOLOGIES.
Proof.
  unfold showtime_of_link. intros H.
  apply io_bind_ok in H as (showtime_id & e1 & e2 & _ & H & _).
  apply io_bind_ok in H as (item1 & e3 & e4 & H1 & H & _).
  apply io_bind_ok in H as (item0 & e5 & e6 & _ & H & _).
  destruct (re_match _ item0) as [groups|]; [|discriminate].
  apply io_bind_ok in H as (extra & e7 & e8 & _ & H & _).
  apply io_bind_ok in H as (u & e9 & e10 & _ & H & _).
  apply io_bind_ok in H as (hhmm & e11 & e12 & _ & H & _).
  apply io_bind_ok in H as (showtime_time & e13 & e14 & _ & H & _).
  apply io_bind_ok in H as (showtime_datetime & e15 & e16 & _ & H & _).
  apply io_bind_ok in H as (technology & e17 & e18 & Ht & H & _).
  injection H as <- _. unfold technology_of. cbn [snd].
  unfold io_lift in H1, Ht.
  apply (f_equal fst) in H1, Ht. cbn [fst] in H1, Ht.
  exact (technology_choice _ _ _ H1 Ht).
Qed.

Lemma showtimes_loop_technologies (showtime_date : pydate) (showtimes : list showtime_link)
    (acc result : list showtime_tuple) (evs : list event) :
  showtimes_loop w datetime_to_utc showtime_date showtimes acc = (Ok result, evs) ->
  Forall (fun s => In (technology_of s) SHOWTIME_TECHNOLOGIES) acc ->
  Forall (fun s => In (technology_of s) SHOWTIME_TECHNOLOGIES) result.
Proof.
  revert acc evs. induction showtimes as [|showtime rest IH]; intros acc evs H Hacc.
  - injection H as <- _. exact Hacc.
  - cbn [showtimes_loop] in H. destruct (pystr_eqb _ _); [exact (IH _ _ H Hacc)|].
    apply io_bind_ok in H as (item & e1 & e2 & Hitem & H & _).
    apply (IH _ _ H). apply Forall_app. split; [exact Hacc|].
    constructor; [|constructor]. exact (showtime_of_link_technology _ _ _ _ Hitem).
Qed.

Lemma showtime_days_loop_technologies (showtime_days : list showtime_row) (n : nat)
    (acc result : list showtime_tuple) (evs : list event) :
  showtime_days_loop w g datetime_to_utc clock showtime_days n acc = (Ok result, evs) ->
  Forall (fun s => In (technology_of s) SHOWTIME_TECHNOLOGIES) acc ->
  Forall (fun s => In (technology_of s) SHOWTIME_TECHNOLOGIES) result.
Proof.
  revert n acc evs. induction showtime_days as [|row rest IH]; intros n acc evs H Hacc.
  - injection H as <- _. exact Hacc.
  - cbn [showtime_days_loop] in H. destruct (1 <? _)%nat; [exact (IH _ _ _ H Hacc)|].
    apply io_bind_ok in H as (day_name & e1 & e2 & _ & H & _).
    apply io_bind_ok in H as (showtime_date & e3 & e4 & _ & H & _).
    apply io_bind_ok in H as (acc' & e5 & e6 & Hrow & H & _).
    apply (IH _ _ _ H). exact (showtimes_loop_technologies _ _ _ _ _ Hrow Hacc).
Qed.

(** Links that are sold out and rows with more than one header text have
    no effect. *)
Lemma showtimes_loop_bookable (showtime_date : pydate) (showtimes : list showtime_link)
    (acc : list showtime_tuple) :
  showtimes_loop w datetime_to_utc showtime_date showtimes acc
  = showtimes_loop w datetime_to_utc showtime_date
      (List.filter (fun l => negb (sold_out l)) showtimes) acc.
Proof.
  revert acc. induction showtimes as [|showtime rest IH]; intros acc; [reflexivity|].
  cbn [showtimes_loop List.filter]. unfold sold_out at 1.
  destruct (pystr_eqb (link_href showtime) _) eqn:Hsold; cbn [negb]; [apply IH|].
  cbn [showtimes_loop]. rewrite Hsold.
  destruct (showtime_of_link _ _ _ _) as [[item|e] evs]; cbn [io_bind]; [|reflexivity].
  rewrite IH. reflexivity.
Qed.

Lemma showtime_days_loop_bookable (showtime_days : list showtime_row) (n : nat)
    (acc : list showtime_tuple) :
  showtime_days_loop w g datetime_to_utc clock showtime_days n acc
  = showtime_days_loop w g datetime_to_utc clock (bookable_rows showtime_days) n acc.
Proof.
  revert n acc. induction showtime_days as [|row rest IH]; intros n acc; [reflexivity|].
  unfold bookable_rows. cbn [showtime_days_loop List.filter]. unfold day_row at 1.
  destruct (1 <? length (row_th_texts row))%nat eqn:Hth; cbn [negb]; [apply IH|].
  cbn [map showtime_days_loop bookable row_th_texts row_links]. rewrite Hth.
  destruct (io_lift (py_getitem (row_th_texts row) 0)) as [[day_name|e] e1];
    cbn [io_bind]; [|reflexivity].
  destruct (io_lift (fst (normalize_date_at w g clock n day_name))) as [[d|e] e2];
    cbn [io_bind]; [|reflexivity].
  rewrite <- showtimes_loop_bookable.
  destruct (showtimes_loop _ _ _ _ _) as [[acc'|e] e3]; cbn [io_bind]; [|reflexivity].
  rewrite IH. reflexivity.
Qed.

End ShowtimeLoops.

(** X21: the technology of every showtime returned is one of 2D, 3D, IMAX
    and IMAX3D, whatever the page says. *)
Theorem showtime_technologies (w : World) (g : globals)
    (datetime_to_utc : datetime -> res datetime) (clock : nat -> datetime)
    (movie_page_doc : schedule_doc) (cinema : pystr)
    (showtimes : list showtime_tuple) (evs : list event) :
  get_movie_showtimes_for_cinema w g datetime_to_utc clock movie_page_doc cinema
  = (Ok showtimes, evs) ->
  Forall (fun s => In (technology_of s) SHOWTIME_TECHNOLOGIES) showtimes.
Proof.
  unfold get_movie_showtimes_for_cinema. intros H.
  apply io_bind_ok in H as (rows & e1 & e2 & _ & H & _).
  exact (showtime_days_loop_technologies w g datetime_to_utc clock rows 0 [] _ _ H
           (List.Forall_nil _)).
Qed.

Lemma showtime_technologies_witness :
  get_movie_showtimes_for_cinema offline june_10 no_shift (fun _ => noon_june_10)
    arena_doc (py "arena")
  = (Ok arena_showtimes, [])
  /\ Forall (fun s => In (technology_of s) SHOWTIME_TECHNOLOGIES) arena_showtimes.
Proof.
  assert (H : get_movie_showtimes_for_cinema offline june_10 no_shift
                (fun _ => noon_june_10) arena_doc (py "arena")
              = (Ok arena_showtimes, [])) by (vm_compute; reflexivity).
  split; [exact H|].
  exact (showtime_technologies offline june_10 no_shift (fun _ => noon_june_10)
           arena_doc (py "arena") arena_showtimes [] H).
Defined.

(** X22: links that are sold out and rows with more than one header text
    have no effect: the result and the lines printed are those for the
    page without them; such a link is not even looked at. *)
Theorem skipped_rows_and_links (w : World) (g : globals)
    (datetime_to_utc : datetime -> res datetime) (clock : nat -> datetime)
    (movie_page_doc : schedule_doc) (cinema : pystr) :
  get_movie_showtimes_for_cinema w g datetime_to_utc clock movie_page_doc cinema
  = get_movie_showtimes_for_cinema w g datetime_to_utc clock (bookable_doc movie_page_doc)
      cinema.
Proof.
  unfold get_movie_showtimes_for_cinema, bookable_doc. cbn [xpath_rows].
  destruct (xpath_rows movie_page_doc _) as [rows|e]; [|reflexivity].
  unfold io_lift. cbn [io_bind]. rewrite showtime_days_loop_bookable. reflexivity.
Qed.

(** Where the showtimes come from. *)
Section ShowtimeSources.

Variable w : World.
Variable g : globals.
Variable datetime_to_utc : datetime -> res datetime.
Variable clock : nat -> datetime.

Lemma showtimes_loop_sources (n : nat) (label : pystr) (showtime_date : pydate)
    (showtimes : list showtime_link) (acc result : list showtime_tuple)
    (evs : list event) :
  fst (normalize_date_at w g clock n label) = Ok showtime_date ->
  showtimes_loop w datetime_to_utc showtime_date showtimes acc = (Ok result, evs) ->
  exists items,
    result = acc ++ items
    /\ Forall2 (showtime_from w g datetime_to_utc clock)
         (map (fun l => (label, l)) (List.filter (fun l => negb (sold_out l)) showtimes))
         items.
Proof.
  intros Hdate. revert acc evs.
  induction showtimes as [|showtime rest IH]; intros acc evs H.
  - injection H as <- _. exists []. rewrite app_nil_r. split; [reflexivity|constructor].
  - cbn [showtimes_loop List.filter] in *. unfold sold_out at 1.
    destruct (pystr_eqb (link_href showtime) _); cbn [negb]; [exact (IH _ _ H)|].
    apply io_bind_ok in H as (item & e1 & e2 & Hitem & H & _).
    destruct (IH _ _ H) as (items & -> & Hall).
    exists (item :: items). rewrite <- app_assoc. split; [reflexivity|].
    cbn [map]. constructor; [|exact Hall].
    exists n, showtime_date, e1. split; [exact Hdate|exact Hitem].
Qed.

Lemma showtime_days_loop_sources (showtime_days : list showtime_row) (n : nat)
    (acc result : list showtime_tuple) (evs : list event) :
  showtime_days_loop w g datetime_to_utc clock showtime_days n acc = (Ok result, evs) ->
  exists items,
    result = acc ++ items /\ Forall2 (showtime_from w g datetime_to_utc clock) (labelled_links showtime_days) items.
Proof.
  revert n acc evs. induction showtime_days as [|row rest IH]; intros n acc evs H.
  - injection H as <- _. exists []. rewrite app_nil_r. split; [reflexivity|constructor].
  - unfold labelled_links, bookable_rows in *. cbn [showtime_days_loop List.filter] in *.
    unfold day_row at 1.
    destruct (1 <? length (row_th_texts row))%nat; cbn [negb]; [exact (IH _ _ _ H)|].
    apply io_bind_ok in H as (day_name & e1 & e2 & Hname & H & _).
    apply io_bind_ok in H as (showtime_date & e3 & e4 & Hdate & H & _).
    apply io_bind_ok in H as (acc' & e5 & e6 & Hrow & H & _).
    unfold io_lift in Hname, Hdate.
    apply (f_equal fst) in Hname, Hdate. cbn [fst] in Hname, Hdate.
    assert (Hhd : List.hd [] (row_th_texts row) = day_name).
    { destruct (row_th_texts row); [discriminate Hname|]. cbn in Hname.
      injection Hname as ->. reflexivity. }
    destruct (showtimes_loop_sources n day_name showtime_date _ _ _ _ Hdate Hrow)
      as (items1 & -> & Hall1).
    destruct (IH _ _ _ H) as (items2 & -> & Hall2).
    exists (items1 ++ items2). rewrite <- app_assoc. split; [reflexivity|].
    cbn [map flat_map bookable row_th_texts row_links]. rewrite Hhd.
    apply Forall2_app; assumption.
Qed.

End ShowtimeSources.

(** X23: when the parser returns, its list has one showtime for every
    link that is not sold out of every row with no more than one header
    text, in page order; each is the showtime of that link with the date
    its own row's header text is normalized to. *)
Theorem showtimes_in_page_order (w : World) (g : globals)
    (datetime_to_utc : datetime -> res datetime) (clock : nat -> datetime)
    (movie_page_doc : schedule_doc) (cinema : pystr) (rows : list showtime_row)
    (showtimes : list showtime_tuple) (evs : list event) :
  xpath_rows movie_page_doc (schedule_rows_query cinema) = Ok rows ->
  get_movie_showtimes_for_cinema w g datetime_to_utc clock movie_page_doc cinema
  = (Ok showtimes, evs) ->
  Forall2 (showtime_from w g datetime_to_utc clock) (labelled_links rows) showtimes
  /\ length showtimes = length (labelled_links rows).
Proof.
  unfold get_movie_showtimes_for_cinema. intros Hrows H. rewrite Hrows in H.
  unfold io_lift in H. cbn [io_bind] in H.
  destruct (showtime_days_loop w g datetime_to_utc clock rows 0 []) as [r e] eqn:Hloop.
  injection H as -> _.
  destruct (showtime_days_loop_sources w g datetime_to_utc clock rows 0 [] _ _ Hloop)
    as (items & -> & Hall).
  cbn [app]. split; [exact Hall|]. symmetry. exact (Forall2_length _ _ _ Hall).
Qed.

Lemma showtimes_in_page_order_witness :
  xpath_rows arena_doc (schedule_rows_query (py "arena")) = Ok arena_rows
  /\ map (fun ll => (fst ll, link_href (snd ll))) (labelled_links arena_rows)
     = [(py "vandaag", py "/tickets/start/123"); (py "vandaag", popup_href);
        (py "woensdag 27 mei", py "/tickets/start/9")]
  /\ Forall2 (showtime_from offline june_10 no_shift (fun _ => noon_june_10))
       (labelled_links arena_rows) arena_showtimes
  /\ length arena_showtimes = length (labelled_links arena_rows).
Proof.
  split; [reflexivity|]. split; [reflexivity|].
  apply (showtimes_in_page_order offline june_10 no_shift (fun _ => noon_june_10)
           arena_doc (py "arena") arena_rows arena_showtimes []).
  - reflexivity.
  - vm_compute. reflexivity.
Defined.

(** ** Showtimes: the addresses and the times *)

Lemma py_contains_split (sub s t u : pystr) :
  py_contains sub s = false -> s = t ++ u -> starts_with sub u = false.
Proof.
  revert s. induction t as [|c t IH]; intros s H ->.
  - cbn [app] in H. destruct u; cbn [py_contains] in H;
      apply orb_false_elim in H as [H _]; exact H.
  - cbn [app py_contains] in H. apply orb_false_elim in H as [_ H].
    exact (IH _ H eq_refl).
Qed.

(** Characters other than the first of [sub] can be dropped from the front
    of the string searched. *)
Lemma py_contains_skip (c0 : N) (sub l s : pystr) :
  forallb (fun c => negb (c0 =? c)%N) l = true ->
  py_contains (c0 :: sub) (l ++ s) = py_contains (c0 :: sub) s.
Proof.
  induction l as [|c l IH]; intros H; [reflexivity|].
  cbn in H. apply andb_prop in H as [Hc H]. apply negb_true_iff in Hc.
  cbn [app py_contains starts_with]. rewrite Hc. cbn [andb orb]. exact (IH H).
Qed.

Lemma digits_without (c0 : N) (digits : pystr) :
  ascii_digit c0 = false -> forallb ascii_digit digits = true ->
  forallb (fun c => negb (c0 =? c)%N) digits = true.
Proof.
  intros H0 H. induction digits as [|c digits IH]; [reflexivity|].
  cbn in *. apply andb_prop in H as [Hc H]. rewrite (IH H), andb_true_r.
  apply negb_true_iff. destruct (N.eqb_spec c0 c) as [->|]; [congruence|reflexivity].
Qed.

Lemma digits_decimal w (digits : pystr) :
  forallb ascii_digit digits = true -> forallb (isdecimal w) digits = true.
Proof.
  induction digits as [|c digits IH]; [reflexivity|]. cbn. intros H.
  apply andb_prop in H as [Hc H]. rewrite (isdecimal_ascii w c Hc). auto.
Qed.

(** An optional character that is there is taken when the rest of the
    pattern can go on after it. *)
Lemma rep_optional_taken {X} (p : N -> bool) (k : pystr -> option X) (c : N) (s : pystr)
    (x : X) :
  p c = true -> k s = Some x -> rep_match p 0 (Some 1) (c :: s) k = Some x.
Proof.
  intros Hc Hk. cbn [rep_match pred option_map may_take]. rewrite Hc. cbn [andb].
  rewrite rep_zero, Hk. reflexivity.
Qed.

(** A repetition without upper bound takes a whole string of its
    class. *)
Lemma rep_all {X} (p : N -> bool) (k : pystr -> option X) (lo : nat) (s : pystr) (x : X) :
  lo <= 1 -> (lo = 1 -> s <> []) -> forallb p s = true -> k [] = Some x ->
  rep_match p lo None s k = Some x.
Proof.
  intros Hlo Hne Hp Hk.
  assert (Hno : forall t u : pystr, [] = t ++ u -> t <> [] -> forallb p t = true -> k u = None).
  { intros t u Heq Hnt _. destruct t; [congruence|discriminate Heq]. }
  destruct lo as [|[|lo]]; [| |lia].
  - rewrite <- (app_nil_r s). exact (rep_star_greedy p k s [] x Hp Hk Hno).
  - rewrite <- (app_nil_r s). exact (rep_plus_greedy p k s [] x (Hne eq_refl) Hp Hk Hno).
Qed.

Lemma tickets_regex_reads w (digits : pystr) :
  ascii_number digits = true -> re_match (tickets_regex w) (tickets_link digits) = Some [digits].
Proof.
  intros Hd. destruct (ascii_number_decimal w digits Hd) as [Hne Hdec].
  unfold re_match, re_match_rest, tickets_regex, tickets_link.
  cbn [rseq fold_right rmatch]. unfold RLit at 1.
  rewrite rmatch_literal, starts_with_app, skipn_app_length.
  unfold RPlus. cbn [rmatch].
  rewrite (rep_all (X:=list pystr * pystr) (isdecimal w) _ 1 digits ([digits], []));
    [reflexivity|lia|intros _; exact Hne|exact Hdec|].
  cbn [length]. rewrite Nat.sub_0_r, firstn_all. reflexivity.
Qed.

Lemma tickets_regex_other w (href : pystr) :
  starts_with (py "/tickets/start/") href = false -> re_match (tickets_regex w) href = None.
Proof.
  intros H. unfold re_match, re_match_rest, tickets_regex.
  cbn [rseq fold_right rmatch]. unfold RLit at 1. rewrite rmatch_literal, H. reflexivity.
Qed.

Lemma tickets_link_no_popup (digits : pystr) :
  forallb ascii_digit digits = true ->
  py_contains (py "javascript:openPopup") (tickets_link digits) = false.
Proof.
  intros Hd. unfold tickets_link.
  change (py "javascript:openPopup") with (106%N :: py "avascript:openPopup").
  rewrite <- (app_nil_r (py "/tickets/start/" ++ digits)).
  rewrite py_contains_skip; [reflexivity|].
  rewrite forallb_app. rewrite (digits_without 106 digits eq_refl Hd). reflexivity.
Qed.

Lemma starts_with_short (l s : pystr) : length s < length l -> starts_with l s = false.
Proof.
  revert s. induction l as [|a l IH]; intros s H; [cbn in H; lia|].
  destruct s as [|b s]; [reflexivity|]. cbn [starts_with length] in *.
  rewrite IH by lia. apply andb_false_r.
Qed.

Lemma popup_link_parts (a digits b : pystr) :
  popup_link a digits b
  = py "javascript:openPopup('https://onlinetickets" ++ 46%N :: py "pathe" ++ 46%N
    :: py "nl/ticketweb" ++ 46%N :: py "ph" ++ 112%N :: a ++ py "&ShowID=" ++ digits
    ++ 38%N :: b ++ py "')".
Proof. reflexivity. Qed.

Lemma popup_link_popup (a digits b : pystr) :
  py_contains (py "javascript:openPopup") (popup_link a digits b) = true.
Proof.
  change (popup_link a digits b)
    with (py "javascript:openPopup"
          ++ (py "('https://onlinetickets.pathe.nl/ticketweb.php"
              ++ a ++ py "&ShowID=" ++ digits ++ py "&" ++ b ++ py "')")).
  set (rest := py "('https://onlinetickets.pathe.nl/ticketweb.php" ++ _).
  change (py "javascript:openPopup") with (106%N :: py "avascript:openPopup").
  cbn [app py_contains]. apply orb_true_iff. left.
  exact (starts_with_app (106%N :: py "avascript:openPopup") rest).
Qed.

Lemma popup_regex_reads w (a digits b : pystr) :
  ascii_number digits = true -> single_line a = true -> single_line b = true ->
  py_contains (py "&ShowID=") (py "&" ++ b ++ py "')") = false ->
  re_match (popup_regex w) (popup_link a digits b) = Some [digits].
Proof.
  intros Hd Ha Hb Hlast. destruct (ascii_number_decimal w digits Hd) as [Hne Hdec].
  unfold ascii_number in Hd. apply andb_prop in Hd as [_ Hd].
  rewrite popup_link_parts.
  unfold re_match, re_match_rest, popup_regex. cbn [rseq fold_right].
  repeat (cbn [rmatch]; unfold RLit at 1;
          rewrite rmatch_literal, starts_with_app, skipn_app_length;
          cbn [rmatch]; change (dot 46) with true; cbv iota).
  set (x := ([digits], []) : list pystr * pystr).
  rewrite (rep_optional_taken (X:=list pystr * pystr) (N.eqb 112) _ 112 _ x);
    [reflexivity|reflexivity|].
  unfold RStar. cbn [rmatch].
  apply (rep_star_greedy (X:=list pystr * pystr) dot _ a); [exact Ha| |].
  - unfold RLit at 1. rewrite rmatch_literal, starts_with_app, skipn_app_length.
    unfold RPlus. cbn [rmatch].
    rewrite (rep_plus_greedy (X:=list pystr * pystr) (isdecimal w) _ digits
               (38%N :: b ++ py "')") x); [reflexivity|exact Hne|exact Hdec| |].
    + change (38 =? 38)%N with true. cbv iota.
      apply (rep_star_greedy (X:=list pystr * pystr) dot _ b); [exact Hb| |].
      * unfold RLit. rewrite rmatch_literal. rewrite firstn_consumed. reflexivity.
      * intros t u Heq Hnt _. unfold RLit. rewrite rmatch_literal.
        rewrite starts_with_short; [reflexivity|].
        apply (f_equal (@length N)) in Heq. rewrite length_app in Heq.
        destruct t; [congruence|]. cbn [length] in *. change (length (py "')")) with 2 in *.
        lia.
    + intros t u Heq Hnt Ht. destruct t as [|c t]; [congruence|].
      injection Heq as <- _. discriminate Ht.
  - intros t u Heq Hnt _. unfold RLit at 1. rewrite rmatch_literal.
    destruct t as [|c t]; [congruence|].
    change (py "&ShowID=") with (38%N :: py "ShowID=") in Heq. injection Heq as _ Heq.
    assert (Hnone : py_contains (py "&ShowID=")
                      (py "ShowID=" ++ digits ++ 38%N :: b ++ py "')") = false).
    { change (py "&ShowID=") with (38%N :: py "ShowID=").
      rewrite py_contains_skip by reflexivity.
      rewrite py_contains_skip by (apply digits_without; [reflexivity|exact Hd]).
      exact Hlast. }
    rewrite (py_contains_split _ _ t u Hnone Heq). reflexivity.
Qed.

Lemma strptime_HM_regex_parts w :
  strptime_HM_regex w
  = RSeq (strptime_hour_group w)
      (RSeq (RChar 58) (RSeq (strptime_minute_group w) REmpty)).
Proof. reflexivity. Qed.

(** The hour of a time text: two ASCII digits up to 23. *)
Lemma strptime_hour {X} w (h1 h2 : N) (r : regex) (s : pystr) (caps : list pystr)
    (k : pystr -> list pystr -> option X) :
  ascii_digit h1 = true -> ascii_digit h2 = true ->
  rmatch (RSeq (strptime_hour_group w) (RSeq (RChar 58) r)) (h1 :: h2 :: 58%N :: s) caps k
  = if (two_digits h1 h2 <=? 23)%Z then rmatch r s (caps ++ [[h1; h2]]) k else None.
Proof.
  intros H1 H2. digit_cases H1; digit_cases H2;
    cbn; rewrite ?sub_succ2, ?sub_succ1; cbn [firstn];
    try reflexivity; destruct (rmatch r s _ k); reflexivity.
Qed.

(** The minute of a time text: of two ASCII digits above 59 the first alone
    is read. *)
Lemma strptime_minute w (m1 m2 : N) (caps : list pystr) :
  ascii_digit m1 = true -> ascii_digit m2 = true ->
  rmatch (RSeq (strptime_minute_group w) REmpty) [m1; m2] caps
    (fun rest caps' => Some (caps', rest))
  = if (two_digits m1 m2 <=? 59)%Z then Some (caps ++ [[m1; m2]], [])
    else Some (caps ++ [[m1]], [m2]).
Proof. intros H1 H2. digit_cases H1; digit_cases H2; reflexivity. Qed.

(** [strptime] on the text of a time. *)
Lemma strptime_HM_time w (h1 h2 m1 m2 : N) :
  ascii_digit h1 = true -> ascii_digit h2 = true ->
  ascii_digit m1 = true -> ascii_digit m2 = true ->
  strptime_HM w (time_text h1 h2 m1 m2)
  = if ((two_digits h1 h2 <=? 23) && (two_digits m1 m2 <=? 59))%Z
    then Ok (two_digits h1 h2, two_digits m1 m2)
    else Raise ValueError.
Proof.
  intros Hh1 Hh2 Hm1 Hm2. unfold strptime_HM, re_match_rest, time_text.
  rewrite strptime_HM_regex_parts, (strptime_hour w h1 h2 _ _ _ _ Hh1 Hh2).
  destruct (two_digits h1 h2 <=? 23)%Z; cbn [andb]; [|reflexivity].
  rewrite (strptime_minute w m1 m2 _ Hm1 Hm2).
  destruct (two_digits m1 m2 <=? 59)%Z; [|reflexivity].
  cbn [app]. rewrite (py_int_two_digits w h1 h2 Hh1 Hh2), (py_int_two_digits w m1 m2 Hm1 Hm2).
  reflexivity.
Qed.

Lemma rep_two_exact {X} (p : N -> bool) (k : pystr -> option X) (a b : N) (s : pystr) :
  p a = true -> p b = true -> rep_match p 2 (Some 2) (a :: b :: s) k = k s.
Proof.
  intros Ha Hb. apply (rep_times_eq p k [a; b] s). cbn. rewrite Ha, Hb. reflexivity.
Qed.

(** The pattern of a showtime's first text: the time and what follows it
    on the line. *)
Lemma showtime_time_regex_reads w (h1 h2 m1 m2 : N) (extra : pystr) :
  ascii_digit h1 = true -> ascii_digit h2 = true ->
  ascii_digit m1 = true -> ascii_digit m2 = true -> single_line extra = true ->
  re_match (showtime_time_regex w) (time_text h1 h2 m1 m2 ++ extra)
  = Some [time_text h1 h2 m1 m2; extra].
Proof.
  intros Hh1 Hh2 Hm1 Hm2 Hx.
  unfold re_match, re_match_rest, showtime_time_regex, time_text, RTimes, RStar, RChar.
  cbn [rseq fold_right rmatch app].
  rewrite rep_two_exact by (apply isdecimal_ascii; assumption).
  change (58 =? 58)%N with true. cbv iota.
  rewrite rep_two_exact by (apply isdecimal_ascii; assumption).
  rewrite (rep_all (X:=list pystr * pystr) dot _ 0 extra
             ([[h1; h2; 58%N; m1; m2]; extra], [])); [reflexivity|lia|lia|exact Hx|].
  cbn [length]. rewrite Nat.sub_0_r, firstn_all.
  replace (S (S (S (S (S (length extra))))) - length extra) with 5 by lia.
  reflexivity.
Qed.

Lemma squeeze_single_line (s a b : pystr) : squeeze s = a ++ b -> single_line b = true.
Proof.
  intros H.
  assert (Hall : forallb (fun c => negb (isspace c)) (a ++ b) = true).
  { rewrite <- H, squeeze_filter. clear H. induction s as [|c s IH]; [reflexivity|].
    cbn [List.filter]. destruct (isspace c) eqn:Hc; cbn [negb]; [exact IH|].
    cbn [forallb]. rewrite Hc, IH. reflexivity. }
  rewrite forallb_app in Hall. apply andb_prop in Hall as [_ Hall].
  unfold single_line. clear H. induction b as [|c b IH]; [reflexivity|].
  cbn [forallb] in *. apply andb_prop in Hall as [Hc Hall]. rewrite (IH Hall), andb_true_r.
  unfold dot. destruct (N.eqb_spec c NEWLINE) as [->|]; [discriminate Hc|reflexivity].
Qed.

(** The id of an address of one of the two forms. *)
Lemma showtime_address_id w (href digits : pystr) :
  showtime_address href digits ->
  (if py_contains (py "javascript:openPopup") href
   then match_group_1 (popup_regex w) href
   else match_group_1 (tickets_regex w) href) = Ok digits.
Proof.
  intros [Hnum [-> | (a & b & -> & Ha & Hb & Hlast)]].
  - rewrite tickets_link_no_popup
      by (unfold ascii_number in Hnum; apply andb_prop in Hnum as [_ H]; exact H).
    unfold match_group_1. rewrite (tickets_regex_reads w digits Hnum). reflexivity.
  - rewrite popup_link_popup. unfold match_group_1.
    rewrite (popup_regex_reads w a digits b Hnum Ha Hb Hlast). reflexivity.
Qed.

(** The texts of a link after the squeeze, with 2D added or put in the
    place of a second text that names no technology. *)
Lemma showtime_items_technology (first : pystr) (more : list pystr) :
  let items := map squeeze (first :: more) in
  let items := if (length items <? 2)%nat then items ++ [py "2D"] else items in
  exists item1,
    py_getitem items 1 = Ok item1
    /\ py_getitem (if negb (py_in item1 PATHE_TECHNOLOGIES) then <[1%nat := py "2D"]> items
                   else items) 0 = Ok (squeeze first)
    /\ py_getitem (if negb (py_in item1 PATHE_TECHNOLOGIES) then <[1%nat := py "2D"]> items
                   else items) 1 = Ok (technology_for more).
Proof.
  destruct more as [|t more]; cbn [map length Nat.ltb Nat.leb app].
  - exists (py "2D"). repeat split; reflexivity.
  - exists (squeeze t). split; [reflexivity|]. cbn [technology_for].
    destruct (py_in (squeeze t) PATHE_TECHNOLOGIES); split; reflexivity.
Qed.

(** X24: the showtime of a link on sale. When the address has one of the
    two forms and the first text of the link, white space removed, starts
    with a time of two ASCII digits, a colon and two ASCII digits, the id is
    the number in the address, the technology is the second text (white
    space removed) when this is 3D, IMAX or IMAX3D and 2D otherwise, and
    the moment is the conversion of the row's date at that time; a time
    after 23:59 is a [ValueError]. Text after the time is reported on the
    standard output and otherwise ignored. *)
Theorem showtime_of_link_reads (w : World) (datetime_to_utc : datetime -> res datetime)
    (showtime_date : pydate) (showtime : showtime_link) (digits first : pystr)
    (more : list pystr) (h1 h2 m1 m2 : N) (extra : pystr) :
  showtime_address (link_href showtime) digits ->
  link_span_texts showtime = first :: more ->
  squeeze first = time_text h1 h2 m1 m2 ++ extra ->
  ascii_digit h1 = true -> ascii_digit h2 = true ->
  ascii_digit m1 = true -> ascii_digit m2 = true ->
  showtime_of_link w datetime_to_utc showtime_date showtime
  = (if ((two_digits h1 h2 <=? 23) && (two_digits m1 m2 <=? 59))%Z
     then
       (let* moment :=
          datetime_to_utc (mkdatetime (date_of showtime_date) (two_digits h1 h2)
                             (two_digits m1 m2) 0 0) in
        Ok (digits_value digits, moment, technology_for more))%res
     else Raise ValueError,
     remark_about extra).
Proof.
  intros Haddr Htexts Hfirst Hh1 Hh2 Hm1 Hm2.
  unfold showtime_of_link.
  rewrite (showtime_address_id w _ _ Haddr), io_bind_lift_ok.
  rewrite Htexts.
  destruct (showtime_items_technology first more) as (item1 & H1 & H0 & Ht).
  cbv zeta in H1, H0, Ht. rewrite H1, io_bind_lift_ok, H0, io_bind_lift_ok, Hfirst.
  rewrite (showtime_time_regex_reads w h1 h2 m1 m2 extra Hh1 Hh2 Hm1 Hm2
             (squeeze_single_line _ _ _ Hfirst)).
  cbn [py_getitem nth_error]. rewrite io_bind_lift_ok.
  assert (Hid : py_int w digits = digits_value digits).
  { apply py_int_digits. destruct Haddr as [Hnum _]. unfold ascii_number in Hnum.
    apply andb_prop in Hnum as [_ H]. exact H. }
  match goal with |- io_bind _ ?K = _ => set (rest := K) end.
  assert (Hrest : rest tt
                  = (if ((two_digits h1 h2 <=? 23) && (two_digits m1 m2 <=? 59))%Z
                     then
                       (let* moment :=
                          datetime_to_utc
                            (mkdatetime (date_of showtime_date) (two_digits h1 h2)
                               (two_digits m1 m2) 0 0) in
                        Ok (digits_value digits, moment, technology_for more))%res
                     else Raise ValueError, [])).
  { subst rest. cbv beta. rewrite io_bind_lift_ok.
    rewrite (strptime_HM_time w h1 h2 m1 m2 Hh1 Hh2 Hm1 Hm2), Ht, Hid.
    unfold combine.
    destruct ((two_digits h1 h2 <=? 23) && (two_digits m1 m2 <=? 59))%Z;
      unfold io_ret, io_lift; cbn [io_bind fst snd]; [|reflexivity].
    destruct (datetime_to_utc _); reflexivity. }
  unfold remark_about.
  destruct (nonempty extra); unfold io_emit, io_ret; cbn [io_bind]; rewrite Hrest;
    reflexivity.
Qed.

Lemma showtime_of_link_reads_witness :
  showtime_of_link offline no_shift (PDate (mkdate 2024 6 10)) popup_showtime
  = (Ok (4567%Z, mkdatetime (mkdate 2024 6 10) 22 45 0 0, py "IMAX3D"),
     [EvPrint [py "Something special about this showtime: Grotezaal"]])
  /\ showtime_of_link offline no_shift (PDate (mkdate 2024 6 10)) late_showtime
     = (Raise ValueError, []).
Proof.
  split.
  - apply (showtime_of_link_reads offline no_shift (PDate (mkdate 2024 6 10)) popup_showtime
             (py "4567") (py "22:45 Grote zaal") [py "IMAX 3D"] 50 50 52 53 (py "Grotezaal"));
      try reflexivity.
    split; [reflexivity|]. right.
    exists (py "?sign=30&UserCenterID=1"), (py "lang=nl"). repeat split; reflexivity.
  - apply (showtime_of_link_reads offline no_shift (PDate (mkdate 2024 6 10)) late_showtime
             (py "77") (py "24:00") [] 50 52 48 48 []);
      try reflexivity.
    split; [reflexivity|]. left. reflexivity.
Defined.

(** The time pattern needs a decimal digit first. *)
Lemma showtime_time_regex_other w (s : pystr) :
  no_leading_digit w s = true -> re_match (showtime_time_regex w) s = None.
Proof.
  intros H. unfold re_match, re_match_rest, showtime_time_regex, RTimes.
  cbn [rseq fold_right rmatch]. destruct s as [|c s]; [reflexivity|].
  cbn [no_leading_digit] in H. apply negb_true_iff in H.
  cbn [rep_match]. rewrite H. reflexivity.
Qed.

Lemma showtime_days_loop_headers (w : World) (g : globals)
    (datetime_to_utc : datetime -> res datetime) (clock : nat -> datetime)
    (showtime_days : list showtime_row) (n : nat) (acc result : list showtime_tuple)
    (evs : list event) :
  showtime_days_loop w g datetime_to_utc clock showtime_days n acc = (Ok result, evs) ->
  Forall (fun row => row_th_texts row <> []) showtime_days.
Proof.
  revert n acc evs. induction showtime_days as [|row rest IH]; intros n acc evs H;
    [constructor|].
  cbn [showtime_days_loop] in H.
  destruct (1 <? length (row_th_texts row))%nat eqn:Hth.
  - constructor; [|exact (IH _ _ _ H)].
    destruct (row_th_texts row); [discriminate Hth|discriminate].
  - apply io_bind_ok in H as (day_name & e1 & e2 & Hname & H & _).
    apply io_bind_ok in H as (showtime_date & e3 & e4 & _ & H & _).
    apply io_bind_ok in H as (acc' & e5 & e6 & _ & H & _).
    constructor; [|exact (IH _ _ _ H)].
    destruct (row_th_texts row); [discriminate Hname|discriminate].
Qed.

(** X25: what makes the parser fail. A link on sale raises [IndexError]
    when it has no text, [AttributeError] when its address neither contains
    'javascript:openPopup' nor starts with '/tickets/start/' and when its
    first text, white space removed, does not start with a decimal digit;
    a first row without header text raises [IndexError], and the
    parser returns only when no row is without one. Nothing is printed
    before these, and the showtimes read so far are lost with the
    exception. *)
Theorem showtime_failures (w : World) (g : globals)
    (datetime_to_utc : datetime -> res datetime) (clock : nat -> datetime) :
  (forall showtime_date showtime digits,
     showtime_address (link_href showtime) digits -> link_span_texts showtime = [] ->
     showtime_of_link w datetime_to_utc showtime_date showtime = (Raise IndexError, []))
  /\ (forall showtime_date showtime,
        py_contains (py "javascript:openPopup") (link_href showtime) = false ->
        starts_with (py "/tickets/start/") (link_href showtime) = false ->
        showtime_of_link w datetime_to_utc showtime_date showtime
        = (Raise AttributeError, []))
  /\ (forall showtime_date showtime digits first more,
        showtime_address (link_href showtime) digits ->
        link_span_texts showtime = first :: more ->
        no_leading_digit w (squeeze first) = true ->
        showtime_of_link w datetime_to_utc showtime_date showtime
        = (Raise AttributeError, []))
  /\ (forall movie_page_doc cinema rows row rest,
        xpath_rows movie_page_doc (schedule_rows_query cinema) = Ok rows ->
        List.filter day_row rows = row :: rest -> row_th_texts row = [] ->
        get_movie_showtimes_for_cinema w g datetime_to_utc clock movie_page_doc cinema
        = (Raise IndexError, []))
  /\ (forall movie_page_doc cinema rows showtimes evs,
        xpath_rows movie_page_doc (schedule_rows_query cinema) = Ok rows ->
        get_movie_showtimes_for_cinema w g datetime_to_utc clock movie_page_doc cinema
        = (Ok showtimes, evs) ->
        Forall (fun row => row_th_texts row <> []) rows).
Proof.
  split; [|split; [|split; [|split]]].
  - intros d showtime digits Haddr Htexts. unfold showtime_of_link.
    rewrite (showtime_address_id w _ _ Haddr), io_bind_lift_ok, Htexts. reflexivity.
  - intros d showtime Hpop Hstart. unfold showtime_of_link.
    rewrite Hpop. unfold match_group_1. rewrite (tickets_regex_other w _ Hstart).
    reflexivity.
  - intros d showtime digits first more Haddr Htexts Hfirst. unfold showtime_of_link.
    rewrite (showtime_address_id w _ _ Haddr), io_bind_lift_ok, Htexts.
    destruct (showtime_items_technology first more) as (item1 & H1 & H0 & _).
    cbv zeta in H1, H0. rewrite H1, io_bind_lift_ok, H0, io_bind_lift_ok.
    rewrite (showtime_time_regex_other w _ Hfirst). reflexivity.
  - intros doc cinema rows row rest Hrows Hfilter Hth.
    unfold get_movie_showtimes_for_cinema. rewrite Hrows. unfold io_lift. cbn [io_bind].
    rewrite showtime_days_loop_bookable. unfold bookable_rows. rewrite Hfilter.
    cbn [map showtime_days_loop bookable row_th_texts]. rewrite Hth. reflexivity.
  - intros doc cinema rows showtimes evs Hrows H.
    unfold get_movie_showtimes_for_cinema in H. rewrite Hrows in H.
    unfold io_lift in H. cbn [io_bind] in H.
    destruct (showtime_days_loop w g datetime_to_utc clock rows 0 []) as [r e] eqn:Hloop.
    injection H as -> _.
    exact (showtime_days_loop_headers w g datetime_to_utc clock rows 0 [] _ _ Hloop).
Qed.

Lemma showtime_failures_witness :
  showtime_of_link offline no_shift (PDate (mkdate 2024 6 10)) bare_showtime
  = (Raise IndexError, [])
  /\ showtime_of_link offline no_shift (PDate (mkdate 2024 6 10)) absolute_showtime
     = (Raise AttributeError, [])
  /\ showtime_of_link offline no_shift (PDate (mkdate 2024 6 10)) untimed_showtime
     = (Raise AttributeError, [])
  /\ get_movie_showtimes_for_cinema offline june_10 no_shift (fun _ => noon_june_10)
       {| schedule_table_ids := [];
          xpath_rows := fun _ => Ok ({| row_th_texts := []; row_links := [] |}
                                     :: arena_rows) |}
       (py "arena")
     = (Raise IndexError, [])
  /\ Forall (fun row => row_th_texts row <> []) arena_rows.
Proof.
  destruct (showtime_failures offline june_10 no_shift (fun _ => noon_june_10))
    as (Hbare & Haddr & Htime & Hrow & Hheaders).
  split; [|split; [|split; [|split]]].
  - apply (Hbare _ bare_showtime (py "77")); [|reflexivity].
    split; [reflexivity|]. left. reflexivity.
  - apply Haddr; reflexivity.
  - apply (Htime _ untimed_showtime (py "77") (py "Nacht") [py "20:30"]);
      [|reflexivity|reflexivity].
    split; [reflexivity|]. left. reflexivity.
  - apply (Hrow _ (py "arena") ({| row_th_texts := []; row_links := [] |} :: arena_rows)
             {| row_th_texts := []; row_links := [] |}
             (List.filter day_row arena_rows)); reflexivity.
  - apply (Hheaders arena_doc (py "arena") arena_rows arena_showtimes []);
      [reflexivity|vm_compute; reflexivity].
Defined.

(** ** Cinemas *)

Lemma cinema_of_id_split (id name : pystr) :
  cinema_of_id id name -> py_getitem (py_split (py "_") id) 1 = Ok name.
Proof.
  intros (prefix & tail & -> & Hp & Hn & Ht). unfold py_split.
  change (py "_") with [95%N]. rewrite split_char_aux_first by exact Hp.
  destruct Ht as [->|[more ->]].
  - rewrite app_nil_r, split_char_aux_none by exact Hn. reflexivity.
  - rewrite split_char_aux_first by exact Hn. reflexivity.
Qed.

Lemma res_map_index_error (ids : list pystr) (id : pystr) :
  In id ids -> underscore_free id = true ->
  res_map (fun cinema => py_getitem (py_split (py "_") cinema) 1) ids = Raise IndexError.
Proof.
  intros Hin Hfree. induction ids as [|c ids IH]; [destruct Hin|].
  cbn [res_map].
  destruct Hin as [->|Hin].
  - unfold py_split. change (py "_") with [95%N].
    rewrite split_char_aux_none by exact Hfree. reflexivity.
  - rewrite (IH Hin). unfold py_getitem.
    destruct (nth_error _ 1); reflexivity.
Qed.

(** X26: the cinemas of a page. Every id of a schedule table gives the
    part between its first underscore and the next one, or the end, in page
    order: 'Schedule_arena' gives 'arena', and a name with an underscore is
    cut ('Schedule_den_haag' gives 'den'). One id without underscore makes
    the whole call raise [IndexError]. *)
Theorem get_movie_cinemas_names (movie_page_doc : schedule_doc) :
  (forall names,
     Forall2 cinema_of_id (schedule_table_ids movie_page_doc) names ->
     get_movie_cinemas movie_page_doc = Ok names)
  /\ (forall id,
        In id (schedule_table_ids movie_page_doc) -> underscore_free id = true ->
        get_movie_cinemas movie_page_doc = Raise IndexError).
Proof.
  unfold get_movie_cinemas. split.
  - intros names Hall. induction Hall as [|id name ids names Hid Hall IH]; [reflexivity|].
    cbn [res_map]. rewrite (cinema_of_id_split id name Hid). cbn [res_bind].
    rewrite IH. reflexivity.
  - intros id Hin Hfree. exact (res_map_index_error _ id Hin Hfree).
Qed.

Lemma get_movie_cinemas_names_witness :
  get_movie_cinemas (tables_doc [py "Schedule_arena"; py "Schedule_den_haag"])
  = Ok [py "arena"; py "den"]
  /\ get_movie_cinemas (tables_doc [py "Schedule_arena"; py "Schedule"; py "Schedule_delft"])
     = Raise IndexError.
Proof.
  split.
  - apply (proj1 (get_movie_cinemas_names _)).
    constructor; [|constructor; [|constructor]].
    + exists (py "Schedule"), []. repeat split; try reflexivity. left. reflexivity.
    + exists (py "Schedule"), (py "_haag"). repeat split; try reflexivity.
      right. exists (py "haag"). reflexivity.
  - apply (proj2 (get_movie_cinemas_names _) (py "Schedule")); [|reflexivity].
    right. left. reflexivity.
Defined.

(** ** Identifiers: [str(int(s))] *)

Lemma uint_of_digits_string (s : pystr) :
  forallb ascii_digit s = true -> py (NilEmpty.string_of_uint (uint_of_digits s)) = s.
Proof.
  induction s as [|c s IH]; [reflexivity|]. cbn [forallb]. intros H.
  apply andb_prop in H as [Hc H]. specialize (IH H).
  digit_cases Hc; cbn [uint_of_digits fold_right digit_of NilEmpty.string_of_uint];
    fold (uint_of_digits s); change (py (String ?a ?r)) with (N_of_ascii a :: py r);
    rewrite IH; reflexivity.
Qed.

Lemma Z_to_int_of_N (n : N) : Z.to_int (Z.of_N n) = Decimal.Pos (N.to_uint n).
Proof. destruct n; reflexivity. Qed.

(** The number a string of ASCII digits spells, as the standard library
    reads its numeral. *)
Lemma digits_value_uint (s : pystr) :
  forallb ascii_digit s = true -> digits_value s = Z.of_N (Pos.of_uint (uint_of_digits s)).
Proof.
  intros H. rewrite <- (py_int_digits offline s H). unfold py_int.
  assert (Hl : py_lstrip s = s).
  { destruct s as [|c s]; [reflexivity|]. apply lstrip_number. exact H. }
  rewrite Hl. rewrite <- (uint_of_digits_string s H) at 1.
  pose proof (digits_of_uint offline (uint_of_digits s) Decimal.Nil) as Hd.
  change (Decimal.revapp (uint_of_digits s) Decimal.Nil)
    with (Decimal.rev (uint_of_digits s)) in Hd.
  rewrite <- of_uint_alt in Hd. exact Hd.
Qed.

(** [str(int(s))] gives back a numeral without leading zero. *)
Lemma py_str_of_digits_value (digits : pystr) :
  ascii_number digits = true -> starts_with (py "0") digits = false ->
  py_str_of_Z (digits_value digits) = digits.
Proof.
  intros Hnum Hlead. unfold ascii_number in Hnum. apply andb_prop in Hnum as [Hne Hd].
  rewrite (digits_value_uint digits Hd). unfold py_str_of_Z.
  rewrite Z_to_int_of_N, to_of.
  rewrite <- (uint_of_digits_string digits Hd) at 2.
  destruct digits as [|c digits]; [discriminate Hne|].
  cbn [forallb] in Hd. apply andb_prop in Hd as [Hc _].
  digit_cases Hc; [discriminate Hlead|reflexivity..].
Qed.

(** Leading zeros do not count. *)
Lemma digits_value_zeros (zeros digits : pystr) :
  zeros_only zeros = true -> digits_value (zeros ++ digits) = digits_value digits.
Proof.
  intros Hz. unfold digits_value. rewrite fold_left_app.
  replace (fold_left _ zeros 0%Z) with 0%Z; [reflexivity|].
  induction zeros as [|c zeros IH]; [reflexivity|]. cbn [zeros_only forallb] in Hz.
  apply andb_prop in Hz as [Hc Hz]. apply N.eqb_eq in Hc. subst c. cbn [fold_left].
  exact (IH Hz).
Qed.

(** X27: the identifier goes through [int], so the zeros at its front are
    lost. When the first result of the search links to '/title/tt' + zeros
    + digits + '/?ref_=fn_ft_tt_1' (digits not starting with 0), the
    resolver asks for the page http://www.imdb.com/title/tt + digits and the
    address reported for the movie is http://imdb.com/title/tt + digits:
    both without the zeros. *)
Theorem get_movie_imdb_rating_leading_zeros (w : World) (title : pyval) (doc movie : element)
    (rest : list element) (zeros digits : pystr) :
  search_page w title doc ->
  xpath_elements doc XFindTitles = movie :: rest ->
  xpath_string movie XFirstResultHref
  = py "/title/tt" ++ (zeros ++ digits) ++ py "/?ref_=fn_ft_tt_1" ->
  zeros_only zeros = true -> ascii_number digits = true ->
  starts_with (py "0") digits = false ->
  snd (get_movie_imdb_rating w {[ "title"%string := title ]})
  = [search_request title; EvRequest (py "http://www.imdb.com/title/tt" ++ digits) []]
  /\ (forall imdb_id imdb_rating evs,
        get_movie_imdb_rating w {[ "title"%string := title ]}
        = (Ok (imdb_id, imdb_rating), evs) ->
        imdb_id = PInt (digits_value digits)
        /\ imdb_url (Some imdb_id) = py "http://imdb.com/title/tt" ++ digits).
Proof.
  intros Hpage Htitles Hlink Hz Hnum Hlead.
  assert (Hall : forallb ascii_digit (zeros ++ digits) = true).
  { rewrite forallb_app. unfold ascii_number in Hnum. apply andb_prop in Hnum as [_ ->].
    rewrite andb_true_r. clear -Hz. induction zeros as [|c zeros IH]; [reflexivity|].
    cbn [zeros_only forallb] in *. apply andb_prop in Hz as [Hc Hz].
    apply N.eqb_eq in Hc. subst c. exact (IH Hz). }
  assert (Hid : get_imdb_id_by_title w title
                = (Ok (digits_value digits), [search_request title])).
  { apply io_pair; [|apply get_imdb_id_by_title_events].
    rewrite (get_imdb_id_by_title_unfold w title doc Hpage), Htitles, Hlink.
    rewrite imdb_link_regex_reads;
      [|destruct zeros, digits; try discriminate; discriminate Hnum
       |apply digits_decimal; exact Hall].
    cbn [py_getitem nth_error res_bind].
    rewrite (py_int_digits w _ Hall), (digits_value_zeros zeros digits Hz). reflexivity. }
  assert (Hstr : py_str (PInt (digits_value digits)) = digits)
    by exact (py_str_of_digits_value digits Hnum Hlead).
  assert (Hkw : ({[ "title"%string := title ]} : kwargs) !! "title"%string = Some title).
  { rewrite lookup_singleton. destruct (decide _); [reflexivity|congruence]. }
  unfold get_movie_imdb_rating. rewrite Hkw, Hid.
  cbn [io_try io_bind io_ret app]. rewrite Hstr.
  pose proof (do_imdb_request_events w (py "title/tt" ++ digits) []) as Hev.
  destruct (do_imdb_request w (py "title/tt" ++ digits) []) as [[page|e] evs1];
    cbn [snd] in Hev; subst evs1; cbn [io_bind snd].
  2:{ split; [reflexivity|]. intros ? ? ? [=]. }
  unfold io_lift. destruct (lh_fromstring w page) as [lh_doc|e]; cbn [io_bind snd].
  2:{ split; [reflexivity|]. intros ? ? ? [=]. }
  assert (Hurl : imdb_url (Some (PInt (digits_value digits)))
                 = py "http://imdb.com/title/tt" ++ digits)
    by (unfold imdb_url; rewrite Hstr; reflexivity).
  destruct (xpath_strings lh_doc XRatingValue) as [|first ?]; cbn [io_bind io_ret snd app].
  - split; [reflexivity|]. intros ? ? ? [= <- _ _]. split; [reflexivity|exact Hurl].
  - destruct (py_float w (py_strip first)) as [r|e]; cbn [io_bind snd app].
    + split; [reflexivity|]. intros ? ? ? [= <- _ _]. split; [reflexivity|exact Hurl].
    + split; [reflexivity|]. intros ? ? ? [=].
Qed.

Lemma get_movie_imdb_rating_leading_zeros_witness :
  search_page (small_web [] amelie [py "9.3"]) (PStr amelie)
    (titles_page (py "/title/tt0211915/?ref_=fn_ft_tt_1"))
  /\ snd (get_movie_imdb_rating (small_web [] amelie [py "9.3"])
            {[ "title"%string := PStr amelie ]})
     = [search_request (PStr amelie);
        EvRequest (py "http://www.imdb.com/title/tt211915") []]
  /\ (forall imdb_id imdb_rating evs,
        get_movie_imdb_rating (small_web [] amelie [py "9.3"])
          {[ "title"%string := PStr amelie ]}
        = (Ok (imdb_id, imdb_rating), evs) ->
        imdb_id = PInt 211915
        /\ imdb_url (Some imdb_id) = py "http://imdb.com/title/tt211915").
Proof.
  assert (Hpage : search_page (small_web [] amelie [py "9.3"]) (PStr amelie)
                    (titles_page (py "/title/tt0211915/?ref_=fn_ft_tt_1"))).
  { exists {| status_code := 200; text := py "find" |}. repeat split. }
  split; [exact Hpage|].
  exact (get_movie_imdb_rating_leading_zeros (small_web [] amelie [py "9.3"]) (PStr amelie)
           _ _ [] (py "0") (py "211915") Hpage eq_refl eq_refl eq_refl eq_refl eq_refl).
Defined.

(** ** Detail worker: the shape of the URL *)

Lemma poster_url_parts (href : pystr) :
  poster_url href = py "http://www" ++ 46%N :: py "pathe" ++ 46%N :: py "nl" ++ href.
Proof. reflexivity. Qed.

(** The pattern of a detail URL, after the host name. *)
Lemma movie_url_regex_host w (href : pystr) :
  re_match_rest (movie_url_regex w) (poster_url href)
  = rmatch (RSeq (RLit "nl/film/")
              (rseq [RGroup (RPlus (isdecimal w)); RChar 47; RGroup (RStar dot); REnd]))
      (py "nl" ++ href) [] (fun rest caps => Some (caps, rest)).
Proof.
  rewrite poster_url_parts. unfold re_match_rest, movie_url_regex.
  cbn [rseq fold_right].
  repeat (cbn [rmatch]; unfold RLit at 1;
          rewrite rmatch_literal, starts_with_app, skipn_app_length;
          cbn [rmatch]; change (dot 46) with true; cbv iota).
  reflexivity.
Qed.

Lemma movie_url_regex_reads w (digits code : pystr) :
  ascii_number digits = true -> single_line code = true ->
  re_match (movie_url_regex w) (poster_url (py "/film/" ++ digits ++ 47%N :: code))
  = Some [digits; code].
Proof.
  intros Hnum Hcode. destruct (ascii_number_decimal w digits Hnum) as [Hne Hdec].
  unfold re_match. rewrite movie_url_regex_host.
  change (py "nl" ++ py "/film/" ++ digits ++ 47%N :: code)
    with (py "nl/film/" ++ digits ++ 47%N :: code).
  cbn [rmatch]. unfold RLit at 1.
  rewrite rmatch_literal, starts_with_app, skipn_app_length.
  unfold RPlus, RStar, RChar. cbn [rseq fold_right rmatch].
  rewrite (rep_plus_greedy (X:=list pystr * pystr) (isdecimal w) _ digits (47%N :: code)
             ([digits; code], [])); [reflexivity|exact Hne|exact Hdec| |].
  - change (47 =? 47)%N with true. cbv iota.
    rewrite (rep_all (X:=list pystr * pystr) dot _ 0 code ([digits; code], []));
      [reflexivity|lia|lia|exact Hcode|].
    rewrite firstn_consumed. cbn [length]. rewrite Nat.sub_0_r, firstn_all. reflexivity.
  - intros t u Heq Hnt Ht. destruct t as [|c t]; [congruence|].
    injection Heq as <- _. discriminate Ht.
Qed.

Lemma movie_url_regex_other w (href : pystr) :
  starts_with (py "/film/") href = false
  \/ (exists rest, href = py "/film/" ++ rest
                   /\ (no_leading_digit w rest = true \/ slash_free rest = true)) ->
  re_match (movie_url_regex w) (poster_url href) = None.
Proof.
  intros H. unfold re_match. rewrite movie_url_regex_host.
  cbn [rmatch]. unfold RLit at 1. rewrite rmatch_literal.
  destruct H as [H|(rest & -> & H)].
  - change (starts_with (py "nl/film/") (py "nl" ++ href))
      with (starts_with (py "/film/") href).
    rewrite H. reflexivity.
  - change (py "nl" ++ py "/film/" ++ rest) with (py "nl/film/" ++ rest).
    rewrite starts_with_app, skipn_app_length.
    unfold RPlus, RChar. cbn [rseq fold_right rmatch].
    match goal with |- option_map fst ?m = None => destruct m as [x|] eqn:Hm end;
      [|reflexivity].
    apply rep_inv in Hm as (t & u & -> & Ht & Hlo & _ & Hu). exfalso.
    destruct H as [H|H].
    + destruct t as [|c t]; [cbn in Hlo; lia|].
      cbn [app no_leading_digit forallb] in *. apply andb_prop in Ht as [Hc _].
      rewrite Hc in H. discriminate H.
    + destruct u as [|c u]; [discriminate Hu|].
      unfold slash_free in H. rewrite forallb_app in H. apply andb_prop in H as [_ H].
      cbn [forallb] in H. apply andb_prop in H as [Hc _].
      apply negb_true_iff in Hc. rewrite Hc in Hu. discriminate Hu.
Qed.

Lemma prog_bind_lift_ok {A B} (a : A) (k : A -> prog B) (rl : list result_record) :
  prog_bind (prog_io (io_lift (Ok a))) k rl = k a rl.
Proof.
  unfold prog_bind, prog_io, io_lift. cbn [fst snd].
  destruct (k a rl) as [[r rl2] t2]. reflexivity.
Qed.

Lemma prog_bind_emit {A} (ev : event) (k : unit -> prog A) (rl : list result_record) :
  exists r rl' evs, prog_bind (prog_io (io_emit ev)) k rl = (r, rl', ev :: evs).
Proof.
  unfold prog_bind, prog_io, io_emit. cbn [fst snd].
  destruct (k tt rl) as [[r rl2] t2]. exists r, rl2, t2. reflexivity.
Qed.

(** X28: the URLs the detail worker can work on. For the URL that the
    listing worker makes of a poster's link: when the link is '/film/' +
    digits + '/' + anything on one line, the worker goes on to request the
    page, its first operation; when the link does not start with '/film/',
    or has no decimal digit right after it, or no slash after '/film/', the
    body of the loop raises [AttributeError] before any request, without
    acknowledging the URL, and leaves the result list as it is. *)
Theorem process_movie_item_url_shape (w : World) (href : pystr)
    (rl : list result_record) :
  (forall digits code,
     href = py "/film/" ++ digits ++ 47%N :: code ->
     ascii_number digits = true -> single_line code = true ->
     exists r rl' evs,
       process_movie_item w (poster_url href) rl
       = (r, rl', EvRequest (poster_url href) [] :: evs))
  /\ (starts_with (py "/film/") href = false
      \/ (exists rest, href = py "/film/" ++ rest
                       /\ (no_leading_digit w rest = true \/ slash_free rest = true)) ->
      process_movie_item w (poster_url href) rl = (Raise AttributeError, rl, [])).
Proof.
  split.
  - intros digits code -> Hnum Hcode.
    unfold process_movie_item. rewrite (movie_url_regex_reads w digits code Hnum Hcode).
    rewrite prog_bind_lift_ok. apply prog_bind_emit.
  - intros H. unfold process_movie_item. rewrite (movie_url_regex_other w href H).
    reflexivity.
Qed.

Lemma process_movie_item_url_shape_witness :
  (exists r rl' evs,
     process_movie_item offline (poster_url (py "/film/21915/amelie")) []
     = (r, rl', EvRequest (py "http://www.pathe.nl/film/21915/amelie") [] :: evs))
  /\ process_movie_item offline (py "http://www.pathe.nl/films/specials") []
     = (Raise AttributeError, [], [])
  /\ process_movie_item offline (py "http://www.pathe.nl/film/21915") []
     = (Raise AttributeError, [], []).
Proof.
  split; [|split].
  - exact (proj1 (process_movie_item_url_shape offline (py "/film/21915/amelie") [])
             (py "21915") (py "amelie") eq_refl eq_refl eq_refl).
  - apply (proj2 (process_movie_item_url_shape offline (py "/films/specials") [])).
    left. reflexivity.
  - apply (proj2 (process_movie_item_url_shape offline (py "/film/21915") [])).
    right. exists (py "21915"). split; [reflexivity|]. right. reflexivity.
Defined.
